(** * libevent utility layer: a shallow embedding of evutil_time.c,
      evutil.c, arc4random.c and evutil_rand.c, with the timeout heap the
      design document describes.

    C integers are modelled as [Z] with the wrap-around of the LP64 data
    model written out, memory buffers as lists of byte values, the
    process-wide statics of a translation unit as a record that every
    operation receives and returns, and the operating system as an explicit
    state (the descriptor table) together with a script of the outcomes the
    kernel is free to choose. *)

From Stdlib Require Import ZArith ZifyNat Lia List Bool Ascii String.
From stdpp Require Import base list.

Local Open Scope Z_scope.

(** ** C integer types of the LP64 data model *)

Module CInt.

Definition wrap (bits : Z) (z : Z) : Z :=
  (z + 2 ^ (bits - 1)) mod 2 ^ bits - 2 ^ (bits - 1).

Definition LONG_MAX : Z := 2 ^ 63 - 1.
Definition LONG_MIN : Z := - 2 ^ 63.
Definition INT_MAX : Z := 2 ^ 31 - 1.
Definition INT_MIN : Z := - 2 ^ 31.

(** [long] and [int] arithmetic results, reduced to the type's range. *)
Definition wrap_long (z : Z) : Z := wrap 64 z.
Definition wrap_int (z : Z) : Z := wrap 32 z.

Definition in_long (z : Z) : Prop := LONG_MIN <= z <= LONG_MAX.
Definition in_int (z : Z) : Prop := INT_MIN <= z <= INT_MAX.

(** [unsigned char] arithmetic. *)
Definition u8 (z : Z) : Z := z mod 256.

End CInt.

(** ** evutil_time.c *)

Module EvutilTime.
Import CInt.

(** [struct timeval]: both fields are [long] on this platform. *)
Record timeval : Type := mk_timeval { tv_sec : Z; tv_usec : Z }.

Definition MAX_SECONDS_IN_MSEC_LONG : Z := Z.quot (LONG_MAX - 999) 1000.

(** [evutil_tv_to_msec_]: C division truncates toward zero ([Z.quot]); every
    intermediate [long] result is wrapped. *)
Definition evutil_tv_to_msec_ (tv : timeval) : Z :=
  if (tv_usec tv >? 1000000) || (tv_sec tv >? MAX_SECONDS_IN_MSEC_LONG)
  then -1
  else wrap_long (wrap_long (tv_sec tv * 1000)
                  + Z.quot (wrap_long (tv_usec tv + 999)) 1000).

(** The interval is one the function declares too large to represent. *)
Definition too_large (tv : timeval) : Prop :=
  tv_usec tv > 1000000 \/ tv_sec tv > MAX_SECONDS_IN_MSEC_LONG.

(** The property claimed of every input: the result is a non-negative
    count, or it is -1 and the interval is too large. *)
Definition msec_budget_ok (tv : timeval) : Prop :=
  0 <= evutil_tv_to_msec_ tv
  \/ (evutil_tv_to_msec_ tv = -1 /\ too_large tv).

(** [evutil_timercmp(tvp, uvp, <)] and its non-strict companion. *)
Definition timercmp_lt (t u : timeval) : bool :=
  if tv_sec t =? tv_sec u then tv_usec t <? tv_usec u
  else tv_sec t <? tv_sec u.

Definition timercmp_ge (t u : timeval) : bool :=
  if tv_sec t =? tv_sec u then tv_usec t >=? tv_usec u
  else tv_sec t >=? tv_sec u.

(** [timeradd] and [timersub] of <sys/time.h>, as the C library defines
    them: field-wise with one carry or borrow of a million microseconds. *)
Definition timeradd (a b : timeval) : timeval :=
  let s := wrap_long (tv_sec a + tv_sec b) in
  let u := wrap_long (tv_usec a + tv_usec b) in
  if u >=? 1000000 then mk_timeval (wrap_long (s + 1)) (wrap_long (u - 1000000))
  else mk_timeval s u.

Definition timersub (a b : timeval) : timeval :=
  let s := wrap_long (tv_sec a - tv_sec b) in
  let u := wrap_long (tv_usec a - tv_usec b) in
  if u <? 0 then mk_timeval (wrap_long (s - 1)) (wrap_long (u + 1000000))
  else mk_timeval s u.

(** [struct evutil_monotonic_timer] (time-internal.h). *)
Record evutil_monotonic_timer : Type := mk_timer {
  monotonic_clock : Z;
  adjust_monotonic_clock : timeval;
  last_time : timeval
}.

(** [adjust_monotonic_time]: returns the updated timer and the value left
    in [*tv]. *)
Definition adjust_monotonic_time (base : evutil_monotonic_timer) (tv : timeval)
  : evutil_monotonic_timer * timeval :=
  let tv1 := timeradd tv (adjust_monotonic_clock base) in
  if timercmp_lt tv1 (last_time base) then
    let adjust := timersub (last_time base) tv1 in
    let adj' := timeradd adjust (adjust_monotonic_clock base) in
    (mk_timer (monotonic_clock base) adj' (last_time base), last_time base)
  else
    (mk_timer (monotonic_clock base) (adjust_monotonic_clock base) tv1, tv1).

(** What the clock system calls answer on one query: [gettimeofday] fills a
    [timeval] or fails; [clock_gettime] fills a [timespec] (seconds,
    nanoseconds) or fails. *)
Record clock_reading : Type := mk_reading {
  rd_gettimeofday : option timeval;
  rd_clock_gettime : Z -> option (Z * Z)
}.

(** [evutil_gettime_monotonic_]: the return code, the timer afterwards, and
    the value stored through [tp] ([None] when [*tp] is not written by our
    code). *)
Definition evutil_gettime_monotonic_ (base : evutil_monotonic_timer)
    (env : clock_reading) : Z * evutil_monotonic_timer * option timeval :=
  if monotonic_clock base <? 0 then
    match rd_gettimeofday env with
    | None => (-1, base, None)
    | Some raw =>
        let '(base', tv) := adjust_monotonic_time base raw in
        (0, base', Some tv)
    end
  else
    match rd_clock_gettime env (monotonic_clock base) with
    | None => (-1, base, None)
    | Some (s, ns) => (0, base, Some (mk_timeval s (Z.quot ns 1000)))
    end.

(** Feeding a sequence of readings through one timer, collecting the times
    of the successful queries in order. *)
Fixpoint run_queries (base : evutil_monotonic_timer) (envs : list clock_reading)
  : evutil_monotonic_timer * list timeval :=
  match envs with
  | [] => (base, [])
  | env :: rest =>
      let '(_, base', out) := evutil_gettime_monotonic_ base env in
      let '(base'', outs) := run_queries base' rest in
      (base'', match out with Some tv => tv :: outs | None => outs end)
  end.

(** Every element is at least [lo] and each is at least its predecessor. *)
Fixpoint nondecreasing_from (lo : timeval) (l : list timeval) : Prop :=
  match l with
  | [] => True
  | t :: rest => timercmp_ge t lo = true /\ nondecreasing_from t rest
  end.

(** Flags of [evutil_configure_monotonic_time] (event2/util.h). *)
Definition EV_MONOT_PRECISE : Z := 1.
Definition EV_MONOT_FALLBACK : Z := 2.

Section Configure.
(** The clock identifiers come from <time.h>; the code itself checks that
    they are not negative, so they stay symbolic here. *)
Variables CLOCK_MONOTONIC CLOCK_MONOTONIC_COARSE : Z.

Definition set_clock (base : evutil_monotonic_timer) (id : Z) :=
  mk_timer id (adjust_monotonic_clock base) (last_time base).

Definition probe_ok (env : clock_reading) (id : Z) : bool :=
  match rd_clock_gettime env id with Some _ => true | None => false end.

(** [evutil_configure_monotonic_time_], with CLOCK_MONOTONIC_COARSE
    defined.  [env1] answers the first [clock_gettime] probe and [env2]
    the second.  [event_errx] does not return: the result is [None]. *)
Definition evutil_configure_monotonic_time_ (base : evutil_monotonic_timer)
    (flags : Z) (env1 env2 : clock_reading)
  : option (Z * evutil_monotonic_timer) :=
  let precise := Z.land flags EV_MONOT_PRECISE in
  let fallback := Z.land flags EV_MONOT_FALLBACK in
  if CLOCK_MONOTONIC_COARSE <? 0 then None
  else if (precise =? 0) && (fallback =? 0)
          && probe_ok env1 CLOCK_MONOTONIC_COARSE
  then Some (0, set_clock base CLOCK_MONOTONIC_COARSE)
  else if (fallback =? 0) && probe_ok env2 CLOCK_MONOTONIC
  then Some (0, set_clock base CLOCK_MONOTONIC)
  else if CLOCK_MONOTONIC <? 0 then None
  else Some (0, set_clock base (-1)).

(** No probe that the flags allow finds a working monotonic clock. *)
Definition no_clock_usable (flags : Z) (env1 env2 : clock_reading) : Prop :=
  probe_ok env2 CLOCK_MONOTONIC = false
  /\ (Z.land flags EV_MONOT_PRECISE <> 0
      \/ probe_ok env1 CLOCK_MONOTONIC_COARSE = false).
End Configure.

End EvutilTime.

(** ** The descriptor table and the system calls evutil.c makes *)

Module Fd.

(** Constants of <fcntl.h>.  Their values belong to the platform; the code
    relies only on each flag being a positive mask and on O_NONBLOCK being
    one of the status flags F_SETFL may change. *)
Class FcntlFlags : Type := {
  O_NONBLOCK : Z;
  O_CLOEXEC : Z;
  FD_CLOEXEC : Z;
  SETFL_MASK : Z;
  O_NONBLOCK_pos : 0 < O_NONBLOCK;
  O_CLOEXEC_pos : 0 < O_CLOEXEC;
  FD_CLOEXEC_pos : 0 < FD_CLOEXEC;
  O_NONBLOCK_settable : Z.land O_NONBLOCK SETFL_MASK = O_NONBLOCK
}.

(** An open descriptor: its file status flags (F_GETFL) and its descriptor
    flags (F_GETFD). *)
Record open_file : Type := mk_open_file { f_flags : Z; fd_flags : Z }.

(** The process's descriptor table, indexed by descriptor number; a closed
    slot is [None]. *)
Abbreviation fd_table := (list (option open_file)).

(** The kernel as the code sees it: the table, and the outcomes still to
    come for the calls that may fail ([true] lets the call succeed; an
    exhausted script lets every call succeed). *)
Record kernel : Type := mk_kernel { fdt : fd_table; fate : list bool }.

Definition fd_lookup (t : fd_table) (fd : Z) : option open_file :=
  if fd <? 0 then None
  else match t !! Z.to_nat fd with Some (Some f) => Some f | _ => None end.

(** The lowest free slot receives the new open file. *)
Fixpoint fd_alloc (t : fd_table) (f : open_file) : nat * fd_table :=
  match t with
  | [] => (0%nat, [Some f])
  | None :: t' => (0%nat, Some f :: t')
  | Some g :: t' => let '(n, t'') := fd_alloc t' f in (S n, Some g :: t'')
  end.

Definition fd_store (t : fd_table) (fd : Z) (f : option open_file) : fd_table :=
  <[Z.to_nat fd := f]> t.

(** System calls are state transformers on the kernel. *)
Definition sys (A : Type) : Type := kernel -> A * kernel.

#[export] Instance sys_ret : MRet sys := fun A a k => (a, k).
#[export] Instance sys_bind : MBind sys :=
  fun A B f m k => let '(a, k') := m k in f a k'.

Definition next_fate : sys bool := fun k =>
  match fate k with
  | [] => (true, k)
  | b :: rest => (b, mk_kernel (fdt k) rest)
  end.

(** The access modes of <fcntl.h> on Linux; F_GETFL reports them with the
    status flags. *)
Definition O_RDONLY : Z := 0.
Definition O_WRONLY : Z := 1.
Definition O_RDWR : Z := 2.

Definition get_table : sys fd_table := fun k => (fdt k, k).
Definition put_table (t : fd_table) : sys unit :=
  fun k => (tt, mk_kernel t (fate k)).

Section Syscalls.
Context `{FcntlFlags}.

(** One end of a new pipe or socket pair: open in its access mode, with
    the flags the creating call asked for. *)
Definition pair_end (mode flags : Z) : open_file :=
  mk_open_file (Z.lor mode (Z.land flags O_NONBLOCK))
               (if Z.land flags O_CLOEXEC =? 0 then 0 else FD_CLOEXEC).

(** Two fresh descriptors for the two ends, the lowest free ones. *)
Definition new_pair (mode0 mode1 flags : Z) : sys (Z * Z) :=
  t ← get_table;
  let '(r, t1) := fd_alloc t (pair_end mode0 flags) in
  let '(w, t2) := fd_alloc t1 (pair_end mode1 flags) in
  _ ← put_table t2;
  mret (Z.of_nat r, Z.of_nat w).

(** [pipe2(fd, flags)]: 0 and the pair (the read end in [fd[0]], the write
    end in [fd[1]]), or -1 with [fd] untouched. *)
Definition sys_pipe2 (fd : Z * Z) (flags : Z) : sys (Z * (Z * Z)) :=
  ok ← next_fate;
  if ok : bool then p ← new_pair O_RDONLY O_WRONLY flags; mret (0, p)
  else mret (-1, fd).

Definition sys_pipe (fd : Z * Z) : sys (Z * (Z * Z)) := sys_pipe2 fd 0.

(** [socketpair(AF_UNIX, SOCK_STREAM, 0, fd)]: both ends read and write. *)
Definition sys_socketpair (fd : Z * Z) : sys (Z * (Z * Z)) :=
  ok ← next_fate;
  if ok : bool then p ← new_pair O_RDWR O_RDWR 0; mret (0, p)
  else mret (-1, fd).

(** [fcntl(fd, F_GETFL)] and [fcntl(fd, F_GETFD)] fail only on a descriptor
    that is not open. *)
Definition sys_fcntl_getfl (fd : Z) : sys Z :=
  t ← get_table;
  mret (match fd_lookup t fd with Some f => f_flags f | None => -1 end).

Definition sys_fcntl_getfd (fd : Z) : sys Z :=
  t ← get_table;
  mret (match fd_lookup t fd with Some f => fd_flags f | None => -1 end).

(** [fcntl(fd, F_SETFL, arg)]: the settable status flags are replaced by
    those of [arg], the others stay. *)
Definition sys_fcntl_setfl (fd : Z) (arg : Z) : sys Z :=
  t ← get_table;
  match fd_lookup t fd with
  | None => mret (-1)
  | Some f =>
      ok ← next_fate;
      if ok : bool then
        let fl := Z.lor (Z.land arg SETFL_MASK)
                        (Z.land (f_flags f) (Z.lnot SETFL_MASK)) in
        _ ← put_table (fd_store t fd (Some (mk_open_file fl (fd_flags f))));
        mret 0
      else mret (-1)
  end.

(** [fcntl(fd, F_SETFD, arg)]: the descriptor flags become [arg]. *)
Definition sys_fcntl_setfd (fd : Z) (arg : Z) : sys Z :=
  t ← get_table;
  match fd_lookup t fd with
  | None => mret (-1)
  | Some f =>
      ok ← next_fate;
      if ok : bool then
        _ ← put_table (fd_store t fd (Some (mk_open_file (f_flags f) arg)));
        mret 0
      else mret (-1)
  end.

(** [close(fd)]: an open descriptor is released whatever the call reports. *)
Definition sys_close (fd : Z) : sys Z :=
  t ← get_table;
  match fd_lookup t fd with
  | None => mret (-1)
  | Some _ =>
      ok ← next_fate;
      _ ← put_table (fd_store t fd None);
      mret (if ok : bool then 0 else -1)
  end.

(** [evutil_make_socket_nonblocking]. *)
Definition evutil_make_socket_nonblocking (fd : Z) : sys Z :=
  flags ← sys_fcntl_getfl fd;
  if flags <? 0 then mret (-1)
  else if Z.land flags O_NONBLOCK =? 0 then
    r ← sys_fcntl_setfl fd (Z.lor flags O_NONBLOCK);
    if r =? -1 then mret (-1) else mret 0
  else mret 0.

(** [evutil_fast_socket_nonblocking]. *)
Definition evutil_fast_socket_nonblocking (fd : Z) : sys Z :=
  r ← sys_fcntl_setfl fd O_NONBLOCK;
  if r =? -1 then mret (-1) else mret 0.

(** [evutil_make_socket_closeonexec]. *)
Definition evutil_make_socket_closeonexec (fd : Z) : sys Z :=
  flags ← sys_fcntl_getfd fd;
  if flags <? 0 then mret (-1)
  else if Z.land flags FD_CLOEXEC =? 0 then
    r ← sys_fcntl_setfd fd (Z.lor flags FD_CLOEXEC);
    if r =? -1 then mret (-1) else mret 0
  else mret 0.

(** [evutil_fast_socket_closeonexec]. *)
Definition evutil_fast_socket_closeonexec (fd : Z) : sys Z :=
  r ← sys_fcntl_setfd fd FD_CLOEXEC;
  if r =? -1 then mret (-1) else mret 0.

Definition evutil_closesocket (sock : Z) : sys Z := sys_close sock.

(** C's short-circuit [a || b] over calls with effects. *)
Definition or_else (a b : sys bool) : sys bool :=
  x ← a; if x : bool then mret true else b.

Definition failed (call : sys Z) : sys bool := r ← call; mret (r <? 0).

(** The four flag-setting calls of [evutil_make_internal_pipe_], joined by
    [||]: true when one of them failed. *)
Definition flag_setup_failed (fd : Z * Z) : sys bool :=
  or_else (failed (evutil_fast_socket_nonblocking (fst fd)))
    (or_else (failed (evutil_fast_socket_nonblocking (snd fd)))
       (or_else (failed (evutil_fast_socket_closeonexec (fst fd)))
                (failed (evutil_fast_socket_closeonexec (snd fd))))).

(** [evutil_make_internal_pipe_]: [fd] is the caller's array on entry; the
    result is the return code and the array on exit.  The [event_warn] after
    a failed [pipe] only logs. *)
Definition evutil_make_internal_pipe_ (fd : Z * Z) : sys (Z * (Z * Z)) :=
  '(r, fd) ← sys_pipe2 fd (Z.lor O_NONBLOCK O_CLOEXEC);
  if r =? 0 then mret (0, fd)
  else
    '(r, fd) ← sys_pipe fd;
    if r =? 0 then
      bad ← flag_setup_failed fd;
      if bad : bool then
        _ ← sys_close (fst fd);
        _ ← sys_close (snd fd);
        mret (-1, (-1, -1))
      else mret (0, fd)
    else
      '(r, fd) ← sys_socketpair fd;
      if r =? 0 then
        bad ← flag_setup_failed fd;
        if bad : bool then
          _ ← evutil_closesocket (fst fd);
          _ ← evutil_closesocket (snd fd);
          mret (-1, (-1, -1))
        else mret (0, fd)
      else mret (-1, (-1, -1)).

End Syscalls.

(** Linux on x86-64: O_NONBLOCK 04000, O_CLOEXEC 02000000, FD_CLOEXEC 1;
    F_SETFL may change O_APPEND, O_NONBLOCK, O_ASYNC, O_DIRECT, O_NOATIME. *)
Definition linux_flags : FcntlFlags := {|
  O_NONBLOCK := 2048;
  O_CLOEXEC := 524288;
  FD_CLOEXEC := 1;
  SETFL_MASK := 1024 + 2048 + 8192 + 16384 + 262144;
  O_NONBLOCK_pos := eq_refl;
  O_CLOEXEC_pos := eq_refl;
  FD_CLOEXEC_pos := eq_refl;
  O_NONBLOCK_settable := eq_refl
|}.

(** The descriptor is open with O_NONBLOCK and FD_CLOEXEC both set. *)
Definition nonblocking_cloexec `{FcntlFlags} (t : fd_table) (fd : Z) : Prop :=
  0 <= fd
  /\ exists f, fd_lookup t fd = Some f
             /\ Z.land (f_flags f) O_NONBLOCK <> 0
             /\ Z.land (fd_flags f) FD_CLOEXEC <> 0.

End Fd.

(** ** evutil.c: bounded formatting *)

Module Snprintf.

(** A caller's buffer is the list of the bytes it holds; a write at an index
    inside it replaces one byte, and [buflen] is the size the caller
    announces. *)
Section Vsnprintf.
(** What a call formats: the format string together with its arguments. *)
Context {format_args : Type}.
(** The C library's [vsnprintf]: the buffer after the call and the [int]
    it returns. *)
Variable vsnprintf : list Z -> nat -> format_args -> list Z * Z.

(** [evutil_vsnprintf]. *)
Definition evutil_vsnprintf (buf : list Z) (buflen : nat) (format : format_args)
  : list Z * Z :=
  if (buflen =? 0)%nat then (buf, 0)
  else
    let '(buf', r) := vsnprintf buf buflen format in
    (<[(buflen - 1)%nat := 0]> buf', r).

(** [evutil_snprintf]: packs its variable arguments and calls
    [evutil_vsnprintf]. *)
Definition evutil_snprintf (buf : list Z) (buflen : nat) (format : format_args)
  : list Z * Z :=
  evutil_vsnprintf buf buflen format.

End Vsnprintf.

(** A [vsnprintf] of the kind the wrapper guards against: it copies what
    fits into the announced size and, when the output is truncated, writes
    no terminator.  [out] is the text the format expands to. *)
Definition legacy_vsnprintf (buf : list Z) (n : nat) (out : list Z) : list Z * Z :=
  let room := Nat.min n (length buf) in
  let written := if (length out <? room)%nat then out ++ [0] else take room out in
  (written ++ drop (length written) buf, Z.of_nat (length out)).

End Snprintf.

(** ** The timeout heap *)

Module MinHeap.

(** Modelled from the spec: the timeout heap (minheap-internal.h is not
    among the source files).  The design document describes a standard
    binary min-heap over deadlines kept in an array, a node being a
    (deadline, event back-reference) pair, with insert, delete at an
    arbitrary position (the position an event caches as its heap index) and
    peek-min. *)
Record heap_node : Type := mk_node { deadline : Z; event : nat }.

Abbreviation heap := (list heap_node).

Definition parent (i : nat) : nat := ((i - 1) / 2)%nat.
Definition left_child (i : nat) : nat := (2 * i + 1)%nat.
Definition right_child (i : nat) : nat := (2 * i + 2)%nat.
#[global] Arguments parent : simpl never.
#[global] Arguments left_child : simpl never.
#[global] Arguments right_child : simpl never.

(** Exchange of the entries at two positions. *)
Definition swap (h : heap) (i j : nat) : heap :=
  match h !! i, h !! j with
  | Some a, Some b => <[i := b]> (<[j := a]> h)
  | _, _ => h
  end.

(** Modelled from the spec: an entry moves up while its deadline is below
    its parent's.  [fuel] bounds the number of moves. *)
Fixpoint sift_up (fuel : nat) (h : heap) (i : nat) : heap :=
  match fuel with
  | O => h
  | S fuel' =>
      match i with
      | O => h
      | S _ =>
          match h !! parent i, h !! i with
          | Some a, Some b =>
              if deadline b <? deadline a
              then sift_up fuel' (swap h (parent i) i) (parent i)
              else h
          | _, _ => h
          end
      end
  end.

(** The position of the child with the smaller deadline, if [i] has a
    child. *)
Definition min_child (h : heap) (i : nat) : option nat :=
  match h !! left_child i, h !! right_child i with
  | Some l, Some r =>
      if deadline r <? deadline l then Some (right_child i)
      else Some (left_child i)
  | Some _, None => Some (left_child i)
  | None, _ => None
  end.

(** Modelled from the spec: an entry moves down while its deadline is above
    that of its smaller child. *)
Fixpoint sift_down (fuel : nat) (h : heap) (i : nat) : heap :=
  match fuel with
  | O => h
  | S fuel' =>
      match min_child h i with
      | None => h
      | Some c =>
          match h !! i, h !! c with
          | Some x, Some y =>
              if deadline y <? deadline x
              then sift_down fuel' (swap h i c) c
              else h
          | _, _ => h
          end
      end
  end.

(** Modelled from the spec: insert appends the node and lets it rise. *)
Definition heap_push (h : heap) (x : heap_node) : heap :=
  sift_up (length h) (h ++ [x]) (length h).

(** Modelled from the spec: delete at position [i] moves the last node
    into the hole and lets it rise or sink; a position outside the heap
    deletes nothing. *)
Definition heap_erase (h : heap) (i : nat) : heap :=
  match last h with
  | None => h
  | Some e =>
      let h' := take (length h - 1) h in
      if (length h' <? i)%nat then h
      else if (i =? length h')%nat then h'
      else
        let h'' := <[i := e]> h' in
        match h'' !! parent i with
        | Some a =>
            if ((0 <? i)%nat && (deadline e <? deadline a))%bool
            then sift_up i h'' i
            else sift_down (length h'') h'' i
        | None => sift_down (length h'') h'' i
        end
  end.

(** Modelled from the spec: [peek_min_deadline] reads the root. *)
Definition peek_min_deadline (h : heap) : option Z :=
  match h with
  | [] => None
  | x :: _ => Some (deadline x)
  end.

(** The heap invariant: no node has a deadline below its parent's. *)
Definition heap_ordered (h : heap) : Prop :=
  forall i a b, (0 < i)%nat ->
    h !! parent i = Some a -> h !! i = Some b -> deadline a <= deadline b.

Inductive heap_op : Type :=
  | Insert (x : heap_node)
  | Delete (i : nat).

Definition apply_op (h : heap) (op : heap_op) : heap :=
  match op with
  | Insert x => heap_push h x
  | Delete i => heap_erase h i
  end.

(** Any interleaving of inserts and deletes, from the empty heap. *)
Definition run_ops (ops : list heap_op) : heap := fold_left apply_op ops [].

(** The entries a sequence of operations leaves present: an insert adds
    its node, a delete removes the node found at the given position. *)
Inductive present : list heap_op -> heap -> list heap_node -> Prop :=
  | present_nil : present [] [] []
  | present_insert ops h bag x :
      present ops h bag -> present (ops ++ [Insert x]) (heap_push h x) (x :: bag)
  | present_delete ops h bag bag' i x :
      present ops h bag -> h !! i = Some x -> bag ≡ₚ x :: bag' ->
      present (ops ++ [Delete i]) (heap_erase h i) bag'
  | present_delete_outside ops h bag i :
      present ops h bag -> h !! i = None ->
      present (ops ++ [Delete i]) (heap_erase h i) bag.

End MinHeap.

(** ** Character classes and strings (evutil.c) *)

Module Ctype.
Import CInt.

(** Characters are their codes; a C string is the list of the characters
    before its terminating NUL. *)
Definition chars (s : string) : list Z :=
  map (fun c => Z.of_N (N_of_ascii c)) (list_ascii_of_string s).

Definition EVUTIL_ISXDIGIT_TABLE : list Z := [0; 0x3ff0000; 0x7e; 0x7e; 0; 0; 0; 0].
Definition EVUTIL_ISDIGIT_TABLE : list Z := [0; 0x3ff0000; 0; 0; 0; 0; 0; 0].

(** [IMPL_CTYPE_FN]: bit [u & 31] of word [(u >> 5) & 7] of the table. *)
Definition ctype_lookup (table : list Z) (c : Z) : bool :=
  let u := u8 c in
  negb (Z.land (nth (Z.to_nat (Z.land (Z.shiftr u 5) 7)) table 0)
               (Z.shiftl 1 (Z.land u 31)) =? 0).

Definition EVUTIL_ISDIGIT_ (c : Z) : bool := ctype_lookup EVUTIL_ISDIGIT_TABLE c.
Definition EVUTIL_ISXDIGIT_ (c : Z) : bool := ctype_lookup EVUTIL_ISXDIGIT_TABLE c.

(** [evutil_hex_char_to_int_]. *)
Definition evutil_hex_char_to_int_ (c : Z) : Z :=
  if (48 <=? c) && (c <=? 57) then c - 48
  else if (c =? 65) || (c =? 97) then 10
  else if (c =? 66) || (c =? 98) then 11
  else if (c =? 67) || (c =? 99) then 12
  else if (c =? 68) || (c =? 100) then 13
  else if (c =? 69) || (c =? 101) then 14
  else if (c =? 70) || (c =? 102) then 15
  else -1.

End Ctype.

(** ** arc4random.c and evutil_rand.c *)

Module Arc4.
Import CInt Ctype.

Definition ADD_ENTROPY : Z := 32.
Definition BYTES_BEFORE_RESEED : Z := 1600000.

(** [struct arc4_stream]: two [unsigned char] indices and the 256-byte
    permutation. *)
Record arc4_stream : Type := mk_stream { rs_i : Z; rs_j : Z; rs_s : list Z }.

(** The file's static variables: the state every caller shares. *)
Record statics : Type := mk_statics {
  rs_initialized : Z;
  rs : arc4_stream;
  arc4_stir_pid : Z;
  arc4_count : Z;
  arc4random_urandom_filename : option string
}.

(** What the entropy sources deliver to one call of [arc4_seed]: the return
    value of [getrandom] with the bytes it stored; per file name, the bytes
    [read_all] obtained ([None] when the file cannot be opened or read); and
    the successive reads of /proc/sys/kernel/random/uuid ([None] when the
    open fails or [read] returns nothing). *)
Record seed_material : Type := mk_seed {
  sm_getrandom : Z * list Z;
  sm_file : string -> option (list Z);
  sm_uuid : list (option (list Z))
}.

(** The process around the generator: its pid, and the entropy each future
    seeding will receive. *)
Record environment : Type := mk_env { pid : Z; entropy : list seed_material }.

Record process : Type := mk_process { vars : statics; env : environment }.

Definition sbox_get (s : list Z) (i : Z) : Z := nth (Z.to_nat i) s 0.
Definition sbox_set (s : list Z) (i v : Z) : list Z := <[Z.to_nat i := v]> s.

(** [arc4_init]. *)
Definition arc4_init : arc4_stream :=
  mk_stream 0 0 (map Z.of_nat (seq 0 256)).

(** The body of the loop of [arc4_addrandom], [k] iterations from counter
    [n]. *)
Fixpoint addrandom_loop (k : nat) (n : Z) (dat : list Z) (datlen : Z)
    (r : arc4_stream) : arc4_stream :=
  match k with
  | O => r
  | S k' =>
      let i := u8 (rs_i r + 1) in
      let si := sbox_get (rs_s r) i in
      let j := u8 (rs_j r + si + nth (Z.to_nat (Z.rem n datlen)) dat 0) in
      let s1 := sbox_set (rs_s r) i (sbox_get (rs_s r) j) in
      let s2 := sbox_set s1 j si in
      addrandom_loop k' (n + 1) dat datlen (mk_stream i j s2)
  end.

(** [arc4_addrandom]. *)
Definition arc4_addrandom (dat : list Z) (datlen : Z) (r : arc4_stream)
  : arc4_stream :=
  let r0 := mk_stream (u8 (rs_i r - 1)) (rs_j r) (rs_s r) in
  let r1 := addrandom_loop 256 0 dat datlen r0 in
  mk_stream (rs_i r1) (rs_i r1) (rs_s r1).

(** [arc4_getbyte]. *)
Definition arc4_getbyte (r : arc4_stream) : Z * arc4_stream :=
  let i := u8 (rs_i r + 1) in
  let si := sbox_get (rs_s r) i in
  let j := u8 (rs_j r + si) in
  let sj := sbox_get (rs_s r) j in
  let s1 := sbox_set (rs_s r) i sj in
  let s2 := sbox_set s1 j si in
  (sbox_get s2 (Z.land (si + sj) 255), mk_stream i j s2).

(** A zero-filled local buffer of [size] bytes after [data] was stored at
    its start. *)
Definition filled (size : nat) (data : list Z) : list Z :=
  take size (data ++ replicate size 0).

(** [arc4_seed_getrandom]: the loop runs once, since the first pass asks
    for all 32 bytes and advances [len] by that request. *)
Definition arc4_seed_getrandom (m : seed_material) (r : arc4_stream)
  : Z * arc4_stream :=
  let '(ret, data) := sm_getrandom m in
  if ret =? 0 then (-1, r)
  else
    let buf := filled 32 data in
    let any_set := fold_left Z.lor buf 0 in
    if any_set =? 0 then (-1, r)
    else (0, arc4_addrandom buf 32 r).

(** The decoding loop of [arc4_seed_proc_sys_kernel_random_uuid] over the
    characters read. *)
Fixpoint uuid_nybbles (buf : list Z) (nybbles : Z) (entropy : list Z)
  : Z * list Z :=
  match buf with
  | [] => (nybbles, entropy)
  | c :: rest =>
      if EVUTIL_ISXDIGIT_ c then
        let nyb := evutil_hex_char_to_int_ c in
        let k := Z.quot nybbles 2 in
        let old := sbox_get entropy k in
        let new := if Z.land nybbles 1 =? 0
                   then Z.lor old (u8 (Z.shiftl nyb 4))
                   else Z.lor old nyb in
        uuid_nybbles rest (nybbles + 1) (sbox_set entropy k new)
      else uuid_nybbles rest nybbles entropy
  end.

(** [arc4_seed_proc_sys_kernel_random_uuid]: one element of [reads] per
    pass of the outer loop, which ends once 32 bytes were added. *)
Fixpoint arc4_seed_proc_sys_kernel_random_uuid (reads : list (option (list Z)))
    (bytes : Z) (r : arc4_stream) : Z * arc4_stream :=
  if bytes <? ADD_ENTROPY then
    match reads with
    | [] => (-1, r)
    | None :: _ => (-1, r)
    | Some got :: later =>
        let buf := take 128 got in
        if (length buf =? 0)%nat then (-1, r)
        else
          let '(nybbles, entropy) := uuid_nybbles buf 0 (replicate 64 0) in
          if nybbles <? 2 then (-1, r)
          else
            arc4_seed_proc_sys_kernel_random_uuid later
              (bytes + Z.quot nybbles 2)
              (arc4_addrandom entropy (Z.quot nybbles 2) r)
    end
  else (0, r).

(** [arc4_seed_urandom_helper_]. *)
Definition arc4_seed_urandom_helper_ (m : seed_material) (fname : string)
    (r : arc4_stream) : Z * arc4_stream :=
  match sm_file m fname with
  | None => (-1, r)
  | Some got =>
      let buf := take 32 got in
      if (length buf =? 32)%nat then (0, arc4_addrandom buf 32 r) else (-1, r)
  end.

Definition filenames : list string :=
  ["/dev/srandom"; "/dev/urandom"; "/dev/random"]%string.

Fixpoint try_filenames (m : seed_material) (names : list string)
    (r : arc4_stream) : Z * arc4_stream :=
  match names with
  | [] => (-1, r)
  | f :: rest =>
      let '(ret, r') := arc4_seed_urandom_helper_ m f r in
      if ret =? 0 then (0, r') else try_filenames m rest r'
  end.

(** [arc4_seed_urandom]. *)
Definition arc4_seed_urandom (fname : option string) (m : seed_material)
    (r : arc4_stream) : Z * arc4_stream :=
  match fname with
  | Some f => arc4_seed_urandom_helper_ m f r
  | None => try_filenames m filenames r
  end.

(** No source answers once the recorded entropy is used up. *)
Definition no_entropy : seed_material :=
  mk_seed (0, []) (fun _ => None) [].

(** The generator's functions transform the process. *)
Definition rng (A : Type) : Type := process -> A * process.

#[export] Instance rng_ret : MRet rng := fun A a p => (a, p).
#[export] Instance rng_bind : MBind rng :=
  fun A B f m p => let '(a, p') := m p in f a p'.

Definition get_vars : rng statics := fun p => (vars p, p).
Definition put_vars (v : statics) : rng unit := fun p => (tt, mk_process v (env p)).
Definition getpid : rng Z := fun p => (pid (env p), p).

(** The material of the next seeding, removed from the environment. *)
Definition next_seed : rng seed_material := fun p =>
  match entropy (env p) with
  | [] => (no_entropy, p)
  | m :: rest => (m, mk_process (vars p) (mk_env (pid (env p)) rest))
  end.

Definition set_rs (v : statics) (r : arc4_stream) : statics :=
  mk_statics (rs_initialized v) r (arc4_stir_pid v) (arc4_count v)
             (arc4random_urandom_filename v).

(** [arc4_seed]: every source is tried, one success is enough. *)
Definition arc4_seed : rng Z :=
  m ← next_seed;
  v ← get_vars;
  let '(r1, s1) := arc4_seed_getrandom m (rs v) in
  let '(r2, s2) := arc4_seed_urandom (arc4random_urandom_filename v) m s1 in
  let '(r3, s3) :=
    match arc4random_urandom_filename v with
    | None => arc4_seed_proc_sys_kernel_random_uuid (sm_uuid m) 0 s2
    | Some _ => (-1, s2)
    end in
  _ ← put_vars (set_rs v s3);
  mret (if (r1 =? 0) || (r2 =? 0) || (r3 =? 0) then 0 else -1).

(** [k] calls of [arc4_getbyte] with the results discarded. *)
Fixpoint discard (k : nat) (r : arc4_stream) : arc4_stream :=
  match k with
  | O => r
  | S k' => discard k' (snd (arc4_getbyte r))
  end.

(** [arc4_stir]. *)
Definition arc4_stir : rng Z :=
  v ← get_vars;
  _ ← (if rs_initialized v =? 0
       then put_vars (mk_statics 1 arc4_init (arc4_stir_pid v) (arc4_count v)
                        (arc4random_urandom_filename v))
       else mret tt);
  seeded ← arc4_seed;
  if seeded =? 0 then
    v ← get_vars;
    _ ← put_vars (mk_statics (rs_initialized v) (discard (12 * 256) (rs v))
                    (arc4_stir_pid v) BYTES_BEFORE_RESEED
                    (arc4random_urandom_filename v));
    mret 0
  else mret (-1).

(** [arc4_stir_if_needed]. *)
Definition arc4_stir_if_needed : rng unit :=
  p ← getpid;
  v ← get_vars;
  if (arc4_count v <=? 0) || (rs_initialized v =? 0)
     || negb (arc4_stir_pid v =? p)
  then
    _ ← put_vars (mk_statics (rs_initialized v) (rs v) p (arc4_count v)
                    (arc4random_urandom_filename v));
    _ ← arc4_stir;
    mret tt
  else mret tt.

(** One pass of the loop of [arc4random_buf]: the byte stored in
    [buf[n]]. *)
Definition buf_step : rng Z :=
  v ← get_vars;
  let c := wrap_int (arc4_count v - 1) in
  _ ← put_vars (mk_statics (rs_initialized v) (rs v) (arc4_stir_pid v) c
                  (arc4random_urandom_filename v));
  _ ← (if c <=? 0 then arc4_stir else mret 0);
  v ← get_vars;
  let '(b, r) := arc4_getbyte (rs v) in
  _ ← put_vars (set_rs v r);
  mret b.

(** The loop [while (n--)]: it fills [buf[n-1]] first and [buf[0]] last;
    the result lists the buffer from index 0. *)
Fixpoint buf_loop (n : nat) : rng (list Z) :=
  match n with
  | O => mret []
  | S n' =>
      b ← buf_step;
      low ← buf_loop n';
      mret (low ++ [b])
  end.

(** [arc4random_buf]: the [n] bytes stored in the caller's buffer. *)
Definition arc4random_buf (n : nat) : rng (list Z) :=
  _ ← arc4_stir_if_needed;
  buf_loop n.

Definition ev_arc4random_buf (n : nat) : rng (list Z) := arc4random_buf n.

(** [evutil_secure_rng_get_bytes]: it takes the buffer and its size and
    nothing else; the generator it reads and advances is the one in the
    statics. *)
Definition evutil_secure_rng_get_bytes (n : nat) : rng (list Z) :=
  ev_arc4random_buf n.

(** The next [n] bytes of the cipher stream of [r], in the order they are
    generated, and the stream after them. *)
Fixpoint keystream (n : nat) (r : arc4_stream) : list Z * arc4_stream :=
  match n with
  | O => ([], r)
  | S n' =>
      let '(b, r1) := arc4_getbyte r in
      let '(bs, r2) := keystream n' r1 in
      (b :: bs, r2)
  end.

(** No reseeding is due during the next [n] bytes: the generator is
    initialised, was stirred by this process, and has budget left. *)
Definition steady (n : nat) (p : process) : Prop :=
  rs_initialized (vars p) <> 0
  /\ arc4_stir_pid (vars p) = pid (env p)
  /\ Z.of_nat n < arc4_count (vars p) <= INT_MAX.

End Arc4.

(** ** evutil.c: address formatting and parsing *)

Module Inet.
Import CInt Ctype Snprintf.

(** Address families of <sys/socket.h> on Linux. *)
Definition AF_INET : Z := 2.
Definition AF_INET6 : Z := 10.

(** *** The C library around the two functions *)

(** The string a buffer holds: its characters before the first NUL. *)
Fixpoint c_str (mem : list Z) : list Z :=
  match mem with
  | [] => []
  | c :: rest => if c =? 0 then [] else c :: c_str rest
  end.

Definition strlen (mem : list Z) : nat := length (c_str mem).

(** A [printf] format with its arguments, conversion by conversion:
    ordinary characters, [%d] of an [int], [%x] of an [unsigned]. *)
Inductive directive : Type :=
  | Lit (text : list Z)
  | ConvD (v : Z)
  | ConvX (v : Z).

Definition digit_char (d : Z) : Z := if d <? 10 then 48 + d else 87 + d.

Fixpoint digits_of (fuel : nat) (base n : Z) (acc : list Z) : list Z :=
  match fuel with
  | O => acc
  | S fuel' =>
      let acc' := digit_char (n mod base) :: acc in
      if n / base =? 0 then acc' else digits_of fuel' base (n / base) acc'
  end.

(** The digits of [n >= 0] in [base], most significant first, "0" for 0. *)
Definition render_unsigned (base n : Z) : list Z :=
  digits_of (S (Z.to_nat (Z.log2 n))) base n [].

Definition render (d : directive) : list Z :=
  match d with
  | Lit text => text
  | ConvD v => if v <? 0 then 45 :: render_unsigned 10 (- v)
               else render_unsigned 10 v
  | ConvX v => render_unsigned 16 v
  end.

Definition expand (fmt : list directive) : list Z := concat (map render fmt).

(** [vsnprintf] as C99 defines it: at most [n-1] characters of the output
    are stored, then a NUL; the result is the length of the whole output. *)
Definition c99_vsnprintf (buf : list Z) (n : nat) (fmt : list directive)
  : list Z * Z :=
  let out := expand fmt in
  let r := wrap_int (Z.of_nat (length out)) in
  if (n =? 0)%nat then (buf, r)
  else
    let kept := take (n - 1) out in
    (kept ++ 0 :: drop (S (length kept)) buf, r).

Definition isspace (c : Z) : bool := (c =? 32) || ((9 <=? c) && (c <=? 13)).

Fixpoint skip_space (s : list Z) : list Z :=
  match s with
  | c :: rest => if isspace c then skip_space rest else s
  | [] => []
  end.

(** An optional sign: whether it is a minus, and what follows it. *)
Definition scan_sign (s : list Z) : bool * list Z :=
  match s with
  | c :: rest =>
      if c =? 45 then (true, rest)
      else if c =? 43 then (false, rest)
      else (false, s)
  | [] => (false, s)
  end.

(** The longest run of decimal digits: its value, what follows, and
    whether there was a digit. *)
Fixpoint dec_accum (s : list Z) (acc : Z) (any : bool) : Z * list Z * bool :=
  match s with
  | c :: rest =>
      if (48 <=? c) && (c <=? 57) then dec_accum rest (acc * 10 + (c - 48)) true
      else (acc, s, any)
  | [] => (acc, [], any)
  end.

(** The conversion [%u]: white space, sign, digits.  The digits are
    converted as [strtoul] converts them (2^64 - 1 when the value does not
    fit an [unsigned long], negated modulo 2^64 after a minus sign) and the
    result is stored as an [unsigned int]. *)
Definition scan_u (s : list Z) : option (Z * list Z) :=
  let '(neg, s1) := scan_sign (skip_space s) in
  let '(v, rest, any) := dec_accum s1 0 false in
  if any then
    let ul := if 2 ^ 64 - 1 <? v then 2 ^ 64 - 1
              else (if neg then - v else v) mod 2 ^ 64 in
    Some (ul mod 2 ^ 32, rest)
  else None.

Inductive scan_directive : Type :=
  | ScanU
  | ScanLit (c : Z)
  | ScanC.

(** The values [sscanf] stores, in order, up to the first directive that
    does not match. *)
Fixpoint sscanf_values (fmt : list scan_directive) (s : list Z) : list Z :=
  match fmt with
  | [] => []
  | ScanU :: fmt' =>
      match scan_u s with
      | Some (v, rest) => v :: sscanf_values fmt' rest
      | None => []
      end
  | ScanLit c :: fmt' =>
      match s with
      | c' :: rest => if c' =? c then sscanf_values fmt' rest else []
      | [] => []
      end
  | ScanC :: fmt' =>
      match s with
      | c' :: rest => c' :: sscanf_values fmt' rest
      | [] => []
      end
  end.

(** [sscanf]: the stored values and the count it returns (EOF when the
    input ends before anything was converted). *)
Definition sscanf (s : list Z) (fmt : list scan_directive) : Z * list Z :=
  let vs := sscanf_values fmt s in
  (match vs, skip_space s with
   | [], [] => -1
   | _, _ => Z.of_nat (length vs)
   end, vs).

(** The format "%u.%u.%u.%u%c". *)
Definition quad_format : list scan_directive :=
  [ScanU; ScanLit 46; ScanU; ScanLit 46; ScanU; ScanLit 46; ScanU; ScanC].

Fixpoint hex_accum (s : list Z) (acc : Z) (any : bool) : Z * list Z * bool :=
  match s with
  | c :: rest =>
      if evutil_hex_char_to_int_ c >=? 0
      then hex_accum rest (acc * 16 + evutil_hex_char_to_int_ c) true
      else (acc, s, any)
  | [] => (acc, [], any)
  end.

(** The prefix "0x" or "0X" is skipped when a hexadecimal digit follows. *)
Definition skip_0x (s : list Z) : list Z :=
  match s with
  | z :: x :: h :: rest =>
      if (z =? 48) && ((x =? 120) || (x =? 88))
         && (evutil_hex_char_to_int_ h >=? 0)
      then h :: rest else s
  | _ => s
  end.

(** [strtol(s, &next, 16)]: white space, sign, an optional "0x" before a
    hexadecimal digit, digits; the value clamped to [long], and [next].
    Without a digit the value is 0 and [next] is [s]. *)
Definition strtol16 (s : list Z) : Z * list Z :=
  let '(neg, s1) := scan_sign (skip_space s) in
  let '(v, next, any) := hex_accum (skip_0x s1) 0 false in
  if any then (Z.max LONG_MIN (Z.min LONG_MAX (if neg then - v else v)), next)
  else (0, s).

(** [strchr(s, c)] as an offset. *)
Fixpoint strchr (s : list Z) (c : Z) : option nat :=
  match s with
  | [] => None
  | x :: rest => if x =? c then Some 0%nat else option_map S (strchr rest c)
  end.

Definition u16 (z : Z) : Z := z mod 65536.

(** [memmove] and [memset] inside an array of words. *)
Definition memmove_words (w : list Z) (dst src n : nat) : list Z :=
  take dst w ++ take n (drop src w) ++ drop (dst + n) w.

Definition memset_words (w : list Z) (at_ : nat) (v : Z) (n : nat) : list Z :=
  take at_ w ++ replicate n v ++ drop (at_ + n) w.

(** *** evutil_inet_ntop *)

(** [ntohl(in->s_addr)]: the four bytes of the address, first byte most
    significant, whatever the byte order of the host. *)
Definition ntohl_s_addr (in_addr : list Z) : Z :=
  Z.lor (Z.lor (Z.lor (Z.shiftl (nth 0 in_addr 0) 24)
                      (Z.shiftl (nth 1 in_addr 0) 16))
               (Z.shiftl (nth 2 in_addr 0) 8))
        (nth 3 in_addr 0).

(** The bytes [htonl(v)] occupies as [s_addr]. *)
Definition htonl_s_addr (v : Z) : list Z :=
  [Z.land (Z.shiftr v 24) 255; Z.land (Z.shiftr v 16) 255;
   Z.land (Z.shiftr v 8) 255; Z.land v 255].

Definition dot : list Z := [46].
Definition colon : Z := 58.

(** A call [evutil_snprintf(buf + cp, size, ...)] on the part of [buf]
    from offset [cp]. *)
Definition snprintf_at (buf : list Z) (cp size : nat) (fmt : list directive)
  : list Z :=
  take cp buf ++ fst (evutil_snprintf c99_vsnprintf (drop cp buf) size fmt).

(** The loop [while (i < 8 && words[i] == 0) ++i] (with its companion
    counter when there is one): where it stops. *)
Fixpoint skip_zero_words (fuel : nat) (words : list Z) (i : nat) : nat :=
  match fuel with
  | O => i
  | S fuel' =>
      if (i <? 8)%nat && (nth i words 0 =? 0)
      then skip_zero_words fuel' words (S i) else i
  end.

(** The search for the longest run of zero words; the state is
    [(longestGapLen, longestGapPos)]. *)
Fixpoint find_gap (fuel : nat) (words : list Z) (i : nat) (best : Z * Z)
  : Z * Z :=
  match fuel with
  | O => best
  | S fuel' =>
      if (i <? 8)%nat then
        if nth i words 0 =? 0 then
          let curGapPos := Z.of_nat i in
          let i' := skip_zero_words 8 words (S i) in
          let curGapLen := Z.of_nat (i' - i) in
          if curGapLen >? fst best
          then find_gap fuel' words i' (curGapLen, curGapPos)
          else find_gap fuel' words i' best
        else find_gap fuel' words (S i) best
      else best
  end.

(** The loop that writes the words through [cp]; the state is the local
    buffer and the offset of [cp] in it. *)
Fixpoint emit_words (fuel : nat) (words : list Z) (longestGapPos : Z)
    (i : nat) (buf : list Z) (cp : nat) : list Z * nat :=
  match fuel with
  | O => (buf, cp)
  | S fuel' =>
      if (i <? 8)%nat then
        if (nth i words 0 =? 0) && (longestGapPos =? Z.of_nat i) then
          let '(buf1, cp1) :=
            if (i =? 0)%nat then (<[cp := colon]> buf, S cp) else (buf, cp) in
          let buf2 := <[cp1 := colon]> buf1 in
          let i' := skip_zero_words 8 words i in
          emit_words fuel' words longestGapPos i' buf2 (S cp1)
        else
          let buf1 := snprintf_at buf cp (64 - cp) [ConvX (nth i words 0)] in
          let cp1 := (cp + strlen (drop cp buf1))%nat in
          let '(buf2, cp2) :=
            if negb (i =? 7)%nat then (<[cp1 := colon]> buf1, S cp1)
            else (buf1, cp1) in
          emit_words fuel' words longestGapPos (S i) buf2 cp2
      else (buf, cp)
  end.

Section Ntop.
(** [strlcpy] ([event_strlcpy_], declared in strlcpy-internal.h): the
    destination buffer after [strlcpy(dst, src, siz)]. *)
Variable strlcpy : list Z -> list Z -> nat -> list Z.

(** [evutil_inet_ntop]: [stack] is what the local [buf[64]] holds on entry;
    the result tells whether [dst] (rather than NULL) is returned, and
    gives the bytes of [dst] afterwards. *)
Definition evutil_inet_ntop (af : Z) (src : list Z) (dst : list Z) (len : nat)
    (stack : list Z) : bool * list Z :=
  if af =? AF_INET then
    let a := ntohl_s_addr src in
    let '(dst', r) :=
      evutil_snprintf c99_vsnprintf dst len
        [ConvD (u8 (Z.land (Z.shiftr a 24) 255)); Lit dot;
         ConvD (u8 (Z.land (Z.shiftr a 16) 255)); Lit dot;
         ConvD (u8 (Z.land (Z.shiftr a 8) 255)); Lit dot;
         ConvD (u8 (Z.land a 255))] in
    if (r <? 0) || (Z.of_nat len <=? r) then (false, dst') else (true, dst')
  else if af =? AF_INET6 then
    let words :=
      map (fun i => u16 (Z.shiftl (nth (2 * i) src 0) 8 + nth (2 * i + 1) src 0))
          (seq 0 8) in
    let word i := nth i words 0 in
    if (word 0%nat =? 0) && (word 1%nat =? 0) && (word 2%nat =? 0) && (word 3%nat =? 0)
       && (word 4%nat =? 0)
       && (((word 5%nat =? 0) && negb (word 6%nat =? 0) && negb (word 7%nat =? 0))
           || (word 5%nat =? 65535))
    then
      let quad := [ConvD (nth 12 src 0); Lit dot; ConvD (nth 13 src 0); Lit dot;
                   ConvD (nth 14 src 0); Lit dot; ConvD (nth 15 src 0)] in
      let buf :=
        if word 5%nat =? 0
        then fst (evutil_snprintf c99_vsnprintf stack 64
                    (Lit [colon; colon] :: quad))
        else fst (evutil_snprintf c99_vsnprintf stack 64
                    (Lit [colon; colon] :: ConvX (word 5%nat) :: Lit [colon] :: quad)) in
      if (len <? strlen buf)%nat then (false, dst)
      else (true, strlcpy dst buf len)
    else
      let '(longestGapLen, longestGapPos) := find_gap 8 words 0 (0, -1) in
      let longestGapPos := if longestGapLen <=? 1 then -1 else longestGapPos in
      let '(buf, cp) := emit_words 8 words longestGapPos 0 stack 0 in
      let buf := <[cp := 0]> buf in
      if (len <? strlen buf)%nat then (false, dst)
      else (true, strlcpy dst buf len)
  else (false, dst).

End Ntop.

(** [strlcpy] as BSD defines it: at most [siz-1] characters of the source
    string, then a NUL. *)
Definition bsd_strlcpy (dst src : list Z) (siz : nat) : list Z :=
  if (siz =? 0)%nat then dst
  else
    let kept := take (siz - 1) (c_str src) in
    kept ++ 0 :: drop (S (length kept)) dst.

(** *** evutil_inet_pton *)

(** The loop over the words before [eow].  [rest] is the string from
    [src], [left] is [eow - src]; the result is [None] where the code
    returns 0, and otherwise [i], [gapPos], [setWords] and the array. *)
Fixpoint pton6_loop (fuel : nat) (rest : list Z) (left : Z) (i : nat)
    (gapPos setWords : Z) (words : list Z)
  : option (nat * Z * Z * list Z) :=
  match fuel with
  | O => None
  | S fuel' =>
      if 0 <? left then
        if (7 <? i)%nat then None
        else if EVUTIL_ISXDIGIT_ (hd 0 rest) then
          let '(r, next) := strtol16 rest in
          let used := Z.of_nat (length rest) - Z.of_nat (length next) in
          if 4 <? used then None
          else if used =? 0 then None
          else if (r <? 0) || (65536 <? r) then None
          else
            let words' := <[i := u16 r]> words in
            let left' := left - used in
            if negb (hd 0 next =? colon) && negb (left' =? 0) then None
            else pton6_loop fuel' (tl next) (left' - 1) (S i) gapPos
                            (setWords + 1) words'
        else if (hd 0 rest =? colon) && (0 <? i)%nat && (gapPos =? -1) then
          pton6_loop fuel' (tl rest) (left - 1) i (Z.of_nat i) setWords words
        else if (hd 0 rest =? colon) && (i =? 0)%nat
                && (nth 1 rest 0 =? colon) && (gapPos =? -1) then
          pton6_loop fuel' (drop 2 rest) (left - 2) i (Z.of_nat i) setWords words
        else None
      else Some (i, gapPos, setWords, words)
  end.

Fixpoint count_while (f : Z -> bool) (l : list Z) : nat :=
  match l with
  | c :: rest => if f c then S (count_while f rest) else O
  | [] => O
  end.

(** The number of digits right before offset [d]: how far the scan for
    [eow] walks back from the dot. *)
Definition digits_before (s : list Z) (d : nat) : nat :=
  count_while EVUTIL_ISDIGIT_ (rev (take d s)).

(** The part of [evutil_inet_pton] after the loop: the checks on the
    counts, the move of the words behind the gap, the gap's zeros, and the
    sixteen bytes stored through [dst].  [dotted] tells whether [dot] is
    non-NULL. *)
Definition pton6_finish (dotted : bool) (gapPos setWords : Z) (words : list Z)
  : Z * option (list Z) :=
  if (8 <? setWords)
     || ((setWords =? 8) && negb (gapPos =? -1))
     || ((setWords <? 8) && (gapPos =? -1))
  then (0, None)
  else
    let nToMove := setWords - (if dotted then 2 else 0) - gapPos in
    let gapLen := 8 - setWords in
    if (0 <=? gapPos) && (nToMove <? 0) then (-1, None)
    else
      let words :=
        if 0 <=? gapPos then
          memset_words
            (memmove_words words (Z.to_nat (gapPos + gapLen))
               (Z.to_nat gapPos) (Z.to_nat nToMove))
            (Z.to_nat gapPos) 0 (Z.to_nat gapLen)
        else words in
      (1, Some (concat (map (fun w => [u8 (Z.shiftr w 8); Z.land w 255]) words))).

(** [evutil_inet_pton]: [stack] is what the local [words[8]] holds on
    entry; the result is the return code and, when the function stored an
    address through [dst], its bytes. *)
Definition evutil_inet_pton (af : Z) (src : list Z) (stack : list Z)
  : Z * option (list Z) :=
  if af =? AF_INET then
    match sscanf src quad_format with
    | (4, [a; b; c; d]) =>
        if (255 <? a) || (255 <? b) || (255 <? c) || (255 <? d) then (0, None)
        else (1, Some (htonl_s_addr
                         (Z.lor (Z.lor (Z.lor (Z.shiftl a 24) (Z.shiftl b 16))
                                       (Z.shiftl c 8)) d)))
    | _ => (0, None)
    end
  else if af =? AF_INET6 then
    let before_words : option (nat * list Z * Z) :=
      match strchr src 46 with
      | Some O => None
      | None => Some (length src, stack, 0)
      | Some d =>
          let eow := (d - digits_before src d)%nat in
          match sscanf (drop eow src) quad_format with
          | (4, [byte1; byte2; byte3; byte4]) =>
              if (255 <? byte1) || (255 <? byte2) || (255 <? byte3)
                 || (255 <? byte4) then None
              else
                Some (eow,
                      <[7%nat := u16 (Z.lor (Z.shiftl byte3 8) byte4)]>
                        (<[6%nat := u16 (Z.lor (Z.shiftl byte1 8) byte2)]> stack),
                      2)
          | _ => None
          end
      end in
    match before_words with
    | None => (0, None)
    | Some (eow, words, setWords) =>
        match pton6_loop (S (S (length src))) src (Z.of_nat eow) 0 (-1)
                         setWords words with
        | None => (0, None)
        | Some (_, gapPos, setWords, words) =>
            pton6_finish (match strchr src 46 with Some _ => true | None => false end)
                         gapPos setWords words
        end
    end
  else (-1, None).

End Inet.

(** ** evutil.c: the weak random number generator *)

Module Weakrand.
Import CInt EvutilTime.

Definition u32 (z : Z) : Z := z mod 2 ^ 32.

(** [struct evutil_weakrand_state]: one [uint32_t]. *)
Record evutil_weakrand_state : Type := mk_weakrand { seed : Z }.

(** [evutil_weakrand_seed_]: [tv] and [pid] are what [gettimeofday] and
    [getpid] answer when the seed given is 0.  The result is the value
    returned and the state stored. *)
Definition evutil_weakrand_seed_ (seed : Z) (tv : timeval) (pid : Z)
  : Z * evutil_weakrand_state :=
  let seed :=
    if seed =? 0
    then u32 (u32 (u32 (tv_sec tv) + u32 (tv_usec tv)) + u32 pid)
    else seed in
  (seed, mk_weakrand seed).

(** [evutil_weakrand_]: the product and the sum are [uint32_t]
    arithmetic. *)
Definition evutil_weakrand_ (state : evutil_weakrand_state)
  : Z * evutil_weakrand_state :=
  let s := Z.land (u32 (u32 (seed state * 1103515245) + 12345)) 0x7fffffff in
  (wrap_int s, mk_weakrand s).

(** How a call that loops and divides can end. *)
Inductive outcome : Type :=
  | Returns (result : Z) (state : evutil_weakrand_state)
  | Undefined
  | OutOfFuel.

(** The [do ... while (result >= top)] loop, at most [fuel] passes. *)
Fixpoint weakrand_range_loop (fuel : nat) (state : evutil_weakrand_state)
    (top divisor : Z) : outcome :=
  match fuel with
  | O => OutOfFuel
  | S fuel' =>
      let '(v, state') := evutil_weakrand_ state in
      let result := wrap_int (Z.quot v divisor) in
      if result >=? top then weakrand_range_loop fuel' state' top divisor
      else Returns result state'
  end.

Section Range.
(** [EVUTIL_WEAKRAND_MAX] is defined in util-internal.h. *)
Variable EVUTIL_WEAKRAND_MAX : Z.

(** [evutil_weakrand_range_]: both divisions are [int32_t] divisions, and
    undefined for a zero divisor. *)
Definition evutil_weakrand_range_ (fuel : nat) (state : evutil_weakrand_state)
    (top : Z) : outcome :=
  if top =? 0 then Undefined
  else
    let divisor := wrap_int (Z.quot EVUTIL_WEAKRAND_MAX top) in
    if divisor =? 0 then Undefined
    else weakrand_range_loop fuel state top divisor.

End Range.

End Weakrand.

(** ** evutil.c: character classes, case mapping and string helpers *)

Module Strings.
Import CInt Ctype Inet.

Definition EVUTIL_ISALPHA_TABLE : list Z := [0; 0; 0x7fffffe; 0x7fffffe; 0; 0; 0; 0].
Definition EVUTIL_ISALNUM_TABLE : list Z :=
  [0; 0x3ff0000; 0x7fffffe; 0x7fffffe; 0; 0; 0; 0].
Definition EVUTIL_ISSPACE_TABLE : list Z := [0x3e00; 0x1; 0; 0; 0; 0; 0; 0].
Definition EVUTIL_ISPRINT_TABLE : list Z :=
  [0; 0xffffffff; 0xffffffff; 0x7fffffff; 0; 0; 0; 0x0].
Definition EVUTIL_ISUPPER_TABLE : list Z := [0; 0; 0x7fffffe; 0; 0; 0; 0; 0].
Definition EVUTIL_ISLOWER_TABLE : list Z := [0; 0; 0; 0x7fffffe; 0; 0; 0; 0].

Definition EVUTIL_TOUPPER_TABLE : list Z :=
  [
   0; 1; 2; 3; 4; 5; 6; 7; 8; 9; 10; 11; 12; 13; 14; 15;
   16; 17; 18; 19; 20; 21; 22; 23; 24; 25; 26; 27; 28; 29; 30; 31;
   32; 33; 34; 35; 36; 37; 38; 39; 40; 41; 42; 43; 44; 45; 46; 47;
   48; 49; 50; 51; 52; 53; 54; 55; 56; 57; 58; 59; 60; 61; 62; 63;
   64; 65; 66; 67; 68; 69; 70; 71; 72; 73; 74; 75; 76; 77; 78; 79;
   80; 81; 82; 83; 84; 85; 86; 87; 88; 89; 90; 91; 92; 93; 94; 95;
   96; 65; 66; 67; 68; 69; 70; 71; 72; 73; 74; 75; 76; 77; 78; 79;
   80; 81; 82; 83; 84; 85; 86; 87; 88; 89; 90; 123; 124; 125; 126; 127;
   128; 129; 130; 131; 132; 133; 134; 135; 136; 137; 138; 139; 140; 141; 142; 143;
   144; 145; 146; 147; 148; 149; 150; 151; 152; 153; 154; 155; 156; 157; 158; 159;
   160; 161; 162; 163; 164; 165; 166; 167; 168; 169; 170; 171; 172; 173; 174; 175;
   176; 177; 178; 179; 180; 181; 182; 183; 184; 185; 186; 187; 188; 189; 190; 191;
   192; 193; 194; 195; 196; 197; 198; 199; 200; 201; 202; 203; 204; 205; 206; 207;
   208; 209; 210; 211; 212; 213; 214; 215; 216; 217; 218; 219; 220; 221; 222; 223;
   224; 225; 226; 227; 228; 229; 230; 231; 232; 233; 234; 235; 236; 237; 238; 239;
   240; 241; 242; 243; 244; 245; 246; 247; 248; 249; 250; 251; 252; 253; 254; 255
  ].

Definition EVUTIL_TOLOWER_TABLE : list Z :=
  [
   0; 1; 2; 3; 4; 5; 6; 7; 8; 9; 10; 11; 12; 13; 14; 15;
   16; 17; 18; 19; 20; 21; 22; 23; 24; 25; 26; 27; 28; 29; 30; 31;
   32; 33; 34; 35; 36; 37; 38; 39; 40; 41; 42; 43; 44; 45; 46; 47;
   48; 49; 50; 51; 52; 53; 54; 55; 56; 57; 58; 59; 60; 61; 62; 63;
   64; 97; 98; 99; 100; 101; 102; 103; 104; 105; 106; 107; 108; 109; 110; 111;
   112; 113; 114; 115; 116; 117; 118; 119; 120; 121; 122; 91; 92; 93; 94; 95;
   96; 97; 98; 99; 100; 101; 102; 103; 104; 105; 106; 107; 108; 109; 110; 111;
   112; 113; 114; 115; 116; 117; 118; 119; 120; 121; 122; 123; 124; 125; 126; 127;
   128; 129; 130; 131; 132; 133; 134; 135; 136; 137; 138; 139; 140; 141; 142; 143;
   144; 145; 146; 147; 148; 149; 150; 151; 152; 153; 154; 155; 156; 157; 158; 159;
   160; 161; 162; 163; 164; 165; 166; 167; 168; 169; 170; 171; 172; 173; 174; 175;
   176; 177; 178; 179; 180; 181; 182; 183; 184; 185; 186; 187; 188; 189; 190; 191;
   192; 193; 194; 195; 196; 197; 198; 199; 200; 201; 202; 203; 204; 205; 206; 207;
   208; 209; 210; 211; 212; 213; 214; 215; 216; 217; 218; 219; 220; 221; 222; 223;
   224; 225; 226; 227; 228; 229; 230; 231; 232; 233; 234; 235; 236; 237; 238; 239;
   240; 241; 242; 243; 244; 245; 246; 247; 248; 249; 250; 251; 252; 253; 254; 255
  ].

Definition EVUTIL_ISALPHA_ (c : Z) : bool := ctype_lookup EVUTIL_ISALPHA_TABLE c.
Definition EVUTIL_ISALNUM_ (c : Z) : bool := ctype_lookup EVUTIL_ISALNUM_TABLE c.
Definition EVUTIL_ISSPACE_ (c : Z) : bool := ctype_lookup EVUTIL_ISSPACE_TABLE c.
Definition EVUTIL_ISPRINT_ (c : Z) : bool := ctype_lookup EVUTIL_ISPRINT_TABLE c.
Definition EVUTIL_ISLOWER_ (c : Z) : bool := ctype_lookup EVUTIL_ISLOWER_TABLE c.
Definition EVUTIL_ISUPPER_ (c : Z) : bool := ctype_lookup EVUTIL_ISUPPER_TABLE c.

(** A value converted to [char], which is signed here. *)
Definition to_char (z : Z) : Z := wrap 8 z.

(** [EVUTIL_TOLOWER_] and [EVUTIL_TOUPPER_]: the table entry at
    [(uint8_t)c], as a [char]. *)
Definition EVUTIL_TOLOWER_ (c : Z) : Z :=
  to_char (nth (Z.to_nat (u8 c)) EVUTIL_TOLOWER_TABLE 0).
Definition EVUTIL_TOUPPER_ (c : Z) : Z :=
  to_char (nth (Z.to_nat (u8 c)) EVUTIL_TOUPPER_TABLE 0).

(** [evutil_ascii_strcasecmp].  A string argument is the list of the
    characters in memory from the pointer on; the byte after the last
    element is the terminating NUL. *)
Fixpoint evutil_ascii_strcasecmp (s1 s2 : list Z) : Z :=
  let c1 := EVUTIL_TOLOWER_ (hd 0 s1) in
  let c2 := EVUTIL_TOLOWER_ (hd 0 s2) in
  if c1 <? c2 then -1
  else if c1 >? c2 then 1
  else if c1 =? 0 then 0
  else match s1 with
       | [] => 0
       | _ :: rest1 => evutil_ascii_strcasecmp rest1 (tl s2)
       end.

(** [evutil_ascii_strncasecmp]. *)
Fixpoint evutil_ascii_strncasecmp (s1 s2 : list Z) (n : nat) : Z :=
  match n with
  | O => 0
  | S n' =>
      let c1 := EVUTIL_TOLOWER_ (hd 0 s1) in
      let c2 := EVUTIL_TOLOWER_ (hd 0 s2) in
      if c1 <? c2 then -1
      else if c1 >? c2 then 1
      else if c1 =? 0 then 0
      else evutil_ascii_strncasecmp (tl s1) (tl s2) n'
  end.

(** The loop of [evutil_rtrim_lws_], entered with [cp] at offset [cp] of
    [str]. *)
Fixpoint rtrim_loop (str : list Z) (cp : nat) : list Z :=
  if (nth cp str 0 =? 32) || (nth cp str 0 =? 9) then
    let str' := <[cp := 0]> str in
    match cp with
    | O => str'
    | S cp' => rtrim_loop str' cp'
    end
  else str.

(** [evutil_rtrim_lws_] on a non-NULL [str]: the buffer afterwards. *)
Definition evutil_rtrim_lws_ (str : list Z) : list Z :=
  match strlen str with
  | O => str
  | S cp => rtrim_loop str cp
  end.

End Strings.

(** ** evutil.c: classes of addresses and comparison of socket addresses *)

Module Addr.
Import CInt Ctype Inet.

Definition INADDR_ANY : Z := 0.

(** The three tests on an IPv4 address in host order. *)
Definition evutil_v4addr_is_localhost (addr : Z) : bool :=
  Z.shiftr addr 24 =? 127.
Definition evutil_v4addr_is_linklocal (addr : Z) : bool :=
  Z.land addr 0xffff0000 =? 0xa9fe0000.
Definition evutil_v4addr_is_classd (addr : Z) : bool :=
  Z.land (Z.shiftr addr 24) 0xf0 =? 0xe0.

(** [evutil_v4addr_is_local_], on the four bytes of the [struct in_addr]. *)
Definition evutil_v4addr_is_local_ (in_ : list Z) : bool :=
  let addr := ntohl_s_addr in_ in
  (addr =? INADDR_ANY)
  || evutil_v4addr_is_localhost addr
  || evutil_v4addr_is_linklocal addr
  || evutil_v4addr_is_classd addr.

(** A socket address as the code reads it through the cast its family
    selects: the port as stored (network order), the bytes of [sin_addr] or
    [sin6_addr], and [sin6_scope_id]. *)
Record sockaddr : Type := mk_sockaddr {
  sa_family : Z;
  sa_port : Z;
  sa_addr : list Z;
  sa_scope_id : Z
}.

(** The file's statics about the interfaces of the host. *)
Record interfaces : Type := mk_interfaces {
  have_checked_interfaces : Z;
  had_ipv4_address : Z;
  had_ipv6_address : Z
}.

Section WithLibc.
(** [memcmp] of the C library: the standard fixes the sign of its
    result, not the value. *)
Variable memcmp : list Z -> list Z -> nat -> Z.
(** Whether the host stores integers most significant byte first. *)
Variable big_endian : bool.

Definition ZEROES : list Z := replicate 16 0.

(** [evutil_v6addr_is_local_], on the sixteen bytes of the address. *)
Definition evutil_v6addr_is_local_ (addr : list Z) : bool :=
  (memcmp addr ZEROES 8 =? 0)
  || (Z.land (nth 0 addr 0) 0xfe =? 0xfc)
  || ((nth 0 addr 0 =? 0xfe) && (Z.land (nth 1 addr 0) 0xc0 =? 0x80))
  || ((nth 0 addr 0 =? 0xfe) && (Z.land (nth 1 addr 0) 0xc0 =? 0xc0))
  || (nth 0 addr 0 =? 0xff).

(** [evutil_found_ifaddr]. *)
Definition evutil_found_ifaddr (sa : sockaddr) (st : interfaces) : interfaces :=
  if sa_family sa =? AF_INET then
    if negb (evutil_v4addr_is_local_ (sa_addr sa))
    then mk_interfaces (have_checked_interfaces st) 1 (had_ipv6_address st)
    else st
  else if sa_family sa =? AF_INET6 then
    if negb (evutil_v6addr_is_local_ (sa_addr sa))
    then mk_interfaces (have_checked_interfaces st) (had_ipv4_address st) 1
    else st
  else st.

(** [evutil_check_ifaddrs]: [ifa] is what [getifaddrs] delivers, [None]
    when it fails; an entry of the list is its [ifa_addr], [None] when
    that pointer is NULL. *)
Definition evutil_check_ifaddrs (ifa : option (list (option sockaddr)))
    (st : interfaces) : Z * interfaces :=
  match ifa with
  | None => (-1, st)
  | Some l =>
      (0, fold_left (fun st i => match i with
                                 | None => st
                                 | Some sa => evutil_found_ifaddr sa st
                                 end) l st)
  end.

Definition LOOPBACK_S6 : list Z := [0; 0; 0; 0; 0; 0; 0; 0; 0; 0; 0; 0; 0; 0; 0; 1].

(** [evutil_sockaddr_is_loopback_]. *)
Definition evutil_sockaddr_is_loopback_ (addr : sockaddr) : bool :=
  if sa_family addr =? AF_INET then
    Z.land (ntohl_s_addr (sa_addr addr)) 0xff000000 =? 0x7f000000
  else if sa_family addr =? AF_INET6 then
    memcmp (sa_addr addr) LOOPBACK_S6 16 =? 0
  else false.

(** [s_addr] as the host reads the four bytes. *)
Definition s_addr (in_ : list Z) : Z :=
  if big_endian then ntohl_s_addr in_
  else ntohl_s_addr [nth 3 in_ 0; nth 2 in_ 0; nth 1 in_ 0; nth 0 in_ 0].

(** [evutil_sockaddr_cmp]. *)
Definition evutil_sockaddr_cmp (sa1 sa2 : sockaddr) (include_port : Z) : Z :=
  let r := sa_family sa1 - sa_family sa2 in
  if negb (r =? 0) then r
  else if sa_family sa1 =? AF_INET then
    if s_addr (sa_addr sa1) <? s_addr (sa_addr sa2) then -1
    else if s_addr (sa_addr sa1) >? s_addr (sa_addr sa2) then 1
    else if negb (include_port =? 0) && negb (sa_port sa1 - sa_port sa2 =? 0)
    then sa_port sa1 - sa_port sa2
    else 0
  else if sa_family sa1 =? AF_INET6 then
    let r := memcmp (sa_addr sa1) (sa_addr sa2) 16 in
    if negb (r =? 0) then r
    else if negb (include_port =? 0) && negb (sa_port sa1 - sa_port sa2 =? 0)
    then sa_port sa1 - sa_port sa2
    else 0
  else 1.

End WithLibc.

(** A [memcmp] that returns the difference of the first two bytes that
    differ. *)
Fixpoint memcmp_bytes (a b : list Z) (n : nat) : Z :=
  match n with
  | O => 0
  | S n' =>
      if u8 (hd 0 a) =? u8 (hd 0 b) then memcmp_bytes (tl a) (tl b) n'
      else u8 (hd 0 a) - u8 (hd 0 b)
  end.

End Addr.

(** ** evutil.c: helpers of getaddrinfo *)

Module Servname.
Import CInt Ctype Inet.

(** [strtol(s, &endptr, 10)]: white space, sign, digits; the value clamped
    to [long], and [endptr].  Without a digit the value is 0 and [endptr]
    is [s]. *)
Definition strtol10 (s : list Z) : Z * list Z :=
  let '(neg, s1) := scan_sign (skip_space s) in
  let '(v, next, any) := dec_accum s1 0 false in
  if any then (Z.max LONG_MIN (Z.min LONG_MAX (if neg then - v else v)), next)
  else (0, s).

(** [parse_numeric_servname]: a string is the list of its characters, so
    [servname[0]] and [endptr[0]] are NUL exactly at the end of a list. *)
Definition parse_numeric_servname (servname : list Z) : Z :=
  let '(l, endptr) := strtol10 servname in
  let n := wrap_int l in
  if (0 <=? n) && (n <=? 65535) && negb (hd 0 servname =? 0)
     && (hd 0 endptr =? 0)
  then n else -1.

(** [struct addrinfo], the fields the helpers read and write. *)
Record addrinfo : Type := mk_addrinfo {
  ai_flags : Z;
  ai_family : Z;
  ai_socktype : Z;
  ai_protocol : Z
}.

Section WithNetdb.
(** Constants of <netdb.h>, <sys/socket.h> and <netinet/in.h>. *)
Variables AI_NUMERICSERV SOCK_STREAM SOCK_DGRAM : Z.
Variables IPPROTO_TCP IPPROTO_UDP IPPROTO_SCTP : Z.
(** [getservbyname]: the [s_port] of the entry found, if any; and
    [ntohs]. *)
Variable getservbyname : list Z -> option (list Z) -> option Z.
Variable ntohs : Z -> Z.

(** [evutil_parse_servname]. *)
Definition evutil_parse_servname (servname : list Z) (protocol : option (list Z))
    (hints : addrinfo) : Z :=
  let n := parse_numeric_servname servname in
  if 0 <=? n then n
  else if Z.land (ai_flags hints) AI_NUMERICSERV =? 0 then
    match getservbyname servname protocol with
    | Some s_port => ntohs s_port
    | None => -1
    end
  else -1.

(** [evutil_getaddrinfo_infer_protocols]: the hints afterwards. *)
Definition evutil_getaddrinfo_infer_protocols (hints : addrinfo) : addrinfo :=
  let hints1 :=
    if (ai_protocol hints =? 0) && negb (ai_socktype hints =? 0) then
      if ai_socktype hints =? SOCK_DGRAM
      then mk_addrinfo (ai_flags hints) (ai_family hints) (ai_socktype hints)
                       IPPROTO_UDP
      else if ai_socktype hints =? SOCK_STREAM
      then mk_addrinfo (ai_flags hints) (ai_family hints) (ai_socktype hints)
                       IPPROTO_TCP
      else hints
    else hints in
  if (ai_socktype hints1 =? 0) && negb (ai_protocol hints1 =? 0) then
    if ai_protocol hints1 =? IPPROTO_UDP
    then mk_addrinfo (ai_flags hints1) (ai_family hints1) SOCK_DGRAM
                     (ai_protocol hints1)
    else if ai_protocol hints1 =? IPPROTO_TCP
    then mk_addrinfo (ai_flags hints1) (ai_family hints1) SOCK_STREAM
                     (ai_protocol hints1)
    else if ai_protocol hints1 =? IPPROTO_SCTP
    then mk_addrinfo (ai_flags hints1) (ai_family hints1) SOCK_STREAM
                     (ai_protocol hints1)
    else hints1
  else hints1.

End WithNetdb.

End Servname.

(** ** evutil.c: descriptors created with flags *)

Module Sockets.
Import Fd.

(** What [connect] reports, as far as its caller tells the cases apart:
    success, an errno of the class EVUTIL_ERR_CONNECT_RETRIABLE, one of the
    class EVUTIL_ERR_CONNECT_REFUSED, or any other errno. *)
Inductive connect_outcome : Type :=
  Connected | Retriable | Refused | OtherError.

Section Calls.
Context `{FcntlFlags}.

(** Constants of <sys/socket.h>, <sys/eventfd.h> and <fcntl.h>. *)
Variables SOCK_NONBLOCK SOCK_CLOEXEC SOCK_STREAM : Z.
Variables EFD_NONBLOCK EFD_CLOEXEC : Z.
Variable O_RDWR : Z.

(** The status word F_GETFL reports for a file opened with the given
    [open] flags. *)
Variable status_of_open : Z -> Z.

(** The lowest free descriptor receives the new open file. *)
Definition new_fd (f : open_file) : sys Z :=
  t ← get_table;
  let '(r, t1) := fd_alloc t f in
  _ ← put_table t1;
  mret (Z.of_nat r).

(** A socket or event counter is open for reading and writing; the
    creating call sets the two flags it was asked for. *)
Definition created_with (flags nonblock cloexec : Z) : open_file :=
  mk_open_file
    (Z.lor O_RDWR (if Z.land flags nonblock =? 0 then 0 else O_NONBLOCK))
    (if Z.land flags cloexec =? 0 then 0 else FD_CLOEXEC).

(** [socket(domain, type, protocol)]. *)
Definition sys_socket (domain type protocol : Z) : sys Z :=
  ok ← next_fate;
  if ok : bool then new_fd (created_with type SOCK_NONBLOCK SOCK_CLOEXEC)
  else mret (-1).

(** [accept4(sockfd, addr, addrlen, flags)]: the result, and whether errno
    is EINVAL or ENOSYS after a failure.  A descriptor that is not open
    gives EBADF.  The peer address is not modelled. *)
Definition sys_accept4 (sockfd flags : Z) : sys (Z * bool) :=
  t ← get_table;
  match fd_lookup t sockfd with
  | None => mret (-1, false)
  | Some _ =>
      ok ← next_fate;
      if ok : bool then
        r ← new_fd (created_with flags SOCK_NONBLOCK SOCK_CLOEXEC);
        mret (r, false)
      else
        unsupported ← next_fate;
        mret (-1, unsupported)
  end.

(** [accept(sockfd, addr, addrlen)]: on Linux the new socket inherits no
    flag of the listening one. *)
Definition sys_accept (sockfd : Z) : sys Z :=
  t ← get_table;
  match fd_lookup t sockfd with
  | None => mret (-1)
  | Some _ =>
      ok ← next_fate;
      if ok : bool then new_fd (mk_open_file O_RDWR 0) else mret (-1)
  end.

(** [eventfd(initval, flags)]. *)
Definition sys_eventfd (initval flags : Z) : sys Z :=
  ok ← next_fate;
  if ok : bool then new_fd (created_with flags EFD_NONBLOCK EFD_CLOEXEC)
  else mret (-1).

(** [open(pathname, flags, mode)]: the descriptor, and whether errno is
    EINVAL after a failure. *)
Definition sys_open (flags : Z) : sys (Z * bool) :=
  ok ← next_fate;
  if ok : bool then
    fd ← new_fd (mk_open_file (status_of_open flags)
                   (if Z.land flags O_CLOEXEC =? 0 then 0 else FD_CLOEXEC));
    mret (fd, false)
  else
    einval ← next_fate;
    mret (-1, einval).

(** [connect(fd, sa, socklen)]: the descriptor table stays as it is. *)
Definition sys_connect (fd : Z) : sys connect_outcome :=
  t ← get_table;
  match fd_lookup t fd with
  | None => mret OtherError
  | Some _ =>
      ok ← next_fate;
      if ok : bool then mret Connected
      else
        retriable ← next_fate;
        if retriable : bool then mret Retriable
        else
          refused ← next_fate;
          mret (if refused : bool then Refused else OtherError)
  end.

(** The statement
    [if (cond) { if (call < 0) { evutil_closesocket(r); return -1; } }]
    followed by [rest]. *)
Definition or_close_and_fail (cond : bool) (call : sys Z) (r : Z)
    (rest : sys Z) : sys Z :=
  if cond then
    x ← call;
    if x <? 0 then _ ← evutil_closesocket r; mret (-1) else rest
  else rest.

(** [evutil_open_closeonexec_]: the path name and the mode only reach
    [open]. *)
Definition evutil_open_closeonexec_ (flags : Z) : sys Z :=
  '(fd, einval) ← sys_open (Z.lor flags O_CLOEXEC);
  if (0 <=? fd) || (einval : bool) then mret fd
  else
    '(fd, _) ← sys_open flags;
    if fd <? 0 then mret (-1)
    else
      x ← sys_fcntl_setfd fd FD_CLOEXEC;
      if x <? 0 then _ ← sys_close fd; mret (-1) else mret fd.

(** [evutil_socket_]. *)
Definition evutil_socket_ (domain type protocol : Z) : sys Z :=
  r ← sys_socket domain type protocol;
  if 0 <=? r then mret r
  else if Z.land type (Z.lor SOCK_NONBLOCK SOCK_CLOEXEC) =? 0 then mret (-1)
  else
    r ← sys_socket domain
          (Z.land type (Z.lnot (Z.lor SOCK_NONBLOCK SOCK_CLOEXEC))) protocol;
    if r <? 0 then mret (-1)
    else
      or_close_and_fail (negb (Z.land type SOCK_NONBLOCK =? 0))
        (evutil_fast_socket_nonblocking r) r
        (or_close_and_fail (negb (Z.land type SOCK_CLOEXEC =? 0))
           (evutil_fast_socket_closeonexec r) r
           (mret r)).

(** [evutil_accept4_]. *)
Definition evutil_accept4_ (sockfd flags : Z) : sys Z :=
  '(result, unsupported) ← sys_accept4 sockfd flags;
  if (0 <=? result) || negb unsupported then mret result
  else
    result ← sys_accept sockfd;
    if result <? 0 then mret result
    else
      or_close_and_fail (negb (Z.land flags SOCK_CLOEXEC =? 0))
        (evutil_fast_socket_closeonexec result) result
        (or_close_and_fail (negb (Z.land flags SOCK_NONBLOCK =? 0))
           (evutil_fast_socket_nonblocking result) result
           (mret result)).

(** [evutil_eventfd_]. *)
Definition evutil_eventfd_ (initval flags : Z) : sys Z :=
  r ← sys_eventfd initval flags;
  if (0 <=? r) || (flags =? 0) then mret r
  else
    r ← sys_eventfd initval 0;
    if r <? 0 then mret r
    else
      or_close_and_fail (negb (Z.land flags EFD_CLOEXEC =? 0))
        (evutil_fast_socket_closeonexec r) r
        (or_close_and_fail (negb (Z.land flags EFD_NONBLOCK =? 0))
           (evutil_fast_socket_nonblocking r) r
           (mret r)).

(** The label [err] of [evutil_socket_connect_]: the result and the final
    [*fd_ptr]. *)
Definition connect_err (fd_ptr : Z) (made_fd : bool) : sys (Z * Z) :=
  if made_fd then _ ← evutil_closesocket fd_ptr; mret (-1, -1)
  else mret (-1, fd_ptr).

(** [evutil_socket_connect_] from its call of [connect] on. *)
Definition connect_from (fd_ptr : Z) (made_fd : bool) : sys (Z * Z) :=
  c ← sys_connect fd_ptr;
  match c with
  | Connected => mret (1, fd_ptr)
  | Retriable => mret (0, fd_ptr)
  | Refused => mret (2, fd_ptr)
  | OtherError => connect_err fd_ptr made_fd
  end.

(** [evutil_socket_connect_]: [fd_ptr] is the value of [*fd_ptr] on entry,
    [family] is [sa->sa_family]; the result is the return code and
    [*fd_ptr] on exit. *)
Definition evutil_socket_connect_ (fd_ptr family : Z) : sys (Z * Z) :=
  if fd_ptr <? 0 then
    fd ← sys_socket family SOCK_STREAM 0;
    if fd <? 0 then connect_err fd false
    else
      x ← evutil_make_socket_nonblocking fd;
      if x <? 0 then connect_err fd true else connect_from fd true
  else connect_from fd_ptr false.

End Calls.

End Sockets.

(** ** evutil_rand.c: the entry points around the generator *)

Module SecureRng.
Import CInt Arc4.

(** [evutil_secure_rng_set_urandom_device_file]; [None] is a NULL
    [fname]. *)
Definition evutil_secure_rng_set_urandom_device_file (fname : option string)
  : rng Z :=
  v ← get_vars;
  _ ← put_vars (mk_statics (rs_initialized v) (rs v) (arc4_stir_pid v)
                  (arc4_count v) fname);
  mret 0.

(** [evutil_secure_rng_init]. *)
Definition evutil_secure_rng_init : rng Z :=
  r ← arc4_stir;
  mret (if r =? 0 then 0 else -1).

(** The statics of a process that has not touched the generator: static
    storage is zero. *)
Definition zeroed : statics :=
  mk_statics 0 (mk_stream 0 0 (replicate 256 0)) 0 0 None.

End SecureRng.

(** ** evutil.c: socket addresses as text *)

Module SockaddrText.
Import CInt Ctype Snprintf Inet Servname Addr.

Definition ULONG_MAX : Z := 2 ^ 64 - 1.

(** [strtoul(s, &endptr, 10)]: white space, sign, digits; the value as an
    [unsigned long] (ULONG_MAX when it does not fit, negated modulo 2^64
    after a minus sign), and [endptr]. *)
Definition strtoul10 (s : list Z) : Z * list Z :=
  let '(neg, s1) := scan_sign (skip_space s) in
  let '(v, next, any) := dec_accum s1 0 false in
  if any then
    ((if ULONG_MAX <? v then ULONG_MAX
      else if neg then (- v) mod 2 ^ 64 else v), next)
  else (0, s).

(** [atoi(s)], which is [(int)strtol(s, NULL, 10)]. *)
Definition atoi (s : list Z) : Z := wrap_int (fst (strtol10 s)).

Definition sizeof_sockaddr_in : Z := 16.
Definition sizeof_sockaddr_in6 : Z := 28.

Section WithHost.
(** Whether the host stores integers most significant byte first. *)
Variable big_endian : bool.
(** [if_nametoindex] of the C library, on the characters of the name. *)
Variable if_nametoindex : list Z -> Z.
(** [strlcpy], as [evutil_inet_ntop] receives it. *)
Variable strlcpy : list Z -> list Z -> nat -> list Z.

(** [htons] and [ntohs] on a 16-bit value. *)
Definition htons (x : Z) : Z :=
  if big_endian then u16 x
  else Z.lor (Z.shiftl (Z.land (u16 x) 255) 8) (Z.shiftr (u16 x) 8).
Definition ntohs (x : Z) : Z := htons x.

(** [evutil_inet_pton_scope]: the result of [evutil_inet_pton] and the
    value left in [*indexp].  A string is the list of its characters. *)
Definition evutil_inet_pton_scope (af : Z) (src : list Z) (stack : list Z)
  : (Z * option (list Z)) * Z :=
  if negb (af =? AF_INET6) then (evutil_inet_pton af src stack, 0)
  else
    match strchr src 37 with
    | None => (evutil_inet_pton af src stack, 0)
    | Some cp =>
        let name := drop (S cp) src in
        let if_index := if_nametoindex name in
        if if_index =? 0 then
          let '(v, check) := strtoul10 name in
          if negb (hd 0 check =? 0) then ((0, None), 0)
          else (evutil_inet_pton af (take cp src) stack, v mod 2 ^ 32)
        else (evutil_inet_pton af (take cp src) stack, if_index)
    end.

(** [evutil_parse_sockaddr_port]: [outlen] is [*outlen] on entry; the
    result is the return code and, on success, the address stored through
    [out] (every other byte of it is zero) with the new [*outlen]. *)
Definition evutil_parse_sockaddr_port (ip_as_string : list Z) (outlen : Z)
    (stack : list Z) : Z * option (sockaddr * Z) :=
  let parts : option (list Z * option (list Z) * bool) :=
    if hd 0 ip_as_string =? 91 then
      match strchr ip_as_string 93 with
      | None => None
      | Some cp =>
          let len := (cp - 1)%nat in
          if (127 <? len)%nat then None
          else
            Some (take len (drop 1 ip_as_string),
                  if nth (S cp) ip_as_string 0 =? colon
                  then Some (drop (cp + 2) ip_as_string) else None,
                  true)
      end
    else
      match strchr ip_as_string colon with
      | Some cp =>
          match strchr (drop (S cp) ip_as_string) colon with
          | Some _ => Some (ip_as_string, None, true)
          | None =>
              if (127 <? cp)%nat then None
              else Some (take cp ip_as_string,
                         Some (drop (S cp) ip_as_string), false)
          end
      | None => Some (ip_as_string, None, false)
      end in
  match parts with
  | None => (-1, None)
  | Some (addr_part, port_part, is_ipv6) =>
      let port :=
        match port_part with
        | None => Some 0
        | Some p =>
            let port := atoi p in
            if (port <=? 0) || (65535 <? port) then None else Some port
        end in
      match port with
      | None => (-1, None)
      | Some port =>
          if is_ipv6 : bool then
            match evutil_inet_pton_scope AF_INET6 addr_part stack with
            | ((1, Some addr), if_index) =>
                if outlen <? sizeof_sockaddr_in6 then (-1, None)
                else (0, Some (mk_sockaddr AF_INET6 (htons port) addr if_index,
                               sizeof_sockaddr_in6))
            | _ => (-1, None)
            end
          else
            match evutil_inet_pton AF_INET addr_part stack with
            | (1, Some addr) =>
                if outlen <? sizeof_sockaddr_in then (-1, None)
                else (0, Some (mk_sockaddr AF_INET (htons port) addr 0,
                               sizeof_sockaddr_in))
            | _ => (-1, None)
            end
      end
  end.

(** [evutil_format_sockaddr_port_]: the bytes of [out] afterwards; [b] is
    what the local [b[128]] holds on entry and [stack] what the local
    buffer of [evutil_inet_ntop] holds. *)
Definition evutil_format_sockaddr_port_ (sa : sockaddr) (out : list Z)
    (outlen : nat) (b stack : list Z) : list Z :=
  let unknown :=
    fst (evutil_snprintf c99_vsnprintf out outlen
           [Lit (chars "<addr with socktype "); ConvD (sa_family sa);
            Lit (chars ">")]) in
  if sa_family sa =? AF_INET then
    let '(res, b') := evutil_inet_ntop strlcpy AF_INET (sa_addr sa) b 128 stack in
    let port := ntohs (sa_port sa) in
    if res : bool then
      fst (evutil_snprintf c99_vsnprintf out outlen
             [Lit (c_str b'); Lit [colon]; ConvD port])
    else unknown
  else if sa_family sa =? AF_INET6 then
    let '(res, b') := evutil_inet_ntop strlcpy AF_INET6 (sa_addr sa) b 128 stack in
    let port := ntohs (sa_port sa) in
    if res : bool then
      fst (evutil_snprintf c99_vsnprintf out outlen
             [Lit [91]; Lit (c_str b'); Lit [93; colon]; ConvD port])
    else unknown
  else unknown.

End WithHost.

End SockaddrText.

(** * Properties *)

Ltac case_cond :=
  match goal with
  | |- context [if ?c then _ else _] => destruct c eqn:?
  end.

Module CIntFacts.
Import CInt.

Lemma wrap_long_id z : in_long z -> wrap_long z = z.
Proof.
  unfold in_long, LONG_MIN, LONG_MAX, wrap_long, wrap. intros H.
  change (2 ^ (64 - 1)) with 9223372036854775808.
  change (2 ^ 64) with 18446744073709551616.
  change (2 ^ 63) with 9223372036854775808 in H.
  rewrite Z.mod_small; lia.
Qed.

Lemma wrap_long_range z : in_long (wrap_long z).
Proof.
  unfold in_long, LONG_MIN, LONG_MAX, wrap_long, wrap.
  change (2 ^ (64 - 1)) with 9223372036854775808.
  change (2 ^ 64) with 18446744073709551616.
  change (2 ^ 63) with 9223372036854775808.
  pose proof (Z.mod_pos_bound (z + 9223372036854775808) 18446744073709551616).
  lia.
Qed.

Lemma wrap_int_id z : in_int z -> wrap_int z = z.
Proof.
  unfold in_int, INT_MIN, INT_MAX, wrap_int, wrap. intros H.
  change (2 ^ (32 - 1)) with 2147483648.
  change (2 ^ 32) with 4294967296.
  change (2 ^ 31) with 2147483648 in H.
  rewrite Z.mod_small; lia.
Qed.

End CIntFacts.

Module EvutilTimeFacts.
Import CInt CIntFacts EvutilTime.

Lemma timercmp_ge_refl t : timercmp_ge t t = true.
Proof. unfold timercmp_ge. rewrite Z.eqb_refl. apply Z.geb_le. lia. Qed.

Lemma timercmp_not_lt_ge t u : timercmp_lt t u = false -> timercmp_ge t u = true.
Proof.
  unfold timercmp_lt, timercmp_ge.
  destruct (tv_sec t =? tv_sec u); intros H%Z.ltb_ge; apply Z.geb_le; lia.
Qed.

(** One pass through the ratchet never hands out a time below the previous
    [last_time], and records what it handed out. *)
Lemma adjust_monotonic_time_ratchet base raw :
  let '(base', tv) := adjust_monotonic_time base raw in
  timercmp_ge tv (last_time base) = true
  /\ last_time base' = tv
  /\ monotonic_clock base' = monotonic_clock base.
Proof.
  unfold adjust_monotonic_time.
  destruct (timercmp_lt _ _) eqn:E; cbn.
  - auto using timercmp_ge_refl.
  - auto using timercmp_not_lt_ge.
Qed.

(** C1: in fallback mode (monotonic_clock < 0) the times returned by
    successive evutil_gettime_monotonic_ calls on one timer never decrease,
    whatever raw gettimeofday readings arrive: each is at least the one
    returned before it, and the first is at least the timer's last_time. *)
Theorem emulated_clock_forward_only :
  forall (envs : list clock_reading) (base : evutil_monotonic_timer),
    monotonic_clock base < 0 ->
    nondecreasing_from (last_time base) (snd (run_queries base envs)).
Proof.
  induction envs as [|env rest IH]; intros base Hfb; cbn; [exact I|].
  unfold evutil_gettime_monotonic_.
  apply Z.ltb_lt in Hfb as Hb. rewrite Hb.
  destruct (rd_gettimeofday env) as [raw|].
  - pose proof (adjust_monotonic_time_ratchet base raw) as R.
    destruct (adjust_monotonic_time base raw) as [base' tv].
    destruct R as (Hge & Hlast & Hclk).
    specialize (IH base'). rewrite Hclk, Hlast in IH. specialize (IH Hfb).
    destruct (run_queries base' rest) as [b2 outs]; cbn in *. auto.
  - specialize (IH base Hfb).
    destruct (run_queries base rest) as [b2 outs]; cbn in *. exact IH.
Qed.

(** A timer in fallback mode whose raw clock jumps back by 40 seconds. *)
Lemma emulated_clock_forward_only_witness :
  nondecreasing_from (mk_timeval 100 0)
    (snd (run_queries
            (mk_timer (-1) (mk_timeval 0 0) (mk_timeval 100 0))
            [mk_reading (Some (mk_timeval 60 500000)) (fun _ => None);
             mk_reading None (fun _ => None);
             mk_reading (Some (mk_timeval 61 0)) (fun _ => None)])).
Proof.
  apply (emulated_clock_forward_only _
           (mk_timer (-1) (mk_timeval 0 0) (mk_timeval 100 0))).
  simpl. lia.
Defined.

(** The claim of C2 read literally fails on a negative interval: five
    seconds before zero convert to -5000, neither non-negative nor -1. *)
Lemma tv_to_msec_negative_input :
  evutil_tv_to_msec_ (mk_timeval (-5) 0) = -5000
  /\ ~ msec_budget_ok (mk_timeval (-5) 0).
Proof.
  split; [reflexivity|].
  unfold msec_budget_ok.
  change (evutil_tv_to_msec_ (mk_timeval (-5) 0)) with (-5000).
  intros [H | [H _]]; lia.
Qed.

Lemma gtb_true a b : b < a -> (a >? b) = true.
Proof. intros H. rewrite Z.gtb_ltb. now apply Z.ltb_lt. Qed.

Lemma gtb_false a b : a <= b -> (a >? b) = false.
Proof. intros H. rewrite Z.gtb_ltb. now apply Z.ltb_ge. Qed.

Lemma max_seconds_value : MAX_SECONDS_IN_MSEC_LONG = 9223372036854774.
Proof. reflexivity. Qed.

(** C2 (amended): for an interval with non-negative fields,
    evutil_tv_to_msec_ returns -1 exactly when the interval is too large
    (tv_usec > 1000000 or tv_sec > (LONG_MAX-999)/1000), and otherwise the
    non-negative count tv_sec*1000 + ceil(tv_usec/1000), computed without
    overflow. *)
Theorem tv_to_msec_nonneg_interval :
  forall tv : timeval,
    0 <= tv_sec tv -> 0 <= tv_usec tv ->
    (too_large tv -> evutil_tv_to_msec_ tv = -1)
    /\ (~ too_large tv ->
        evutil_tv_to_msec_ tv = tv_sec tv * 1000 + (tv_usec tv + 999) / 1000
        /\ 0 <= evutil_tv_to_msec_ tv <= LONG_MAX
        /\ 1000 * (evutil_tv_to_msec_ tv - tv_sec tv * 1000) >= tv_usec tv
        /\ 1000 * (evutil_tv_to_msec_ tv - tv_sec tv * 1000) < tv_usec tv + 1000).
Proof.
  intros [s u] Hs Hu; cbn in *.
  unfold too_large, evutil_tv_to_msec_; cbn. rewrite max_seconds_value.
  split.
  - intros [H | H].
    + rewrite (gtb_true u) by lia. reflexivity.
    + rewrite (gtb_true s) by lia. now rewrite orb_true_r.
  - intros H.
    assert (u <= 1000000 /\ s <= 9223372036854774) as [Hu' Hs'] by lia.
    rewrite (gtb_false u), (gtb_false s) by lia.
    cbn [orb].
    assert (Hq : Z.quot (u + 999) 1000 = (u + 999) / 1000)
      by (apply Z.quot_div_nonneg; lia).
    pose proof (Z.div_mod (u + 999) 1000 ltac:(lia)) as Hdm.
    pose proof (Z.mod_pos_bound (u + 999) 1000 ltac:(lia)) as Hmb.
    rewrite (wrap_long_id (s * 1000)) by (unfold in_long, LONG_MIN, LONG_MAX; lia).
    rewrite (wrap_long_id (u + 999)) by (unfold in_long, LONG_MIN, LONG_MAX; lia).
    rewrite Hq.
    rewrite wrap_long_id by (unfold in_long, LONG_MIN, LONG_MAX; lia).
    unfold LONG_MAX. repeat split; lia.
Qed.

Lemma tv_to_msec_nonneg_interval_witness :
  evutil_tv_to_msec_ (mk_timeval 2 1500) = 2 * 1000 + (1500 + 999) / 1000.
Proof.
  apply (tv_to_msec_nonneg_interval (mk_timeval 2 1500)).
  - simpl. lia.
  - simpl. lia.
  - unfold too_large. rewrite max_seconds_value. simpl. lia.
Defined.

Section ConfigureFacts.
Variables CLOCK_MONOTONIC CLOCK_MONOTONIC_COARSE : Z.
Hypothesis monotonic_id_nonneg : 0 <= CLOCK_MONOTONIC.
Hypothesis coarse_id_nonneg : 0 <= CLOCK_MONOTONIC_COARSE.

Let configure := evutil_configure_monotonic_time_ CLOCK_MONOTONIC CLOCK_MONOTONIC_COARSE.
Let unusable := no_clock_usable CLOCK_MONOTONIC CLOCK_MONOTONIC_COARSE.

(** C4: with clock identifiers that are not negative, configuring the
    monotonic clock returns 0 for every flags value and every outcome of the
    clock_gettime probes; it changes only monotonic_clock, which becomes
    CLOCK_MONOTONIC_COARSE or CLOCK_MONOTONIC after a successful probe, and
    -1 exactly when EV_MONOT_FALLBACK is set or no allowed probe succeeds;
    with -1 every later query goes through the gettimeofday ratchet. *)
Theorem configure_monotonic_never_fails :
  forall (base : evutil_monotonic_timer) (flags : Z) (env1 env2 : clock_reading),
  exists base',
    configure base flags env1 env2 = Some (0, base')
    /\ adjust_monotonic_clock base' = adjust_monotonic_clock base
    /\ last_time base' = last_time base
    /\ ((monotonic_clock base' = CLOCK_MONOTONIC_COARSE
         /\ probe_ok env1 CLOCK_MONOTONIC_COARSE = true)
        \/ (monotonic_clock base' = CLOCK_MONOTONIC
            /\ probe_ok env2 CLOCK_MONOTONIC = true)
        \/ monotonic_clock base' = -1)
    /\ (Z.land flags EV_MONOT_FALLBACK <> 0 \/ unusable flags env1 env2
        -> monotonic_clock base' = -1
           /\ forall env raw,
                rd_gettimeofday env = Some raw ->
                evutil_gettime_monotonic_ base' env
                = (0, fst (adjust_monotonic_time base' raw),
                   Some (snd (adjust_monotonic_time base' raw))))
    /\ (monotonic_clock base' = -1
        -> Z.land flags EV_MONOT_FALLBACK <> 0 \/ unusable flags env1 env2).
Proof.
  intros base flags env1 env2.
  unfold configure, unusable, evutil_configure_monotonic_time_, no_clock_usable.
  rewrite (proj2 (Z.ltb_ge CLOCK_MONOTONIC_COARSE 0)) by lia.
  rewrite (proj2 (Z.ltb_ge CLOCK_MONOTONIC 0)) by lia.
  destruct (Z.eqb_spec (Z.land flags EV_MONOT_PRECISE) 0) as [Hp|Hp];
  destruct (Z.eqb_spec (Z.land flags EV_MONOT_FALLBACK) 0) as [Hf|Hf];
  destruct (probe_ok env1 CLOCK_MONOTONIC_COARSE) eqn:P1;
  destruct (probe_ok env2 CLOCK_MONOTONIC) eqn:P2; cbn [andb];
  eexists; (split; [reflexivity|]); cbn;
  repeat match goal with
         | |- _ /\ _ => split
         end; try reflexivity; try tauto; try lia;
  try (intros [?|[? [?|?]]]; try congruence; try lia);
  try (split; [reflexivity|]; intros env raw Hr;
       unfold evutil_gettime_monotonic_; cbn; rewrite Hr;
       destruct (adjust_monotonic_time _ raw); reflexivity);
  try (intros ->; lia).
Qed.

End ConfigureFacts.

(** The Linux identifiers (CLOCK_MONOTONIC = 1, CLOCK_MONOTONIC_COARSE = 6),
    EV_MONOT_FALLBACK requested, both probes answering. *)
Lemma configure_monotonic_never_fails_witness :
  exists base',
    evutil_configure_monotonic_time_ 1 6
      (mk_timer 0 (mk_timeval 0 0) (mk_timeval 0 0)) 2
      (mk_reading None (fun _ => Some (5, 0)))
      (mk_reading None (fun _ => Some (5, 0))) = Some (0, base').
Proof.
  destruct (configure_monotonic_never_fails 1 6 ltac:(lia) ltac:(lia)
              (mk_timer 0 (mk_timeval 0 0) (mk_timeval 0 0)) 2
              (mk_reading None (fun _ => Some (5, 0)))
              (mk_reading None (fun _ => Some (5, 0)))) as [b [H _]].
  exists b. exact H.
Defined.

End EvutilTimeFacts.

Module FdFacts.
Import Fd.

Lemma fd_lookup_Some_nonneg t fd f : fd_lookup t fd = Some f -> 0 <= fd.
Proof.
  unfold fd_lookup. destruct (Z.ltb_spec fd 0); [discriminate | lia].
Qed.

Lemma fd_lookup_Some_slot t fd f :
  fd_lookup t fd = Some f -> t !! Z.to_nat fd = Some (Some f).
Proof.
  unfold fd_lookup. destruct (fd <? 0); [discriminate|].
  destruct (t !! Z.to_nat fd) as [[g|]|]; congruence.
Qed.

Lemma fd_lookup_store_eq t fd f v :
  fd_lookup t fd = Some f -> fd_lookup (fd_store t fd v) fd = v.
Proof.
  intros Hl. pose proof (fd_lookup_Some_nonneg _ _ _ Hl) as Hn.
  apply fd_lookup_Some_slot in Hl.
  unfold fd_lookup, fd_store.
  rewrite (proj2 (Z.ltb_ge fd 0)) by lia.
  rewrite list_lookup_insert_eq by (eapply lookup_lt_Some; eauto).
  now destruct v.
Qed.

Lemma fd_lookup_store_ne t fd fd' v :
  0 <= fd -> fd' <> fd -> fd_lookup (fd_store t fd v) fd' = fd_lookup t fd'.
Proof.
  intros Hn Hne. unfold fd_lookup, fd_store.
  destruct (Z.ltb_spec fd' 0); [reflexivity|].
  rewrite list_lookup_insert_ne by lia. reflexivity.
Qed.

(** What [fd_alloc] promises: the slot was free, now holds the file, and
    no other slot changed. *)
Lemma fd_alloc_spec f : forall t n t',
  fd_alloc t f = (n, t') ->
  fd_lookup t (Z.of_nat n) = None
  /\ fd_lookup t' (Z.of_nat n) = Some f
  /\ forall fd, fd <> Z.of_nat n -> fd_lookup t' fd = fd_lookup t fd.
Proof.
  unfold fd_lookup.
  induction t as [|[g|] t IH]; intros n t' E; cbn in E.
  - inversion E; subst; clear E. cbn. repeat split.
    intros fd Hne. destruct (Z.ltb_spec fd 0); [reflexivity|].
    destruct (Z.to_nat fd) as [|m] eqn:Em; [lia|]. cbn.
    now destruct m.
  - destruct (fd_alloc t f) as [m t''] eqn:Ea. inversion E; subst; clear E.
    destruct (IH _ _ eq_refl) as (H1 & H2 & H3).
    rewrite (proj2 (Z.ltb_ge (Z.of_nat m) 0)) in H1, H2 by lia.
    rewrite (proj2 (Z.ltb_ge (Z.of_nat (S m)) 0)) by lia.
    rewrite !Nat2Z.id in *. cbn. repeat split; auto.
    intros fd Hne. destruct (Z.ltb_spec fd 0) as [|Hge]; [reflexivity|].
    destruct (Z.to_nat fd) as [|j] eqn:Ej; [reflexivity|]. cbn.
    specialize (H3 (Z.of_nat j)).
    rewrite (proj2 (Z.ltb_ge (Z.of_nat j) 0)), Nat2Z.id in H3 by lia.
    apply H3. lia.
  - inversion E; subst; clear E. cbn. repeat split.
    intros fd Hne. destruct (Z.ltb_spec fd 0); [reflexivity|].
    destruct (Z.to_nat fd) as [|m] eqn:Em; [lia|]. reflexivity.
Qed.

Ltac sys_run :=
  unfold mbind, sys_bind, mret, sys_ret, get_table, put_table, next_fate in *;
  cbn in *.

Section FlagFacts.
Context `{FcntlFlags}.

Lemma land_lor_self a m : Z.land (Z.lor a m) m = m.
Proof.
  apply Z.bits_inj'; intros n Hn.
  rewrite Z.land_spec, Z.lor_spec. now destruct (Z.testbit a n), (Z.testbit m n).
Qed.

(** Merging [flags | O_NONBLOCK] into the settable part of [flags] adds
    O_NONBLOCK and nothing else. *)
Lemma setfl_merge_adds_nonblock a :
  Z.lor (Z.land (Z.lor a O_NONBLOCK) SETFL_MASK) (Z.land a (Z.lnot SETFL_MASK))
  = Z.lor a O_NONBLOCK.
Proof.
  apply Z.bits_inj'; intros n Hn.
  pose proof (f_equal (fun z => Z.testbit z n) O_NONBLOCK_settable) as Hs.
  cbn in Hs. rewrite Z.land_spec in Hs.
  rewrite !Z.lor_spec, !Z.land_spec, Z.lor_spec, Z.lnot_spec by lia.
  destruct (Z.testbit a n), (Z.testbit O_NONBLOCK n), (Z.testbit SETFL_MASK n);
    cbn in *; congruence.
Qed.

(** Setting exactly O_NONBLOCK leaves a flag word that contains it. *)
Lemma setfl_merge_has_nonblock a :
  Z.land (Z.lor (Z.land O_NONBLOCK SETFL_MASK) (Z.land a (Z.lnot SETFL_MASK)))
         O_NONBLOCK = O_NONBLOCK.
Proof.
  rewrite O_NONBLOCK_settable, Z.lor_comm. apply land_lor_self.
Qed.

Lemma bind_run {A B} (m : sys A) (f : A -> sys B) k a k' :
  m k = (a, k') -> (m ≫= f) k = f a k'.
Proof. intros E. unfold mbind, sys_bind. now rewrite E. Qed.

Lemma sys_fcntl_getfl_run fd k :
  sys_fcntl_getfl fd k
  = (match fd_lookup (fdt k) fd with Some f => f_flags f | None => -1 end, k).
Proof. reflexivity. Qed.

Lemma sys_fcntl_getfd_run fd k :
  sys_fcntl_getfd fd k
  = (match fd_lookup (fdt k) fd with Some f => fd_flags f | None => -1 end, k).
Proof. reflexivity. Qed.

(** The outcomes of F_SETFL on an open descriptor: the merge is stored and
    0 returned, or nothing is stored and -1 returned. *)
Lemma sys_fcntl_setfl_open fd arg k f :
  fd_lookup (fdt k) fd = Some f ->
  exists fa,
    sys_fcntl_setfl fd arg k
    = (0, mk_kernel
            (fd_store (fdt k) fd
               (Some (mk_open_file
                        (Z.lor (Z.land arg SETFL_MASK)
                               (Z.land (f_flags f) (Z.lnot SETFL_MASK)))
                        (fd_flags f)))) fa)
    \/ sys_fcntl_setfl fd arg k = (-1, mk_kernel (fdt k) fa).
Proof.
  intros Hl. destruct k as [t fa]. unfold sys_fcntl_setfl. sys_run.
  rewrite Hl. destruct fa as [|[|] fa]; cbn; eauto.
Qed.

Lemma sys_fcntl_setfd_open fd arg k f :
  fd_lookup (fdt k) fd = Some f ->
  exists fa,
    sys_fcntl_setfd fd arg k
    = (0, mk_kernel (fd_store (fdt k) fd (Some (mk_open_file (f_flags f) arg))) fa)
    \/ sys_fcntl_setfd fd arg k = (-1, mk_kernel (fdt k) fa).
Proof.
  intros Hl. destruct k as [t fa]. unfold sys_fcntl_setfd. sys_run.
  rewrite Hl. destruct fa as [|[|] fa]; cbn; eauto.
Qed.

Lemma sys_close_open fd k f :
  fd_lookup (fdt k) fd = Some f ->
  exists r fa, sys_close fd k = (r, mk_kernel (fd_store (fdt k) fd None) fa).
Proof.
  intros Hl. destruct k as [t fa]. unfold sys_close. sys_run.
  rewrite Hl. destruct fa as [|[|] fa]; cbn; eauto.
Qed.

(** The flag-adding functions share one shape; [step] runs the read of the
    flag word and splits on the three tests of the body. *)
Lemma make_socket_nonblocking_run fd k f :
  fd_lookup (fdt k) fd = Some f ->
  evutil_make_socket_nonblocking fd k
  = if f_flags f <? 0 then (-1, k)
    else if Z.land (f_flags f) O_NONBLOCK =? 0
         then let '(r, k') := sys_fcntl_setfl fd (Z.lor (f_flags f) O_NONBLOCK) k in
              if r =? -1 then (-1, k') else (0, k')
         else (0, k).
Proof.
  intros Hl. unfold evutil_make_socket_nonblocking.
  erewrite bind_run by apply sys_fcntl_getfl_run. rewrite Hl.
  destruct (f_flags f <? 0); [reflexivity|].
  destruct (Z.land (f_flags f) O_NONBLOCK =? 0); [|reflexivity].
  unfold mbind, sys_bind.
  destruct (sys_fcntl_setfl _ _ k) as [r k']. now destruct (r =? -1).
Qed.

Lemma make_socket_closeonexec_run fd k f :
  fd_lookup (fdt k) fd = Some f ->
  evutil_make_socket_closeonexec fd k
  = if fd_flags f <? 0 then (-1, k)
    else if Z.land (fd_flags f) FD_CLOEXEC =? 0
         then let '(r, k') := sys_fcntl_setfd fd (Z.lor (fd_flags f) FD_CLOEXEC) k in
              if r =? -1 then (-1, k') else (0, k')
         else (0, k).
Proof.
  intros Hl. unfold evutil_make_socket_closeonexec.
  erewrite bind_run by apply sys_fcntl_getfd_run. rewrite Hl.
  destruct (fd_flags f <? 0); [reflexivity|].
  destruct (Z.land (fd_flags f) FD_CLOEXEC =? 0); [|reflexivity].
  unfold mbind, sys_bind.
  destruct (sys_fcntl_setfd _ _ k) as [r k']. now destruct (r =? -1).
Qed.

Lemma make_socket_nonblocking_closed fd k :
  fd_lookup (fdt k) fd = None -> evutil_make_socket_nonblocking fd k = (-1, k).
Proof.
  intros Hl. unfold evutil_make_socket_nonblocking.
  erewrite bind_run by apply sys_fcntl_getfl_run. now rewrite Hl.
Qed.

Lemma make_socket_closeonexec_closed fd k :
  fd_lookup (fdt k) fd = None -> evutil_make_socket_closeonexec fd k = (-1, k).
Proof.
  intros Hl. unfold evutil_make_socket_closeonexec.
  erewrite bind_run by apply sys_fcntl_getfd_run. now rewrite Hl.
Qed.

(** C9: evutil_make_socket_nonblocking and evutil_make_socket_closeonexec
    only add their flag and are idempotent.  Whenever either returns 0 on a
    descriptor, the descriptor was open; its flag word is the old one with
    the single flag or-ed in when the flag was clear, and the whole kernel
    state is untouched when the flag was already set; the other flag word
    of the descriptor and every other descriptor are unchanged; and calling
    the function again returns 0 and changes nothing.  On an open
    descriptor whose flag is already set the call returns 0 without any
    modification. *)
Theorem make_socket_flags_frame_idempotent :
  forall (fd : Z) (k : kernel),
    (forall k', evutil_make_socket_nonblocking fd k = (0, k') ->
       exists f,
         fd_lookup (fdt k) fd = Some f
         /\ (Z.land (f_flags f) O_NONBLOCK = 0 ->
             fd_lookup (fdt k') fd
             = Some (mk_open_file (Z.lor (f_flags f) O_NONBLOCK) (fd_flags f)))
         /\ (Z.land (f_flags f) O_NONBLOCK <> 0 -> k' = k)
         /\ (forall fd', fd' <> fd -> fd_lookup (fdt k') fd' = fd_lookup (fdt k) fd')
         /\ evutil_make_socket_nonblocking fd k' = (0, k'))
    /\ (forall f, fd_lookup (fdt k) fd = Some f -> 0 <= f_flags f ->
         Z.land (f_flags f) O_NONBLOCK <> 0 ->
         evutil_make_socket_nonblocking fd k = (0, k))
    /\ (forall f, fd_lookup (fdt k) fd = Some f -> 0 <= fd_flags f ->
         Z.land (fd_flags f) FD_CLOEXEC <> 0 ->
         evutil_make_socket_closeonexec fd k = (0, k))
    /\ (forall k', evutil_make_socket_closeonexec fd k = (0, k') ->
       exists f,
         fd_lookup (fdt k) fd = Some f
         /\ (Z.land (fd_flags f) FD_CLOEXEC = 0 ->
             fd_lookup (fdt k') fd
             = Some (mk_open_file (f_flags f) (Z.lor (fd_flags f) FD_CLOEXEC)))
         /\ (Z.land (fd_flags f) FD_CLOEXEC <> 0 -> k' = k)
         /\ (forall fd', fd' <> fd -> fd_lookup (fdt k') fd' = fd_lookup (fdt k) fd')
         /\ evutil_make_socket_closeonexec fd k' = (0, k')).
Proof.
  intros fd k. split; [|split; [|split]]; [intros k' E | | | intros k' E].
  2: { intros f Hl Hpos Hset. rewrite (make_socket_nonblocking_run _ _ _ Hl).
       rewrite (proj2 (Z.ltb_ge (f_flags f) 0)) by lia.
       now destruct (Z.eqb_spec (Z.land (f_flags f) O_NONBLOCK) 0). }
  2: { intros f Hl Hpos Hset. rewrite (make_socket_closeonexec_run _ _ _ Hl).
       rewrite (proj2 (Z.ltb_ge (fd_flags f) 0)) by lia.
       now destruct (Z.eqb_spec (Z.land (fd_flags f) FD_CLOEXEC) 0). }
  - destruct (fd_lookup (fdt k) fd) as [f|] eqn:Hl;
      [|rewrite make_socket_nonblocking_closed in E by assumption; discriminate].
    pose proof (fd_lookup_Some_nonneg _ _ _ Hl) as Hfd.
    pose proof O_NONBLOCK_pos as Hnb.
    exists f. split; [reflexivity|].
    pose proof E as E0.
    rewrite (make_socket_nonblocking_run _ _ _ Hl) in E.
    destruct (Z.ltb_spec (f_flags f) 0) as [|Hpos]; [discriminate|].
    destruct (Z.eqb_spec (Z.land (f_flags f) O_NONBLOCK) 0) as [Hz|Hnz].
    + destruct (sys_fcntl_setfl_open fd (Z.lor (f_flags f) O_NONBLOCK) k f Hl)
        as [fa [R|R]]; rewrite R in E; cbn in E; [|discriminate].
      inversion E; subst k'; clear E. cbn [fdt].
      rewrite setfl_merge_adds_nonblock.
      assert (Hnew : fd_lookup
                (fd_store (fdt k) fd
                   (Some (mk_open_file (Z.lor (f_flags f) O_NONBLOCK) (fd_flags f)))) fd
              = Some (mk_open_file (Z.lor (f_flags f) O_NONBLOCK) (fd_flags f)))
        by (eapply fd_lookup_store_eq; eauto).
      repeat split; auto.
      * intros; contradiction.
      * intros; apply fd_lookup_store_ne; auto.
      * erewrite make_socket_nonblocking_run by exact Hnew. cbn [f_flags].
        rewrite (proj2 (Z.ltb_ge (Z.lor (f_flags f) O_NONBLOCK) 0))
          by (apply Z.lor_nonneg; lia).
        rewrite land_lor_self.
        destruct (Z.eqb_spec O_NONBLOCK 0); [lia | reflexivity].
    + inversion E; subst k'; clear E. repeat split; auto.
      intros; contradiction.
  - destruct (fd_lookup (fdt k) fd) as [f|] eqn:Hl;
      [|rewrite make_socket_closeonexec_closed in E by assumption; discriminate].
    pose proof (fd_lookup_Some_nonneg _ _ _ Hl) as Hfd.
    pose proof FD_CLOEXEC_pos as Hce.
    exists f. split; [reflexivity|].
    pose proof E as E0.
    rewrite (make_socket_closeonexec_run _ _ _ Hl) in E.
    destruct (Z.ltb_spec (fd_flags f) 0) as [|Hpos]; [discriminate|].
    destruct (Z.eqb_spec (Z.land (fd_flags f) FD_CLOEXEC) 0) as [Hz|Hnz].
    + destruct (sys_fcntl_setfd_open fd (Z.lor (fd_flags f) FD_CLOEXEC) k f Hl)
        as [fa [R|R]]; rewrite R in E; cbn in E; [|discriminate].
      inversion E; subst k'; clear E. cbn [fdt].
      assert (Hnew : fd_lookup
                (fd_store (fdt k) fd
                   (Some (mk_open_file (f_flags f) (Z.lor (fd_flags f) FD_CLOEXEC)))) fd
              = Some (mk_open_file (f_flags f) (Z.lor (fd_flags f) FD_CLOEXEC)))
        by (eapply fd_lookup_store_eq; eauto).
      repeat split; auto.
      * intros; contradiction.
      * intros; apply fd_lookup_store_ne; auto.
      * erewrite make_socket_closeonexec_run by exact Hnew. cbn [fd_flags].
        rewrite (proj2 (Z.ltb_ge (Z.lor (fd_flags f) FD_CLOEXEC) 0))
          by (apply Z.lor_nonneg; lia).
        rewrite land_lor_self.
        destruct (Z.eqb_spec FD_CLOEXEC 0); [lia | reflexivity].
    + inversion E; subst k'; clear E. repeat split; auto.
      intros; contradiction.
Qed.

(** One flag-setting call of the pipe set-up, as the [||] chain sees it:
    it failed and stored nothing, or it stored the new flag word. *)
Lemma fast_nonblocking_step fd k f :
  fd_lookup (fdt k) fd = Some f ->
  exists fa,
    failed (evutil_fast_socket_nonblocking fd) k
    = (false, mk_kernel
                (fd_store (fdt k) fd
                   (Some (mk_open_file
                            (Z.lor (Z.land O_NONBLOCK SETFL_MASK)
                                   (Z.land (f_flags f) (Z.lnot SETFL_MASK)))
                            (fd_flags f)))) fa)
    \/ failed (evutil_fast_socket_nonblocking fd) k = (true, mk_kernel (fdt k) fa).
Proof.
  intros Hl. unfold failed, evutil_fast_socket_nonblocking.
  destruct (sys_fcntl_setfl_open fd O_NONBLOCK k f Hl) as [fa [R|R]];
    exists fa; [left|right];
    erewrite bind_run by (erewrite bind_run by exact R; reflexivity);
    reflexivity.
Qed.

Lemma fast_closeonexec_step fd k f :
  fd_lookup (fdt k) fd = Some f ->
  exists fa,
    failed (evutil_fast_socket_closeonexec fd) k
    = (false, mk_kernel
                (fd_store (fdt k) fd (Some (mk_open_file (f_flags f) FD_CLOEXEC))) fa)
    \/ failed (evutil_fast_socket_closeonexec fd) k = (true, mk_kernel (fdt k) fa).
Proof.
  intros Hl. unfold failed, evutil_fast_socket_closeonexec.
  destruct (sys_fcntl_setfd_open fd FD_CLOEXEC k f Hl) as [fa [R|R]];
    exists fa; [left|right];
    erewrite bind_run by (erewrite bind_run by exact R; reflexivity);
    reflexivity.
Qed.

(** The table [t'] differs from [t] at most at the two open descriptors
    [r] and [w]. *)
Definition touches_only (r w : Z) (t t' : fd_table) : Prop :=
  (exists f, fd_lookup t' r = Some f)
  /\ (exists f, fd_lookup t' w = Some f)
  /\ forall fd, fd <> r -> fd <> w -> fd_lookup t' fd = fd_lookup t fd.

Lemma touches_only_refl r w t fr fw :
  fd_lookup t r = Some fr -> fd_lookup t w = Some fw -> touches_only r w t t.
Proof. unfold touches_only; eauto. Qed.

Lemma touches_only_store_l r w t t' f g :
  r <> w -> touches_only r w t t' -> fd_lookup t' r = Some f ->
  touches_only r w t (fd_store t' r (Some g)).
Proof.
  intros Hne (Hr & [fw Hw] & Ho) Hl.
  pose proof (fd_lookup_Some_nonneg _ _ _ Hl).
  repeat split.
  - exists g. eapply fd_lookup_store_eq; eauto.
  - exists fw. rewrite fd_lookup_store_ne; auto.
  - intros fd H1 H2. rewrite fd_lookup_store_ne; auto.
Qed.

Lemma touches_only_store_r r w t t' f g :
  r <> w -> touches_only r w t t' -> fd_lookup t' w = Some f ->
  touches_only r w t (fd_store t' w (Some g)).
Proof.
  intros Hne ([fr Hr] & Hw & Ho) Hl.
  pose proof (fd_lookup_Some_nonneg _ _ _ Hl).
  repeat split.
  - exists fr. rewrite fd_lookup_store_ne; auto.
  - exists g. eapply fd_lookup_store_eq; eauto.
  - intros fd H1 H2. rewrite fd_lookup_store_ne; auto.
Qed.

Lemma has_nonblock_cloexec t fd a b :
  fd_lookup t fd
  = Some (mk_open_file
            (Z.lor (Z.land O_NONBLOCK SETFL_MASK) (Z.land a (Z.lnot SETFL_MASK)))
            b) ->
  Z.land b FD_CLOEXEC <> 0 ->
  nonblocking_cloexec t fd.
Proof.
  intros Hl Hb. split; [eapply fd_lookup_Some_nonneg; eauto|].
  eexists; split; [exact Hl|]. cbn. split; [|exact Hb].
  rewrite setfl_merge_has_nonblock. pose proof O_NONBLOCK_pos. lia.
Qed.

(** The [||] chain of four calls on two distinct open descriptors touches
    nothing else, leaves both open, and reports no failure only when both
    ends carry both flags. *)
Lemma flag_setup_failed_spec r w k fr fw :
  r <> w ->
  fd_lookup (fdt k) r = Some fr -> fd_lookup (fdt k) w = Some fw ->
  exists bad k',
    flag_setup_failed (r, w) k = (bad, k')
    /\ touches_only r w (fdt k) (fdt k')
    /\ (bad = false ->
        nonblocking_cloexec (fdt k') r /\ nonblocking_cloexec (fdt k') w).
Proof.
  intros Hne Hr Hw. unfold flag_setup_failed, or_else. cbn [fst snd].
  pose proof (fd_lookup_Some_nonneg _ _ _ Hr) as Hr0.
  pose proof (fd_lookup_Some_nonneg _ _ _ Hw) as Hw0.
  pose proof (touches_only_refl _ _ _ _ _ Hr Hw) as T0.
  pose proof FD_CLOEXEC_pos as Hce.
  assert (Hcc : Z.land FD_CLOEXEC FD_CLOEXEC <> 0) by (rewrite Z.land_diag; lia).
  (* first call: O_NONBLOCK on the read end *)
  destruct (fast_nonblocking_step r k fr Hr) as [fa1 [R1|R1]];
    erewrite bind_run by exact R1;
    [|do 2 eexists; split; [reflexivity|]; split; [exact T0 | discriminate]].
  set (f1 := mk_open_file _ (fd_flags fr)) in *.
  set (k1 := mk_kernel _ fa1) in *.
  assert (Hr1 : fd_lookup (fdt k1) r = Some f1)
    by (eapply fd_lookup_store_eq; eauto).
  assert (Hw1 : fd_lookup (fdt k1) w = Some fw)
    by (cbn; rewrite fd_lookup_store_ne; auto).
  assert (T1 : touches_only r w (fdt k) (fdt k1))
    by (eapply touches_only_store_l; eauto).
  (* second call: O_NONBLOCK on the write end *)
  destruct (fast_nonblocking_step w k1 fw Hw1) as [fa2 [R2|R2]];
    erewrite bind_run by exact R2;
    [|do 2 eexists; split; [reflexivity|]; split; [exact T1 | discriminate]].
  set (f2 := mk_open_file _ (fd_flags fw)) in *.
  set (k2 := mk_kernel _ fa2) in *.
  assert (Hw2 : fd_lookup (fdt k2) w = Some f2)
    by (eapply fd_lookup_store_eq; eauto).
  assert (Hr2 : fd_lookup (fdt k2) r = Some f1)
    by (cbn; rewrite fd_lookup_store_ne; auto).
  assert (T2 : touches_only r w (fdt k) (fdt k2))
    by (eapply touches_only_store_r; eauto).
  (* third call: FD_CLOEXEC on the read end *)
  destruct (fast_closeonexec_step r k2 f1 Hr2) as [fa3 [R3|R3]];
    erewrite bind_run by exact R3;
    [|do 2 eexists; split; [reflexivity|]; split; [exact T2 | discriminate]].
  set (k3 := mk_kernel _ fa3) in *.
  assert (Hr3 : fd_lookup (fdt k3) r = Some (mk_open_file (f_flags f1) FD_CLOEXEC))
    by (eapply fd_lookup_store_eq; eauto).
  assert (Hw3 : fd_lookup (fdt k3) w = Some f2)
    by (cbn; rewrite fd_lookup_store_ne; auto).
  assert (T3 : touches_only r w (fdt k) (fdt k3))
    by (eapply touches_only_store_l; eauto).
  (* fourth call: FD_CLOEXEC on the write end *)
  destruct (fast_closeonexec_step w k3 f2 Hw3) as [fa4 [R4|R4]];
    rewrite R4;
    (do 2 eexists; split; [reflexivity|]); (split; [|try discriminate]).
  - eapply touches_only_store_r; eauto.
  - intros _. cbn [fdt]. split.
    + eapply has_nonblock_cloexec; [|exact Hcc].
      rewrite fd_lookup_store_ne by auto. exact Hr3.
    + eapply has_nonblock_cloexec; [|exact Hcc].
      eapply fd_lookup_store_eq; eauto.
  - exact T3.
Qed.

(** Closing both ends of a pair that did not exist before restores every
    lookup of the original table. *)
Lemma close_pair_restores {A} (x : A) r w t k :
  r <> w ->
  fd_lookup t r = None -> fd_lookup t w = None ->
  touches_only r w t (fdt k) ->
  exists k',
    (sys_close r ≫= (fun _ => sys_close w ≫= (fun _ => (mret x : sys A)))) k
    = (x, k')
    /\ forall fd, fd_lookup (fdt k') fd = fd_lookup t fd.
Proof.
  intros Hne Hr Hw ([fr Hfr] & [fw Hfw] & Ho).
  pose proof (fd_lookup_Some_nonneg _ _ _ Hfr) as Hr0.
  pose proof (fd_lookup_Some_nonneg _ _ _ Hfw) as Hw0.
  intros.
  destruct (sys_close_open r k fr Hfr) as (r1 & fa1 & C1).
  erewrite bind_run by exact C1.
  set (k1 := mk_kernel _ fa1) in *.
  assert (Hfw1 : fd_lookup (fdt k1) w = Some fw)
    by (cbn; rewrite fd_lookup_store_ne; auto).
  destruct (sys_close_open w k1 fw Hfw1) as (r2 & fa2 & C2).
  erewrite bind_run by exact C2.
  eexists; split; [reflexivity|]. cbn [fdt].
  intros fd.
  destruct (Z.eq_dec fd w) as [->|Hnw].
  - rewrite Hw. eapply fd_lookup_store_eq; eauto.
  - rewrite fd_lookup_store_ne by auto. cbn [k1 fdt].
    destruct (Z.eq_dec fd r) as [->|Hnr].
    + rewrite Hr. eapply fd_lookup_store_eq; eauto.
    + rewrite fd_lookup_store_ne by auto. auto.
Qed.

(** A new pair: two distinct descriptors, both free before, each holding
    its end after, every other slot as before, and no outcome of the script
    consumed. *)
Lemma new_pair_spec mode0 mode1 flags k :
  exists r w t',
    new_pair mode0 mode1 flags k = ((r, w), mk_kernel t' (fate k))
    /\ r <> w
    /\ fd_lookup (fdt k) r = None /\ fd_lookup (fdt k) w = None
    /\ fd_lookup t' r = Some (pair_end mode0 flags)
    /\ fd_lookup t' w = Some (pair_end mode1 flags)
    /\ forall fd, fd <> r -> fd <> w -> fd_lookup t' fd = fd_lookup (fdt k) fd.
Proof.
  unfold new_pair. sys_run.
  destruct (fd_alloc (fdt k) (pair_end mode0 flags)) as [r t1] eqn:A1.
  destruct (fd_alloc t1 (pair_end mode1 flags)) as [w t2] eqn:A2.
  destruct (fd_alloc_spec _ _ _ _ A1) as (F1 & S1 & O1).
  destruct (fd_alloc_spec _ _ _ _ A2) as (F2 & S2 & O2).
  assert (Hne : Z.of_nat r <> Z.of_nat w) by (intros E; rewrite E in S1; congruence).
  exists (Z.of_nat r), (Z.of_nat w), t2. repeat split; auto.
  - rewrite <- O1 by auto. exact F2.
  - rewrite O2 by auto. exact S1.
  - intros fd H1 H2. rewrite O2, O1; auto.
Qed.

Lemma sys_pipe2_run fd flags k :
  exists fa,
    (exists p k', new_pair O_RDONLY O_WRONLY flags (mk_kernel (fdt k) fa) = (p, k')
                  /\ sys_pipe2 fd flags k = ((0, p), k'))
    \/ sys_pipe2 fd flags k = ((-1, fd), mk_kernel (fdt k) fa).
Proof.
  destruct k as [t fa]. unfold sys_pipe2. sys_run.
  destruct fa as [|[|] fa]; cbn.
  - exists []. left.
    destruct (new_pair O_RDONLY O_WRONLY flags (mk_kernel t [])) as [p k'] eqn:E.
    eauto.
  - exists fa. left.
    destruct (new_pair O_RDONLY O_WRONLY flags (mk_kernel t fa)) as [p k'] eqn:E.
    eauto.
  - exists fa. right. reflexivity.
Qed.

Lemma sys_socketpair_run fd k :
  exists fa,
    (exists p k', new_pair O_RDWR O_RDWR 0 (mk_kernel (fdt k) fa) = (p, k')
                  /\ sys_socketpair fd k = ((0, p), k'))
    \/ sys_socketpair fd k = ((-1, fd), mk_kernel (fdt k) fa).
Proof.
  destruct k as [t fa]. unfold sys_socketpair. sys_run.
  destruct fa as [|[|] fa]; cbn.
  - exists []. left.
    destruct (new_pair O_RDWR O_RDWR 0 (mk_kernel t [])) as [p k'] eqn:E. eauto.
  - exists fa. left.
    destruct (new_pair O_RDWR O_RDWR 0 (mk_kernel t fa)) as [p k'] eqn:E. eauto.
  - exists fa. right. reflexivity.
Qed.

(** A pair made by [pipe] or [socketpair] and then put through the four
    flag-setting calls: either both ends end up with both flags, or both
    are closed again and the table reads as before. *)
Lemma plain_pair_then_flags (mode0 mode1 : Z) (p : Z * Z) (k0 k : kernel) :
  (forall fd, fd_lookup (fdt k0) fd = fd_lookup (fdt k) fd) ->
  forall k1, new_pair mode0 mode1 0 k = (p, k1) ->
  exists r fd' k',
    (flag_setup_failed p ≫= (fun bad : bool =>
       if bad then
         sys_close (fst p) ≫= (fun _ =>
         sys_close (snd p) ≫= (fun _ => mret (-1, (-1, -1))))
       else mret (0, p))) k1 = ((r, fd'), k')
    /\ ((r = 0
         /\ nonblocking_cloexec (fdt k') (fst fd')
         /\ nonblocking_cloexec (fdt k') (snd fd')
         /\ fst fd' <> snd fd'
         /\ fd_lookup (fdt k0) (fst fd') = None
         /\ fd_lookup (fdt k0) (snd fd') = None
         /\ forall fd, fd <> fst fd' -> fd <> snd fd' ->
                       fd_lookup (fdt k') fd = fd_lookup (fdt k0) fd)
        \/ (r = -1 /\ fd' = (-1, -1)
            /\ forall fd, fd_lookup (fdt k') fd = fd_lookup (fdt k0) fd)).
Proof.
  intros Hsame k1 E.
  destruct (new_pair_spec mode0 mode1 0 k)
    as (r & w & t' & E' & Hne & Fr & Fw & Sr & Sw & Ho).
  rewrite E in E'. inversion E'; subst p k1; clear E'.
  destruct (flag_setup_failed_spec r w (mk_kernel t' (fate k)) _ _ Hne Sr Sw)
    as (bad & k2 & R & T & Hok).
  erewrite bind_run by exact R. cbn [fst snd].
  destruct bad.
  - assert (T' : touches_only r w (fdt k) (fdt k2)).
    { destruct T as (A & B & C). repeat split; auto.
      intros fd H1 H2. rewrite C by auto. cbn. auto. }
    destruct (close_pair_restores (-1, (-1, -1)) r w (fdt k) k2 Hne Fr Fw T')
      as (k' & C & Hall).
    exists (-1), (-1, -1), k'. split; [exact C|]. right. repeat split.
    intros fd. rewrite Hall. auto.
  - destruct (Hok eq_refl) as [Nr Nw].
    exists 0, (r, w), k2. split; [reflexivity|]. left. cbn [fst snd].
    split; [reflexivity|]. split; [exact Nr|]. split; [exact Nw|].
    split; [exact Hne|]. rewrite !Hsame. split; [exact Fr|]. split; [exact Fw|].
    intros fd H1 H2. destruct T as (_ & _ & C).
    rewrite C by auto. cbn. rewrite Ho by auto. auto.
Qed.

(** C3: evutil_make_internal_pipe_ always returns, with 0 or -1.  With 0,
    fd[0] and fd[1] are two distinct newly created descriptors, both open
    with O_NONBLOCK and FD_CLOEXEC set, and no other descriptor changed.
    With -1, fd[0] = fd[1] = -1 and the descriptor table reads exactly as
    before the call: whatever was created has been closed. *)
Theorem make_internal_pipe_sets_flags_or_fails_clean :
  forall (fd : Z * Z) (k : kernel),
  exists r fd' k',
    evutil_make_internal_pipe_ fd k = ((r, fd'), k')
    /\ ((r = 0
         /\ nonblocking_cloexec (fdt k') (fst fd')
         /\ nonblocking_cloexec (fdt k') (snd fd')
         /\ fst fd' <> snd fd'
         /\ fd_lookup (fdt k) (fst fd') = None
         /\ fd_lookup (fdt k) (snd fd') = None
         /\ forall other, other <> fst fd' -> other <> snd fd' ->
                          fd_lookup (fdt k') other = fd_lookup (fdt k) other)
        \/ (r = -1 /\ fd' = (-1, -1)
            /\ forall other, fd_lookup (fdt k') other = fd_lookup (fdt k) other)).
Proof.
  intros fd k. unfold evutil_make_internal_pipe_.
  pose proof O_NONBLOCK_pos as Hnb. pose proof O_CLOEXEC_pos as Hcl.
  pose proof FD_CLOEXEC_pos as Hce.
  destruct (sys_pipe2_run fd (Z.lor O_NONBLOCK O_CLOEXEC) k)
    as [fa1 [(p & k1 & N & R)|R]]; erewrite bind_run by exact R; cbn.
  - (* pipe2 made the pair with both flags *)
    destruct (new_pair_spec O_RDONLY O_WRONLY (Z.lor O_NONBLOCK O_CLOEXEC)
                (mk_kernel (fdt k) fa1))
      as (r & w & t' & E' & Hne & Fr & Fw & Sr & Sw & Ho).
    rewrite N in E'. inversion E'; subst p k1; clear E'.
    assert (Hflags : forall x mode,
              fd_lookup t' x
              = Some (pair_end mode (Z.lor O_NONBLOCK O_CLOEXEC)) ->
              nonblocking_cloexec t' x).
    { intros x mode Hx. split; [eapply fd_lookup_Some_nonneg; eauto|].
      eexists. split; [exact Hx|]. unfold pair_end. cbn [f_flags fd_flags].
      rewrite (Z.lor_comm O_NONBLOCK), !land_lor_self.
      rewrite (Z.lor_comm O_CLOEXEC), land_lor_self.
      destruct (Z.eqb_spec O_CLOEXEC 0) as [|_]; [lia|].
      rewrite Z.land_diag. lia. }
    exists 0, (r, w), (mk_kernel t' fa1). split; [reflexivity|]. left.
    cbn [fst snd fdt] in *. split; [reflexivity|].
    split; [eapply Hflags; exact Sr|].
    split; [eapply Hflags; exact Sw|].
    auto.
  - (* pipe2 failed: try pipe *)
    set (k1 := mk_kernel (fdt k) fa1).
    destruct (sys_pipe2_run fd 0 k1) as [fa2 [(p & k2 & N & R2)|R2]];
      unfold sys_pipe; erewrite bind_run by exact R2; cbn.
    + eapply (plain_pair_then_flags _ _ p k (mk_kernel (fdt k) fa2)); eauto.
    + (* pipe failed too: try socketpair *)
      set (k2 := mk_kernel (fdt k) fa2).
      destruct (sys_socketpair_run fd k2) as [fa3 [(p & k3 & N & R3)|R3]];
        erewrite bind_run by exact R3; cbn.
      * eapply (plain_pair_then_flags _ _ p k (mk_kernel (fdt k) fa3)); eauto.
      * exists (-1), (-1, -1), (mk_kernel (fdt k) fa3).
        split; [reflexivity|]. right. repeat split.
Qed.

End FlagFacts.

(** On Linux: descriptor 0 open read-write (flags 2) with no descriptor
    flags; one successful evutil_make_socket_nonblocking stores 2|04000. *)
Lemma make_socket_flags_frame_idempotent_witness :
  exists f,
    fd_lookup [Some (mk_open_file 2 0)] 0 = Some f
    /\ fd_lookup [Some (mk_open_file 2050 0)] 0
       = Some (mk_open_file (Z.lor (f_flags f) 2048) (fd_flags f)).
Proof.
  destruct (proj1 (@make_socket_flags_frame_idempotent linux_flags 0
                     (mk_kernel [Some (mk_open_file 2 0)] []))
              (mk_kernel [Some (mk_open_file 2050 0)] []) eq_refl)
    as (f & Hl & Hset & _).
  exists f. split; [exact Hl|].
  apply Hset. cbn in Hl. inversion Hl; subst f. reflexivity.
Defined.

(** On Linux, with descriptors 0 to 2 open: pipe2 is refused, pipe gives
    descriptors 3 and 4, the second fcntl is refused. *)
Lemma make_internal_pipe_sets_flags_or_fails_clean_witness :
  exists r fd' k',
    @evutil_make_internal_pipe_ linux_flags (7, 7)
      (mk_kernel [Some (mk_open_file 2 0); Some (mk_open_file 2 0);
                  Some (mk_open_file 2 0)] [false; true; true; false])
    = ((r, fd'), k')
    /\ (r = 0 \/ (r = -1 /\ fd' = (-1, -1))).
Proof.
  destruct (@make_internal_pipe_sets_flags_or_fails_clean linux_flags (7, 7)
              (mk_kernel [Some (mk_open_file 2 0); Some (mk_open_file 2 0);
                          Some (mk_open_file 2 0)] [false; true; true; false]))
    as (r & fd' & k' & E & [(Hr & _)|(Hr & Hfd & _)]);
    exists r, fd', k'; (split; [exact E|]); [left | right]; auto.
Defined.

(** The same run, evaluated: -1, both slots of the array set to -1, and the
    table back to its three descriptors (slots 3 and 4 empty again). *)
Example make_internal_pipe_partial_failure :
  @evutil_make_internal_pipe_ linux_flags (7, 7)
    (mk_kernel [Some (mk_open_file 2 0); Some (mk_open_file 2 0);
                Some (mk_open_file 2 0)] [false; true; true; false])
  = ((-1, (-1, -1)),
     mk_kernel [Some (mk_open_file 2 0); Some (mk_open_file 2 0);
                Some (mk_open_file 2 0); None; None] []).
Proof. reflexivity. Qed.

(** pipe2 succeeds: the read end reads O_RDONLY|O_NONBLOCK (04000), the
    write end O_WRONLY|O_NONBLOCK (04001), both with FD_CLOEXEC. *)
Example make_internal_pipe_by_pipe2 :
  @evutil_make_internal_pipe_ linux_flags (7, 7)
    (mk_kernel [Some (mk_open_file 2 0); None; Some (mk_open_file 2 0)] [])
  = ((0, (1, 3)),
     mk_kernel [Some (mk_open_file 2 0); Some (mk_open_file 2048 1);
                Some (mk_open_file 2 0); Some (mk_open_file 2049 1)] []).
Proof. reflexivity. Qed.

(** pipe2 and pipe are refused: the socket pair's ends read
    O_RDWR|O_NONBLOCK (04002) once the flags are set. *)
Example make_internal_pipe_by_socketpair :
  @evutil_make_internal_pipe_ linux_flags (7, 7)
    (mk_kernel [Some (mk_open_file 2 0)] [false; false])
  = ((0, (1, 2)),
     mk_kernel [Some (mk_open_file 2 0); Some (mk_open_file 2050 1);
                Some (mk_open_file 2050 1)] []).
Proof. reflexivity. Qed.

End FdFacts.

Module SnprintfFacts.
Import Snprintf.

Section VsnprintfFacts.
Context {format_args : Type}.
Variable vsnprintf : list Z -> nat -> format_args -> list Z * Z.
(** The library call overwrites bytes of the caller's buffer; it does not
    change how many bytes the buffer has. *)
Hypothesis vsnprintf_in_place :
  forall buf n fmt, length (fst (vsnprintf buf n fmt)) = length buf.

(** C8: evutil_vsnprintf with buflen = 0 returns 0 and leaves the buffer as
    it was; with 0 < buflen (and a buffer of at least buflen bytes) the byte
    at buflen-1 is NUL after the call, every other byte is as vsnprintf left
    it, and the return value is vsnprintf's; evutil_snprintf is the same
    function of its arguments. *)
Theorem evutil_vsnprintf_terminates_buffer :
  forall (buf : list Z) (buflen : nat) (fmt : format_args),
    (buflen = 0%nat -> evutil_vsnprintf vsnprintf buf buflen fmt = (buf, 0))
    /\ ((0 < buflen <= length buf)%nat ->
        fst (evutil_vsnprintf vsnprintf buf buflen fmt) !! (buflen - 1)%nat = Some 0
        /\ (forall i, i <> (buflen - 1)%nat ->
              fst (evutil_vsnprintf vsnprintf buf buflen fmt) !! i
              = fst (vsnprintf buf buflen fmt) !! i)
        /\ snd (evutil_vsnprintf vsnprintf buf buflen fmt)
           = snd (vsnprintf buf buflen fmt))
    /\ evutil_snprintf vsnprintf buf buflen fmt
       = evutil_vsnprintf vsnprintf buf buflen fmt.
Proof.
  intros buf buflen fmt. unfold evutil_snprintf, evutil_vsnprintf.
  split; [|split; [|reflexivity]].
  - intros ->. reflexivity.
  - intros [Hpos Hlen].
    destruct (Nat.eqb_spec buflen 0) as [|_]; [lia|].
    pose proof (vsnprintf_in_place buf buflen fmt) as Hl.
    destruct (vsnprintf buf buflen fmt) as [buf' r]; cbn in *.
    split; [|split; [|reflexivity]].
    + apply list_lookup_insert_eq. lia.
    + intros i Hi. apply list_lookup_insert_ne. lia.
Qed.

End VsnprintfFacts.

Lemma legacy_vsnprintf_in_place buf n out :
  length (fst (legacy_vsnprintf buf n out)) = length buf.
Proof.
  unfold legacy_vsnprintf. cbn [fst].
  destruct (Nat.ltb_spec (length out) (Nat.min n (length buf))).
  - rewrite length_app, length_drop, !length_app. cbn. lia.
  - rewrite length_app, length_drop, !length_take. lia.
Qed.

(** An eight-byte buffer, an output of eleven characters: the legacy call
    fills all eight bytes without a terminator, the wrapper stores one. *)
Lemma evutil_vsnprintf_terminates_buffer_witness :
  fst (evutil_vsnprintf legacy_vsnprintf [1; 1; 1; 1; 1; 1; 1; 1] 8
         [104; 101; 108; 108; 111; 32; 119; 111; 114; 108; 100])
    !! 7%nat = Some 0.
Proof.
  destruct (evutil_vsnprintf_terminates_buffer legacy_vsnprintf
              legacy_vsnprintf_in_place
              [1; 1; 1; 1; 1; 1; 1; 1] 8
              [104; 101; 108; 108; 111; 32; 119; 111; 114; 108; 100])
    as (_ & Hterm & _).
  apply Hterm. simpl. lia.
Defined.

End SnprintfFacts.

Module MinHeapFacts.
Import MinHeap.

Lemma parent_lt i : (0 < i)%nat -> (parent i < i)%nat.
Proof. unfold parent. lia. Qed.

Lemma parent_child i j :
  (0 < j)%nat -> parent j = i <-> (j = left_child i \/ j = right_child i).
Proof. unfold parent, left_child, right_child. lia. Qed.

Lemma length_swap h i j : length (swap h i j) = length h.
Proof.
  unfold swap. destruct (h !! i), (h !! j); auto.
  now rewrite !length_insert.
Qed.

Lemma lookup_swap h i j a b k :
  h !! i = Some a -> h !! j = Some b ->
  swap h i j !! k
  = if decide (k = i) then Some b else if decide (k = j) then Some a else h !! k.
Proof.
  intros Hi Hj. unfold swap. rewrite Hi, Hj.
  pose proof (lookup_lt_Some _ _ _ Hi). pose proof (lookup_lt_Some _ _ _ Hj).
  destruct (decide (k = i)) as [->|Hki].
  - apply list_lookup_insert_eq. now rewrite length_insert.
  - rewrite list_lookup_insert_ne by auto.
    destruct (decide (k = j)) as [->|Hkj].
    + now apply list_lookup_insert_eq.
    + now rewrite list_lookup_insert_ne by auto.
Qed.

Lemma insert_cons_perm (h : heap) : forall j a b,
  h !! j = Some b -> b :: <[j := a]> h ≡ₚ a :: h.
Proof.
  induction h as [|c h IH]; intros [|j] a b Hj; cbn in *; try discriminate.
  - inversion Hj; subst. apply perm_swap.
  - rewrite perm_swap. rewrite (IH _ _ _ Hj). apply perm_swap.
Qed.

Lemma swap_perm (h : heap) : forall i j, swap h i j ≡ₚ h.
Proof.
  unfold swap. induction h as [|c h IH]; intros i j; [now destruct i, j|].
  destruct i as [|i], j as [|j]; cbn.
  - reflexivity.
  - destruct (h !! j) as [b|] eqn:Hj; [|reflexivity]. cbn.
    now apply insert_cons_perm.
  - destruct (h !! i) as [a|] eqn:Hi; [|reflexivity]. cbn.
    now apply insert_cons_perm.
  - specialize (IH i j). change ((c :: h) !! S i) with (h !! i).
    change ((c :: h) !! S j) with (h !! j).
    destruct (h !! i), (h !! j); cbn; try reflexivity.
    now rewrite IH.
Qed.

Lemma sift_up_perm fuel : forall h i, sift_up fuel h i ≡ₚ h.
Proof.
  induction fuel as [|fuel IH]; intros h i; cbn; [reflexivity|].
  destruct i; [reflexivity|].
  destruct (h !! parent (S i)), (h !! S i); try reflexivity.
  case_cond; [|reflexivity].
  rewrite IH. apply swap_perm.
Qed.

Lemma sift_down_perm fuel : forall h i, sift_down fuel h i ≡ₚ h.
Proof.
  induction fuel as [|fuel IH]; intros h i; cbn; [reflexivity|].
  destruct (min_child h i) as [c|]; [|reflexivity].
  destruct (h !! i), (h !! c); try reflexivity.
  case_cond; [|reflexivity].
  rewrite IH. apply swap_perm.
Qed.

(** The order holds along the edge from [j] to its parent. *)
Definition edge_ok (h : heap) (j : nat) : Prop :=
  forall a b, h !! parent j = Some a -> h !! j = Some b -> deadline a <= deadline b.

(** The grandparent of the children of [i] is not above them. *)
Definition bridge_ok (h : heap) (i : nat) : Prop :=
  (0 < i)%nat ->
  forall j a b, (0 < j)%nat -> parent j = i ->
    h !! parent i = Some a -> h !! j = Some b -> deadline a <= deadline b.

(** Ordered except possibly along the edge above [i]. *)
Definition up_inv (h : heap) (i : nat) : Prop :=
  (forall j, (0 < j)%nat -> j <> i -> edge_ok h j) /\ bridge_ok h i.

(** Ordered except possibly along the edges below [i]. *)
Definition down_inv (h : heap) (i : nat) : Prop :=
  (forall j, (0 < j)%nat -> parent j <> i -> edge_ok h j) /\ bridge_ok h i.

(** After an exchange, every lookup is a lookup in the heap before it. *)
Ltac swap_lookups Hp Hi :=
  repeat match goal with
    | H : context [swap _ _ _ !! _] |- _ =>
        rewrite (lookup_swap _ _ _ _ _ _ Hp Hi) in H
    end;
  repeat case_decide; simplify_eq.

(** Collect every inequality the known edges give between two entries in
    the context. *)
Ltac known_edges h Hedges :=
  repeat match goal with
    | Ha : h !! ?p = Some ?a, Hb : h !! ?j = Some ?b |- _ =>
        lazymatch goal with
        | _ : deadline a <= deadline b |- _ => fail
        | _ => idtac
        end;
        assert (deadline a <= deadline b)
          by (apply (Hedges j);
              [lia | lia | replace (parent j) with p by lia; exact Ha | exact Hb])
    end.

Ltac known_bridges h Hbridge :=
  lazymatch type of Hbridge with
  | bridge_ok _ ?i =>
      repeat match goal with
        | Ha : h !! ?p = Some ?a, Hb : h !! ?j = Some ?b |- _ =>
            lazymatch goal with
            | _ : deadline a <= deadline b |- _ => fail
            | _ => idtac
            end;
            assert (deadline a <= deadline b)
              by (apply (Hbridge ltac:(lia) j);
                  [lia | lia | replace (parent i) with p by lia; exact Ha
                  | exact Hb])
        end
  end.

Lemma sift_up_ordered fuel : forall h i,
  (i <= fuel)%nat -> up_inv h i -> heap_ordered (sift_up fuel h i).
Proof.
  induction fuel as [|fuel IH]; intros h i Hfuel [Hedges Hbridge].
  - cbn. intros j a b Hj. apply Hedges; lia.
  - cbn. destruct i as [|i']; [intros j a b Hj; apply Hedges; lia|].
    remember (S i') as i eqn:Ei. assert (Hi0 : (0 < i)%nat) by lia. clear Ei.
    pose proof (parent_lt i Hi0) as Hpi.
    destruct (h !! parent i) as [a|] eqn:Hp;
      [destruct (h !! i) as [b|] eqn:Hi|].
    2,3: intros j x y Hj Hx Hy;
         destruct (decide (j = i)) as [Eji|Hne];
         [rewrite Eji in *; congruence | eapply Hedges; eauto].
    destruct (Z.ltb_spec (deadline b) (deadline a)) as [Hlt|Hge].
    + apply IH; [lia|]. clear IH. split.
      * intros j Hj Hjp x y Hx Hy. pose proof (parent_lt j Hj).
        swap_lookups Hp Hi;
          known_edges h Hedges; known_bridges h Hbridge; lia.
      * intros Hp0 j x y Hj Hjp Hx Hy.
        pose proof (parent_lt _ Hp0). pose proof (parent_lt j Hj).
        swap_lookups Hp Hi;
          known_edges h Hedges; known_bridges h Hbridge; lia.
    + intros j x y Hj Hx Hy.
      destruct (decide (j = i)) as [Eji|Hne]; [|eapply Hedges; eauto].
      rewrite Eji in *. rewrite Hp in Hx. rewrite Hi in Hy.
      inversion Hx; inversion Hy; subst. lia.
Qed.

Lemma min_child_spec h i :
  match min_child h i with
  | Some c =>
      (0 < c)%nat /\ parent c = i
      /\ exists y, h !! c = Some y
         /\ forall j b, (0 < j)%nat -> parent j = i -> h !! j = Some b ->
                        deadline y <= deadline b
  | None => forall j, (0 < j)%nat -> parent j = i -> h !! j = None
  end.
Proof.
  unfold min_child.
  destruct (h !! left_child i) as [l|] eqn:Hl.
  - destruct (h !! right_child i) as [r|] eqn:Hr.
    + destruct (Z.ltb_spec (deadline r) (deadline l)).
      all: split; [unfold right_child, left_child; lia|].
      all: split; [apply parent_child; unfold right_child, left_child; lia|].
      all: eexists; split; [eassumption|].
      all: intros j b Hj Hpj Hb; apply parent_child in Hpj; [|assumption].
      all: destruct Hpj as [-> | ->]; rewrite ?Hl, ?Hr in Hb.
      all: inversion Hb; subst; lia.
    + split; [unfold left_child; lia|].
      split; [apply parent_child; unfold left_child; lia|].
      eexists; split; [eassumption|].
      intros j b Hj Hpj Hb. apply parent_child in Hpj; [|assumption].
      destruct Hpj as [-> | ->]; rewrite ?Hl, ?Hr in Hb; inversion Hb; subst; lia.
  - intros j Hj Hpj. apply parent_child in Hpj; [|assumption].
    apply lookup_ge_None in Hl. apply lookup_ge_None.
    unfold left_child, right_child in *. lia.
Qed.

Lemma sift_down_ordered fuel : forall h i,
  (length h <= fuel + i)%nat -> down_inv h i -> heap_ordered (sift_down fuel h i).
Proof.
  induction fuel as [|fuel IH]; intros h i Hfuel [Hedges Hbridge].
  - cbn. intros j a b Hj Ha Hb.
    destruct (decide (parent j = i)) as [Hpj|Hpj]; [|eapply Hedges; eauto].
    apply lookup_lt_Some in Hb. pose proof (parent_lt j Hj). lia.
  - cbn. pose proof (min_child_spec h i) as Hmc.
    destruct (min_child h i) as [c|].
    2: { intros j a b Hj Ha Hb.
         destruct (decide (parent j = i)) as [Hpj|Hpj]; [|eapply Hedges; eauto].
         rewrite (Hmc j Hj Hpj) in Hb. discriminate. }
    destruct Hmc as (Hc0 & Hpc & y & Hy & Hmin). rewrite Hy.
    destruct (h !! i) as [x|] eqn:Hx.
    2: { intros j a b Hj Ha Hb.
         destruct (decide (parent j = i)) as [Hpj|Hpj]; [|eapply Hedges; eauto].
         congruence. }
    pose proof (parent_lt c Hc0) as Hic. rewrite Hpc in Hic.
    destruct (Z.ltb_spec (deadline y) (deadline x)) as [Hlt|Hge].
    + apply IH; [rewrite length_swap; lia|]. clear IH.
      split.
      * intros j Hj Hjp a b Ha Hb. pose proof (parent_lt j Hj).
        swap_lookups Hx Hy;
          try (pose proof (Hmin j b Hj ltac:(lia) Hb));
          known_edges h Hedges; known_bridges h Hbridge; lia.
      * intros _ j a b Hj Hjp Ha Hb. pose proof (parent_lt j Hj).
        swap_lookups Hx Hy;
          known_edges h Hedges; known_bridges h Hbridge; lia.
    + intros j a b Hj Ha Hb.
      destruct (decide (parent j = i)) as [Hpj|Hpj]; [|eapply Hedges; eauto].
      rewrite Hpj, Hx in Ha. inversion Ha; subst.
      pose proof (Hmin j b Hj Hpj Hb). lia.
Qed.

(** In an ordered heap the root is below every entry. *)
Lemma root_minimal h m :
  heap_ordered h -> h !! 0%nat = Some m ->
  forall j b, h !! j = Some b -> deadline m <= deadline b.
Proof.
  intros Ho Hm j. induction j as [j IH] using lt_wf_ind. intros b Hb.
  destruct (decide (j = 0)%nat) as [->|Hj]; [rewrite Hm in Hb; inversion Hb; lia|].
  assert (Hj0 : (0 < j)%nat) by lia. pose proof (parent_lt j Hj0) as Hp.
  destruct (h !! parent j) as [a|] eqn:Ha.
  - pose proof (IH _ Hp _ Ha). pose proof (Ho j a b Hj0 Ha Hb). lia.
  - apply lookup_ge_None in Ha. apply lookup_lt_Some in Hb. lia.
Qed.

Lemma heap_ordered_take h n : heap_ordered h -> heap_ordered (take n h).
Proof.
  intros Ho j a b Hj Ha Hb.
  apply lookup_take_Some in Ha as [Ha _]. apply lookup_take_Some in Hb as [Hb _].
  eapply Ho; eauto.
Qed.

Lemma heap_push_ordered h x : heap_ordered h -> heap_ordered (heap_push h x).
Proof.
  intros Ho. unfold heap_push. apply sift_up_ordered; [lia|]. split.
  - intros j Hj Hne a b Ha Hb. pose proof (parent_lt j Hj).
    assert (Hlt : (j < length h)%nat).
    { apply lookup_lt_Some in Hb. rewrite length_app in Hb. cbn in Hb. lia. }
    rewrite lookup_app_l in Ha, Hb by lia. eapply Ho; eauto.
  - intros _ j a b Hj Hpj _ Hb. pose proof (parent_lt j Hj).
    apply lookup_lt_Some in Hb. rewrite length_app in Hb. cbn in Hb. lia.
Qed.

Lemma heap_push_perm h x : heap_push h x ≡ₚ x :: h.
Proof.
  unfold heap_push. rewrite sift_up_perm. apply Permutation_app_comm.
Qed.

Lemma last_take_split (h : heap) e :
  last h = Some e -> h = take (length h - 1) h ++ [e].
Proof.
  intros Hl. destruct (last_Some h e) as [[l' E] _]; [exact Hl|].
  subst h. rewrite length_app. cbn. replace (length l' + 1 - 1)%nat with (length l') by lia.
  now rewrite take_app_length.
Qed.

Lemma heap_erase_ordered h i : heap_ordered h -> heap_ordered (heap_erase h i).
Proof.
  intros Ho. unfold heap_erase.
  destruct (last h) as [e|] eqn:Hl; [|exact Ho].
  set (h' := take (length h - 1) h).
  assert (Ho' : heap_ordered h') by now apply heap_ordered_take.
  destruct (Nat.ltb_spec (length h') i) as [|Hle]; [exact Ho|].
  destruct (Nat.eqb_spec i (length h')) as [|Hne]; [exact Ho'|].
  assert (Hi : (i < length h')%nat) by lia.
  destruct (lookup_lt_is_Some_2 h' i Hi) as [x Hx].
  assert (Hget : forall k, <[i:=e]> h' !! k
                           = if decide (k = i) then Some e else h' !! k).
  { intros k. destruct (decide (k = i)) as [->|Hk].
    - now apply list_lookup_insert_eq.
    - now apply list_lookup_insert_ne. }
  assert (Hbridge : bridge_ok (<[i:=e]> h') i).
  { intros Hi0 j a b Hj Hpj Ha Hb. pose proof (parent_lt j Hj). pose proof (parent_lt i Hi0).
    rewrite Hget in Ha, Hb. repeat case_decide; try lia.
    pose proof (Ho' i a x Hi0 Ha Hx). pose proof (Ho' j x b Hj ltac:(congruence) Hb). lia. }
  assert (Hrest : forall j, (0 < j)%nat -> j <> i -> parent j <> i ->
                            edge_ok (<[i:=e]> h') j).
  { intros j Hj H1 H2 a b Ha Hb. rewrite Hget in Ha, Hb.
    repeat case_decide; try lia. eapply Ho'; eauto. }
  assert (Hdown : (i = 0%nat \/ forall a, h' !! parent i = Some a -> deadline a <= deadline e) ->
                  heap_ordered (sift_down (length (<[i:=e]> h')) (<[i:=e]> h') i)).
  { intros Hcase. apply sift_down_ordered; [lia|]. split; [|exact Hbridge].
    intros j Hj Hpj. destruct (decide (j = i)) as [Eji|Hji]; [subst j|now apply Hrest].
    intros a b Ha Hb. pose proof (parent_lt i Hj). rewrite Hget in Ha, Hb.
    repeat case_decide; try lia. destruct Hcase as [|Hcase]; [lia|].
    assert (deadline b = deadline e) by congruence.
    pose proof (Hcase a Ha). lia. }
  rewrite Hget. pose proof (Nat.ltb_spec 0 i) as Hz.
  destruct (decide (parent i = i)) as [Hpi|Hpi].
  - assert (i = 0)%nat as -> by (destruct (decide (i = 0)%nat); [auto | pose proof (parent_lt i); lia]).
    cbn [Nat.ltb Nat.leb andb]. apply Hdown. now left.
  - assert (Hi0 : (0 < i)%nat) by (destruct i; [now unfold parent in Hpi | lia]).
    destruct (h' !! parent i) as [a|] eqn:Ha.
    2: { apply Hdown. right. intros; discriminate. }
    inversion Hz as [_ Hz'|Hbad]; [|lia]. cbn [andb].
    destruct (Z.ltb_spec (deadline e) (deadline a)) as [Hlt|Hge].
    + apply sift_up_ordered; [lia|]. split; [|exact Hbridge].
      intros j Hj Hji. destruct (decide (parent j = i)) as [Hpj|Hpj]; [|now apply Hrest].
      intros u v Hu Hv. rewrite Hget in Hu, Hv. repeat case_decide; try lia.
      assert (deadline u = deadline e) by congruence.
      pose proof (Ho' i a x Hi0 Ha Hx).
      pose proof (Ho' j x v Hj ltac:(congruence) Hv). lia.
    + apply Hdown. right. intros a' Ha'.
      assert (deadline a' = deadline a) by congruence. lia.
Qed.

Lemma heap_erase_perm h i x :
  h !! i = Some x -> x :: heap_erase h i ≡ₚ h.
Proof.
  intros Hx. unfold heap_erase.
  pose proof (lookup_lt_Some _ _ _ Hx) as Hlen.
  destruct (last h) as [e|] eqn:Hl.
  2: { apply last_None in Hl. subst. discriminate. }
  pose proof (last_take_split h e Hl) as Hsplit.
  remember (take (length h - 1) h) as h' eqn:Eh'. clear Eh'.
  assert (Hl' : length h = S (length h')).
  { rewrite Hsplit at 1. rewrite length_app. cbn. lia. }
  destruct (Nat.ltb_spec (length h') i) as [|Hle]; [lia|].
  destruct (Nat.eqb_spec i (length h')) as [->|Hne].
  - rewrite Hsplit in Hx. rewrite lookup_app_r in Hx by lia.
    rewrite Nat.sub_diag in Hx. inversion Hx; subst.
    apply Permutation_cons_append.
  - assert (Hi : (i < length h')%nat) by lia.
    assert (Hx' : h' !! i = Some x).
    { rewrite Hsplit in Hx. now rewrite lookup_app_l in Hx by lia. }
    assert (Hp : forall r, r ≡ₚ <[i:=e]> h' -> x :: r ≡ₚ h).
    { intros r ->. rewrite (insert_cons_perm h' i e x Hx').
      rewrite Hsplit. apply Permutation_cons_append. }
    destruct (<[i:=e]> h' !! parent i); [case_cond|];
      apply Hp; auto using sift_up_perm, sift_down_perm.
Qed.

Lemma heap_erase_outside (h : heap) i : h !! i = None -> heap_erase h i = h.
Proof.
  intros Hn. apply lookup_ge_None in Hn. unfold heap_erase.
  destruct (last h) as [e|] eqn:Hl; [|reflexivity].
  pose proof (last_take_split h e Hl) as Hsplit.
  assert (Hl' : length h = S (length (take (length h - 1) h))).
  { rewrite Hsplit at 1. rewrite length_app. cbn. lia. }
  destruct (Nat.ltb_spec (length (take (length h - 1) h)) i); [reflexivity|lia].
Qed.

Lemma run_ops_snoc ops op : run_ops (ops ++ [op]) = apply_op (run_ops ops) op.
Proof. unfold run_ops. now rewrite fold_left_app. Qed.

(** Every sequence of operations has its account of present entries, it is
    the heap's content, and it is unique up to order. *)
Lemma present_run ops :
  (exists bag, present ops (run_ops ops) bag)
  /\ forall h bag, present ops h bag -> h = run_ops ops /\ h ≡ₚ bag.
Proof.
  induction ops as [|op ops [[bag IHe] IHu]] using rev_ind.
  - split; [exists []; constructor|].
    intros h bag P. inversion P; subst; try (now destruct ops); auto.
  - rewrite run_ops_snoc. destruct (IHu _ _ IHe) as [_ Hperm]. split.
    + destruct op as [x|i]; cbn.
      * exists (x :: bag). now constructor.
      * destruct (run_ops ops !! i) as [x|] eqn:Hx.
        -- assert (Hin : x ∈ bag)
             by (rewrite <- Hperm; eapply list_elem_of_lookup_2; eauto).
           apply elem_of_Permutation in Hin as [bag' Hbag].
           exists bag'. econstructor; eauto.
        -- exists bag. now constructor.
    + intros h b P. inversion P as [E1 | ops0 h0 b0 x P0 E1 | ops0 h0 b0 b1 j x P0 Hj Hb E1
                                   | ops0 h0 b0 j P0 Hj E1]; subst.
      * now destruct ops.
      * apply app_inj_tail in E1 as [-> <-].
        destruct (IHu _ _ P0) as [-> Hp0]. cbn. split; [reflexivity|].
        rewrite heap_push_perm. now rewrite Hp0.
      * apply app_inj_tail in E1 as [-> <-].
        destruct (IHu _ _ P0) as [-> Hp0]. cbn. split; [reflexivity|].
        apply (Permutation_cons_inv (a := x)).
        rewrite heap_erase_perm by eassumption. now rewrite Hp0.
      * apply app_inj_tail in E1 as [-> <-].
        destruct (IHu _ _ P0) as [-> Hp0]. cbn. split; [reflexivity|].
        now rewrite heap_erase_outside.
Qed.

Lemma run_ops_ordered ops : heap_ordered (run_ops ops).
Proof.
  induction ops as [|op ops IH] using rev_ind.
  - intros j a b _ Ha. destruct (parent j); discriminate.
  - rewrite run_ops_snoc. destruct op; cbn.
    + now apply heap_push_ordered.
    + now apply heap_erase_ordered.
Qed.

(** C5 (timeout heap of the design document): after any interleaving of
    inserts and deletes at arbitrary positions, starting from the empty
    heap, every parent deadline is at most its children's, the heap holds
    exactly the entries still present, and peek_min_deadline returns the
    least deadline among them (and nothing when none is present). *)
Theorem timeout_heap_order_survives_deletion :
  forall ops : list heap_op,
    heap_ordered (run_ops ops)
    /\ exists bag,
        present ops (run_ops ops) bag
        /\ run_ops ops ≡ₚ bag
        /\ match peek_min_deadline (run_ops ops) with
           | None => bag = []
           | Some m =>
               (exists x, x ∈ bag /\ deadline x = m)
               /\ forall x, x ∈ bag -> m <= deadline x
           end.
Proof.
  intros ops. pose proof (run_ops_ordered ops) as Ho.
  split; [exact Ho|].
  destruct (present_run ops) as [[bag P] Hu].
  destruct (Hu _ _ P) as [_ Hperm].
  exists bag. split; [exact P|]. split; [exact Hperm|].
  destruct (run_ops ops) as [|m h] eqn:E; cbn.
  - now apply Permutation_nil_l in Hperm.
  - split.
    + exists m. split; [|reflexivity]. rewrite <- Hperm. apply list_elem_of_here.
    + intros x Hx. rewrite <- Hperm in Hx.
      apply list_elem_of_lookup_1 in Hx as [j Hj].
      eapply root_minimal; eauto.
Qed.

(** Deadlines 50, 20, 70, 10 inserted, the entry at position 1 (deadline
    20) deleted, 30
    inserted, the root deleted: the heap is [30; 50; 70] by deadline. *)
Example timeout_heap_run :
  map deadline
    (run_ops [Insert (mk_node 50 1); Insert (mk_node 20 2); Insert (mk_node 70 3);
              Insert (mk_node 10 4); Delete 1; Insert (mk_node 30 5); Delete 0])
  = [30; 50; 70].
Proof. reflexivity. Qed.

End MinHeapFacts.

Module Arc4Facts.
Import CInt CIntFacts Arc4.

Lemma keystream_app n m r :
  keystream (n + m) r
  = (fst (keystream n r) ++ fst (keystream m (snd (keystream n r))),
     snd (keystream m (snd (keystream n r)))).
Proof.
  revert r. induction n as [|n IH]; intros r; cbn [keystream Nat.add].
  - cbn. now destruct (keystream m r).
  - destruct (arc4_getbyte r) as [b r1]. rewrite IH.
    destruct (keystream n r1) as [bs r2]. cbn.
    now destruct (keystream m r2).
Qed.

(** The statics after [n] bytes were drawn without reseeding. *)
Definition drawn (n : nat) (v : statics) : statics :=
  mk_statics (rs_initialized v) (snd (keystream n (rs v))) (arc4_stir_pid v)
             (arc4_count v - Z.of_nat n) (arc4random_urandom_filename v).

Lemma buf_step_steady v e :
  1 < arc4_count v <= INT_MAX ->
  buf_step (mk_process v e)
  = (fst (arc4_getbyte (rs v)),
     mk_process
       (mk_statics (rs_initialized v) (snd (arc4_getbyte (rs v)))
          (arc4_stir_pid v) (arc4_count v - 1) (arc4random_urandom_filename v))
       e).
Proof.
  intros Hc. unfold buf_step, mbind, rng_bind, get_vars, put_vars, mret, rng_ret.
  cbn [vars env].
  rewrite wrap_int_id by (unfold in_int, INT_MIN, INT_MAX in *; lia).
  rewrite (proj2 (Z.leb_gt (arc4_count v - 1) 0)) by lia.
  cbn [vars env rs]. destruct (arc4_getbyte (rs v)) as [b r]. reflexivity.
Qed.

Lemma buf_loop_steady n : forall v e,
  Z.of_nat n < arc4_count v <= INT_MAX ->
  buf_loop n (mk_process v e)
  = (rev (fst (keystream n (rs v))), mk_process (drawn n v) e).
Proof.
  induction n as [|n IH]; intros v e Hc.
  - cbn. unfold drawn. cbn. rewrite Z.sub_0_r. now destruct v.
  - cbn [buf_loop]. unfold mbind, rng_bind.
    rewrite buf_step_steady by lia.
    rewrite IH by (cbn; lia).
    unfold mret, rng_ret, drawn. cbn [keystream rs arc4_count rs_initialized
      arc4_stir_pid arc4random_urandom_filename].
    destruct (arc4_getbyte (rs v)) as [b r1]. cbn [fst snd].
    destruct (keystream n r1) as [bs r2]. cbn [fst snd rev].
    replace (arc4_count v - Z.of_nat (S n)) with (arc4_count v - 1 - Z.of_nat n)
      by lia.
    reflexivity.
Qed.

Lemma get_bytes_steady n p :
  steady n p ->
  evutil_secure_rng_get_bytes n p
  = (rev (fst (keystream n (rs (vars p)))), mk_process (drawn n (vars p)) (env p)).
Proof.
  intros (Hinit & Hpid & Hc). destruct p as [v e]. cbn [vars env] in *.
  unfold evutil_secure_rng_get_bytes, ev_arc4random_buf, arc4random_buf.
  unfold arc4_stir_if_needed, mbind, rng_bind, getpid, get_vars. cbn [vars env].
  rewrite (proj2 (Z.leb_gt (arc4_count v) 0)) by lia.
  rewrite (proj2 (Z.eqb_neq (rs_initialized v) 0)) by assumption.
  rewrite Hpid, Z.eqb_refl. cbn [orb negb]. unfold mret, rng_ret.
  apply buf_loop_steady. lia.
Qed.

(** The process with other values in the two places a process id is kept:
    [arc4_stir_pid] and what [getpid] reports. *)
Definition with_pids (stir_pid pid : Z) (p : process) : process :=
  mk_process
    (mk_statics (rs_initialized (vars p)) (rs (vars p)) stir_pid
       (arc4_count (vars p)) (arc4random_urandom_filename (vars p)))
    (mk_env pid (entropy (env p))).

(** Seeding, stirring and drawing never look at a process id: they give
    the same result and carry the two values along. *)
Definition pid_blind {A} (f : rng A) : Prop :=
  forall sp pd p,
    f (with_pids sp pd p) = (fst (f p), with_pids sp pd (snd (f p))).

Lemma arc4_seed_pid_blind : pid_blind arc4_seed.
Proof.
  intros sp pd [[ini r s c f] [pd0 ent]].
  unfold arc4_seed, with_pids, mbind, rng_bind, next_seed, get_vars, put_vars,
    mret, rng_ret. cbn [vars env entropy pid rs_initialized rs arc4_stir_pid
    arc4_count arc4random_urandom_filename].
  destruct ent as [|m rest]; cbn [vars env entropy pid rs_initialized rs
    arc4_stir_pid arc4_count arc4random_urandom_filename];
    repeat match goal with
           | |- context [let '(_, _) := ?x in _] => destruct x
           end; reflexivity.
Qed.


Ltac rng_fields :=
  cbn [vars env entropy pid rs_initialized rs arc4_stir_pid arc4_count
       arc4random_urandom_filename fst snd].

Lemma arc4_stir_pid_blind : pid_blind arc4_stir.
Proof.
  intros sp pd [[ini r s c f] [pd0 ent]].
  unfold arc4_stir, mbind, rng_bind, get_vars, put_vars, mret, rng_ret.
  change (with_pids sp pd (mk_process (mk_statics ini r s c f) (mk_env pd0 ent)))
    with (mk_process (mk_statics ini r sp c f) (mk_env pd ent)).
  rng_fields.
  destruct (ini =? 0); rng_fields.
  - change (mk_process (mk_statics 1 arc4_init sp c f) (mk_env pd ent))
      with (with_pids sp pd
              (mk_process (mk_statics 1 arc4_init s c f) (mk_env pd0 ent))).
    rewrite arc4_seed_pid_blind.
    destruct (arc4_seed _) as [seeded [v e]]. rng_fields.
    destruct (seeded =? 0); reflexivity.
  - change (mk_process (mk_statics ini r sp c f) (mk_env pd ent))
      with (with_pids sp pd
              (mk_process (mk_statics ini r s c f) (mk_env pd0 ent))).
    rewrite arc4_seed_pid_blind.
    destruct (arc4_seed _) as [seeded [v e]]. rng_fields.
    destruct (seeded =? 0); reflexivity.
Qed.

Lemma buf_step_pid_blind : pid_blind buf_step.
Proof.
  intros sp pd [[ini r s c f] [pd0 ent]].
  unfold buf_step, mbind, rng_bind, get_vars, put_vars, mret, rng_ret.
  change (with_pids sp pd (mk_process (mk_statics ini r s c f) (mk_env pd0 ent)))
    with (mk_process (mk_statics ini r sp c f) (mk_env pd ent)).
  rng_fields.
  destruct (wrap_int (c - 1) <=? 0); rng_fields.
  - change (mk_process (mk_statics ini r sp (wrap_int (c - 1)) f) (mk_env pd ent))
      with (with_pids sp pd
              (mk_process (mk_statics ini r s (wrap_int (c - 1)) f)
                 (mk_env pd0 ent))).
    rewrite arc4_stir_pid_blind.
    destruct (arc4_stir _) as [x [v e]]. rng_fields.
    unfold with_pids. rng_fields.
    destruct (arc4_getbyte (rs v)) as [b r']. reflexivity.
  - destruct (arc4_getbyte r) as [b r']. reflexivity.
Qed.

Lemma buf_loop_pid_blind n : pid_blind (buf_loop n).
Proof.
  induction n as [|n IH]; intros sp pd p; cbn [buf_loop].
  - destruct p as [[ini r s c f] [pd0 ent]]. reflexivity.
  - unfold mbind, rng_bind. rewrite buf_step_pid_blind.
    destruct (buf_step p) as [b p1]. cbn [fst snd].
    rewrite IH. destruct (buf_loop n p1) as [low p2]. reflexivity.
Qed.

(** Before the generator is initialised, [arc4_stir] does not read the
    stream: [arc4_init] overwrites it. *)
Lemma arc4_stir_uninitialised r' ini r s c f e :
  ini = 0 ->
  arc4_stir (mk_process (mk_statics ini r s c f) e)
  = arc4_stir (mk_process (mk_statics ini r' s c f) e).
Proof.
  intros ->. unfold arc4_stir, mbind, rng_bind, get_vars, put_vars, mret,
    rng_ret. reflexivity.
Qed.

(** What a call of evutil_secure_rng_get_bytes reads: rs_initialized, the
    stream once it is initialised, arc4_count, the device file name, the
    entropy to come, and whether arc4_stir_pid is the process's own id. *)
Definition same_inputs (p1 p2 : process) : Prop :=
  rs_initialized (vars p1) = rs_initialized (vars p2)
  /\ (rs_initialized (vars p1) <> 0 -> rs (vars p1) = rs (vars p2))
  /\ arc4_count (vars p1) = arc4_count (vars p2)
  /\ arc4random_urandom_filename (vars p1) = arc4random_urandom_filename (vars p2)
  /\ entropy (env p1) = entropy (env p2)
  /\ (arc4_stir_pid (vars p1) = pid (env p1)
      <-> arc4_stir_pid (vars p2) = pid (env p2)).

(** After the test for reseeding the processes differ in their ids only,
    and each has recorded its own. *)
Lemma arc4_stir_if_needed_same_inputs p1 p2 :
  same_inputs p1 p2 ->
  snd (arc4_stir_if_needed p2)
  = with_pids (pid (env p2)) (pid (env p2)) (snd (arc4_stir_if_needed p1))
  /\ arc4_stir_pid (vars (snd (arc4_stir_if_needed p1))) = pid (env p1)
  /\ pid (env (snd (arc4_stir_if_needed p1))) = pid (env p1).
Proof.
  destruct p1 as [[ini1 r1 s1 c1 f1] [pd1 ent1]].
  destruct p2 as [[ini2 r2 s2 c2 f2] [pd2 ent2]].
  unfold same_inputs.
  rng_fields.
  intros (<- & Hrs & <- & <- & <- & Hpid).
  unfold arc4_stir_if_needed, mbind, rng_bind, getpid, get_vars, put_vars,
    mret, rng_ret.
  cbn [vars env entropy pid rs_initialized rs arc4_stir_pid arc4_count
       arc4random_urandom_filename].
  assert (Hsame : (s2 =? pd2) = (s1 =? pd1)).
  { destruct (Z.eqb_spec s1 pd1) as [E|E], (Z.eqb_spec s2 pd2) as [E'|E'];
      try reflexivity; exfalso; tauto. }
  rewrite Hsame.
  assert (Hstir : forall r,
            (ini1 <> 0 -> r1 = r) ->
            arc4_stir (mk_process (mk_statics ini1 r pd2 c1 f1) (mk_env pd2 ent1))
            = (fst (arc4_stir (mk_process (mk_statics ini1 r1 pd1 c1 f1)
                                 (mk_env pd1 ent1))),
               with_pids pd2 pd2
                 (snd (arc4_stir (mk_process (mk_statics ini1 r1 pd1 c1 f1)
                                    (mk_env pd1 ent1)))))).
  { intros r Hr.
    change (mk_process (mk_statics ini1 r pd2 c1 f1) (mk_env pd2 ent1))
      with (with_pids pd2 pd2
              (mk_process (mk_statics ini1 r pd1 c1 f1) (mk_env pd1 ent1))).
    rewrite arc4_stir_pid_blind.
    destruct (Z.eq_dec ini1 0) as [E|E].
    - now rewrite (arc4_stir_uninitialised r1 ini1 r pd1 c1 f1 _ E).
    - now rewrite <- (Hr E). }
  assert (Hkeep : forall sp pd p,
            arc4_stir_pid (vars p) = sp -> pid (env p) = pd ->
            arc4_stir_pid (vars (snd (arc4_stir p))) = sp
            /\ pid (env (snd (arc4_stir p))) = pd).
  { intros sp pd p Hs Hp.
    pose proof (arc4_stir_pid_blind sp pd p) as Hb.
    assert (Ep : with_pids sp pd p = p).
    { destruct p as [[? ? ? ? ?] [? ?]]. cbn in Hs, Hp. subst. reflexivity. }
    rewrite Ep in Hb. rewrite Hb. cbn [snd]. split; reflexivity. }
  destruct ((c1 <=? 0) || (ini1 =? 0) || negb (s1 =? pd1)) eqn:Hc; rng_fields.
  - rewrite (Hstir r2 Hrs).
    destruct (Hkeep pd1 pd1 (mk_process (mk_statics ini1 r1 pd1 c1 f1)
                               (mk_env pd1 ent1)) eq_refl eq_refl) as [K1 K2].
    destruct (arc4_stir (mk_process (mk_statics ini1 r1 pd1 c1 f1)
                           (mk_env pd1 ent1))) as [x q].
    cbn [fst snd] in *. auto.
  - apply orb_false_iff in Hc as [Hc Hp].
    apply orb_false_iff in Hc as [_ Hi].
    apply negb_false_iff, Z.eqb_eq in Hp.
    apply Z.eqb_neq in Hi.
    assert (s2 = pd2) by (apply Hpid; exact Hp).
    subst s1 s2. rewrite <- (Hrs Hi). cbn [snd vars env arc4_stir_pid pid].
    unfold with_pids. cbn. auto.
Qed.

Lemma pid_blind_keeps {A} (f : rng A) :
  pid_blind f ->
  forall p, arc4_stir_pid (vars (snd (f p))) = arc4_stir_pid (vars p)
            /\ pid (env (snd (f p))) = pid (env p).
Proof.
  intros Hf p. pose proof (Hf (arc4_stir_pid (vars p)) (pid (env p)) p) as Hb.
  assert (Ep : with_pids (arc4_stir_pid (vars p)) (pid (env p)) p = p)
    by now destruct p as [[? ? ? ? ?] [? ?]].
  rewrite Ep in Hb. rewrite Hb. split; reflexivity.
Qed.

Lemma get_bytes_unfold n p :
  evutil_secure_rng_get_bytes n p = buf_loop n (snd (arc4_stir_if_needed p)).
Proof.
  unfold evutil_secure_rng_get_bytes, ev_arc4random_buf, arc4random_buf,
    mbind, rng_bind.
  now destruct (arc4_stir_if_needed p).
Qed.

Lemma get_bytes_same_inputs n p1 p2 :
  same_inputs p1 p2 ->
  evutil_secure_rng_get_bytes n p2
  = (fst (evutil_secure_rng_get_bytes n p1),
     with_pids (pid (env p2)) (pid (env p2))
       (snd (evutil_secure_rng_get_bytes n p1))).
Proof.
  intros H. rewrite !get_bytes_unfold.
  destruct (arc4_stir_if_needed_same_inputs p1 p2 H) as (-> & _ & _).
  apply buf_loop_pid_blind.
Qed.

Lemma get_bytes_own_pid n p :
  arc4_stir_pid (vars (snd (evutil_secure_rng_get_bytes n p))) = pid (env p)
  /\ pid (env (snd (evutil_secure_rng_get_bytes n p))) = pid (env p).
Proof.
  rewrite get_bytes_unfold.
  destruct (pid_blind_keeps _ (buf_loop_pid_blind n)
              (snd (arc4_stir_if_needed p))) as [-> ->].
  assert (H : same_inputs p p) by (unfold same_inputs; tauto).
  now destruct (arc4_stir_if_needed_same_inputs p p H) as (_ & -> & ->).
Qed.

Lemma get_bytes_after_stir n p :
  steady n (snd (arc4_stir_if_needed p)) ->
  evutil_secure_rng_get_bytes n p
  = (rev (fst (keystream n (rs (vars (snd (arc4_stir_if_needed p)))))),
     mk_process (drawn n (vars (snd (arc4_stir_if_needed p))))
       (env (snd (arc4_stir_if_needed p)))).
Proof.
  intros (_ & _ & Hc). rewrite get_bytes_unfold.
  destruct (snd (arc4_stir_if_needed p)) as [v e]. now apply buf_loop_steady.
Qed.

(** A process whose generator was initialised by pid 7 and has 100 bytes
    of budget left. *)
Definition warm_process : process :=
  mk_process (mk_statics 1 arc4_init 7 100 None) (mk_env 7 []).

(** A generator initialised and stirred by pid 7, with 100 bytes of budget,
    in a process that will get 32 bytes from getrandom at its next
    seeding. *)
Definition parent_process : process :=
  mk_process (mk_statics 1 arc4_init 7 100 None)
    (mk_env 7 [mk_seed (32, map Z.of_nat (seq 1 32)) (fun _ => None) []]).

(** The same statics and the same entropy after a fork: getpid reports 9. *)
Definition child_process : process :=
  mk_process (vars parent_process) (mk_env 9 (entropy (env parent_process))).

(** The generator of [warm_process] in a process with pid 9 that has
    recorded its own pid. *)
Definition moved_process : process :=
  mk_process (mk_statics 1 arc4_init 9 100 None) (mk_env 9 []).

(** Equal statics and equal entropy do not give equal bytes: the parent
    draws from the stream as it is, the child, whose pid is not the
    recorded one, reseeds first. *)
Lemma secure_rng_fork_changes_output :
  vars parent_process = vars child_process
  /\ entropy (env parent_process) = entropy (env child_process)
  /\ fst (evutil_secure_rng_get_bytes 3 parent_process) = [7; 5; 2]
  /\ fst (evutil_secure_rng_get_bytes 3 child_process) = [90; 98; 249].
Proof. repeat split; vm_compute; reflexivity. Qed.

(** C6: the generator is the one set of statics, which every call of
    evutil_secure_rng_get_bytes reads and advances, and the bytes are a
    function of those statics, of the entropy delivered and of the process
    id.  Two runs that agree on rs_initialized, on arc4_count, on the
    device file name, on the entropy to come, on the stream rs once it is
    initialised, and on whether arc4_stir_pid is the process's own id,
    return the same bytes and leave the same rs, rs_initialized,
    arc4_count, file name and remaining entropy, each with its own process
    id in arc4_stir_pid; the successors agree in the same way, so that the
    next calls do too.  Once the entry test for reseeding is passed and no
    further reseeding is due, the bytes are the next n bytes of the
    keystream of rs (stored from the top of the buffer down), rs is left n
    steps further and arc4_count n lower; a second call continues where the
    first stopped, and calls of n and m bytes return together what one
    call of n+m bytes returns. *)
Theorem secure_rng_deterministic_up_to_pid :
  forall (n : nat) (p1 p2 : process),
    same_inputs p1 p2 ->
    exists (bytes : list Z) (q1 q2 : process),
      evutil_secure_rng_get_bytes n p1 = (bytes, q1)
      /\ evutil_secure_rng_get_bytes n p2 = (bytes, q2)
      /\ rs (vars q1) = rs (vars q2)
      /\ rs_initialized (vars q1) = rs_initialized (vars q2)
      /\ arc4_count (vars q1) = arc4_count (vars q2)
      /\ arc4random_urandom_filename (vars q1)
         = arc4random_urandom_filename (vars q2)
      /\ entropy (env q1) = entropy (env q2)
      /\ (arc4_stir_pid (vars q1) = pid (env p1) /\ pid (env q1) = pid (env p1))
      /\ (arc4_stir_pid (vars q2) = pid (env p2) /\ pid (env q2) = pid (env p2))
      /\ same_inputs q1 q2
      /\ (let p := snd (arc4_stir_if_needed p1) in
          steady n p ->
          bytes = rev (fst (keystream n (rs (vars p))))
          /\ q1 = mk_process (drawn n (vars p)) (env p))
      /\ (forall m : nat,
          let p := snd (arc4_stir_if_needed p1) in
          steady (n + m) p ->
          let '(second, q') := evutil_secure_rng_get_bytes m q1 in
          evutil_secure_rng_get_bytes (n + m) p1 = (second ++ bytes, q')).
Proof.
  intros n p1 p2 H.
  pose proof (get_bytes_same_inputs n p1 p2 H) as E2.
  destruct (get_bytes_own_pid n p1) as [S1 P1].
  destruct (get_bytes_own_pid n p2) as [S2 P2].
  pose proof (get_bytes_after_stir n p1) as K.
  pose proof (fun m => get_bytes_after_stir (n + m) p1) as K2.
  destruct (arc4_stir_if_needed_same_inputs p1 p1) as (_ & T1 & T2);
    [unfold same_inputs; tauto|].
  destruct (evutil_secure_rng_get_bytes n p1) as [bytes q1].
  cbn [fst snd] in E2, S1, P1.
  exists bytes, q1, (with_pids (pid (env p2)) (pid (env p2)) q1).
  rewrite E2 in S2, P2 |- *. cbn [fst snd] in S2, P2.
  assert (F : rs (vars q1) = rs (vars (with_pids (pid (env p2)) (pid (env p2)) q1))
              /\ rs_initialized (vars q1)
                 = rs_initialized (vars (with_pids (pid (env p2)) (pid (env p2)) q1))
              /\ arc4_count (vars q1)
                 = arc4_count (vars (with_pids (pid (env p2)) (pid (env p2)) q1))
              /\ arc4random_urandom_filename (vars q1)
                 = arc4random_urandom_filename
                     (vars (with_pids (pid (env p2)) (pid (env p2)) q1))
              /\ entropy (env q1)
                 = entropy (env (with_pids (pid (env p2)) (pid (env p2)) q1)))
    by (repeat split; reflexivity).
  destruct F as (F1 & F2 & F3 & F4 & F5).
  do 9 (split; [first [reflexivity | assumption | now split]|]).
  split.
  { unfold same_inputs. rewrite S1, P1, S2, P2. tauto. }
  split.
  { intros p Hs. specialize (K Hs). now inversion K. }
  intros m p Hs.
  assert (Hn : steady n p).
  { destruct Hs as (A & B & C). repeat split; auto; lia. }
  specialize (K Hn). inversion K as [[Kb Kq]]. fold p. fold p in Kq.
  assert (Hm : steady m (mk_process (drawn n (vars p)) (env p))).
  { destruct Hs as (A & B & C). repeat split; auto; cbn in *; lia. }
  rewrite (get_bytes_steady m _ Hm). cbn [vars env].
  rewrite (K2 m Hs). fold p.
  rewrite keystream_app. cbn [fst snd]. rewrite rev_app_distr.
  unfold drawn. cbn [rs rs_initialized arc4_stir_pid arc4_count
                     arc4random_urandom_filename].
  rewrite keystream_app. cbn [snd].
  replace (arc4_count (vars p) - Z.of_nat (n + m))
    with (arc4_count (vars p) - Z.of_nat n - Z.of_nat m) by lia.
  reflexivity.
Qed.

Lemma secure_rng_deterministic_up_to_pid_witness :
  same_inputs warm_process moved_process
  /\ fst (evutil_secure_rng_get_bytes 3 warm_process)
     = fst (evutil_secure_rng_get_bytes 3 moved_process).
Proof.
  assert (H : same_inputs warm_process moved_process).
  { unfold same_inputs, warm_process, moved_process.
    cbn [vars env rs_initialized rs arc4_stir_pid arc4_count
         arc4random_urandom_filename pid entropy].
    repeat split; reflexivity. }
  split; [exact H|].
  destruct (secure_rng_deterministic_up_to_pid 3 warm_process moved_process H)
    as (bytes & q1 & q2 & E1 & E2 & _).
  rewrite E1, E2. reflexivity.
Defined.

(** The identity permutation yields 2, 5, 7; the first byte lands in
    buf[2]. *)
Example warm_bytes :
  fst (evutil_secure_rng_get_bytes 3 warm_process) = [7; 5; 2].
Proof. vm_compute. reflexivity. Qed.

(** A first call in a fresh process: getrandom delivers the bytes 1..32,
    the generator is initialised, seeded, stirred, and four bytes drawn. *)
Example cold_start :
  let '(bytes, p) :=
    evutil_secure_rng_get_bytes 4
      (mk_process (mk_statics 0 (mk_stream 0 0 []) 0 0 None)
         (mk_env 7 [mk_seed (32, map Z.of_nat (seq 1 32)) (fun _ => None) []])) in
  (bytes, rs_initialized (vars p), arc4_count (vars p), arc4_stir_pid (vars p),
   entropy (env p))
  = ([26; 90; 98; 249], 1, 1599996, 7, []).
Proof. vm_compute. reflexivity. Qed.

(** A first call in two fresh processes with different pids and different
    leftovers in rs: both initialise, seed from the same 32 bytes and
    return the same four bytes. *)
Example cold_start_any_pid :
  let seed := mk_seed (32, map Z.of_nat (seq 1 32)) (fun _ => None) [] in
  fst (evutil_secure_rng_get_bytes 4
         (mk_process (mk_statics 0 (mk_stream 0 0 []) 0 0 None) (mk_env 7 [seed])))
  = [26; 90; 98; 249]
  /\ fst (evutil_secure_rng_get_bytes 4
            (mk_process (mk_statics 0 arc4_init 3 0 None) (mk_env 9 [seed])))
     = [26; 90; 98; 249].
Proof. split; vm_compute; reflexivity. Qed.

End Arc4Facts.

Module InetFacts.
Import CInt CIntFacts Ctype Snprintf Inet.

(** *** Numerals *)

(** The digits of a number below [base^4], most significant first. *)
Definition digits_closed (base n : Z) : list Z :=
  if n <? base then [n]
  else if n <? base * base then [n / base; n mod base]
  else if n <? base * base * base
       then [n / (base * base); n / base mod base; n mod base]
       else [n / (base * base * base); n / (base * base) mod base;
             n / base mod base; n mod base].

Definition numeral_value (base : Z) (ds : list Z) (acc : Z) : Z :=
  fold_left (fun a d => a * base + d) ds acc.

Lemma log2_fuel n k :
  2 ^ Z.of_nat k <= n -> (k < S (Z.to_nat (Z.log2 n)))%nat.
Proof.
  intros H. assert (0 < n) by (pose proof (Z.pow_pos_nonneg 2 (Z.of_nat k)); lia).
  apply Z.log2_le_pow2 in H; lia.
Qed.

Ltac div_facts := Z.to_euclidean_division_equations; lia.

Ltac digits_eq :=
  repeat (apply (f_equal2 (@cons Z));
          [apply (f_equal digit_char); div_facts|]);
  reflexivity.

Lemma render_closed_10 n :
  0 <= n < 10000 -> render_unsigned 10 n = map digit_char (digits_closed 10 n).
Proof.
  intros Hn. unfold render_unsigned, digits_closed.
  change (10 * 10 * 10) with 1000. change (10 * 10) with 100.
  destruct (Z.ltb_spec n 10);
    [|destruct (Z.ltb_spec n 100); [|destruct (Z.ltb_spec n 1000)]].
  - cbn [digits_of]. destruct (Z.eqb_spec (n / 10) 0); [|div_facts].
    cbn. digits_eq.
  - pose proof (log2_fuel n 1 ltac:(cbn; lia)).
    destruct (Z.to_nat (Z.log2 n)) as [|f]; [lia|]. cbn [digits_of].
    destruct (Z.eqb_spec (n / 10) 0); [div_facts|].
    destruct (Z.eqb_spec (n / 10 / 10) 0); [|div_facts].
    cbn. digits_eq.
  - pose proof (log2_fuel n 2 ltac:(cbn; lia)).
    destruct (Z.to_nat (Z.log2 n)) as [|[|f]]; try lia. cbn [digits_of].
    destruct (Z.eqb_spec (n / 10) 0); [div_facts|].
    destruct (Z.eqb_spec (n / 10 / 10) 0); [div_facts|].
    destruct (Z.eqb_spec (n / 10 / 10 / 10) 0); [|div_facts].
    cbn. digits_eq.
  - pose proof (log2_fuel n 3 ltac:(cbn; lia)).
    destruct (Z.to_nat (Z.log2 n)) as [|[|[|f]]]; try lia. cbn [digits_of].
    destruct (Z.eqb_spec (n / 10) 0); [div_facts|].
    destruct (Z.eqb_spec (n / 10 / 10) 0); [div_facts|].
    destruct (Z.eqb_spec (n / 10 / 10 / 10) 0); [div_facts|].
    destruct (Z.eqb_spec (n / 10 / 10 / 10 / 10) 0); [|div_facts].
    cbn. digits_eq.
Qed.

Lemma render_closed_16 n :
  0 <= n < 65536 -> render_unsigned 16 n = map digit_char (digits_closed 16 n).
Proof.
  intros Hn. unfold render_unsigned, digits_closed.
  change (16 * 16 * 16) with 4096. change (16 * 16) with 256.
  destruct (Z.ltb_spec n 16);
    [|destruct (Z.ltb_spec n 256); [|destruct (Z.ltb_spec n 4096)]].
  - cbn [digits_of]. destruct (Z.eqb_spec (n / 16) 0); [|div_facts].
    cbn. digits_eq.
  - pose proof (log2_fuel n 1 ltac:(cbn; lia)).
    destruct (Z.to_nat (Z.log2 n)) as [|f]; [lia|]. cbn [digits_of].
    destruct (Z.eqb_spec (n / 16) 0); [div_facts|].
    destruct (Z.eqb_spec (n / 16 / 16) 0); [|div_facts].
    cbn. digits_eq.
  - pose proof (log2_fuel n 2 ltac:(cbn; lia)).
    destruct (Z.to_nat (Z.log2 n)) as [|[|f]]; try lia. cbn [digits_of].
    destruct (Z.eqb_spec (n / 16) 0); [div_facts|].
    destruct (Z.eqb_spec (n / 16 / 16) 0); [div_facts|].
    destruct (Z.eqb_spec (n / 16 / 16 / 16) 0); [|div_facts].
    cbn. digits_eq.
  - pose proof (log2_fuel n 3 ltac:(cbn; lia)).
    destruct (Z.to_nat (Z.log2 n)) as [|[|[|f]]]; try lia. cbn [digits_of].
    destruct (Z.eqb_spec (n / 16) 0); [div_facts|].
    destruct (Z.eqb_spec (n / 16 / 16) 0); [div_facts|].
    destruct (Z.eqb_spec (n / 16 / 16 / 16) 0); [div_facts|].
    destruct (Z.eqb_spec (n / 16 / 16 / 16 / 16) 0); [|div_facts].
    cbn. digits_eq.
Qed.

(** What the closed form gives: between one and four digits below the
    base, denoting the number, with a leading zero only for zero itself. *)
Record numeral (base n : Z) (ds : list Z) : Prop := {
  numeral_digits : Forall (fun d => 0 <= d < base) ds;
  numeral_length : (1 <= length ds <= 4)%nat;
  numeral_denotes : numeral_value base ds 0 = n;
  numeral_leading : hd 0 ds = 0 -> ds = [0]
}.

Lemma digits_closed_numeral base n :
  (base = 10 \/ base = 16) -> 0 <= n < base * base * base * base ->
  numeral base n (digits_closed base n).
Proof.
  intros Hb Hn. unfold digits_closed.
  destruct Hb; subst base.
  all: change (10 * 10 * 10) with 1000 in *; change (10 * 10) with 100 in *.
  all: change (16 * 16 * 16) with 4096 in *; change (16 * 16) with 256 in *.
  all: cbn [Z.mul Pos.mul] in Hn.
  all: repeat case_cond.
  all: repeat match goal with
         | H : (_ <? _) = true |- _ => apply Z.ltb_lt in H
         | H : (_ <? _) = false |- _ => apply Z.ltb_ge in H
         end.
  all: split; unfold numeral_value; cbn [length hd fold_left].
  all: try lia.
  all: try (repeat constructor; div_facts).
  all: try div_facts.
  all: intros ->; reflexivity.
Qed.

(** *** Digits as characters *)

Ltac enum_digit d :=
  let H := fresh in
  assert (H : d = 0 \/ d = 1 \/ d = 2 \/ d = 3 \/ d = 4 \/ d = 5 \/ d = 6 \/ d = 7
              \/ d = 8 \/ d = 9 \/ d = 10 \/ d = 11 \/ d = 12 \/ d = 13 \/ d = 14
              \/ d = 15) by lia;
  repeat (destruct H as [H|H]; [subst d|]); [..|subst d].

Lemma digit_char_hex d :
  0 <= d < 16 ->
  evutil_hex_char_to_int_ (digit_char d) = d
  /\ EVUTIL_ISXDIGIT_ (digit_char d) = true
  /\ isspace (digit_char d) = false
  /\ digit_char d <> 0 /\ digit_char d <> 45 /\ digit_char d <> 43
  /\ digit_char d <> colon /\ digit_char d <> 46
  /\ (digit_char d = 48 -> d = 0).
Proof.
  intros Hd. enum_digit d; vm_compute; repeat split; congruence.
Qed.

Lemma digit_char_dec d :
  0 <= d < 10 ->
  ((48 <=? digit_char d) && (digit_char d <=? 57)) = true
  /\ digit_char d - 48 = d
  /\ EVUTIL_ISDIGIT_ (digit_char d) = true.
Proof.
  intros Hd. assert (Hd' : 0 <= d < 16) by lia.
  enum_digit d; try lia; vm_compute; repeat split; congruence.
Qed.

(** The character is no decimal digit, or no hexadecimal digit. *)
Definition not_dec (c : Z) : Prop := ((48 <=? c) && (c <=? 57)) = false.
Definition not_hex (c : Z) : Prop := (evutil_hex_char_to_int_ c >=? 0) = false.

Lemma dec_accum_numeral ds : forall rest acc any,
  Forall (fun d => 0 <= d < 10) ds -> not_dec (hd 0 rest) ->
  dec_accum (map digit_char ds ++ rest) acc any
  = (numeral_value 10 ds acc, rest,
     match ds with [] => any | _ => true end).
Proof.
  induction ds as [|d ds IH]; intros rest acc any Hds Hrest.
  - cbn. destruct rest as [|c rest]; [reflexivity|].
    cbn in *. unfold not_dec in Hrest. now rewrite Hrest.
  - inversion Hds as [|? ? Hd Hds']; subst.
    destruct (digit_char_dec d Hd) as (Hc & Hv & _).
    cbn [map app dec_accum]. rewrite Hc, Hv. rewrite IH by assumption.
    cbn. now destruct ds.
Qed.

Lemma hex_accum_numeral ds : forall rest acc any,
  Forall (fun d => 0 <= d < 16) ds -> not_hex (hd 0 rest) ->
  hex_accum (map digit_char ds ++ rest) acc any
  = (numeral_value 16 ds acc, rest,
     match ds with [] => any | _ => true end).
Proof.
  induction ds as [|d ds IH]; intros rest acc any Hds Hrest.
  - cbn. destruct rest as [|c rest]; [reflexivity|].
    cbn in *. unfold not_hex in Hrest. now rewrite Hrest.
  - inversion Hds as [|? ? Hd Hds']; subst.
    destruct (digit_char_hex d Hd) as (Hv & _).
    cbn [map app hex_accum]. rewrite Hv.
    rewrite (proj2 (Z.geb_le d 0)) by lia. rewrite IH by assumption.
    cbn. now destruct ds.
Qed.

(** [%u] reads back a numeral that is followed by something other than a
    digit. *)
Lemma scan_u_numeral n ds rest :
  numeral 10 n ds -> n < 2 ^ 32 -> not_dec (hd 0 rest) ->
  scan_u (map digit_char ds ++ rest) = Some (n, rest).
Proof.
  intros [Hds Hlen Hval Hlead] Hn Hrest.
  destruct ds as [|d ds]; [cbn in Hlen; lia|].
  inversion Hds as [|? ? Hd Hds']; subst.
  destruct (digit_char_hex d ltac:(lia)) as (_ & _ & Hsp & _ & Hm & Hp & _).
  unfold scan_u. cbn [map app skip_space]. rewrite Hsp.
  unfold scan_sign.
  rewrite (proj2 (Z.eqb_neq _ _) Hm), (proj2 (Z.eqb_neq _ _) Hp).
  change (digit_char d :: map digit_char ds ++ rest)
    with (map digit_char (d :: ds) ++ rest).
  rewrite dec_accum_numeral by assumption.
  assert (Hnn : 0 <= numeral_value 10 (d :: ds) 0).
  { clear -Hds. unfold numeral_value.
    assert (G : forall l a, Forall (fun d => 0 <= d < 10) l -> 0 <= a ->
                            0 <= fold_left (fun a d => a * 10 + d) l a).
    { induction l as [|x l IHl]; intros a Hl Ha; cbn; [lia|].
      inversion Hl; subst. apply IHl; [assumption | lia]. }
    apply G; [assumption | lia]. }
  cbv zeta. rewrite (proj2 (Z.ltb_ge _ _)) by lia.
  rewrite !Z.mod_small by lia. reflexivity.
Qed.

(** [strtol] in base 16 reads back a numeral of at most four digits that
    is followed by a colon or by the end of the string. *)
Lemma strtol16_numeral w ds rest :
  numeral 16 w ds -> 0 <= w < 65536 ->
  (rest = [] \/ hd 0 rest = colon) ->
  strtol16 (map digit_char ds ++ rest) = (w, rest).
Proof.
  intros [Hds Hlen Hval Hlead] Hw Hrest.
  assert (Hnh : not_hex (hd 0 rest)) by (destruct Hrest as [->| ->]; reflexivity).
  destruct ds as [|d ds]; [cbn in Hlen; lia|].
  inversion Hds as [|? ? Hd Hds']; subst.
  destruct (digit_char_hex d Hd) as (_ & _ & Hsp & _ & Hm & Hp & _ & _ & Hz).
  unfold strtol16. cbn [map app skip_space]. rewrite Hsp.
  unfold scan_sign.
  rewrite (proj2 (Z.eqb_neq _ _) Hm), (proj2 (Z.eqb_neq _ _) Hp).
  assert (Hpre : skip_0x (digit_char d :: map digit_char ds ++ rest)
                 = digit_char d :: map digit_char ds ++ rest).
  { unfold skip_0x. destruct (Z.eqb_spec (digit_char d) 48) as [E|]; cbn [andb].
    - specialize (Hlead (Hz E)). inversion Hlead; subst. cbn [map app].
      destruct Hrest as [->| Hc]; [reflexivity|].
      destruct rest as [|x [|h r]]; try reflexivity.
      cbn in Hc. subst x. reflexivity.
    - destruct (map digit_char ds ++ rest) as [|x [|h r]]; reflexivity. }
  rewrite Hpre.
  change (digit_char d :: map digit_char ds ++ rest)
    with (map digit_char (d :: ds) ++ rest).
  rewrite hex_accum_numeral by assumption.
  unfold LONG_MIN, LONG_MAX.
  rewrite Z.min_r, Z.max_r by lia. reflexivity.
Qed.

(** *** Bytes and words *)

Definition is_byte (b : Z) : Prop := 0 <= b < 256.

Lemma land_multiple_small x y k :
  0 <= k -> x mod 2 ^ k = 0 -> 0 <= y < 2 ^ k -> Z.land x y = 0.
Proof.
  intros Hk Hx Hy. apply Z.bits_inj'; intros n Hn.
  rewrite Z.land_spec, Z.bits_0.
  destruct (Z.lt_ge_cases n k) as [Hlt|Hge].
  - assert (E : x = Z.shiftl (x / 2 ^ k) k).
    { rewrite Z.shiftl_mul_pow2 by lia.
      pose proof (Z.div_mod x (2 ^ k) ltac:(pose proof (Z.pow_pos_nonneg 2 k); lia)).
      lia. }
    rewrite E, Z.shiftl_spec_low by lia. reflexivity.
  - destruct (Z.eq_dec y 0) as [->|Hy0]; [now rewrite Z.bits_0, andb_false_r|].
    rewrite (Z.bits_above_log2 y n), andb_false_r; [reflexivity | lia |].
    assert (Z.log2 y < k) by (apply Z.log2_lt_pow2; lia). lia.
Qed.

Lemma lor_disjoint x y k :
  0 <= k -> x mod 2 ^ k = 0 -> 0 <= y < 2 ^ k -> Z.lor x y = x + y.
Proof.
  intros Hk Hx Hy. pose proof (Z.add_lor_land x y) as H.
  rewrite (land_multiple_small x y k) in H by assumption. lia.
Qed.

Lemma land_255 x : Z.land x 255 = x mod 256.
Proof. change 255 with (Z.ones 8). now rewrite Z.land_ones by lia. Qed.

(** Four bytes packed with shifts and ors, as both functions do. *)
Definition pack4 (a b c d : Z) : Z :=
  Z.lor (Z.lor (Z.lor (Z.shiftl a 24) (Z.shiftl b 16)) (Z.shiftl c 8)) d.

Lemma pack4_value a b c d :
  is_byte a -> is_byte b -> is_byte c -> is_byte d ->
  pack4 a b c d = a * 16777216 + b * 65536 + c * 256 + d.
Proof.
  unfold is_byte, pack4. intros Ha Hb Hc Hd.
  rewrite !Z.shiftl_mul_pow2 by lia.
  change (2 ^ 24) with 16777216. change (2 ^ 16) with 65536. change (2 ^ 8) with 256.
  rewrite (lor_disjoint (a * 16777216) (b * 65536) 24);
    [|lia | change (2 ^ 24) with 16777216; div_facts
     | change (2 ^ 24) with 16777216; lia].
  rewrite (lor_disjoint (a * 16777216 + b * 65536) (c * 256) 16);
    [|lia | change (2 ^ 16) with 65536; div_facts
     | change (2 ^ 16) with 65536; lia].
  rewrite (lor_disjoint (a * 16777216 + b * 65536 + c * 256) d 8);
    [|lia | change (2 ^ 8) with 256; div_facts
     | change (2 ^ 8) with 256; lia].
  reflexivity.
Qed.

Lemma unpack4 a b c d :
  is_byte a -> is_byte b -> is_byte c -> is_byte d ->
  Z.land (Z.shiftr (pack4 a b c d) 24) 255 = a
  /\ Z.land (Z.shiftr (pack4 a b c d) 16) 255 = b
  /\ Z.land (Z.shiftr (pack4 a b c d) 8) 255 = c
  /\ Z.land (pack4 a b c d) 255 = d.
Proof.
  intros Ha Hb Hc Hd. rewrite pack4_value by assumption.
  unfold is_byte in *. rewrite !land_255, !Z.shiftr_div_pow2 by lia.
  change (2 ^ 24) with 16777216. change (2 ^ 16) with 65536. change (2 ^ 8) with 256.
  repeat split; div_facts.
Qed.

(** A 16-bit word made of two bytes, and the bytes taken out again. *)
Lemma word_of_bytes hi lo :
  is_byte hi -> is_byte lo ->
  u16 (Z.shiftl hi 8 + lo) = hi * 256 + lo
  /\ u16 (Z.lor (Z.shiftl hi 8) lo) = hi * 256 + lo.
Proof.
  unfold is_byte, u16. intros Hh Hl.
  rewrite (lor_disjoint (Z.shiftl hi 8) lo 8);
    rewrite ?Z.shiftl_mul_pow2 by lia; change (2 ^ 8) with 256;
    try lia; try div_facts.
Qed.

Lemma bytes_of_word hi lo :
  is_byte hi -> is_byte lo ->
  u8 (Z.shiftr (hi * 256 + lo) 8) = hi /\ Z.land (hi * 256 + lo) 255 = lo.
Proof.
  unfold is_byte, u8. intros Hh Hl.
  rewrite land_255, Z.shiftr_div_pow2 by lia. change (2 ^ 8) with 256.
  split; div_facts.
Qed.

(** *** Strings in buffers *)

Definition nonzero (c : Z) : Prop := c <> 0.

Lemma c_str_app_nul t x : Forall nonzero t -> c_str (t ++ 0 :: x) = t.
Proof.
  induction 1 as [|c t Hc _ IH]; cbn; [reflexivity|].
  rewrite (proj2 (Z.eqb_neq c 0) Hc). now f_equal.
Qed.

Lemma c_str_id t : Forall nonzero t -> c_str t = t.
Proof.
  induction 1 as [|c t Hc _ IH]; cbn; [reflexivity|].
  rewrite (proj2 (Z.eqb_neq c 0) Hc). now f_equal.
Qed.

Lemma insert_after_nul (t x : list Z) k :
  (length t < k)%nat ->
  <[k := 0]> (t ++ 0 :: x) = t ++ 0 :: <[(k - S (length t))%nat := 0]> x.
Proof.
  intros Hk. rewrite insert_app_r_alt by lia.
  replace (k - length t)%nat with (S (k - S (length t))) by lia. reflexivity.
Qed.

(** [evutil_snprintf] with room to spare: the text, a NUL, and a NUL at the
    end of the announced size. *)
Lemma evutil_snprintf_fits buf n fmt :
  (length (expand fmt) + 1 < n)%nat -> (n <= length buf)%nat ->
  (length (expand fmt) <= 64)%nat ->
  exists tail,
    evutil_snprintf c99_vsnprintf buf n fmt
    = (expand fmt ++ 0 :: tail, Z.of_nat (length (expand fmt)))
    /\ length (expand fmt ++ 0 :: tail) = length buf.
Proof.
  intros Hfit Hbuf Hshort.
  unfold evutil_snprintf, evutil_vsnprintf, c99_vsnprintf.
  destruct (Nat.eqb_spec n 0) as [|_]; [lia|].
  rewrite take_ge by lia.
  rewrite wrap_int_id
    by (unfold in_int, INT_MIN, INT_MAX; change (2 ^ 31) with 2147483648; lia).
  rewrite insert_after_nul by lia.
  eexists. split; [reflexivity|].
  rewrite length_app. cbn [length]. rewrite length_insert, length_drop. lia.
Qed.

Definition dec (b : Z) : list Z := map digit_char (digits_closed 10 b).
Definition hex (w : Z) : list Z := map digit_char (digits_closed 16 w).

(** The text "a.b.c.d". *)
Definition quad_text (a b c d : Z) : list Z :=
  dec a ++ 46 :: dec b ++ 46 :: dec c ++ 46 :: dec d.

(** Characters of a numeral: hexadecimal digits, so neither NUL, colon
    nor dot. *)
Definition digit_like (c : Z) : Prop :=
  c <> 0 /\ c <> colon /\ c <> 46 /\ EVUTIL_ISXDIGIT_ c = true.

Lemma numeral_chars base n ds :
  (base = 10 \/ base = 16) -> numeral base n ds ->
  Forall digit_like (map digit_char ds).
Proof.
  intros Hb [Hds _ _ _]. apply Forall_map.
  eapply Forall_impl; [exact Hds|]. intros d Hd. cbn in Hd.
  assert (Hd16 : 0 <= d < 16) by (destruct Hb; subst base; lia).
  destruct (digit_char_hex d Hd16) as (_ & Hx & _ & H0 & _ & _ & Hc & Hdot & _).
  repeat split; assumption.
Qed.

Lemma dec_numeral b : is_byte b -> numeral 10 b (digits_closed 10 b).
Proof. unfold is_byte. intros. apply digits_closed_numeral; [auto | lia]. Qed.

Lemma hex_numeral w : 0 <= w < 65536 -> numeral 16 w (digits_closed 16 w).
Proof. intros. apply digits_closed_numeral; [auto | lia]. Qed.

Lemma dec_chars b : is_byte b -> Forall digit_like (dec b).
Proof. intros. eapply numeral_chars; [left; reflexivity | now apply dec_numeral]. Qed.

Lemma hex_chars w : 0 <= w < 65536 -> Forall digit_like (hex w).
Proof. intros. eapply numeral_chars; [right; reflexivity | now apply hex_numeral]. Qed.

Lemma dec_length b : is_byte b -> (1 <= length (dec b) <= 3)%nat.
Proof.
  unfold is_byte, dec, digits_closed. intros Hb. rewrite length_map.
  change (10 * 10 * 10) with 1000. change (10 * 10) with 100.
  repeat case_cond; cbn; lia.
Qed.

Lemma hex_length w : 0 <= w < 65536 -> (1 <= length (hex w) <= 4)%nat.
Proof.
  intros Hw. unfold hex. rewrite length_map.
  destruct (hex_numeral w Hw) as [_ Hl _ _]. exact Hl.
Qed.

Lemma render_dec b : is_byte b -> render (ConvD b) = dec b.
Proof.
  unfold is_byte. intros Hb. cbn. rewrite (proj2 (Z.ltb_ge b 0)) by lia.
  apply render_closed_10. lia.
Qed.

Lemma render_hex w : 0 <= w < 65536 -> render (ConvX w) = hex w.
Proof. intros Hw. cbn. now apply render_closed_16. Qed.

Lemma expand_quad a b c d :
  is_byte a -> is_byte b -> is_byte c -> is_byte d ->
  expand [ConvD a; Lit dot; ConvD b; Lit dot; ConvD c; Lit dot; ConvD d]
  = quad_text a b c d.
Proof.
  intros Ha Hb Hc Hd. unfold expand. cbn [map concat].
  rewrite !render_dec by assumption. cbn [render].
  unfold quad_text, dot. rewrite app_nil_r. reflexivity.
Qed.

Lemma quad_text_length a b c d :
  is_byte a -> is_byte b -> is_byte c -> is_byte d ->
  (length (quad_text a b c d) <= 15)%nat.
Proof.
  intros Ha Hb Hc Hd. unfold quad_text.
  pose proof (dec_length a Ha). pose proof (dec_length b Hb).
  pose proof (dec_length c Hc). pose proof (dec_length d Hd).
  repeat (rewrite ?length_app; cbn [length]). lia.
Qed.

Lemma digit_like_nonzero l : Forall digit_like l -> Forall nonzero l.
Proof.
  intros Hl. eapply Forall_impl; [exact Hl|]. intros c (H & _). exact H.
Qed.

Lemma quad_text_nonzero a b c d :
  is_byte a -> is_byte b -> is_byte c -> is_byte d ->
  Forall nonzero (quad_text a b c d).
Proof.
  intros Ha Hb Hc Hd. unfold quad_text.
  repeat first [apply Forall_app_2 | apply Forall_cons_2];
    try (apply digit_like_nonzero, dec_chars; assumption);
    unfold nonzero; lia.
Qed.

(** "%u.%u.%u.%u%c" on "a.b.c.d": four conversions, and no character left
    for the fifth. *)
Lemma sscanf_quad a b c d :
  is_byte a -> is_byte b -> is_byte c -> is_byte d ->
  sscanf (quad_text a b c d) quad_format = (4, [a; b; c; d]).
Proof.
  intros Ha Hb Hc Hd. unfold sscanf, quad_format, quad_text.
  assert (Hscan : forall x rest, is_byte x -> not_dec (hd 0 rest) ->
                    scan_u (dec x ++ rest) = Some (x, rest)).
  { intros x rest Hx Hr. apply scan_u_numeral; auto using dec_numeral.
    unfold is_byte in Hx. lia. }
  cbn [sscanf_values].
  rewrite (Hscan a) by (assumption || reflexivity). rewrite Z.eqb_refl.
  rewrite (Hscan b) by (assumption || reflexivity). rewrite Z.eqb_refl.
  rewrite (Hscan c) by (assumption || reflexivity). rewrite Z.eqb_refl.
  rewrite <- (app_nil_r (dec d)).
  rewrite (Hscan d) by (assumption || reflexivity).
  reflexivity.
Qed.

(** *** IPv4 *)

Lemma u8_byte b : is_byte b -> u8 b = b.
Proof. unfold is_byte, u8. intros. apply Z.mod_small. lia. Qed.

Lemma pton4_quad_text a b c d stack :
  is_byte a -> is_byte b -> is_byte c -> is_byte d ->
  evutil_inet_pton AF_INET (quad_text a b c d) stack = (1, Some [a; b; c; d]).
Proof.
  intros Ha Hb Hc Hd. unfold evutil_inet_pton.
  change (AF_INET =? AF_INET) with true. cbv iota.
  rewrite sscanf_quad by assumption. cbv iota.
  unfold is_byte in *.
  rewrite !(proj2 (Z.ltb_ge 255 _)) by lia. cbn [orb].
  fold (pack4 a b c d). unfold htonl_s_addr.
  destruct (unpack4 a b c d Ha Hb Hc Hd) as (-> & -> & -> & ->). reflexivity.
Qed.

Lemma ntop4_quad_text strlcpy a b c d dst len stack :
  is_byte a -> is_byte b -> is_byte c -> is_byte d ->
  (46 <= len <= length dst)%nat ->
  exists dst',
    evutil_inet_ntop strlcpy AF_INET [a; b; c; d] dst len stack = (true, dst')
    /\ c_str dst' = quad_text a b c d.
Proof.
  intros Ha Hb Hc Hd Hlen. unfold evutil_inet_ntop.
  change (AF_INET =? AF_INET) with true. cbv iota.
  change (ntohl_s_addr [a; b; c; d]) with (pack4 a b c d).
  destruct (unpack4 a b c d Ha Hb Hc Hd) as (-> & -> & -> & ->).
  rewrite !u8_byte by assumption.
  pose proof (quad_text_length a b c d Ha Hb Hc Hd) as Hq.
  pose proof (expand_quad a b c d Ha Hb Hc Hd) as He.
  destruct (evutil_snprintf_fits dst len
              [ConvD a; Lit dot; ConvD b; Lit dot; ConvD c; Lit dot; ConvD d])
    as (tail & -> & _); rewrite ?He; try lia.
  rewrite (proj2 (Z.ltb_ge _ 0)) by lia.
  rewrite (proj2 (Z.leb_gt _ _)) by lia. cbn [orb].
  eexists. split; [reflexivity|].
  apply c_str_app_nul. now apply quad_text_nonzero.
Qed.

(** *** IPv6: the text of the words *)

Definition is_word (w : Z) : Prop := 0 <= w < 65536.

(** The text [emit_words] writes, from word [i] on. *)
Fixpoint words_text (fuel : nat) (ws : list Z) (g : Z) (i : nat) : list Z :=
  match fuel with
  | O => []
  | S fuel' =>
      if (i <? 8)%nat then
        if (nth i ws 0 =? 0) && (g =? Z.of_nat i) then
          (if (i =? 0)%nat then [colon] else [])
            ++ colon :: words_text fuel' ws g (skip_zero_words 8 ws i)
        else
          hex (nth i ws 0)
            ++ (if negb (i =? 7)%nat then [colon] else [])
            ++ words_text fuel' ws g (S i)
      else []
  end.

(** The array after the words [l] were stored from index [ip] on. *)
Definition write_range (wp : list Z) (ip : nat) (l : list Z) : list Z :=
  take ip wp ++ l ++ drop (ip + length l) wp.

Lemma write_range_nil wp ip : write_range wp ip [] = wp.
Proof. unfold write_range. cbn. rewrite Nat.add_0_r. apply take_drop. Qed.

Lemma write_range_cons wp ip w l :
  (ip < length wp)%nat ->
  write_range (<[ip := w]> wp) (S ip) l = write_range wp ip (w :: l).
Proof.
  intros Hip. unfold write_range.
  rewrite take_S_r with (x := w) by (now apply list_lookup_insert_eq).
  rewrite take_insert_ge by lia. rewrite drop_insert_lt by lia.
  rewrite <- app_assoc. cbn [app length].
  now replace (S ip + length l)%nat with (ip + S (length l))%nat by lia.
Qed.

Lemma length_write_range wp ip l :
  (ip + length l <= length wp)%nat -> length (write_range wp ip l) = length wp.
Proof.
  intros H. unfold write_range.
  rewrite !length_app, length_take, length_drop. lia.
Qed.

Lemma nth_word ws i : Forall is_word ws -> is_word (nth i ws 0).
Proof.
  intros H. destruct (nth_in_or_default i ws 0) as [Hin| ->].
  - rewrite Forall_forall in H. apply H. now apply list_elem_of_In.
  - unfold is_word. lia.
Qed.

Lemma hex_xdigit_head w tail :
  is_word w -> EVUTIL_ISXDIGIT_ (hd 0 (hex w ++ tail)) = true.
Proof.
  intros Hw. pose proof (hex_chars w Hw) as Hc. pose proof (hex_length w Hw) as Hl.
  destruct (hex w) as [|c h]; [cbn in Hl; lia|].
  inversion Hc as [|? ? (_ & _ & _ & Hx) _]; subst. exact Hx.
Qed.

(** One word and its separator, as the loop of [evutil_inet_pton] reads
    them. *)
Lemma pton6_word_step pf w tail ip gp sw wp :
  is_word w -> (tail = [] \/ hd 0 tail = colon) -> (ip <= 7)%nat ->
  pton6_loop (S pf) (hex w ++ tail) (Z.of_nat (length (hex w ++ tail))) ip gp sw wp
  = pton6_loop pf (tl tail) (Z.of_nat (length tail) - 1) (S ip) gp (sw + 1)
               (<[ip := w]> wp).
Proof.
  intros Hw Htail Hip. pose proof (hex_length w Hw) as Hl.
  cbn [pton6_loop]. rewrite length_app.
  rewrite (proj2 (Z.ltb_lt 0 _)) by lia.
  rewrite (proj2 (Nat.ltb_ge 7 ip)) by lia.
  rewrite hex_xdigit_head by assumption.
  unfold hex at 1. rewrite (strtol16_numeral w); auto using hex_numeral.
  replace (Z.of_nat (length (hex w) + length tail) - Z.of_nat (length tail))
    with (Z.of_nat (length (hex w))) by lia.
  rewrite (proj2 (Z.ltb_ge 4 _)) by lia.
  rewrite (proj2 (Z.eqb_neq _ 0)) by lia.
  unfold is_word in Hw.
  rewrite (proj2 (Z.ltb_ge w 0)), (proj2 (Z.ltb_ge 65536 w)) by lia. cbn [orb].
  replace (u16 w) with w by (unfold u16; rewrite Z.mod_small; lia).
  replace (Z.of_nat (length (hex w) + length tail) - Z.of_nat (length (hex w)))
    with (Z.of_nat (length tail)) by lia.
  destruct Htail as [-> | Hc].
  - cbn [hd length]. change (0 =? colon) with false. cbn [negb andb].
    rewrite Z.eqb_refl. cbn [negb]. reflexivity.
  - rewrite Hc, Z.eqb_refl. cbn [negb andb]. reflexivity.
Qed.

Lemma pton6_loop_done pf rest left ip gp sw wp :
  left <= 0 -> pton6_loop (S pf) rest left ip gp sw wp = Some (ip, gp, sw, wp).
Proof. intros H. cbn. now rewrite (proj2 (Z.ltb_ge 0 left)) by lia. Qed.

Lemma skip_zero_words_spec ws fuel : forall i,
  (i <= skip_zero_words fuel ws i)%nat
  /\ (skip_zero_words fuel ws i <= Nat.max i 8)%nat
  /\ forall j, (i <= j < skip_zero_words fuel ws i)%nat -> nth j ws 0 = 0.
Proof.
  induction fuel as [|fuel IH]; intros i; cbn [skip_zero_words].
  - repeat split; lia.
  - destruct (Nat.ltb_spec i 8); cbn [andb]; [|repeat split; lia].
    destruct (Z.eqb_spec (nth i ws 0) 0) as [Hz|]; [|repeat split; lia].
    destruct (IH (S i)) as (H1 & H2 & H3). repeat split; try lia.
    intros j Hj. destruct (decide (j = i)) as [->|]; [exact Hz|].
    apply H3. lia.
Qed.

Lemma skip_zero_words_progress ws fuel i :
  (i < 8)%nat -> nth i ws 0 = 0 -> (i < skip_zero_words (S fuel) ws i)%nat.
Proof.
  intros Hi Hz. cbn [skip_zero_words].
  rewrite (proj2 (Nat.ltb_lt i 8)), Hz by lia. cbn.
  pose proof (skip_zero_words_spec ws fuel (S i)). lia.
Qed.

(** The words from [i] on, none of which opens the gap: the loop stores
    them from [ip] on and stops at the end of the text. *)
Ltac state_eq :=
  apply f_equal;
  repeat match goal with |- (_, _) = (_, _) => apply f_equal2 end;
  try reflexivity; try lia.

Lemma pton6_plain_words ws g : forall fuel i pf ip gp sw wp,
  Forall is_word ws ->
  (forall k, (i <= k < 8)%nat -> ~ (nth k ws 0 = 0 /\ g = Z.of_nat k)) ->
  (i <= 8)%nat -> (8 - i <= fuel)%nat -> (ip + (8 - i) <= 8)%nat ->
  length ws = 8%nat -> length wp = 8%nat ->
  (length (words_text fuel ws g i) < pf)%nat ->
  pton6_loop pf (words_text fuel ws g i)
    (Z.of_nat (length (words_text fuel ws g i))) ip gp sw wp
  = Some ((ip + (8 - i))%nat, gp, sw + Z.of_nat (8 - i),
          write_range wp ip (drop i ws)).
Proof.
  induction fuel as [|fuel IH]; intros i pf ip gp sw wp Hws Hng Hi Hfuel Hip Hl Hwp Hpf.
  - assert (i = 8)%nat as -> by lia. cbn [words_text] in *.
    destruct pf as [|pf]; [cbn in Hpf; lia|].
    rewrite pton6_loop_done by (cbn; lia).
    rewrite drop_ge by lia. rewrite write_range_nil.
    state_eq.
  - cbn [words_text] in *. destruct (Nat.ltb_spec i 8) as [Hi8|Hi8].
    2: { assert (i = 8)%nat as -> by lia.
         destruct pf as [|pf]; [cbn in Hpf; lia|].
         rewrite pton6_loop_done by (cbn; lia).
         rewrite drop_ge by lia. rewrite write_range_nil.
         state_eq. }
    assert (Hcond : (nth i ws 0 =? 0) && (g =? Z.of_nat i) = false).
    { destruct (Z.eqb_spec (nth i ws 0) 0), (Z.eqb_spec g (Z.of_nat i)); auto.
      exfalso. apply (Hng i); [lia | auto]. }
    rewrite Hcond in *.
    pose proof (nth_word ws i Hws) as Hw.
    destruct pf as [|pf]; [lia|].
    assert (Hdrop : drop i ws = nth i ws 0 :: drop (S i) ws).
    { apply drop_S. destruct (nth_lookup_or_length ws i 0); [assumption | lia]. }
    rewrite pton6_word_step; [|assumption| |lia].
    2: { destruct (Nat.eqb_spec i 7); cbn [negb app]; [|right; reflexivity].
         left. subst i. destruct fuel; [reflexivity|]. cbn. reflexivity. }
    destruct (Nat.eqb_spec i 7) as [->|Hne]; cbn [negb app tl length].
    + assert (Hend : words_text fuel ws g 8 = []) by (destruct fuel; reflexivity).
      rewrite Hend in *. cbn [tl length].
      assert (Hpf' : (1 <= pf)%nat).
      { rewrite length_app in Hpf. pose proof (hex_length _ Hw). cbn in Hpf. lia. }
      destruct pf as [|pf]; [lia|].
      rewrite pton6_loop_done by (cbn; lia).
      rewrite Hdrop. rewrite (drop_ge ws 8) by lia.
      rewrite <- write_range_cons by lia. rewrite write_range_nil.
      state_eq.
    + replace (Z.of_nat (S (length (words_text fuel ws g (S i)))) - 1)
        with (Z.of_nat (length (words_text fuel ws g (S i)))) by lia.
      rewrite IH; try assumption; try lia.
      * rewrite Hdrop at 1. rewrite <- write_range_cons by lia. state_eq.
      * intros k Hk. apply Hng. lia.
      * now rewrite length_insert.
      * rewrite !length_app in Hpf. cbn [length] in Hpf.
        pose proof (hex_length _ Hw). lia.
Qed.

Definition bytes_of_words (ws : list Z) : list Z :=
  concat (map (fun w => [u8 (Z.shiftr w 8); Z.land w 255]) ws).

Lemma take_all_eq (a b : list Z) n :
  length a = n -> length b = n -> take n a = take n b -> a = b.
Proof. intros Ha Hb H. rewrite !take_ge in H by lia. exact H. Qed.

(** All eight words were read and there was no gap. *)
Lemma pton6_finish_full ws wp :
  length ws = 8%nat -> length wp = 8%nat -> take 8 wp = take 8 ws ->
  pton6_finish false (-1) 8 wp = (1, Some (bytes_of_words ws)).
Proof.
  intros Hl Hwp Ht. rewrite (take_all_eq wp ws 8) by assumption. reflexivity.
Qed.

Lemma zero_segment ws i : forall n,
  (forall j, (i <= j < i + n)%nat -> nth j ws 0 = 0) ->
  (i + n <= length ws)%nat ->
  take n (drop i ws) = replicate n 0.
Proof.
  intros n. revert i. induction n as [|n IH]; intros i Hz Hl; [reflexivity|].
  rewrite (drop_S ws (nth i ws 0) i)
    by (destruct (nth_lookup_or_length ws i 0); [assumption | lia]).
  cbn [take replicate]. rewrite (Hz i) by lia. f_equal.
  apply IH; [|lia]. intros j Hj. apply Hz. lia.
Qed.

(** The gap was at word [i], the words from [s] on were stored behind it:
    moving them up and zeroing the gap restores the eight words. *)
Lemma pton6_finish_gap ws wp i s :
  length ws = 8%nat -> length wp = 8%nat ->
  (i < s <= 8)%nat -> take i wp = take i ws ->
  (forall j, (i <= j < s)%nat -> nth j ws 0 = 0) ->
  pton6_finish false (Z.of_nat i) (Z.of_nat i + Z.of_nat (8 - s))
    (write_range wp i (drop s ws))
  = (1, Some (bytes_of_words ws)).
Proof.
  intros Hl Hwp His Ht Hz. unfold pton6_finish.
  rewrite (proj2 (Z.ltb_ge 8 _)) by lia.
  rewrite (proj2 (Z.eqb_neq _ 8)) by lia.
  rewrite (proj2 (Z.eqb_neq (Z.of_nat i) (-1))) by lia.
  rewrite andb_false_r. cbn [orb andb].
  rewrite (proj2 (Z.leb_le 0 (Z.of_nat i))) by lia.
  rewrite (proj2 (Z.ltb_ge _ 0)) by lia. cbn [andb].
  replace (Z.to_nat (Z.of_nat i + (8 - (Z.of_nat i + Z.of_nat (8 - s))))) with s by lia.
  replace (Z.to_nat (Z.of_nat i + Z.of_nat (8 - s) - 0 - Z.of_nat i))
    with (8 - s)%nat by lia.
  replace (Z.to_nat (8 - (Z.of_nat i + Z.of_nat (8 - s)))) with (s - i)%nat by lia.
  rewrite Nat2Z.id.
  do 2 f_equal. unfold bytes_of_words. do 2 f_equal.
  set (w := write_range wp i (drop s ws)).
  assert (Hw : length w = 8%nat).
  { unfold w. rewrite length_write_range; rewrite ?length_drop; lia. }
  assert (Hti : take i w = take i ws).
  { unfold w, write_range. rewrite take_app_length' by (rewrite length_take; lia).
    exact Ht. }
  assert (Hdi : take (8 - s) (drop i w) = drop s ws).
  { unfold w, write_range. rewrite drop_app_length' by (rewrite length_take; lia).
    rewrite take_app_length' by (rewrite length_drop; lia). reflexivity. }
  unfold memset_words, memmove_words.
  rewrite Hdi. rewrite (drop_ge w) by lia. rewrite app_nil_r.
  rewrite take_app_le by (rewrite length_take; lia).
  rewrite take_take. replace (i `min` s)%nat with i by lia. rewrite Hti.
  replace (i + (s - i))%nat with s by lia.
  rewrite drop_app_length' by (rewrite length_take; lia).
  rewrite <- (zero_segment ws i (s - i)); [|intros j Hj; apply Hz; lia | lia].
  transitivity (take i ws ++ drop i ws); [|apply take_drop].
  f_equal.
  transitivity (take (s - i) (drop i ws) ++ drop (s - i) (drop i ws));
    [|apply take_drop].
  f_equal. rewrite drop_drop. f_equal. lia.
Qed.

Lemma take_S_insert (wp ws : list Z) i :
  (i < length wp)%nat -> (i < length ws)%nat -> take i wp = take i ws ->
  take (S i) (<[i := nth i ws 0]> wp) = take (S i) ws.
Proof.
  intros Hwp Hws Ht.
  rewrite (take_S_r _ i (nth i ws 0)) by (now apply list_lookup_insert_eq).
  rewrite take_insert_ge by lia. rewrite Ht. symmetry. apply take_S_r.
  destruct (nth_lookup_or_length ws i 0); [assumption | lia].
Qed.

(** The whole text of [emit_words], read by the loop from word [i] and
    completed by the code after the loop, gives back the words. *)
Lemma pton6_words_text ws g : forall fuel i pf wp,
  Forall is_word ws -> length ws = 8%nat -> length wp = 8%nat ->
  (i <= 8)%nat -> (8 - i <= fuel)%nat -> take i wp = take i ws ->
  (length (words_text fuel ws g i) < pf)%nat ->
  exists i' gp' sw' wp',
    pton6_loop pf (words_text fuel ws g i)
      (Z.of_nat (length (words_text fuel ws g i))) i (-1) (Z.of_nat i) wp
    = Some (i', gp', sw', wp')
    /\ pton6_finish false gp' sw' wp' = (1, Some (bytes_of_words ws)).
Proof.
  induction fuel as [|fuel IH]; intros i pf wp Hws Hl Hwp Hi Hfuel Ht Hpf.
  - assert (i = 8)%nat as -> by lia. cbn [words_text] in *.
    destruct pf as [|pf]; [cbn in Hpf; lia|].
    rewrite pton6_loop_done by (cbn; lia).
    do 4 eexists. split; [reflexivity|]. now apply pton6_finish_full.
  - cbn [words_text] in *. destruct (Nat.ltb_spec i 8) as [Hi8|Hi8].
    2: { assert (i = 8)%nat as -> by lia.
         destruct pf as [|pf]; [cbn in Hpf; lia|].
         rewrite pton6_loop_done by (cbn; lia).
         do 4 eexists. split; [reflexivity|]. now apply pton6_finish_full. }
    pose proof (nth_word ws i Hws) as Hw.
    destruct pf as [|pf]; [lia|].
    destruct ((nth i ws 0 =? 0) && (g =? Z.of_nat i)) eqn:Hcond.
    + (* the gap opens here *)
      apply andb_prop in Hcond as [Hz%Z.eqb_eq Hg%Z.eqb_eq].
      pose proof (skip_zero_words_progress ws 7 i Hi8 Hz) as Hprog.
      destruct (skip_zero_words_spec ws 8 i) as (_ & Hs8 & Hzeros).
      set (s := skip_zero_words 8 ws i) in *.
      set (tB := words_text fuel ws g s) in *.
      assert (Hplain : forall pf' sw,
                 (length tB < pf')%nat ->
                 pton6_loop pf' tB (Z.of_nat (length tB)) i (Z.of_nat i) sw wp
                 = Some ((i + (8 - s))%nat, Z.of_nat i, sw + Z.of_nat (8 - s),
                         write_range wp i (drop s ws))).
      { intros pf' sw Hpf'. apply pton6_plain_words; try assumption; lia. }
      assert (Hfin : pton6_finish false (Z.of_nat i) (Z.of_nat i + Z.of_nat (8 - s))
                       (write_range wp i (drop s ws))
                     = (1, Some (bytes_of_words ws)))
        by (apply pton6_finish_gap; auto; lia).
      destruct (Nat.eqb_spec i 0) as [->|Hi0].
      * cbn [app length] in *. cbn [pton6_loop].
        rewrite (proj2 (Z.ltb_lt 0 _)) by lia.
        cbn [Nat.ltb Nat.leb hd nth drop Nat.eqb].
        change (EVUTIL_ISXDIGIT_ colon) with false. rewrite !Z.eqb_refl.
        cbn [andb].
        replace (Z.of_nat (S (S (length tB))) - 2) with (Z.of_nat (length tB)) by lia.
        rewrite Hplain by lia.
        do 4 eexists. split; [reflexivity|]. exact Hfin.
      * cbn [app length] in *. cbn [pton6_loop].
        rewrite (proj2 (Z.ltb_lt 0 _)) by lia.
        rewrite (proj2 (Nat.ltb_ge 7 i)) by lia. cbn [hd tl].
        change (EVUTIL_ISXDIGIT_ colon) with false. rewrite !Z.eqb_refl.
        rewrite (proj2 (Nat.ltb_lt 0 i)) by lia. cbn [andb].
        replace (Z.of_nat (S (length tB)) - 1) with (Z.of_nat (length tB)) by lia.
        rewrite Hplain by lia.
        do 4 eexists. split; [reflexivity|]. exact Hfin.
    + (* an ordinary word *)
      rewrite pton6_word_step; [|assumption| |lia].
      2: { destruct (Nat.eqb_spec i 7); cbn [negb app]; [|right; reflexivity].
           left. subst i. destruct fuel; reflexivity. }
      assert (Ht' : take (S i) (<[i := nth i ws 0]> wp) = take (S i) ws)
        by (apply take_S_insert; auto; lia).
      destruct (Nat.eqb_spec i 7) as [->|Hne]; cbn [negb app tl length] in *.
      * assert (Hend : words_text fuel ws g 8 = []) by (destruct fuel; reflexivity).
        rewrite Hend in *. cbn [tl length].
        assert (Hpf' : (1 <= pf)%nat).
        { rewrite length_app in Hpf. pose proof (hex_length _ Hw). cbn in Hpf. lia. }
        destruct pf as [|pf]; [lia|].
        rewrite pton6_loop_done by (cbn; lia).
        do 4 eexists. split; [reflexivity|].
        replace (Z.of_nat 7 + 1) with 8 by lia.
        apply pton6_finish_full; auto. now rewrite length_insert.
      * replace (Z.of_nat (S (length (words_text fuel ws g (S i)))) - 1)
          with (Z.of_nat (length (words_text fuel ws g (S i)))) by lia.
        replace (Z.of_nat i + 1) with (Z.of_nat (S i)) by lia.
        apply IH; auto; try lia.
        -- now rewrite length_insert.
        -- rewrite !length_app in Hpf. cbn [length] in Hpf.
           pose proof (hex_length _ Hw). lia.
Qed.

(** *** IPv6: writing the text into the local buffer *)

(** The 64-byte buffer starts with the text [t]. *)
Definition holds (buf t : list Z) : Prop :=
  length buf = 64%nat /\ take (length t) buf = t.

Lemma holds_put_char buf t c :
  holds buf t -> (length t < 64)%nat ->
  holds (<[length t := c]> buf) (t ++ [c]).
Proof.
  intros [Hl Ht] Hroom. split; [now rewrite length_insert|].
  rewrite length_app. cbn [length]. rewrite Nat.add_1_r.
  rewrite (take_S_r _ _ c) by (apply list_lookup_insert_eq; lia).
  rewrite take_insert_ge by lia. now rewrite Ht.
Qed.

Lemma expand_hex w : is_word w -> expand [ConvX w] = hex w.
Proof.
  intros Hw. unfold expand. cbn [map concat].
  rewrite render_hex by assumption. apply app_nil_r.
Qed.

Lemma holds_put_hex buf t w :
  holds buf t -> (length t + 6 <= 64)%nat -> is_word w ->
  holds (snprintf_at buf (length t) (64 - length t) [ConvX w]) (t ++ hex w)
  /\ strlen (drop (length t)
               (snprintf_at buf (length t) (64 - length t) [ConvX w]))
     = length (hex w).
Proof.
  intros [Hl Ht] Hroom Hw. unfold snprintf_at.
  pose proof (hex_length w Hw) as Hh.
  destruct (evutil_snprintf_fits (drop (length t) buf) (64 - length t) [ConvX w])
    as (tail & E & Elen); rewrite ?expand_hex by assumption;
    rewrite ?length_drop; try lia.
  rewrite E. cbn [fst]. rewrite expand_hex in * by assumption.
  rewrite length_drop in Elen.
  assert (Hlt : length (take (length t) buf) = length t)
    by (rewrite length_take; lia).
  split; [split|].
  - rewrite length_app, Hlt, Elen. lia.
  - rewrite Ht. rewrite app_assoc. apply take_app_length.
  - rewrite drop_app_length' by (symmetry; exact Hlt).
    unfold strlen. rewrite c_str_app_nul; [reflexivity|].
    apply digit_like_nonzero, hex_chars. assumption.
Qed.

Lemma words_text_length ws g : forall fuel i,
  Forall is_word ws -> (i <= 8)%nat ->
  (length (words_text fuel ws g i) <= 5 * (8 - i))%nat.
Proof.
  induction fuel as [|fuel IH]; intros i Hws Hi; cbn [words_text]; [cbn; lia|].
  destruct (Nat.ltb_spec i 8) as [Hi8|]; [|cbn; lia].
  pose proof (nth_word ws i Hws) as Hw. pose proof (hex_length _ Hw).
  destruct ((nth i ws 0 =? 0) && (g =? Z.of_nat i)) eqn:Hcond.
  - apply andb_prop in Hcond as [Hz%Z.eqb_eq _].
    pose proof (skip_zero_words_progress ws 7 i Hi8 Hz).
    destruct (skip_zero_words_spec ws 8 i) as (_ & Hs8 & _).
    specialize (IH (skip_zero_words 8 ws i) Hws ltac:(lia)).
    rewrite length_app. cbn [length].
    destruct (i =? 0)%nat; cbn [length]; lia.
  - specialize (IH (S i) Hws ltac:(lia)).
    rewrite !length_app. destruct (negb (i =? 7)%nat); cbn [length]; lia.
Qed.

(** The characters of the text: digits and colons. *)
Definition word_char (c : Z) : Prop := c <> 0 /\ c <> 46.

Lemma words_text_chars ws g : forall fuel i,
  Forall is_word ws -> Forall word_char (words_text fuel ws g i).
Proof.
  induction fuel as [|fuel IH]; intros i Hws; cbn [words_text]; [constructor|].
  destruct (i <? 8)%nat; [|constructor].
  assert (Hcolon : word_char colon) by (split; discriminate).
  destruct ((nth i ws 0 =? 0) && (g =? Z.of_nat i)).
  - apply Forall_app_2; [destruct (i =? 0)%nat; repeat constructor; auto|].
    constructor; auto.
  - apply Forall_app_2; [|apply Forall_app_2].
    + eapply Forall_impl; [apply hex_chars, nth_word, Hws|].
      intros c (H0 & _ & Hd & _). split; assumption.
    + destruct (negb (i =? 7)%nat); repeat constructor; auto.
    + auto.
Qed.

Ltac close_emit b E Hb :=
  repeat rewrite <- app_assoc in E; repeat rewrite <- app_assoc in Hb;
  cbn [app] in E, Hb; repeat rewrite <- app_assoc; cbn [app];
  exists b; split;
  [rewrite <- E; f_equal; rewrite ?length_app; cbn [length];
   first [reflexivity|lia]|exact Hb].

(** The loop of [evutil_inet_ntop] appends [words_text] to the buffer. *)
Lemma emit_words_text ws g : forall fuel i buf t,
  Forall is_word ws -> holds buf t ->
  (i <= 8)%nat -> (length t <= 5 * i + 2)%nat ->
  exists buf',
    emit_words fuel ws g i buf (length t)
    = (buf', length (t ++ words_text fuel ws g i))
    /\ holds buf' (t ++ words_text fuel ws g i).
Proof.
  induction fuel as [|fuel IH]; intros i buf t Hws Hh Hi Hlen.
  - cbn. rewrite app_nil_r. eauto.
  - cbn [emit_words words_text].
    destruct (Nat.ltb_spec i 8) as [Hi8|]; [|rewrite app_nil_r; eauto].
    pose proof (nth_word ws i Hws) as Hw.
    destruct ((nth i ws 0 =? 0) && (g =? Z.of_nat i)) eqn:Hcond.
    + apply andb_prop in Hcond as [Hz%Z.eqb_eq _].
      pose proof (skip_zero_words_progress ws 7 i Hi8 Hz) as Hprog.
      destruct (skip_zero_words_spec ws 8 i) as (_ & Hs8 & _).
      remember (skip_zero_words 8 ws i) as s eqn:Es. clear Es.
      destruct (Nat.eqb_spec i 0) as [->|Hi0].
      * pose proof (holds_put_char buf t colon Hh ltac:(lia)) as H1.
        assert (H2 : holds (<[S (length t) := colon]> (<[length t := colon]> buf))
                       ((t ++ [colon]) ++ [colon])).
        { replace (S (length t)) with (length (t ++ [colon]))
            by (rewrite length_app; cbn [length]; lia).
          apply holds_put_char; [exact H1|].
          rewrite length_app; cbn [length]; lia. }
        edestruct (IH s) as (buf' & E & Hb);
          [exact Hws|exact H2|lia|rewrite !length_app; cbn [length]; lia|].
        close_emit buf' E Hb.
      * pose proof (holds_put_char buf t colon Hh ltac:(lia)) as H1.
        edestruct (IH s) as (buf' & E & Hb);
          [exact Hws|exact H1|lia|rewrite !length_app; cbn [length]; lia|].
        close_emit buf' E Hb.
    + destruct (holds_put_hex buf t (nth i ws 0) Hh ltac:(lia) Hw) as [H1 Hs].
      rewrite Hs. pose proof (hex_length _ Hw) as Hhl.
      remember (snprintf_at buf (length t) (64 - length t) [ConvX (nth i ws 0)])
        as buf1 eqn:Eb. clear Eb Hs.
      destruct (Nat.eqb_spec i 7) as [->|Hne]; cbn [negb].
      * edestruct (IH 8%nat) as (buf' & E & Hb);
          [exact Hws|exact H1|lia|rewrite !length_app; lia|].
        close_emit buf' E Hb.
      * assert (H2 : holds (<[length (t ++ hex (nth i ws 0)) := colon]> buf1)
                       ((t ++ hex (nth i ws 0)) ++ [colon])).
        { apply holds_put_char; [exact H1|].
          rewrite length_app; lia. }
        edestruct (IH (S i)) as (buf' & E & Hb);
          [exact Hws|exact H2|lia|rewrite !length_app; cbn [length]; lia|].
        close_emit buf' E Hb.
Qed.

Lemma emit_words_c_str ws g stack :
  Forall is_word ws -> length stack = 64%nat ->
  exists buf cp,
    emit_words 8 ws g 0 stack 0 = (buf, cp)
    /\ c_str (<[cp := 0]> buf) = words_text 8 ws g 0.
Proof.
  intros Hws Hstack.
  destruct (emit_words_text ws g 8 0 stack [] Hws) as (buf & E & Hl & Ht);
    [split; [exact Hstack|reflexivity]|lia|cbn; lia|].
  cbn [app length] in *. exists buf, (length (words_text 8 ws g 0)).
  split; [exact E|].
  pose proof (words_text_length ws g 8 0 Hws ltac:(lia)) as Hlen.
  rewrite insert_take_drop by lia. rewrite Ht.
  apply c_str_app_nul.
  eapply Forall_impl; [apply words_text_chars, Hws|]. now intros c [H0 _].
Qed.

Lemma strchr_none l c : Forall (fun x => x <> c) l -> strchr l c = None.
Proof.
  induction 1 as [|x l Hx _ IH]; [reflexivity|]. cbn [strchr].
  rewrite (proj2 (Z.eqb_neq x c)) by assumption. now rewrite IH.
Qed.

Lemma strchr_app l c rest :
  Forall (fun x => x <> c) l -> strchr (l ++ c :: rest) c = Some (length l).
Proof.
  induction 1 as [|x l Hx _ IH]; cbn [app strchr length].
  - now rewrite Z.eqb_refl.
  - rewrite (proj2 (Z.eqb_neq x c)) by assumption. now rewrite IH.
Qed.

(** The text of the words, parsed. *)
Lemma pton6_words_text_parsed ws g stack :
  Forall is_word ws -> length ws = 8%nat -> length stack = 8%nat ->
  evutil_inet_pton AF_INET6 (words_text 8 ws g 0) stack
  = (1, Some (bytes_of_words ws)).
Proof.
  intros Hws Hl Hstack. unfold evutil_inet_pton.
  change (AF_INET6 =? AF_INET) with false.
  change (AF_INET6 =? AF_INET6) with true. cbv iota.
  rewrite strchr_none.
  2: { eapply Forall_impl; [apply words_text_chars, Hws|]. now intros c [_ H]. }
  destruct (pton6_words_text ws g 8 0 (S (S (length (words_text 8 ws g 0)))) stack)
    as (i' & gp' & sw' & wp' & E & Hfin); try assumption; try lia; [reflexivity|].
  change (Z.of_nat 0) with 0 in E. rewrite E. exact Hfin.
Qed.

(** *** IPv6: the forms that end in a dotted quad *)

Lemma count_while_prefix f l rest :
  Forall (fun x => f x = true) l -> (rest = [] \/ f (hd 0 rest) = false) ->
  count_while f (l ++ rest) = length l.
Proof.
  intros Hl Hrest. induction Hl as [|x l Hx _ IH]; cbn [app count_while length].
  - destruct Hrest as [->|Hr]; [reflexivity|].
    destruct rest as [|r rest]; [reflexivity|]. cbn in Hr |- *. now rewrite Hr.
  - now rewrite Hx, IH.
Qed.

Lemma dec_isdigit b :
  is_byte b -> Forall (fun c => EVUTIL_ISDIGIT_ c = true) (dec b).
Proof.
  intros Hb. destruct (dec_numeral b Hb) as [Hds _ _ _].
  unfold dec. apply Forall_map. eapply Forall_impl; [exact Hds|].
  intros x Hx. cbn in Hx |- *. now destruct (digit_char_dec x Hx) as (_ & _ & H).
Qed.

Lemma dec_no_dot b : is_byte b -> Forall (fun x => x <> 46) (dec b).
Proof.
  intros Hb. eapply Forall_impl; [apply dec_chars, Hb|].
  now intros x (_ & _ & H & _).
Qed.

(** Where the scan of [evutil_inet_pton] finds the dot and the start of
    the dotted quad, for a text [pre] ":" "a.b.c.d". *)
Lemma dotted_prefix pre a b c d :
  is_byte a -> Forall (fun x => x <> 46) pre ->
  exists dd,
    strchr ((pre ++ [colon]) ++ quad_text a b c d) 46 = Some (S dd)
    /\ (S dd - digits_before ((pre ++ [colon]) ++ quad_text a b c d) (S dd))%nat
       = length (pre ++ [colon]).
Proof.
  intros Ha Hpre. unfold quad_text.
  set (rest := dec b ++ 46 :: dec c ++ 46 :: dec d).
  pose proof (dec_length a Ha) as Hl.
  exists (length pre + length (dec a))%nat.
  rewrite (app_assoc (pre ++ [colon]) (dec a) (46 :: rest)).
  assert (Elen : length ((pre ++ [colon]) ++ dec a)
                 = S (length pre + length (dec a)))
    by (rewrite !length_app; cbn [length]; lia).
  split.
  - rewrite strchr_app; [now rewrite Elen|].
    apply Forall_app_2; [apply Forall_app_2; [exact Hpre|]|now apply dec_no_dot].
    repeat constructor. discriminate.
  - unfold digits_before. rewrite <- Elen. rewrite take_app_length.
    rewrite rev_app_distr, rev_app_distr. cbn [rev app].
    rewrite count_while_prefix.
    + rewrite length_rev, Elen, length_app. cbn [length]. lia.
    + apply Forall_rev. now apply dec_isdigit.
    + right. reflexivity.
Qed.

(** A double colon at the start of the address. *)
Lemma pton6_gap_start pf rest left sw wp :
  0 < left ->
  pton6_loop (S pf) (colon :: colon :: rest) left 0 (-1) sw wp
  = pton6_loop pf rest (left - 2) 0 0 sw wp.
Proof.
  intros Hleft. cbn [pton6_loop hd].
  rewrite (proj2 (Z.ltb_lt 0 left)) by lia.
  change (EVUTIL_ISXDIGIT_ colon) with false. reflexivity.
Qed.

(** A word followed by a colon, with more of the address before [eow]. *)
Lemma pton6_word_colon_step pf w tail left ip gp sw wp :
  is_word w -> (ip <= 7)%nat -> 0 < left ->
  pton6_loop (S pf) (hex w ++ colon :: tail) left ip gp sw wp
  = pton6_loop pf tail (left - Z.of_nat (length (hex w)) - 1) (S ip) gp (sw + 1)
               (<[ip := w]> wp).
Proof.
  intros Hw Hip Hleft. pose proof (hex_length w Hw) as Hl.
  cbn [pton6_loop].
  rewrite (proj2 (Z.ltb_lt 0 _)) by lia.
  rewrite (proj2 (Nat.ltb_ge 7 ip)) by lia.
  rewrite hex_xdigit_head by assumption.
  unfold hex at 1. rewrite (strtol16_numeral w);
    [|now apply hex_numeral|exact Hw|right; reflexivity].
  fold (hex w). rewrite length_app.
  replace (Z.of_nat (length (hex w) + length (colon :: tail))
           - Z.of_nat (length (colon :: tail)))
    with (Z.of_nat (length (hex w))) by lia.
  rewrite (proj2 (Z.ltb_ge 4 _)) by lia.
  rewrite (proj2 (Z.eqb_neq _ 0)) by lia.
  unfold is_word in Hw.
  rewrite (proj2 (Z.ltb_ge w 0)), (proj2 (Z.ltb_ge 65536 w)) by lia. cbn [orb].
  replace (u16 w) with w by (unfold u16; rewrite Z.mod_small; lia).
  cbn [hd tl]. rewrite Z.eqb_refl. cbn [negb andb]. reflexivity.
Qed.

Lemma dotted_words a b c d s0 s1 s2 s3 s4 s5 s6 s7 :
  is_byte a -> is_byte b -> is_byte c -> is_byte d ->
  <[7%nat := u16 (Z.lor (Z.shiftl c 8) d)]>
    (<[6%nat := u16 (Z.lor (Z.shiftl a 8) b)]> [s0; s1; s2; s3; s4; s5; s6; s7])
  = [s0; s1; s2; s3; s4; s5; a * 256 + b; c * 256 + d].
Proof.
  intros Ha Hb Hc Hd.
  rewrite (proj2 (word_of_bytes a b Ha Hb)), (proj2 (word_of_bytes c d Hc Hd)).
  reflexivity.
Qed.

Lemma pton6_finish_compat s0 s1 s2 s3 s4 s5 w6 w7 :
  pton6_finish true 0 2 [s0; s1; s2; s3; s4; s5; w6; w7]
  = (1, Some (bytes_of_words [0; 0; 0; 0; 0; 0; w6; w7])).
Proof. reflexivity. Qed.

Lemma pton6_finish_mapped w5 s1 s2 s3 s4 s5 w6 w7 :
  pton6_finish true 0 3 [w5; s1; s2; s3; s4; s5; w6; w7]
  = (1, Some (bytes_of_words [0; 0; 0; 0; 0; w5; w6; w7])).
Proof. reflexivity. Qed.

Ltac eight_words stack H :=
  destruct stack as [|?s [|?s [|?s [|?s [|?s [|?s [|?s [|?s [|]]]]]]]]];
  try discriminate H.

(** "::a.b.c.d", parsed. *)
Lemma pton6_compat_text a b c d stack :
  is_byte a -> is_byte b -> is_byte c -> is_byte d -> length stack = 8%nat ->
  evutil_inet_pton AF_INET6 (colon :: colon :: quad_text a b c d) stack
  = (1, Some [0; 0; 0; 0; 0; 0; 0; 0; 0; 0; 0; 0; a; b; c; d]).
Proof.
  intros Ha Hb Hc Hd Hstack. unfold evutil_inet_pton.
  change (AF_INET6 =? AF_INET) with false.
  change (AF_INET6 =? AF_INET6) with true. cbv iota.
  destruct (dotted_prefix [colon] a b c d Ha) as (dd & Hs & He);
    [repeat constructor; discriminate|].
  change (([colon] ++ [colon]) ++ quad_text a b c d)
    with (colon :: colon :: quad_text a b c d) in Hs, He.
  rewrite Hs. cbv beta iota zeta. rewrite He.
  change (drop (length ([colon] ++ [colon])) (colon :: colon :: quad_text a b c d))
    with (quad_text a b c d).
  rewrite sscanf_quad by assumption. cbv iota.
  unfold is_byte in Ha, Hb, Hc, Hd.
  rewrite !(proj2 (Z.ltb_ge 255 _)) by lia. cbn [orb].
  eight_words stack Hstack.
  rewrite dotted_words by (unfold is_byte; lia).
  rewrite pton6_gap_start by (cbn; lia).
  cbn [length]. rewrite pton6_loop_done by (cbn; lia).
  rewrite pton6_finish_compat. unfold bytes_of_words. cbn [map concat app].
  destruct (bytes_of_word a b) as [-> ->]; [unfold is_byte; lia..|].
  destruct (bytes_of_word c d) as [-> ->]; [unfold is_byte; lia..|].
  reflexivity.
Qed.

(** "::ffff:a.b.c.d", parsed. *)
Lemma pton6_mapped_text a b c d stack :
  is_byte a -> is_byte b -> is_byte c -> is_byte d -> length stack = 8%nat ->
  evutil_inet_pton AF_INET6
    (colon :: colon :: hex 65535 ++ colon :: quad_text a b c d) stack
  = (1, Some [0; 0; 0; 0; 0; 0; 0; 0; 0; 0; 255; 255; a; b; c; d]).
Proof.
  intros Ha Hb Hc Hd Hstack. unfold evutil_inet_pton.
  change (AF_INET6 =? AF_INET) with false.
  change (AF_INET6 =? AF_INET6) with true. cbv iota.
  assert (Hffff : is_word 65535) by (unfold is_word; lia).
  destruct (dotted_prefix (colon :: colon :: hex 65535) a b c d Ha)
    as (dd & Hs & He).
  { do 2 (apply Forall_cons_2; [discriminate|]).
    eapply Forall_impl; [apply hex_chars, Hffff|]. now intros x (_ & _ & H & _). }
  assert (Esrc : ((colon :: colon :: hex 65535) ++ [colon]) ++ quad_text a b c d
                 = colon :: colon :: hex 65535 ++ colon :: quad_text a b c d).
  { cbn [app]. now rewrite <- app_assoc. }
  rewrite Esrc in Hs, He.
  rewrite Hs. cbv beta iota zeta. rewrite He.
  rewrite <- Esrc at 1. rewrite drop_app_length.
  rewrite sscanf_quad by assumption. cbv iota.
  unfold is_byte in Ha, Hb, Hc, Hd.
  rewrite !(proj2 (Z.ltb_ge 255 _)) by lia. cbn [orb].
  eight_words stack Hstack.
  rewrite dotted_words by (unfold is_byte; lia).
  rewrite pton6_gap_start by (rewrite length_app; cbn [length]; lia).
  rewrite pton6_word_colon_step;
    [|exact Hffff|lia|rewrite length_app; cbn [length]; lia].
  pose proof (hex_length 65535 Hffff) as Hl.
  cbn [length].
  rewrite pton6_loop_done by (rewrite length_app; cbn [length]; lia).
  cbn [list_insert insert].
  rewrite pton6_finish_mapped. unfold bytes_of_words. cbn [map concat app].
  destruct (bytes_of_word a b) as [-> ->]; [unfold is_byte; lia..|].
  destruct (bytes_of_word c d) as [-> ->]; [unfold is_byte; lia..|].
  reflexivity.
Qed.

(** *** Bytes and words of an address *)

Lemma words_of_bytes16 b0 b1 b2 b3 b4 b5 b6 b7 b8 b9 b10 b11 b12 b13 b14 b15 :
  Forall is_byte [b0; b1; b2; b3; b4; b5; b6; b7; b8; b9; b10; b11; b12; b13;
                  b14; b15] ->
  map (fun i => u16 (Z.shiftl (nth (2 * i)
                       [b0; b1; b2; b3; b4; b5; b6; b7; b8; b9; b10; b11; b12;
                        b13; b14; b15] 0) 8
                     + nth (2 * i + 1)
                         [b0; b1; b2; b3; b4; b5; b6; b7; b8; b9; b10; b11; b12;
                          b13; b14; b15] 0))
      (seq 0 8)
  = [b0 * 256 + b1; b2 * 256 + b3; b4 * 256 + b5; b6 * 256 + b7;
     b8 * 256 + b9; b10 * 256 + b11; b12 * 256 + b13; b14 * 256 + b15].
Proof.
  intros Hb. repeat (apply Forall_cons_1 in Hb as [? Hb]).
  cbn [map seq nth Nat.mul Nat.add].
  repeat apply (f_equal2 cons); try reflexivity; now apply word_of_bytes.
Qed.

Lemma bytes_of_words16 b0 b1 b2 b3 b4 b5 b6 b7 b8 b9 b10 b11 b12 b13 b14 b15 :
  Forall is_byte [b0; b1; b2; b3; b4; b5; b6; b7; b8; b9; b10; b11; b12; b13;
                  b14; b15] ->
  bytes_of_words
    [b0 * 256 + b1; b2 * 256 + b3; b4 * 256 + b5; b6 * 256 + b7;
     b8 * 256 + b9; b10 * 256 + b11; b12 * 256 + b13; b14 * 256 + b15]
  = [b0; b1; b2; b3; b4; b5; b6; b7; b8; b9; b10; b11; b12; b13; b14; b15].
Proof.
  intros Hb. repeat (apply Forall_cons_1 in Hb as [? Hb]).
  unfold bytes_of_words. cbn [map concat app].
  repeat apply (f_equal2 cons); try reflexivity; now apply bytes_of_word.
Qed.

Lemma c_str_nonzero mem : Forall nonzero (c_str mem).
Proof.
  induction mem as [|c mem IH]; cbn [c_str]; [constructor|].
  destruct (Z.eqb_spec c 0); constructor; assumption.
Qed.

(** [bsd_strlcpy] copies a string that fits. *)
Lemma bsd_strlcpy_copies dst src siz :
  (strlen src < siz <= length dst)%nat ->
  c_str (bsd_strlcpy dst src siz) = c_str src.
Proof.
  unfold strlen, bsd_strlcpy. intros Hsiz.
  destruct (Nat.eqb_spec siz 0); [lia|].
  rewrite take_ge by lia. apply c_str_app_nul, c_str_nonzero.
Qed.

Section RoundTrip.
(** What [evutil_inet_ntop] needs of [strlcpy]: a string that fits in the
    announced size is copied whole. *)
Variable strlcpy : list Z -> list Z -> nat -> list Z.
Hypothesis strlcpy_copies : forall dst src siz,
  (strlen src < siz <= length dst)%nat ->
  c_str (strlcpy dst src siz) = c_str src.

(** The end of the IPv6 branch: the length check and the copy. *)
Lemma ntop_copy buf text dst len :
  c_str buf = text -> (length text <= 45)%nat -> (46 <= len <= length dst)%nat ->
  (if (len <? strlen buf)%nat then (false, dst) else (true, strlcpy dst buf len))
  = (true, strlcpy dst buf len)
  /\ c_str (strlcpy dst buf len) = text.
Proof.
  intros Hbuf Htext Hlen. unfold strlen. rewrite Hbuf.
  rewrite (proj2 (Nat.ltb_ge len (length text))) by lia.
  split; [reflexivity|]. rewrite strlcpy_copies; [exact Hbuf|].
  unfold strlen. rewrite Hbuf. lia.
Qed.

Lemma ntop_print_copy fmt text stack dst len :
  expand fmt = text -> (length text <= 45)%nat -> Forall nonzero text ->
  length stack = 64%nat -> (46 <= len <= length dst)%nat ->
  exists dst',
    (if (len <? strlen (fst (evutil_snprintf c99_vsnprintf stack 64 fmt)))%nat
     then (false, dst)
     else (true, strlcpy dst (fst (evutil_snprintf c99_vsnprintf stack 64 fmt)) len))
    = (true, dst')
    /\ c_str dst' = text.
Proof.
  intros He Htext Hnz Hstack Hlen.
  destruct (evutil_snprintf_fits stack 64 fmt) as (tail & E & _);
    rewrite ?He; try lia.
  rewrite E, He. cbn [fst].
  destruct (ntop_copy (text ++ 0 :: tail) text dst len) as [-> Hc];
    [now apply c_str_app_nul|lia|lia|].
  eauto.
Qed.

Lemma expand_compat a b c d :
  is_byte a -> is_byte b -> is_byte c -> is_byte d ->
  expand (Lit [colon; colon]
          :: [ConvD a; Lit dot; ConvD b; Lit dot; ConvD c; Lit dot; ConvD d])
  = colon :: colon :: quad_text a b c d.
Proof.
  intros Ha Hb Hc Hd. rewrite <- (expand_quad a b c d) by assumption.
  reflexivity.
Qed.

Lemma expand_mapped a b c d :
  is_byte a -> is_byte b -> is_byte c -> is_byte d ->
  expand (Lit [colon; colon] :: ConvX 65535 :: Lit [colon]
          :: [ConvD a; Lit dot; ConvD b; Lit dot; ConvD c; Lit dot; ConvD d])
  = colon :: colon :: hex 65535 ++ colon :: quad_text a b c d.
Proof.
  intros Ha Hb Hc Hd. rewrite <- (expand_quad a b c d) by assumption.
  reflexivity.
Qed.

Lemma inet6_round_trip
    b0 b1 b2 b3 b4 b5 b6 b7 b8 b9 b10 b11 b12 b13 b14 b15 dst len stack64 stack8 :
  Forall is_byte [b0; b1; b2; b3; b4; b5; b6; b7; b8; b9; b10; b11; b12; b13;
                  b14; b15] ->
  (46 <= len <= length dst)%nat ->
  length stack64 = 64%nat -> length stack8 = 8%nat ->
  exists dst',
    evutil_inet_ntop strlcpy AF_INET6
      [b0; b1; b2; b3; b4; b5; b6; b7; b8; b9; b10; b11; b12; b13; b14; b15]
      dst len stack64 = (true, dst')
    /\ evutil_inet_pton AF_INET6 (c_str dst') stack8
       = (1, Some [b0; b1; b2; b3; b4; b5; b6; b7; b8; b9; b10; b11; b12; b13;
                   b14; b15]).
Proof.
  intros Hb Hlen H64 H8. unfold evutil_inet_ntop.
  change (AF_INET6 =? AF_INET) with false.
  change (AF_INET6 =? AF_INET6) with true. cbv beta iota zeta.
  rewrite (words_of_bytes16 _ _ _ _ _ _ _ _ _ _ _ _ _ _ _ _ Hb).
  cbn [nth].
  pose proof Hb as Hbytes. repeat (apply Forall_cons_1 in Hbytes as [? Hbytes]).
  clear Hbytes.
  match goal with
  | |- context [if ?c then (if (len <? _)%nat then _ else _) else _] =>
      destruct c eqn:Hc
  end.
  - repeat (rewrite andb_true_iff in Hc || rewrite orb_true_iff in Hc
            || rewrite negb_true_iff in Hc).
    rewrite !Z.eqb_eq, !Z.eqb_neq in Hc.
    destruct Hc as (((((E0 & E1) & E2) & E3) & E4) & E5).
    assert (b0 = 0 /\ b1 = 0 /\ b2 = 0 /\ b3 = 0 /\ b4 = 0 /\ b5 = 0
            /\ b6 = 0 /\ b7 = 0 /\ b8 = 0 /\ b9 = 0)
      as (-> & -> & -> & -> & -> & -> & -> & -> & -> & ->)
      by (unfold is_byte in *; lia).
    clear E0 E1 E2 E3 E4.
    pose proof (quad_text_length b12 b13 b14 b15) as Hq.
    pose proof (quad_text_nonzero b12 b13 b14 b15) as Hqnz.
    destruct (Z.eqb_spec (b10 * 256 + b11) 0) as [Ez|Hnz].
    + assert (b10 = 0 /\ b11 = 0) as (-> & ->) by (unfold is_byte in *; lia).
      edestruct ntop_print_copy as (dst' & -> & Hstr);
        [now apply expand_compat| | |exact H64|exact Hlen|].
      * cbn [length]. specialize (Hq ltac:(assumption) ltac:(assumption)
                                     ltac:(assumption) ltac:(assumption)). lia.
      * do 2 (apply Forall_cons_2; [discriminate|]). now apply Hqnz.
      * exists dst'. split; [reflexivity|]. rewrite Hstr.
        now apply pton6_compat_text.
    + assert (E65 : b10 * 256 + b11 = 65535) by (destruct E5 as [[[? _] _]|?]; lia).
      assert (b10 = 255 /\ b11 = 255) as (-> & ->) by (unfold is_byte in *; lia).
      change (255 * 256 + 255) with 65535.
      assert (Hffff : is_word 65535) by (unfold is_word; lia).
      pose proof (hex_length 65535 Hffff) as Hhl.
      edestruct ntop_print_copy as (dst' & -> & Hstr);
        [now apply expand_mapped| | |exact H64|exact Hlen|].
      * cbn [length]. rewrite length_app. cbn [length].
        specialize (Hq ltac:(assumption) ltac:(assumption)
                       ltac:(assumption) ltac:(assumption)). lia.
      * do 2 (apply Forall_cons_2; [discriminate|]).
        apply Forall_app_2; [now apply digit_like_nonzero, hex_chars|].
        apply Forall_cons_2; [discriminate|]. now apply Hqnz.
      * exists dst'. split; [reflexivity|]. rewrite Hstr.
        now apply pton6_mapped_text.
  - clear Hc.
    rewrite <- (bytes_of_words16 _ _ _ _ _ _ _ _ _ _ _ _ _ _ _ _ Hb).
    remember [b0 * 256 + b1; b2 * 256 + b3; b4 * 256 + b5; b6 * 256 + b7;
              b8 * 256 + b9; b10 * 256 + b11; b12 * 256 + b13; b14 * 256 + b15]
      as ws eqn:Ews.
    assert (Hws : Forall is_word ws)
      by (subst ws; unfold is_byte, is_word in *; repeat constructor; lia).
    assert (Hl : length ws = 8%nat) by (subst ws; reflexivity).
    clear Ews.
    destruct (find_gap 8 ws 0 (0, -1)) as [gl gp].
    remember (if gl <=? 1 then -1 else gp) as g eqn:Eg. clear Eg.
    destruct (emit_words_c_str ws g stack64 Hws H64) as (buf & cp & -> & Hstr).
    pose proof (words_text_length ws g 8 0 Hws ltac:(lia)) as Htl.
    destruct (ntop_copy (<[cp := 0]> buf) _ dst len Hstr) as [-> Hc]; [lia|lia|].
    eexists. split; [reflexivity|]. rewrite Hc.
    now apply pton6_words_text_parsed.
Qed.

(** C7: an address formatted by [evutil_inet_ntop] into a buffer of at
    least 46 bytes and parsed back by [evutil_inet_pton] is the address.
    For the four bytes of an IPv4 address and the sixteen bytes of an IPv6
    address, and whatever the local arrays of the two functions hold on
    entry, [evutil_inet_ntop] returns the buffer, and [evutil_inet_pton]
    with the same address family, given the string in the buffer, returns 1
    and stores exactly the bytes of the address. *)
Theorem inet_ntop_pton_round_trip af addr dst len stack64 stack8 :
  (af = AF_INET /\ length addr = 4%nat)
  \/ (af = AF_INET6 /\ length addr = 16%nat) ->
  Forall is_byte addr ->
  (46 <= len <= length dst)%nat ->
  length stack64 = 64%nat -> length stack8 = 8%nat ->
  exists dst',
    evutil_inet_ntop strlcpy af addr dst len stack64 = (true, dst')
    /\ evutil_inet_pton af (c_str dst') stack8 = (1, Some addr).
Proof.
  intros [[-> Hl]|[-> Hl]] Hb Hlen H64 H8.
  - destruct addr as [|a [|b [|c [|d [|]]]]]; try discriminate Hl.
    pose proof Hb as Hbytes.
    repeat (apply Forall_cons_1 in Hbytes as [? Hbytes]).
    destruct (ntop4_quad_text strlcpy a b c d dst len stack64)
      as (dst' & E & Hs); try assumption.
    exists dst'. split; [exact E|]. rewrite Hs. now apply pton4_quad_text.
  - do 16 (destruct addr as [|? addr]; [discriminate Hl|]).
    destruct addr; [|discriminate Hl].
    now apply inet6_round_trip.
Qed.

End RoundTrip.

(** 2001:db8::1 and 192.0.2.1 through both functions, with the BSD
    [strlcpy]. *)
Lemma inet_ntop_pton_round_trip_witness :
  (exists dst',
     evutil_inet_ntop bsd_strlcpy AF_INET6
       [32; 1; 13; 184; 0; 0; 0; 0; 0; 0; 0; 0; 0; 0; 0; 1]
       (replicate 46 0) 46 (replicate 64 0) = (true, dst')
     /\ evutil_inet_pton AF_INET6 (c_str dst') (replicate 8 0)
        = (1, Some [32; 1; 13; 184; 0; 0; 0; 0; 0; 0; 0; 0; 0; 0; 0; 1]))
  /\ (exists dst',
        evutil_inet_ntop bsd_strlcpy AF_INET [192; 0; 2; 1]
          (replicate 46 0) 46 (replicate 64 0) = (true, dst')
        /\ evutil_inet_pton AF_INET (c_str dst') (replicate 8 0)
           = (1, Some [192; 0; 2; 1])).
Proof.
  split.
  - refine (inet_ntop_pton_round_trip bsd_strlcpy bsd_strlcpy_copies AF_INET6
              [32; 1; 13; 184; 0; 0; 0; 0; 0; 0; 0; 0; 0; 0; 0; 1]
              (replicate 46 0) 46 (replicate 64 0) (replicate 8 0) _ _ _ _ _).
    + right. split; reflexivity.
    + repeat constructor; unfold is_byte; lia.
    + cbn; lia.
    + reflexivity.
    + reflexivity.
  - refine (inet_ntop_pton_round_trip bsd_strlcpy bsd_strlcpy_copies AF_INET
              [192; 0; 2; 1]
              (replicate 46 0) 46 (replicate 64 0) (replicate 8 0) _ _ _ _ _).
    + left. split; reflexivity.
    + repeat constructor; unfold is_byte; lia.
    + cbn; lia.
    + reflexivity.
    + reflexivity.
Defined.

(** The texts themselves: "2001:db8::1", "::ffff:192.0.2.1" and
    "::192.0.2.1". *)
Example inet_ntop_texts :
  c_str (snd (evutil_inet_ntop bsd_strlcpy AF_INET6
                [32; 1; 13; 184; 0; 0; 0; 0; 0; 0; 0; 0; 0; 0; 0; 1]
                (replicate 46 0) 46 (replicate 64 0)))
  = [50; 48; 48; 49; 58; 100; 98; 56; 58; 58; 49]
  /\ c_str (snd (evutil_inet_ntop bsd_strlcpy AF_INET6
                   [0; 0; 0; 0; 0; 0; 0; 0; 0; 0; 255; 255; 192; 0; 2; 1]
                   (replicate 46 0) 46 (replicate 64 0)))
     = [58; 58; 102; 102; 102; 102; 58; 49; 57; 50; 46; 48; 46; 50; 46; 49]
  /\ c_str (snd (evutil_inet_ntop bsd_strlcpy AF_INET6
                   [0; 0; 0; 0; 0; 0; 0; 0; 0; 0; 0; 0; 192; 0; 2; 1]
                   (replicate 46 0) 46 (replicate 64 0)))
     = [58; 58; 49; 57; 50; 46; 48; 46; 50; 46; 49].
Proof. vm_compute. repeat split. Qed.

(** A numeral that does not fit an unsigned long is read by [%u] as
    4294967295, so the address is refused; 2^32 fits and is stored as 0. *)
Example pton4_numerals_out_of_range :
  scan_u (Ctype.chars "18446744073709551616.") = Some (4294967295, [46])
  /\ evutil_inet_pton AF_INET (Ctype.chars "18446744073709551616.0.0.1")
       (replicate 8 0)
     = (0, None)
  /\ scan_u (Ctype.chars "4294967296.") = Some (0, [46]).
Proof. vm_compute. repeat split. Qed.

End InetFacts.

(** ** evutil_time.c: the ratchet, with instants in microseconds *)

Module MonotonicFacts.
Import CInt EvutilTime CIntFacts EvutilTimeFacts.

(** The instant a [timeval] denotes, in microseconds. *)
Definition usecs (tv : timeval) : Z := tv_sec tv * 1000000 + tv_usec tv.

(** The microseconds field is in its normal range. *)
Definition normal (tv : timeval) : Prop := 0 <= tv_usec tv < 1000000.

(** Seconds far enough from the ends of [long] for sums of three values. *)
Definition moderate (tv : timeval) : Prop :=
  - 1152921504606846976 <= tv_sec tv <= 1152921504606846976.

Lemma wrap_long_small z :
  - 9223372036854775808 <= z <= 9223372036854775807 -> wrap_long z = z.
Proof.
  intros Hz. apply wrap_long_id. unfold in_long, LONG_MIN, LONG_MAX.
  change (2 ^ 63) with 9223372036854775808. lia.
Qed.

Lemma timeradd_usecs a b :
  normal a -> normal b ->
  - 9223372036854775807 <= tv_sec a + tv_sec b <= 9223372036854775806 ->
  usecs (timeradd a b) = usecs a + usecs b
  /\ normal (timeradd a b)
  /\ tv_sec a + tv_sec b <= tv_sec (timeradd a b) <= tv_sec a + tv_sec b + 1.
Proof.
  unfold normal, usecs, timeradd. intros Ha Hb Hs.
  rewrite !(wrap_long_small (tv_sec a + tv_sec b)) by lia.
  rewrite !(wrap_long_small (tv_usec a + tv_usec b)) by lia.
  destruct (Z.geb_spec (tv_usec a + tv_usec b) 1000000); cbn [tv_sec tv_usec].
  - rewrite !wrap_long_small by lia. lia.
  - lia.
Qed.

Lemma timersub_usecs a b :
  normal a -> normal b ->
  - 9223372036854775807 <= tv_sec a - tv_sec b <= 9223372036854775807 ->
  usecs (timersub a b) = usecs a - usecs b
  /\ normal (timersub a b)
  /\ tv_sec a - tv_sec b - 1 <= tv_sec (timersub a b) <= tv_sec a - tv_sec b.
Proof.
  unfold normal, usecs, timersub. intros Ha Hb Hs.
  rewrite !(wrap_long_small (tv_sec a - tv_sec b)) by lia.
  rewrite !(wrap_long_small (tv_usec a - tv_usec b)) by lia.
  destruct (Z.ltb_spec (tv_usec a - tv_usec b) 0); cbn [tv_sec tv_usec].
  - rewrite !wrap_long_small by lia. lia.
  - lia.
Qed.

Lemma timercmp_lt_usecs t u :
  normal t -> normal u -> timercmp_lt t u = true <-> usecs t < usecs u.
Proof.
  unfold normal, usecs, timercmp_lt. intros Ht Hu.
  destruct (Z.eqb_spec (tv_sec t) (tv_sec u)) as [E|E].
  - rewrite Z.ltb_lt. lia.
  - rewrite Z.ltb_lt. lia.
Qed.

(** Seconds within [bound] of zero. *)
Definition within (bound : Z) (tv : timeval) : Prop :=
  - bound <= tv_sec tv <= bound.

(** The ratchet with its arithmetic spelled out, for fields that stay clear
    of overflow. *)
Lemma adjust_monotonic_time_spec bound base raw :
  0 <= bound <= 1152921504606846976 ->
  normal raw -> normal (adjust_monotonic_clock base) -> normal (last_time base) ->
  within bound raw ->
  within bound (adjust_monotonic_clock base) ->
  within bound (last_time base) ->
  usecs (snd (adjust_monotonic_time base raw))
  = Z.max (usecs raw + usecs (adjust_monotonic_clock base)) (usecs (last_time base))
  /\ usecs (adjust_monotonic_clock (fst (adjust_monotonic_time base raw)))
     = usecs (adjust_monotonic_clock base)
       + Z.max 0 (usecs (last_time base)
                  - (usecs raw + usecs (adjust_monotonic_clock base)))
  /\ last_time (fst (adjust_monotonic_time base raw))
     = snd (adjust_monotonic_time base raw)
  /\ monotonic_clock (fst (adjust_monotonic_time base raw)) = monotonic_clock base
  /\ normal (snd (adjust_monotonic_time base raw))
  /\ normal (adjust_monotonic_clock (fst (adjust_monotonic_time base raw)))
  /\ within (2 * bound + 1) (snd (adjust_monotonic_time base raw))
  /\ within (4 * bound + 3)
       (adjust_monotonic_clock (fst (adjust_monotonic_time base raw))).
Proof.
  unfold within. intros Hb Hr Ha Hl Br Ba Bl. unfold adjust_monotonic_time.
  set (adj := adjust_monotonic_clock base) in *.
  set (last := last_time base) in *.
  destruct (timeradd_usecs raw adj Hr Ha ltac:(lia)) as (E1 & N1 & B1).
  set (tv1 := timeradd raw adj) in *.
  destruct (timercmp_lt tv1 last) eqn:Hcmp; cbn [fst snd adjust_monotonic_clock
    last_time monotonic_clock].
  - apply timercmp_lt_usecs in Hcmp; [|assumption..].
    destruct (timersub_usecs last tv1 Hl N1 ltac:(lia)) as (E2 & N2 & B2).
    destruct (timeradd_usecs (timersub last tv1) adj N2 Ha ltac:(lia))
      as (E3 & N3 & B3).
    rewrite E3, E2, E1. unfold normal in *. repeat split; try reflexivity; lia.
  - assert (Hge : ~ usecs tv1 < usecs last).
    { intros Hlt. apply (timercmp_lt_usecs tv1 last N1 Hl) in Hlt. congruence. }
    rewrite E1 in *. unfold normal in *. repeat split; try reflexivity; lia.
Qed.

(** The ratchet returns the later of the adjusted reading and the last
    time returned, and the adjustment grows by exactly the distance the
    adjusted reading fell short: for normalised fields whose seconds are
    within 2^60 of zero, with instants counted in microseconds. *)
Theorem ratchet_returns_later_of_reading_and_last :
  forall (base : evutil_monotonic_timer) (raw : timeval),
    normal raw -> normal (adjust_monotonic_clock base) ->
    normal (last_time base) ->
    within 1152921504606846976 raw ->
    within 1152921504606846976 (adjust_monotonic_clock base) ->
    within 1152921504606846976 (last_time base) ->
    let '(base', tv) := adjust_monotonic_time base raw in
    usecs tv = Z.max (usecs raw + usecs (adjust_monotonic_clock base))
                     (usecs (last_time base))
    /\ usecs (adjust_monotonic_clock base')
       = usecs (adjust_monotonic_clock base)
         + Z.max 0 (usecs (last_time base)
                    - (usecs raw + usecs (adjust_monotonic_clock base)))
    /\ usecs raw + usecs (adjust_monotonic_clock base') = usecs tv
    /\ last_time base' = tv
    /\ normal tv /\ normal (adjust_monotonic_clock base').
Proof.
  intros base raw Hr Ha Hl Br Ba Bl.
  destruct (adjust_monotonic_time_spec 1152921504606846976 base raw)
    as (E1 & E2 & E3 & _ & N1 & N2 & _); try assumption; [lia|].
  destruct (adjust_monotonic_time base raw) as [base' tv].
  cbn [fst snd] in *.
  split; [exact E1|]. split; [exact E2|]. split; [lia|].
  split; [exact E3|]. split; assumption.
Qed.

Lemma ratchet_returns_later_of_reading_and_last_witness :
  let base := mk_timer (-1) (mk_timeval 2 0) (mk_timeval 100 500000) in
  let '(base', tv) := adjust_monotonic_time base (mk_timeval 90 250000) in
  usecs tv = 100500000 /\ usecs (adjust_monotonic_clock base') = 10250000.
Proof.
  pose proof (ratchet_returns_later_of_reading_and_last
                (mk_timer (-1) (mk_timeval 2 0) (mk_timeval 100 500000))
                (mk_timeval 90 250000)) as H.
  cbv zeta.
  destruct (adjust_monotonic_time _ _) as [base' tv].
  destruct H as (E1 & E2 & _); unfold normal, within; cbn; try lia.
  split; [exact E1 | exact E2].
Defined.

(** Two successive queries in fallback mode: the returned time advances by
    exactly the advance of the raw clock, and not at all when the raw clock
    went back. *)
Theorem emulated_clock_advances_with_raw_clock :
  forall (base : evutil_monotonic_timer) (env1 env2 : clock_reading)
         (raw1 raw2 : timeval),
    monotonic_clock base < 0 ->
    rd_gettimeofday env1 = Some raw1 -> rd_gettimeofday env2 = Some raw2 ->
    normal raw1 -> normal raw2 ->
    normal (adjust_monotonic_clock base) -> normal (last_time base) ->
    within 144115188075855872 raw1 -> within 144115188075855872 raw2 ->
    within 144115188075855872 (adjust_monotonic_clock base) ->
    within 144115188075855872 (last_time base) ->
    exists base1 t1 base2 t2,
      evutil_gettime_monotonic_ base env1 = (0, base1, Some t1)
      /\ evutil_gettime_monotonic_ base1 env2 = (0, base2, Some t2)
      /\ usecs t2 = usecs t1 + Z.max 0 (usecs raw2 - usecs raw1).
Proof.
  unfold within.
  intros base env1 env2 raw1 raw2 Hfb He1 He2 Hr1 Hr2 Ha Hl B1 B2 Ba Bl.
  destruct (adjust_monotonic_time_spec 144115188075855872 base raw1)
    as (E1 & E2 & E3 & E4 & N1 & N2 & W1 & W2); try assumption; try lia.
  unfold within in W1, W2.
  destruct (adjust_monotonic_time base raw1) as [base1 t1] eqn:Estep1.
  cbn [fst snd] in *.
  destruct (adjust_monotonic_time_spec 1152921504606846976 base1 raw2)
    as (F1 & _); unfold within; rewrite ?E3; try assumption; try lia.
  destruct (adjust_monotonic_time base1 raw2) as [base2 t2] eqn:Estep2.
  cbn [fst snd] in *.
  exists base1, t1, base2, t2. unfold evutil_gettime_monotonic_.
  rewrite E4, (proj2 (Z.ltb_lt _ 0) Hfb), He1, He2, Estep1, Estep2.
  repeat split. rewrite F1, E3. lia.
Qed.

Lemma emulated_clock_advances_with_raw_clock_witness :
  exists base1 t1 base2 t2,
    evutil_gettime_monotonic_
      (mk_timer (-1) (mk_timeval 0 0) (mk_timeval 100 0))
      (mk_reading (Some (mk_timeval 40 0)) (fun _ => None))
    = (0, base1, Some t1)
    /\ evutil_gettime_monotonic_ base1
         (mk_reading (Some (mk_timeval 43 500000)) (fun _ => None))
       = (0, base2, Some t2)
    /\ usecs t2 = usecs t1 + 3500000.
Proof.
  apply (emulated_clock_advances_with_raw_clock
           (mk_timer (-1) (mk_timeval 0 0) (mk_timeval 100 0))
           (mk_reading (Some (mk_timeval 40 0)) (fun _ => None))
           (mk_reading (Some (mk_timeval 43 500000)) (fun _ => None))
           (mk_timeval 40 0) (mk_timeval 43 500000));
    unfold normal, within; cbn; try reflexivity; lia.
Defined.

End MonotonicFacts.

Module WeakrandFacts.
Import CInt CIntFacts Weakrand.

Definition modulus : Z := 2147483648.

(** One step of the generator on the seed. *)
Definition step (s : Z) : Z := (s * 1103515245 + 12345) mod modulus.

Lemma weakrand_step state :
  evutil_weakrand_ state = (step (seed state), mk_weakrand (step (seed state)))
  /\ 0 <= step (seed state) < modulus.
Proof.
  unfold evutil_weakrand_, step, u32, modulus.
  assert (Hr : 0 <= (seed state * 1103515245 + 12345) mod 2147483648 < 2147483648)
    by (apply Z.mod_pos_bound; lia).
  assert (E : Z.land (((seed state * 1103515245) mod 2 ^ 32 + 12345) mod 2 ^ 32)
                0x7fffffff
              = (seed state * 1103515245 + 12345) mod 2147483648).
  { change 0x7fffffff with (Z.ones 31). rewrite Z.land_ones by lia.
    change (2 ^ 32) with 4294967296. change (2 ^ 31) with 2147483648.
    rewrite Z.add_mod_idemp_l by lia.
    apply Z.mod_mod_divide. exists 2. reflexivity. }
  rewrite E. split; [|exact Hr].
  rewrite wrap_int_id; [reflexivity|].
  unfold in_int, INT_MIN, INT_MAX. change (2 ^ 31) with 2147483648. lia.
Qed.

(** [n] steps. *)
Fixpoint steps (n : nat) (s : Z) : Z :=
  match n with
  | O => s
  | S n' => steps n' (step s)
  end.

Lemma steps_add n m s : steps (n + m) s = steps m (steps n s).
Proof. revert s. induction n as [|n IH]; intros s; cbn; [reflexivity|apply IH]. Qed.

(** The map [s |-> (A * s + C) mod 2^31]. *)
Definition affine (m : Z * Z) (s : Z) : Z := (fst m * s + snd m) mod modulus.

Definition affine_square (m : Z * Z) : Z * Z :=
  ((fst m * fst m) mod modulus, (fst m * snd m + snd m) mod modulus).

Lemma mod_shift a b k : a = b + k * modulus -> a mod modulus = b mod modulus.
Proof. intros ->. apply Z_mod_plus_full. Qed.

Lemma affine_twice m s : affine m (affine m s) = affine (affine_square m) s.
Proof.
  destruct m as [A C]. unfold affine, affine_square. cbn [fst snd].
  rewrite (Z.mod_eq (A * s + C)), (Z.mod_eq (A * A)), (Z.mod_eq (A * C + C))
    by (unfold modulus; lia).
  apply (mod_shift _ _ ((A * A / modulus) * s + (A * C + C) / modulus
                        - A * ((A * s + C) / modulus))).
  ring.
Qed.

(** The map of [2^k] steps. *)
Fixpoint doubled (k : nat) : Z * Z :=
  match k with
  | O => (1103515245, 12345)
  | S k' => affine_square (doubled k')
  end.

Lemma steps_doubled k :
  exists N : nat,
    Z.of_nat N = 2 ^ Z.of_nat k
    /\ forall s, steps N s = affine (doubled k) s.
Proof.
  induction k as [|k (N & HN & IH)].
  - exists 1%nat. split; [reflexivity|]. intros s. cbn [steps].
    unfold step, affine. cbn [doubled fst snd]. f_equal. ring.
  - exists (N + N)%nat. split.
    + rewrite Nat2Z.inj_succ, Z.pow_succ_r by lia. lia.
    + intros s. rewrite steps_add, !IH. apply affine_twice.
Qed.

(** After 2^30 steps the value has moved by exactly half the modulus. *)
Lemma steps_half_period :
  exists N : nat,
    Z.of_nat N = 1073741824
    /\ forall s, 0 <= s < modulus -> steps N s = (s + 1073741824) mod modulus.
Proof.
  destruct (steps_doubled 30) as (N & HN & H).
  exists N. split; [exact HN|].
  intros s Hs. rewrite H.
  assert (E : doubled 30 = (1, 1073741824)) by (vm_compute; reflexivity).
  rewrite E. unfold affine. cbn [fst snd]. f_equal. lia.
Qed.

(** A drawn value ends the loop. *)
Definition accepted (top divisor v : Z) : Prop :=
  wrap_int (Z.quot v divisor) < top.

Lemma loop_finds top divisor : forall k state,
  accepted top divisor (steps k (step (seed state))) ->
  exists n state',
    (1 <= n <= S k)%nat
    /\ accepted top divisor (seed state')
    /\ 0 <= seed state' < modulus
    /\ forall fuel, (n <= fuel)%nat ->
         weakrand_range_loop fuel state top divisor
         = Returns (wrap_int (Z.quot (seed state') divisor)) state'.
Proof.
  induction k as [|k IH]; intros state Hacc;
    destruct (weakrand_step state) as [E Hr];
    destruct (Z.geb_spec (wrap_int (Z.quot (step (seed state)) divisor)) top)
      as [Hge|Hlt].
  - exfalso. cbn [steps] in Hacc. unfold accepted in Hacc. lia.
  - exists 1%nat, (mk_weakrand (step (seed state))). cbn [seed].
    repeat split; try lia; try assumption.
    intros [|fuel] Hf; [lia|]. cbn [weakrand_range_loop]. rewrite E.
    rewrite Z.geb_leb, (proj2 (Z.leb_gt _ _)) by lia. reflexivity.
  - destruct (IH (mk_weakrand (step (seed state))) Hacc)
      as (n & state' & Hn & Ha & Hs & Hloop).
    exists (S n), state'. repeat split; try lia; try assumption.
    intros [|fuel] Hf; [lia|]. cbn [weakrand_range_loop]. rewrite E.
    rewrite Z.geb_leb, (proj2 (Z.leb_le _ _)) by lia. apply Hloop. lia.
  - exists 1%nat, (mk_weakrand (step (seed state))). cbn [seed].
    repeat split; try lia; try assumption.
    intros [|fuel] Hf; [lia|]. cbn [weakrand_range_loop]. rewrite E.
    rewrite Z.geb_leb, (proj2 (Z.leb_gt _ _)) by lia. reflexivity.
Qed.

Section RangeFacts.
Variable EVUTIL_WEAKRAND_MAX : Z.
Hypothesis EVUTIL_WEAKRAND_MAX_value : EVUTIL_WEAKRAND_MAX = 2147483647.

(** [evutil_weakrand_range_] returns, after at most 2^30 + 1 draws, a
    value from 0 up to but not including [top], for every state and every
    positive [top]: the generator cannot stay above the bound, because
    2^30 steps move its value by exactly half the modulus. *)
Theorem weakrand_range_returns_below_top :
  forall (state : evutil_weakrand_state) (top : Z),
    0 < top <= 2147483647 ->
    exists (n : nat) (r : Z) (state' : evutil_weakrand_state),
      Z.of_nat n <= 1073741825
      /\ 0 <= r < top
      /\ forall fuel, (n <= fuel)%nat ->
           evutil_weakrand_range_ EVUTIL_WEAKRAND_MAX fuel state top
           = Returns r state'.
Proof.
  intros state top Htop. unfold evutil_weakrand_range_.
  rewrite EVUTIL_WEAKRAND_MAX_value.
  rewrite (proj2 (Z.eqb_neq top 0)) by lia.
  rewrite Z.quot_div_nonneg by lia.
  set (d := 2147483647 / top).
  assert (Hd : 1 <= d <= 2147483647).
  { unfold d. split.
    - apply Z.div_le_lower_bound; lia.
    - apply Z.div_le_upper_bound; [lia|]. transitivity (1 * 2147483647); [lia|].
      apply Z.mul_le_mono_nonneg_r; lia. }
  assert (Hdt : 1073741824 <= d * top).
  { pose proof (Z.mod_pos_bound 2147483647 top ltac:(lia)).
    pose proof (Z.div_mod 2147483647 top ltac:(lia)). fold d in H0. nia. }
  rewrite wrap_int_id
    by (unfold in_int, INT_MIN, INT_MAX; change (2 ^ 31) with 2147483648; lia).
  rewrite (proj2 (Z.eqb_neq d 0)) by lia.
  assert (Hacc : forall v, 0 <= v < 1073741824 ->
                   accepted top d v /\ 0 <= wrap_int (Z.quot v d) < top).
  { intros v Hv. unfold accepted. rewrite Z.quot_div_nonneg by lia.
    assert (0 <= v / d) by (apply Z.div_pos; lia).
    assert (v / d < top) by (apply Z.div_lt_upper_bound; lia).
    rewrite wrap_int_id
      by (unfold in_int, INT_MIN, INT_MAX; change (2 ^ 31) with 2147483648; lia).
    lia. }
  assert (Hpos : forall s, 0 <= s < modulus -> accepted top d s ->
                   0 <= wrap_int (Z.quot s d) < top).
  { intros s Hs Ha. unfold accepted in Ha. split; [|exact Ha].
    unfold modulus in Hs. rewrite Z.quot_div_nonneg by lia.
    assert (0 <= s / d) by (apply Z.div_pos; lia).
    assert (s / d <= s).
    { apply Z.div_le_upper_bound; [lia|]. transitivity (1 * s); [lia|].
      apply Z.mul_le_mono_nonneg_r; lia. }
    rewrite wrap_int_id
      by (unfold in_int, INT_MIN, INT_MAX; change (2 ^ 31) with 2147483648; lia).
    lia. }
  destruct (weakrand_step state) as [_ Hr].
  destruct (Z.lt_ge_cases (step (seed state)) 1073741824) as [Hlow|Hhigh].
  - destruct (loop_finds top d 0 state) as (n & state' & Hn & Ha & Hs & Hloop).
    { apply Hacc. cbn [steps]. lia. }
    exists n, (wrap_int (Z.quot (seed state') d)), state'.
    split; [lia|]. split; [now apply Hpos|exact Hloop].
  - destruct steps_half_period as (N & HN & Hhalf).
    destruct (loop_finds top d N state) as (n & state' & Hn & Ha & Hs & Hloop).
    { rewrite Hhalf by exact Hr. apply Hacc.
      unfold modulus in *.
      replace (step (seed state) + 1073741824)
        with (step (seed state) - 1073741824 + 1 * 2147483648) by ring.
      rewrite Z_mod_plus_full, Z.mod_small; lia. }
    exists n, (wrap_int (Z.quot (seed state') d)), state'.
    split; [lia|]. split; [now apply Hpos|exact Hloop].
Qed.

End RangeFacts.

Lemma weakrand_range_returns_below_top_witness :
  exists (n : nat) (r : Z) (state' : evutil_weakrand_state),
    Z.of_nat n <= 1073741825
    /\ 0 <= r < 6
    /\ forall fuel, (n <= fuel)%nat ->
         evutil_weakrand_range_ 2147483647 fuel (mk_weakrand 42) 6
         = Returns r state'.
Proof.
  apply (weakrand_range_returns_below_top 2147483647 eq_refl (mk_weakrand 42) 6).
  lia.
Defined.

(** A die thrown three times from seed 42. *)
Example weakrand_range_run :
  let '(r1, s1) := match evutil_weakrand_range_ 2147483647 4 (mk_weakrand 42) 6 with
                   | Returns r s => (r, s) | _ => (-1, mk_weakrand 0) end in
  let '(r2, s2) := match evutil_weakrand_range_ 2147483647 4 s1 6 with
                   | Returns r s => (r, s) | _ => (-1, mk_weakrand 0) end in
  (r1, r2) = (3, 3).
Proof. vm_compute. reflexivity. Qed.

End WeakrandFacts.

Module StringsFacts.
Import CInt CIntFacts Ctype Inet Strings InetFacts.

(** A boolean property of byte values, checked on each of them. *)
Lemma all_bytes (P : Z -> bool) :
  forallb P (map Z.of_nat (seq 0 256)) = true ->
  forall u, 0 <= u < 256 -> P u = true.
Proof.
  intros H u Hu. rewrite forallb_forall in H. apply H.
  apply in_map_iff. exists (Z.to_nat u). split; [lia|]. apply in_seq. lia.
Qed.

Lemma u8_range c : 0 <= u8 c < 256.
Proof. unfold u8. apply Z.mod_pos_bound. lia. Qed.

Lemma ctype_lookup_u8 t c : ctype_lookup t (u8 c) = ctype_lookup t c.
Proof. unfold ctype_lookup, u8. now rewrite Z.mod_mod by lia. Qed.

Definition between (lo hi u : Z) : bool := (lo <=? u) && (u <=? hi).

(** The bit tables hold exactly the ASCII classes. *)
Theorem ctype_tables_are_ascii_classes :
  forall c : Z,
    EVUTIL_ISUPPER_ c = between 65 90 (u8 c)
    /\ EVUTIL_ISLOWER_ c = between 97 122 (u8 c)
    /\ EVUTIL_ISDIGIT_ c = between 48 57 (u8 c)
    /\ EVUTIL_ISALPHA_ c = EVUTIL_ISUPPER_ c || EVUTIL_ISLOWER_ c
    /\ EVUTIL_ISALNUM_ c = EVUTIL_ISALPHA_ c || EVUTIL_ISDIGIT_ c
    /\ EVUTIL_ISXDIGIT_ c
       = EVUTIL_ISDIGIT_ c || between 65 70 (u8 c) || between 97 102 (u8 c)
    /\ EVUTIL_ISSPACE_ c = (u8 c =? 32) || between 9 13 (u8 c)
    /\ EVUTIL_ISPRINT_ c = between 32 126 (u8 c).
Proof.
  intros c.
  unfold EVUTIL_ISUPPER_, EVUTIL_ISLOWER_, EVUTIL_ISDIGIT_, EVUTIL_ISALPHA_,
    EVUTIL_ISALNUM_, EVUTIL_ISXDIGIT_, EVUTIL_ISSPACE_, EVUTIL_ISPRINT_.
  rewrite <- !(ctype_lookup_u8 _ c).
  generalize (u8 c) (u8_range c). intros u Hu.
  pose proof (all_bytes (fun u =>
    Bool.eqb (ctype_lookup EVUTIL_ISUPPER_TABLE u) (between 65 90 u)
    && Bool.eqb (ctype_lookup EVUTIL_ISLOWER_TABLE u) (between 97 122 u)
    && Bool.eqb (ctype_lookup EVUTIL_ISDIGIT_TABLE u) (between 48 57 u)
    && Bool.eqb (ctype_lookup EVUTIL_ISALPHA_TABLE u)
         (ctype_lookup EVUTIL_ISUPPER_TABLE u || ctype_lookup EVUTIL_ISLOWER_TABLE u)
    && Bool.eqb (ctype_lookup EVUTIL_ISALNUM_TABLE u)
         (ctype_lookup EVUTIL_ISALPHA_TABLE u || ctype_lookup EVUTIL_ISDIGIT_TABLE u)
    && Bool.eqb (ctype_lookup EVUTIL_ISXDIGIT_TABLE u)
         (ctype_lookup EVUTIL_ISDIGIT_TABLE u || between 65 70 u || between 97 102 u)
    && Bool.eqb (ctype_lookup EVUTIL_ISSPACE_TABLE u) ((u =? 32) || between 9 13 u)
    && Bool.eqb (ctype_lookup EVUTIL_ISPRINT_TABLE u) (between 32 126 u))
    ltac:(vm_compute; reflexivity) u Hu) as H.
  cbv beta in H. rewrite !andb_true_iff in H. rewrite !Bool.eqb_true_iff in H.
  tauto.
Qed.

Lemma to_char_range z : -128 <= to_char z <= 127.
Proof.
  unfold to_char, wrap. change (2 ^ (8 - 1)) with 128. change (2 ^ 8) with 256.
  pose proof (Z.mod_pos_bound (z + 128) 256). lia.
Qed.

Lemma to_char_u8 c : to_char (u8 c) = to_char c.
Proof.
  unfold to_char, wrap, u8. change (2 ^ (8 - 1)) with 128. change (2 ^ 8) with 256.
  now rewrite Z.add_mod_idemp_l by lia.
Qed.

Lemma u8_to_char c : u8 (to_char c) = u8 c.
Proof.
  unfold to_char, wrap, u8. change (2 ^ (8 - 1)) with 128. change (2 ^ 8) with 256.
  rewrite <- Zminus_mod_idemp_l. rewrite Z.mod_mod by lia.
  rewrite Zminus_mod_idemp_l. f_equal. lia.
Qed.

Lemma tolower_u8 c : EVUTIL_TOLOWER_ (u8 c) = EVUTIL_TOLOWER_ c.
Proof. unfold EVUTIL_TOLOWER_, u8. now rewrite Z.mod_mod by lia. Qed.

Lemma toupper_u8 c : EVUTIL_TOUPPER_ (u8 c) = EVUTIL_TOUPPER_ c.
Proof. unfold EVUTIL_TOUPPER_, u8. now rewrite Z.mod_mod by lia. Qed.

(** What the two case tables do, for byte values. *)
Lemma case_maps_bytes u :
  0 <= u < 256 ->
  EVUTIL_TOLOWER_ u = (if between 65 90 u then u + 32 else to_char u)
  /\ EVUTIL_TOUPPER_ u = (if between 97 122 u then u - 32 else to_char u)
  /\ EVUTIL_TOLOWER_ (EVUTIL_TOLOWER_ u) = EVUTIL_TOLOWER_ u
  /\ EVUTIL_TOUPPER_ (EVUTIL_TOUPPER_ u) = EVUTIL_TOUPPER_ u
  /\ EVUTIL_TOLOWER_ (EVUTIL_TOUPPER_ u) = EVUTIL_TOLOWER_ u
  /\ EVUTIL_TOUPPER_ (EVUTIL_TOLOWER_ u) = EVUTIL_TOUPPER_ u
  /\ (EVUTIL_TOLOWER_ u = 0 -> u = 0).
Proof.
  intros Hu.
  pose proof (all_bytes (fun u =>
    (EVUTIL_TOLOWER_ u =? (if between 65 90 u then u + 32 else to_char u))
    && (EVUTIL_TOUPPER_ u =? (if between 97 122 u then u - 32 else to_char u))
    && (EVUTIL_TOLOWER_ (EVUTIL_TOLOWER_ u) =? EVUTIL_TOLOWER_ u)
    && (EVUTIL_TOUPPER_ (EVUTIL_TOUPPER_ u) =? EVUTIL_TOUPPER_ u)
    && (EVUTIL_TOLOWER_ (EVUTIL_TOUPPER_ u) =? EVUTIL_TOLOWER_ u)
    && (EVUTIL_TOUPPER_ (EVUTIL_TOLOWER_ u) =? EVUTIL_TOUPPER_ u)
    && ((u =? 0) || negb (EVUTIL_TOLOWER_ u =? 0)))
    ltac:(vm_compute; reflexivity) u Hu) as H.
  cbv beta in H. rewrite !andb_true_iff in H. rewrite !Z.eqb_eq in H.
  destruct H as ((((((H1 & H2) & H3) & H4) & H5) & H6) & H7).
  repeat (split; [assumption|]).
  intros H0. rewrite H0 in H7. destruct (Z.eqb_spec u 0); [assumption|discriminate].
Qed.

(** [EVUTIL_TOLOWER_] moves exactly the upper-case letters, by 32, and
    [EVUTIL_TOUPPER_] exactly the lower-case ones; every other character is
    returned as it is.  Each map is idempotent, and folding after the other
    map is the same as folding alone. *)
Theorem case_maps_move_only_letters :
  forall c : Z,
    EVUTIL_TOLOWER_ c
    = (if EVUTIL_ISUPPER_ c then to_char c + 32 else to_char c)
    /\ EVUTIL_TOUPPER_ c
       = (if EVUTIL_ISLOWER_ c then to_char c - 32 else to_char c)
    /\ EVUTIL_ISLOWER_ (EVUTIL_TOLOWER_ c) = EVUTIL_ISALPHA_ c
    /\ EVUTIL_ISUPPER_ (EVUTIL_TOUPPER_ c) = EVUTIL_ISALPHA_ c
    /\ EVUTIL_TOLOWER_ (EVUTIL_TOLOWER_ c) = EVUTIL_TOLOWER_ c
    /\ EVUTIL_TOUPPER_ (EVUTIL_TOUPPER_ c) = EVUTIL_TOUPPER_ c
    /\ EVUTIL_TOLOWER_ (EVUTIL_TOUPPER_ c) = EVUTIL_TOLOWER_ c
    /\ EVUTIL_TOUPPER_ (EVUTIL_TOLOWER_ c) = EVUTIL_TOUPPER_ c.
Proof.
  intros c.
  unfold EVUTIL_ISUPPER_, EVUTIL_ISLOWER_, EVUTIL_ISALPHA_.
  rewrite <- !(ctype_lookup_u8 _ c), <- (tolower_u8 c), <- (toupper_u8 c),
    <- (to_char_u8 c).
  generalize (u8 c) (u8_range c). intros u Hu.
  pose proof (all_bytes (fun u =>
    (EVUTIL_TOLOWER_ u
     =? (if ctype_lookup EVUTIL_ISUPPER_TABLE u then to_char u + 32 else to_char u))
    && (EVUTIL_TOUPPER_ u
        =? (if ctype_lookup EVUTIL_ISLOWER_TABLE u then to_char u - 32 else to_char u))
    && Bool.eqb (ctype_lookup EVUTIL_ISLOWER_TABLE (EVUTIL_TOLOWER_ u))
                (ctype_lookup EVUTIL_ISALPHA_TABLE u)
    && Bool.eqb (ctype_lookup EVUTIL_ISUPPER_TABLE (EVUTIL_TOUPPER_ u))
                (ctype_lookup EVUTIL_ISALPHA_TABLE u)
    && (EVUTIL_TOLOWER_ (EVUTIL_TOLOWER_ u) =? EVUTIL_TOLOWER_ u)
    && (EVUTIL_TOUPPER_ (EVUTIL_TOUPPER_ u) =? EVUTIL_TOUPPER_ u)
    && (EVUTIL_TOLOWER_ (EVUTIL_TOUPPER_ u) =? EVUTIL_TOLOWER_ u)
    && (EVUTIL_TOUPPER_ (EVUTIL_TOLOWER_ u) =? EVUTIL_TOUPPER_ u))
    ltac:(vm_compute; reflexivity) u Hu) as H.
  cbv beta in H. rewrite !andb_true_iff in H.
  rewrite !Z.eqb_eq, !Bool.eqb_true_iff in H. tauto.
Qed.

(** The table of hexadecimal digits and [evutil_hex_char_to_int_] agree:
    a character is in the table exactly when the conversion succeeds, and
    the conversion gives -1 or a value from 0 to 15. *)
Theorem xdigit_table_matches_hex_conversion :
  forall c : Z,
    EVUTIL_ISXDIGIT_ c = (0 <=? evutil_hex_char_to_int_ (to_char c))
    /\ -1 <= evutil_hex_char_to_int_ (to_char c) <= 15.
Proof.
  intros c. unfold EVUTIL_ISXDIGIT_.
  rewrite <- (ctype_lookup_u8 _ c), <- (to_char_u8 c).
  generalize (u8 c) (u8_range c). intros u Hu.
  pose proof (all_bytes (fun u =>
    Bool.eqb (ctype_lookup EVUTIL_ISXDIGIT_TABLE u)
             (0 <=? evutil_hex_char_to_int_ (to_char u))
    && (-1 <=? evutil_hex_char_to_int_ (to_char u))
    && (evutil_hex_char_to_int_ (to_char u) <=? 15))
    ltac:(vm_compute; reflexivity) u Hu) as H.
  cbv beta in H. rewrite !andb_true_iff in H.
  rewrite Bool.eqb_true_iff, !Z.leb_le in H. tauto.
Qed.

(** *** Comparison without case *)

Lemma strcasecmp_unfold s1 s2 :
  evutil_ascii_strcasecmp s1 s2
  = (let c1 := EVUTIL_TOLOWER_ (hd 0 s1) in
     let c2 := EVUTIL_TOLOWER_ (hd 0 s2) in
     if c1 <? c2 then -1
     else if c1 >? c2 then 1
     else if c1 =? 0 then 0
     else evutil_ascii_strcasecmp (tl s1) (tl s2)).
Proof.
  destruct s1 as [|x r1]; [|reflexivity].
  cbn [evutil_ascii_strcasecmp hd tl]. change (EVUTIL_TOLOWER_ 0) with 0.
  cbv zeta. now repeat case_cond.
Qed.

Lemma tolower_zero c : EVUTIL_TOLOWER_ c = 0 <-> u8 c = 0.
Proof.
  rewrite <- (tolower_u8 c).
  destruct (case_maps_bytes (u8 c) (u8_range c)) as (_ & _ & _ & _ & _ & _ & H).
  split; [exact H|]. intros ->. reflexivity.
Qed.

(** The string in memory at a pointer: the bytes before the first NUL. *)
Definition string_at (mem : list Z) : list Z := c_str (map u8 mem).

Lemma string_at_cons x mem :
  string_at (x :: mem) = if u8 x =? 0 then [] else u8 x :: string_at mem.
Proof. reflexivity. Qed.

Lemma strcasecmp_zero : forall s1 s2,
  evutil_ascii_strcasecmp s1 s2 = 0
  <-> map EVUTIL_TOLOWER_ (string_at s1) = map EVUTIL_TOLOWER_ (string_at s2).
Proof.
  assert (Hnil : forall s, evutil_ascii_strcasecmp [] s = 0
                           <-> [] = map EVUTIL_TOLOWER_ (string_at s)).
  { intros [|y r]; [now split|].
    rewrite strcasecmp_unfold. cbn [hd tl]. change (EVUTIL_TOLOWER_ 0) with 0.
    cbv zeta. rewrite string_at_cons.
    pose proof (tolower_zero y) as Hy.
    destruct (Z.eqb_spec (u8 y) 0) as [E|E].
    - rewrite (proj2 Hy E). now split.
    - assert (EVUTIL_TOLOWER_ y <> 0) by tauto.
      repeat case_cond; split; intros; try discriminate; lia. }
  induction s1 as [|x r1 IH]; intros s2; [apply Hnil|].
  rewrite strcasecmp_unfold. cbn [hd tl]. cbv zeta. rewrite string_at_cons.
  pose proof (tolower_zero x) as Hx.
  destruct s2 as [|y r2].
  - cbn [hd tl]. change (EVUTIL_TOLOWER_ 0) with 0.
    change (string_at []) with (@nil Z). cbn [map].
    destruct (Z.eqb_spec (u8 x) 0) as [E|E].
    + rewrite (proj2 Hx E). now split.
    + assert (EVUTIL_TOLOWER_ x <> 0) by tauto.
      repeat case_cond; split; intros; try discriminate; lia.
  - cbn [hd tl]. rewrite string_at_cons.
    pose proof (tolower_zero y) as Hy.
    pose proof (tolower_u8 x) as Ux. pose proof (tolower_u8 y) as Uy.
    destruct (Z.eqb_spec (u8 x) 0) as [Ex|Ex], (Z.eqb_spec (u8 y) 0) as [Ey|Ey];
      cbn [map].
    + rewrite (proj2 Hx Ex), (proj2 Hy Ey). now split.
    + rewrite (proj2 Hx Ex). assert (EVUTIL_TOLOWER_ y <> 0) by tauto.
      repeat case_cond; split; intros; try discriminate; lia.
    + rewrite (proj2 Hy Ey). assert (EVUTIL_TOLOWER_ x <> 0) by tauto.
      repeat case_cond; split; intros; try discriminate; lia.
    + assert (EVUTIL_TOLOWER_ x <> 0) by tauto. rewrite Ux, Uy.
      destruct (Z.ltb_spec (EVUTIL_TOLOWER_ x) (EVUTIL_TOLOWER_ y));
        [split; [discriminate|intros [=]; lia]|].
      destruct (Z.gtb_spec (EVUTIL_TOLOWER_ x) (EVUTIL_TOLOWER_ y));
        [split; [discriminate|intros [=]; lia]|].
      rewrite (proj2 (Z.eqb_neq _ 0)) by assumption.
      rewrite IH. split; [intros ->; f_equal; lia|intros [=]; assumption].
Qed.

Lemma strcasecmp_antisym : forall s1 s2,
  evutil_ascii_strcasecmp s2 s1 = - evutil_ascii_strcasecmp s1 s2.
Proof.
  induction s1 as [|x r1 IH]; intros s2;
    rewrite (strcasecmp_unfold s2), (strcasecmp_unfold _ s2); cbn [hd tl]; cbv zeta.
  - change (EVUTIL_TOLOWER_ 0) with 0.
    repeat case_cond; try lia.
  - repeat case_cond; try lia. apply IH.
Qed.

(** [evutil_ascii_strcasecmp] returns 0 exactly when the two strings,
    folded to lower case, are the same string; exchanging the arguments
    negates the result, which is -1, 0 or 1. *)
Theorem strcasecmp_zero_iff_equal_folded :
  forall s1 s2 : list Z,
    (evutil_ascii_strcasecmp s1 s2 = 0
     <-> map EVUTIL_TOLOWER_ (string_at s1) = map EVUTIL_TOLOWER_ (string_at s2))
    /\ evutil_ascii_strcasecmp s2 s1 = - evutil_ascii_strcasecmp s1 s2
    /\ -1 <= evutil_ascii_strcasecmp s1 s2 <= 1.
Proof.
  intros s1 s2. split; [apply strcasecmp_zero|]. split; [apply strcasecmp_antisym|].
  revert s2. induction s1 as [|x r1 IH]; intros s2;
    rewrite strcasecmp_unfold; cbn [hd tl]; cbv zeta.
  - change (EVUTIL_TOLOWER_ 0) with 0. rewrite Z.eqb_refl.
    repeat case_cond; lia.
  - repeat case_cond; try lia. apply IH.
Qed.

(** [evutil_ascii_strncasecmp] with a limit of [n] characters is
    [evutil_ascii_strcasecmp] on the strings cut after [n] characters. *)
Theorem strncasecmp_compares_prefixes :
  forall (n : nat) (s1 s2 : list Z),
    evutil_ascii_strncasecmp s1 s2 n
    = evutil_ascii_strcasecmp (take n s1) (take n s2).
Proof.
  induction n as [|n IH]; intros s1 s2; [reflexivity|].
  rewrite strcasecmp_unfold. cbn [evutil_ascii_strncasecmp].
  assert (Hhd : forall s : list Z, hd 0 (take (S n) s) = hd 0 s)
    by (now intros [|? ?]).
  assert (Htl : forall s : list Z, tl (take (S n) s) = take n (tl s))
    by (intros [|? ?]; [now destruct n|reflexivity]).
  rewrite !Hhd, !Htl, IH. reflexivity.
Qed.

(** *** Trailing white space *)

Definition lws (c : Z) : Prop := c = 32 \/ c = 9.

Lemma c_str_rest str :
  exists rest, str = c_str str ++ rest /\ (rest = [] \/ exists r, rest = 0 :: r).
Proof.
  induction str as [|c str (rest & E & Hr)]; [exists []; auto|].
  cbn [c_str]. destruct (Z.eqb_spec c 0) as [->|Hc].
  - exists (0 :: str). eauto.
  - exists rest. split; [cbn [app]; congruence|exact Hr].
Qed.

Lemma rtrim_loop_spec : forall s rest,
  s <> [] ->
  exists kept trimmed,
    s = kept ++ trimmed
    /\ Forall lws trimmed
    /\ (forall k c, kept = k ++ [c] -> ~ lws c)
    /\ rtrim_loop (s ++ rest) (length s - 1)
       = kept ++ replicate (length trimmed) 0 ++ rest.
Proof.
  induction s as [|x s IH] using rev_ind; intros rest Hne; [congruence|].
  rewrite length_app. cbn [length].
  replace (length s + 1 - 1)%nat with (length s) by lia.
  assert (Hnth : nth (length s) ((s ++ [x]) ++ rest) 0 = x).
  { rewrite <- app_assoc. rewrite app_nth2 by lia.
    now replace (length s - length s)%nat with 0%nat by lia. }
  assert (Hput : <[length s := 0]> ((s ++ [x]) ++ rest) = s ++ 0 :: rest).
  { rewrite <- app_assoc. rewrite insert_app_r_alt by lia.
    now replace (length s - length s)%nat with 0%nat by lia. }
  destruct (length s) as [|cp] eqn:El.
  - destruct s; [|discriminate El]. cbn [app] in *.
    clear Hnth Hput. cbn [rtrim_loop app nth length].
    destruct ((x =? 32) || (x =? 9)) eqn:Hx.
    + exists [], [x]. repeat split.
      * constructor; [|constructor]. unfold lws.
        apply orb_prop in Hx as [?%Z.eqb_eq|?%Z.eqb_eq]; auto.
      * intros k c Hk. destruct k; discriminate Hk.
    + exists [x], []. repeat split; [constructor|].
      intros k c Hk. destruct k as [|? [|? ?]]; try discriminate Hk.
      injection Hk as <-. unfold lws.
      apply orb_false_elim in Hx as [?%Z.eqb_neq ?%Z.eqb_neq]. tauto.
  - cbn [rtrim_loop]. rewrite Hnth, Hput.
    destruct ((x =? 32) || (x =? 9)) eqn:Hx.
    + destruct (IH (0 :: rest)) as (kept & trimmed & E & Hl & Hk & Hloop);
        [intros ->; discriminate El|].
      replace (S cp - 1)%nat with cp in Hloop by lia.
      exists kept, (trimmed ++ [x]). repeat split.
      * rewrite E. now rewrite <- app_assoc.
      * apply Forall_app_2; [exact Hl|]. constructor; [|constructor]. unfold lws.
        apply orb_prop in Hx as [?%Z.eqb_eq|?%Z.eqb_eq]; auto.
      * exact Hk.
      * rewrite Hloop, length_app. cbn [length].
        rewrite Nat.add_1_r. rewrite replicate_S_end, <- !app_assoc. reflexivity.
    + exists (s ++ [x]), [].
      split; [now rewrite app_nil_r|]. split; [constructor|]. split; [|reflexivity].
      intros k c Hk. apply app_inj_tail in Hk as [_ <-]. unfold lws.
      apply orb_false_elim in Hx as [?%Z.eqb_neq ?%Z.eqb_neq]. tauto.
Qed.

(** [evutil_rtrim_lws_] cuts the string before its longest run of trailing
    spaces and tabs and changes nothing else: the string afterwards is the
    part before that run, whose last character, if any, is neither a space
    nor a tab; the buffer keeps its size, and what lies after the old
    terminator is untouched. *)
Theorem rtrim_lws_removes_trailing_run :
  forall str : list Z,
    exists kept trimmed,
      c_str str = kept ++ trimmed
      /\ Forall lws trimmed
      /\ (forall k c, kept = k ++ [c] -> ~ lws c)
      /\ c_str (evutil_rtrim_lws_ str) = kept
      /\ length (evutil_rtrim_lws_ str) = length str
      /\ drop (strlen str) (evutil_rtrim_lws_ str) = drop (strlen str) str.
Proof.
  intros str. destruct (c_str_rest str) as (rest & E & Hrest).
  pose proof (c_str_nonzero str) as Hnz.
  unfold evutil_rtrim_lws_, strlen.
  remember (c_str str) as s0 eqn:Hs0. rewrite E. clear E Hs0 str.
  destruct s0 as [|x s].
  - exists [], []. cbn [length app]. repeat split; [constructor| |].
    + intros k c Hk. destruct k; discriminate Hk.
    + destruct Hrest as [->|(r & ->)]; reflexivity.
  - destruct (rtrim_loop_spec (x :: s) rest) as (kept & trimmed & Ek & Hl & Hk & Hloop);
      [discriminate|].
    cbn [length] in Hloop |- *.
    replace (S (length s) - 1)%nat with (length s) in Hloop by lia.
    rewrite Hloop.
    assert (Hkept : Forall nonzero kept).
    { rewrite Ek in Hnz. now apply Forall_app in Hnz as [? _]. }
    assert (Hlen : S (length s) = (length kept + length trimmed)%nat).
    { change (S (length s)) with (length (x :: s)). now rewrite Ek, length_app. }
    exists kept, trimmed.
    split; [exact Ek|]. split; [exact Hl|]. split; [exact Hk|]. split; [|split].
    + destruct trimmed as [|t trimmed].
      * cbn [length replicate app]. rewrite app_nil_r in Ek. subst kept.
        destruct Hrest as [->|(r & ->)].
        -- rewrite app_nil_r. now apply c_str_id.
        -- now apply c_str_app_nul.
      * cbn [length replicate app]. now apply c_str_app_nul.
    + rewrite !length_app, length_replicate.
      change (length (x :: s)) with (S (length s)). lia.
    + rewrite Hlen. rewrite app_assoc.
      rewrite drop_app_length' by (rewrite length_app, length_replicate; lia).
      rewrite <- Hlen.
      now rewrite (drop_app_length' (x :: s)) by reflexivity.
Qed.

End StringsFacts.

Module AddrFacts.
Import CInt CIntFacts Ctype Inet InetFacts Strings StringsFacts Addr.

Lemma bool_eq_iff (x y : bool) : (x = true <-> y = true) -> x = y.
Proof. destruct x, y; intuition congruence. Qed.

(** The upper bits of a 32-bit value, by mask. *)
Lemma land_high v k :
  0 <= k <= 32 -> 0 <= v < 4294967296 ->
  Z.land v (Z.shiftl (Z.ones (32 - k)) k) = (v / 2 ^ k) * 2 ^ k.
Proof.
  intros Hk Hv. apply Z.bits_inj'. intros n Hn.
  rewrite Z.land_spec.
  rewrite <- Z.shiftl_mul_pow2, <- Z.shiftr_div_pow2 by lia.
  destruct (Z.lt_ge_cases n k) as [Hlo|Hhi].
  - rewrite !Z.shiftl_spec_low by lia. now rewrite andb_false_r.
  - rewrite !Z.shiftl_spec by lia. rewrite Z.shiftr_spec by lia.
    replace (n - k + k) with n by lia.
    destruct (Z.lt_ge_cases n 32) as [Hlt|Hge].
    + rewrite Z.ones_spec_low by lia. now rewrite andb_true_r.
    + rewrite Z.ones_spec_high by lia. rewrite andb_false_r.
      destruct (Z.eq_dec v 0) as [->|Hv0]; [now rewrite Z.bits_0|].
      rewrite Z.bits_above_log2; [reflexivity|lia|].
      assert (Z.log2 v < 32) by (apply Z.log2_lt_pow2; lia). lia.
Qed.

Lemma land_high16 v :
  0 <= v < 4294967296 -> Z.land v 0xffff0000 = (v / 65536) * 65536.
Proof. intros Hv. apply (land_high v 16); [lia|exact Hv]. Qed.

Lemma land_high8 v :
  0 <= v < 4294967296 -> Z.land v 0xff000000 = (v / 16777216) * 16777216.
Proof. intros Hv. apply (land_high v 24); [lia|exact Hv]. Qed.

Lemma classd_byte a :
  is_byte a -> (Z.land a 0xf0 =? 0xe0) = between 224 239 a.
Proof.
  intros Ha.
  pose proof (all_bytes (fun a => Bool.eqb (Z.land a 0xf0 =? 0xe0) (between 224 239 a))
                ltac:(vm_compute; reflexivity) a Ha) as H.
  now apply Bool.eqb_prop in H.
Qed.

Lemma v4addr_is_localhost_byte a b c d :
  is_byte a -> is_byte b -> is_byte c -> is_byte d ->
  evutil_v4addr_is_localhost (ntohl_s_addr [a; b; c; d]) = (a =? 127).
Proof.
  intros Ha Hb Hc Hd.
  change (ntohl_s_addr [a; b; c; d]) with (pack4 a b c d).
  rewrite pack4_value by assumption. unfold evutil_v4addr_is_localhost.
  unfold is_byte in *.
  rewrite Z.shiftr_div_pow2 by lia. change (2 ^ 24) with 16777216.
  f_equal. div_facts.
Qed.

(** [evutil_v4addr_is_local_] holds of a.b.c.d exactly for 0.0.0.0,
    127.0.0.0/8, 169.254.0.0/16 and 224.0.0.0/4. *)
Theorem v4addr_is_local_ranges :
  forall a b c d : Z,
    is_byte a -> is_byte b -> is_byte c -> is_byte d ->
    evutil_v4addr_is_local_ [a; b; c; d]
    = ((a =? 0) && (b =? 0) && (c =? 0) && (d =? 0))
      || (a =? 127)
      || ((a =? 169) && (b =? 254))
      || between 224 239 a.
Proof.
  intros a b c d Ha Hb Hc Hd. unfold evutil_v4addr_is_local_.
  change (ntohl_s_addr [a; b; c; d]) with (pack4 a b c d). cbv zeta.
  rewrite pack4_value by assumption.
  unfold evutil_v4addr_is_localhost, evutil_v4addr_is_linklocal,
    evutil_v4addr_is_classd, INADDR_ANY.
  unfold is_byte in *.
  set (v := a * 16777216 + b * 65536 + c * 256 + d).
  assert (Hv : 0 <= v < 4294967296) by (unfold v; lia).
  assert (E24 : Z.shiftr v 24 = a).
  { rewrite Z.shiftr_div_pow2 by lia. change (2 ^ 24) with 16777216.
    unfold v. div_facts. }
  rewrite E24, land_high16 by exact Hv.
  rewrite classd_byte by (unfold is_byte; lia).
  assert (E16 : v / 65536 = a * 256 + b) by (unfold v; div_facts).
  rewrite E16.
  f_equal. f_equal; [f_equal|].
  - apply bool_eq_iff. rewrite !andb_true_iff, !Z.eqb_eq. unfold v. lia.
  - apply bool_eq_iff. rewrite !andb_true_iff, !Z.eqb_eq. lia.
Qed.

Lemma v4addr_is_local_ranges_witness :
  evutil_v4addr_is_local_ [169; 254; 7; 9] = true
  /\ evutil_v4addr_is_local_ [192; 0; 2; 1] = false.
Proof.
  split.
  - rewrite (v4addr_is_local_ranges 169 254 7 9) by (unfold is_byte; lia).
    reflexivity.
  - rewrite (v4addr_is_local_ranges 192 0 2 1) by (unfold is_byte; lia).
    reflexivity.
Defined.

(** *** memcmp *)

(** The order of two byte sequences of [n] bytes, first byte first. *)
Fixpoint bytes_compare (a b : list Z) (n : nat) : comparison :=
  match n with
  | O => Eq
  | S n' =>
      match u8 (hd 0 a) ?= u8 (hd 0 b) with
      | Eq => bytes_compare (tl a) (tl b) n'
      | c => c
      end
  end.

(** What the C standard says of [memcmp]: the sign of the result is the
    order of the two sequences. *)
Definition memcmp_contract (memcmp : list Z -> list Z -> nat -> Z) : Prop :=
  forall a b n, (memcmp a b n ?= 0) = bytes_compare a b n.

Lemma memcmp_bytes_contract : memcmp_contract memcmp_bytes.
Proof.
  intros a b n. revert a b. induction n as [|n IH]; intros a b; [reflexivity|].
  cbn [memcmp_bytes bytes_compare].
  destruct (Z.eqb_spec (u8 (hd 0 a)) (u8 (hd 0 b))) as [E|E].
  - rewrite E, Z.compare_refl. apply IH.
  - destruct (Z.compare_spec (u8 (hd 0 a)) (u8 (hd 0 b))); [lia| |].
    + apply Z.compare_lt_iff. lia.
    + apply Z.compare_gt_iff. lia.
Qed.

Lemma bytes_compare_opp : forall n a b,
  bytes_compare b a n = CompOpp (bytes_compare a b n).
Proof.
  induction n as [|n IH]; intros a b; [reflexivity|]. cbn [bytes_compare].
  rewrite (Z.compare_antisym (u8 (hd 0 a)) (u8 (hd 0 b))).
  destruct (u8 (hd 0 a) ?= u8 (hd 0 b)); cbn [CompOpp]; auto.
Qed.

Lemma bytes_compare_eq : forall n a b,
  Forall is_byte a -> Forall is_byte b ->
  (n <= length a)%nat -> (n <= length b)%nat ->
  bytes_compare a b n = Eq <-> take n a = take n b.
Proof.
  induction n as [|n IH]; intros a b Ha Hb La Lb; [now split|].
  destruct a as [|x a]; [cbn in La; lia|]. destruct b as [|y b]; [cbn in Lb; lia|].
  apply Forall_cons_1 in Ha as [Hx Ha]. apply Forall_cons_1 in Hb as [Hy Hb].
  cbn [bytes_compare hd tl take]. cbn [length] in La, Lb.
  unfold is_byte in Hx, Hy. unfold u8. rewrite !Z.mod_small by lia.
  destruct (Z.compare_spec x y) as [->| |].
  - rewrite IH by (assumption || lia). split; [now intros ->|now intros [=]].
  - split; [discriminate|intros [=]; lia].
  - split; [discriminate|intros [=]; lia].
Qed.

Lemma bytes_compare_prefix : forall n m a b,
  bytes_compare a b (n + m) = Eq -> bytes_compare a b n = Eq.
Proof.
  induction n as [|n IH]; intros m a b H; [reflexivity|].
  cbn [Nat.add bytes_compare] in H |- *.
  destruct (u8 (hd 0 a) ?= u8 (hd 0 b)); try discriminate H. now apply IH in H.
Qed.

Definition wf_sockaddr (sa : sockaddr) : Prop :=
  Forall is_byte (sa_addr sa)
  /\ (sa_family sa = AF_INET -> length (sa_addr sa) = 4%nat)
  /\ (sa_family sa = AF_INET6 -> length (sa_addr sa) = 16%nat).

Section WithMemcmp.
Variable memcmp : list Z -> list Z -> nat -> Z.
Hypothesis memcmp_ok : memcmp_contract memcmp.

Lemma memcmp_zero a b n :
  Forall is_byte a -> Forall is_byte b ->
  (n <= length a)%nat -> (n <= length b)%nat ->
  (memcmp a b n =? 0) = true <-> take n a = take n b.
Proof.
  intros Ha Hb La Lb. rewrite Z.eqb_eq, <- Z.compare_eq_iff, memcmp_ok.
  now apply bytes_compare_eq.
Qed.

(** [evutil_v6addr_is_local_] holds exactly of the addresses whose first
    eight bytes are zero and of fc00::/7, fe80::/10, fec0::/10 and
    ff00::/8. *)
Theorem v6addr_is_local_ranges :
  forall addr : list Z,
    Forall is_byte addr -> length addr = 16%nat ->
    evutil_v6addr_is_local_ memcmp addr
    = forallb (Z.eqb 0) (take 8 addr)
      || between 252 253 (nth 0 addr 0)
      || ((nth 0 addr 0 =? 254) && (128 <=? nth 1 addr 0))
      || (nth 0 addr 0 =? 255).
Proof.
  intros addr Hb Hl. unfold evutil_v6addr_is_local_.
  assert (HA : (memcmp addr ZEROES 8 =? 0) = forallb (Z.eqb 0) (take 8 addr)).
  { apply bool_eq_iff. rewrite memcmp_zero; try assumption;
      [|repeat constructor; unfold is_byte; lia|lia|cbn; lia].
    do 16 (destruct addr as [|? addr]; [discriminate Hl|]).
    cbn [take ZEROES replicate forallb]. rewrite !andb_true_iff, !Z.eqb_eq.
    split; [intros [=]; subst; tauto|intros; f_equal; lia || (repeat f_equal; lia)]. }
  rewrite HA.
  assert (H0 : is_byte (nth 0 addr 0) /\ is_byte (nth 1 addr 0)).
  { do 2 (destruct addr as [|? addr]; [discriminate Hl|]).
    apply Forall_cons_1 in Hb as [? Hb]. apply Forall_cons_1 in Hb as [? Hb].
    now split. }
  destruct H0 as [Hx Hy]. revert Hx Hy.
  generalize (nth 0 addr 0) (nth 1 addr 0) (forallb (Z.eqb 0) (take 8 addr)).
  intros x y z Hx Hy.
  pose proof (all_bytes (fun x => Bool.eqb (Z.land x 0xfe =? 0xfc) (between 252 253 x))
                ltac:(vm_compute; reflexivity) x Hx) as H1.
  pose proof (all_bytes (fun y => Bool.eqb ((Z.land y 0xc0 =? 0x80)
                                            || (Z.land y 0xc0 =? 0xc0))
                                           (128 <=? y))
                ltac:(vm_compute; reflexivity) y Hy) as H2.
  apply Bool.eqb_prop in H1, H2. cbv beta in H1, H2. rewrite H1, <- H2.
  destruct z, (between 252 253 x), (x =? 0xfe), (Z.land y 0xc0 =? 0x80),
    (Z.land y 0xc0 =? 0xc0), (x =? 0xff); reflexivity.
Qed.

(** A loopback address is never counted as an address of the host: a list
    of interfaces that holds only loopback addresses leaves both
    [had_ipv4_address] and [had_ipv6_address] as they were. *)
Theorem loopback_interfaces_are_not_counted :
  forall (l : list (option sockaddr)) (st : interfaces),
    Forall (fun i => match i with
                     | None => True
                     | Some sa =>
                         wf_sockaddr sa
                         /\ evutil_sockaddr_is_loopback_ memcmp sa = true
                     end) l ->
    evutil_check_ifaddrs memcmp (Some l) st = (0, st).
Proof.
  intros l st Hl. unfold evutil_check_ifaddrs. f_equal.
  induction Hl as [|i l Hi _ IH]; [reflexivity|]. cbn [fold_left].
  destruct i as [sa|]; [|exact IH].
  destruct Hi as [(Hb & H4 & H16) Hloop].
  replace (evutil_found_ifaddr memcmp sa st) with st; [exact IH|].
  unfold evutil_found_ifaddr, evutil_sockaddr_is_loopback_ in *.
  destruct (Z.eqb_spec (sa_family sa) AF_INET) as [E4|_].
  - specialize (H4 E4). remember (sa_addr sa) as bytes eqn:Eb. clear Eb.
    destruct bytes as [|a [|b [|c [|d [|]]]]]; try discriminate H4.
    repeat (apply Forall_cons_1 in Hb as [? Hb]).
    unfold evutil_v4addr_is_local_. cbv zeta.
    rewrite v4addr_is_localhost_byte by assumption.
    change (ntohl_s_addr [a; b; c; d]) with (pack4 a b c d) in Hloop.
    rewrite pack4_value in Hloop by assumption.
    unfold is_byte in *. rewrite land_high8 in Hloop by lia.
    apply Z.eqb_eq in Hloop.
    assert (a = 127) as -> by div_facts.
    rewrite Z.eqb_refl, orb_true_r. reflexivity.
  - destruct (Z.eqb_spec (sa_family sa) AF_INET6) as [E6|_]; [|reflexivity].
    replace (evutil_v6addr_is_local_ memcmp (sa_addr sa)) with true; [reflexivity|].
    symmetry. unfold evutil_v6addr_is_local_.
    replace (memcmp (sa_addr sa) ZEROES 8 =? 0) with true; [reflexivity|].
    symmetry. apply Z.eqb_eq, Z.compare_eq_iff. rewrite memcmp_ok.
    apply Z.eqb_eq, Z.compare_eq_iff in Hloop. rewrite memcmp_ok in Hloop.
    apply (bytes_compare_prefix 8 8) in Hloop. exact Hloop.
Qed.

Variable big_endian : bool.

Lemma s_addr_injective a b :
  Forall is_byte a -> Forall is_byte b ->
  length a = 4%nat -> length b = 4%nat ->
  s_addr big_endian a = s_addr big_endian b <-> a = b.
Proof.
  intros Ha Hb La Lb.
  destruct a as [|a0 [|a1 [|a2 [|a3 [|]]]]]; try discriminate La.
  destruct b as [|b0 [|b1 [|b2 [|b3 [|]]]]]; try discriminate Lb.
  repeat (apply Forall_cons_1 in Ha as [? Ha]).
  repeat (apply Forall_cons_1 in Hb as [? Hb]).
  split; [|now intros ->].
  unfold s_addr. cbn [nth].
  destruct big_endian.
  - change (ntohl_s_addr [a0; a1; a2; a3]) with (pack4 a0 a1 a2 a3).
    change (ntohl_s_addr [b0; b1; b2; b3]) with (pack4 b0 b1 b2 b3).
    rewrite !pack4_value by assumption. unfold is_byte in *.
    intros E. repeat f_equal; lia.
  - change (ntohl_s_addr [a3; a2; a1; a0]) with (pack4 a3 a2 a1 a0).
    change (ntohl_s_addr [b3; b2; b1; b0]) with (pack4 b3 b2 b1 b0).
    rewrite !pack4_value by assumption. unfold is_byte in *.
    intros E. repeat f_equal; lia.
Qed.

Lemma memcmp_sign a b n :
  (memcmp a b n < 0 <-> 0 < memcmp b a n)
  /\ (memcmp a b n = 0 <-> memcmp b a n = 0).
Proof.
  pose proof (memcmp_ok a b n) as H1. pose proof (memcmp_ok b a n) as H2.
  rewrite bytes_compare_opp in H2. rewrite <- H1 in H2.
  destruct (Z.compare_spec (memcmp a b n) 0), (Z.compare_spec (memcmp b a n) 0);
    cbn in H2; try discriminate H2; lia.
Qed.

(** [evutil_sockaddr_cmp] on two IPv4 or IPv6 socket addresses: the result
    is 0 exactly when the families and the addresses are the same, and the
    ports too when they are included; exchanging the arguments reverses the
    sign.  For any other family the result is 1, even for an address
    compared with itself. *)
Theorem sockaddr_cmp_orders_inet_addresses :
  forall (sa1 sa2 : sockaddr) (include_port : Z),
    wf_sockaddr sa1 -> wf_sockaddr sa2 ->
    (sa_family sa1 = AF_INET \/ sa_family sa1 = AF_INET6 ->
     (evutil_sockaddr_cmp memcmp big_endian sa1 sa2 include_port = 0
      <-> sa_family sa1 = sa_family sa2
          /\ sa_addr sa1 = sa_addr sa2
          /\ (include_port <> 0 -> sa_port sa1 = sa_port sa2))
     /\ (evutil_sockaddr_cmp memcmp big_endian sa1 sa2 include_port < 0
         <-> 0 < evutil_sockaddr_cmp memcmp big_endian sa2 sa1 include_port))
    /\ (sa_family sa1 <> AF_INET -> sa_family sa1 <> AF_INET6 ->
        evutil_sockaddr_cmp memcmp big_endian sa1 sa1 include_port = 1).
Proof.
  intros sa1 sa2 inc (Hb1 & H41 & H61) (Hb2 & H42 & H62).
  unfold evutil_sockaddr_cmp. split.
  - intros Hfam.
    destruct (Z.eqb_spec (sa_family sa1 - sa_family sa2) 0) as [Ef|Ef]; cbn [negb].
    2: { rewrite (proj2 (Z.eqb_neq (sa_family sa2 - sa_family sa1) 0)) by lia.
         cbn [negb]. split; [|lia]. split; [lia|]. intros (E & _). lia. }
    assert (Ef' : sa_family sa2 = sa_family sa1) by lia.
    rewrite Ef'. replace (sa_family sa1 - sa_family sa1) with 0 by lia.
    cbn [Z.eqb negb].
    destruct (Z.eqb_spec (sa_family sa1) AF_INET) as [E4|N4].
    + pose proof (s_addr_injective (sa_addr sa1) (sa_addr sa2) Hb1 Hb2
                    (H41 E4) (H42 ltac:(congruence))) as Hinj.
      destruct (Z.ltb_spec (s_addr big_endian (sa_addr sa1))
                           (s_addr big_endian (sa_addr sa2))) as [Hlt|Hge].
      { rewrite (proj2 (Z.ltb_ge _ _)) by lia.
        rewrite Z.gtb_ltb, (proj2 (Z.ltb_lt _ _)) by lia.
        split; [|lia]. split; [lia|]. intros (_ & E & _). apply Hinj in E. lia. }
      destruct (Z.gtb_spec (s_addr big_endian (sa_addr sa1))
                           (s_addr big_endian (sa_addr sa2))) as [Hgt|Hle].
      { rewrite (proj2 (Z.ltb_lt _ _)) by lia.
        split; [|lia]. split; [lia|]. intros (_ & E & _). apply Hinj in E. lia. }
      rewrite (proj2 (Z.ltb_ge _ _)) by lia.
      rewrite Z.gtb_ltb, (proj2 (Z.ltb_ge _ _)) by lia.
      assert (Eaddr : sa_addr sa1 = sa_addr sa2) by (apply Hinj; lia).
      destruct (Z.eqb_spec inc 0) as [Ei|Ei]; cbn [negb andb].
      * split; [|lia]. split; [intros _; repeat split; auto; lia|reflexivity].
      * destruct (Z.eqb_spec (sa_port sa1 - sa_port sa2) 0) as [Ep|Ep];
          destruct (Z.eqb_spec (sa_port sa2 - sa_port sa1) 0) as [Ep'|Ep'];
          try lia; cbn [negb].
        -- split; [|lia]. split; [intros _; repeat split; auto; lia|reflexivity].
        -- split; [|lia]. split; [lia|]. intros (_ & _ & E). specialize (E Ei). lia.
    + destruct Hfam as [?|E6]; [contradiction|].
      rewrite (proj2 (Z.eqb_eq _ _) E6).
      destruct (memcmp_sign (sa_addr sa1) (sa_addr sa2) 16) as [Hs Hz].
      pose proof (memcmp_zero (sa_addr sa1) (sa_addr sa2) 16 Hb1 Hb2) as Heq.
      rewrite (H61 E6), (H62 ltac:(congruence)) in Heq.
      specialize (Heq ltac:(lia) ltac:(lia)).
      rewrite !take_ge in Heq by (rewrite ?(H61 E6), ?(H62 ltac:(congruence)); lia).
      rewrite Z.eqb_eq in Heq.
      destruct (Z.eqb_spec (memcmp (sa_addr sa1) (sa_addr sa2) 16) 0) as [Em|Em];
        destruct (Z.eqb_spec (memcmp (sa_addr sa2) (sa_addr sa1) 16) 0) as [Em'|Em'];
        try tauto; cbn [negb].
      destruct (Z.eqb_spec inc 0) as [Ei|Ei]; cbn [negb andb].
      * split; [|lia]. split; [intros _; repeat split; try tauto; lia|reflexivity].
      * destruct (Z.eqb_spec (sa_port sa1 - sa_port sa2) 0) as [Ep|Ep];
          destruct (Z.eqb_spec (sa_port sa2 - sa_port sa1) 0) as [Ep'|Ep'];
          try lia; cbn [negb].
        -- split; [|lia]. split; [intros _; repeat split; try tauto; lia|reflexivity].
        -- split; [|lia]. split; [lia|]. intros (_ & _ & E). specialize (E Ei). lia.
  - intros N4 N6. replace (sa_family sa1 - sa_family sa1) with 0 by lia.
    cbn [Z.eqb negb].
    rewrite (proj2 (Z.eqb_neq _ _) N4), (proj2 (Z.eqb_neq _ _) N6). reflexivity.
Qed.

End WithMemcmp.

Lemma v6addr_is_local_ranges_witness :
  evutil_v6addr_is_local_ memcmp_bytes
    [254; 128; 0; 0; 0; 0; 0; 0; 2; 0; 0; 0; 0; 0; 0; 1] = true
  /\ evutil_v6addr_is_local_ memcmp_bytes
       [32; 1; 13; 184; 0; 0; 0; 0; 0; 0; 0; 0; 0; 0; 0; 1] = false.
Proof.
  split.
  - rewrite (v6addr_is_local_ranges memcmp_bytes memcmp_bytes_contract);
      [reflexivity|repeat constructor; unfold is_byte; lia|reflexivity].
  - rewrite (v6addr_is_local_ranges memcmp_bytes memcmp_bytes_contract);
      [reflexivity|repeat constructor; unfold is_byte; lia|reflexivity].
Defined.

Lemma loopback_interfaces_are_not_counted_witness :
  evutil_check_ifaddrs memcmp_bytes
    (Some [Some (mk_sockaddr AF_INET 0 [127; 0; 0; 1] 0); None;
           Some (mk_sockaddr AF_INET6 0 LOOPBACK_S6 0)])
    (mk_interfaces 1 0 0)
  = (0, mk_interfaces 1 0 0).
Proof.
  apply (loopback_interfaces_are_not_counted memcmp_bytes memcmp_bytes_contract).
  repeat constructor; cbn; unfold is_byte; try lia; discriminate.
Defined.

Lemma sockaddr_cmp_orders_inet_addresses_witness :
  (evutil_sockaddr_cmp memcmp_bytes false
     (mk_sockaddr AF_INET 80 [192; 0; 2; 1] 0)
     (mk_sockaddr AF_INET 81 [192; 0; 2; 1] 0) 1 < 0
   <-> 0 < evutil_sockaddr_cmp memcmp_bytes false
             (mk_sockaddr AF_INET 81 [192; 0; 2; 1] 0)
             (mk_sockaddr AF_INET 80 [192; 0; 2; 1] 0) 1)
  /\ evutil_sockaddr_cmp memcmp_bytes false
       (mk_sockaddr 1 0 [] 0) (mk_sockaddr 1 0 [] 0) 0 = 1.
Proof.
  split.
  - refine (proj2 (proj1 (sockaddr_cmp_orders_inet_addresses
                            memcmp_bytes memcmp_bytes_contract false
                            (mk_sockaddr AF_INET 80 [192; 0; 2; 1] 0)
                            (mk_sockaddr AF_INET 81 [192; 0; 2; 1] 0) 1 _ _) _)).
    + repeat split; cbn; try discriminate; repeat constructor; unfold is_byte; lia.
    + repeat split; cbn; try discriminate; repeat constructor; unfold is_byte; lia.
    + left. reflexivity.
  - refine (proj2 (sockaddr_cmp_orders_inet_addresses
                     memcmp_bytes memcmp_bytes_contract false
                     (mk_sockaddr 1 0 [] 0) (mk_sockaddr 1 0 [] 0) 0 _ _) _ _).
    + repeat split; cbn; try discriminate; constructor.
    + repeat split; cbn; try discriminate; constructor.
    + discriminate.
    + discriminate.
Defined.

End AddrFacts.

Module ServnameFacts.
Import CInt CIntFacts Ctype Inet InetFacts Servname.

(** The decimal digits [digits_of] writes are read back by [dec_accum]. *)
Lemma digits_of_read_back : forall f n acc,
  0 <= n < 2 ^ Z.of_nat (S f) ->
  exists D,
    digits_of (S f) 10 n acc = D ++ acc
    /\ (48 <= hd 0 D <= 57)
    /\ forall v any rest,
         dec_accum (D ++ rest) v any
         = dec_accum rest (v * 10 ^ Z.of_nat (length D) + n) true.
Proof.
  induction f as [|f IH]; intros n acc Hn; cbn [digits_of].
  - assert (Hsmall : 0 <= n < 10) by (change (2 ^ Z.of_nat 1) with 2 in Hn; lia).
    rewrite Z.div_small, Z.mod_small by lia. cbn [Z.eqb].
    destruct (digit_char_dec n Hsmall) as (Hd & Hv & _).
    exists [digit_char n]. cbn [app hd length].
    split; [reflexivity|]. split; [lia|].
    intros v any rest. cbn [dec_accum]. rewrite Hd, Hv.
      f_equal; change (10 ^ Z.of_nat 1) with 10; lia.
  - assert (Hm : 0 <= n mod 10 < 10) by (apply Z.mod_pos_bound; lia).
    destruct (digit_char_dec (n mod 10) Hm) as (Hd & Hv & _).
    destruct (Z.eqb_spec (n / 10) 0) as [E|E].
    + assert (n mod 10 = n) by (pose proof (Z.div_mod n 10); lia).
      exists [digit_char (n mod 10)]. cbn [app hd length].
      split; [reflexivity|]. split; [lia|].
      intros v any rest. cbn [dec_accum]. rewrite Hd, Hv.
      f_equal; change (10 ^ Z.of_nat 1) with 10; lia.
    + destruct (IH (n / 10) (digit_char (n mod 10) :: acc)) as (D & ED & Hhd & Hread).
      { rewrite Nat2Z.inj_succ, Z.pow_succ_r in Hn by lia.
        split; [apply Z.div_pos; lia|].
        apply Z.div_lt_upper_bound; lia. }
      exists (D ++ [digit_char (n mod 10)]).
      split; [rewrite <- app_assoc; exact ED|]. split.
      * destruct D as [|d D]; [|exact Hhd]. cbn in Hhd. lia.
      * intros v any rest. rewrite <- app_assoc. rewrite Hread.
        cbn [app dec_accum]. rewrite Hd, Hv. f_equal.
        rewrite length_app. cbn [length]. rewrite Nat2Z.inj_add.
        rewrite Z.pow_add_r by lia. change (10 ^ Z.of_nat 1) with 10.
        pose proof (Z.div_mod n 10). lia.
Qed.

(** The text of [n] in decimal, as [%d] and [%u] print it. *)
Lemma render_unsigned_read_back n :
  0 <= n ->
  exists D,
    render_unsigned 10 n = D
    /\ (48 <= hd 0 D <= 57)
    /\ forall rest, dec_accum (D ++ rest) 0 false = dec_accum rest n true.
Proof.
  intros Hn. unfold render_unsigned.
  destruct (digits_of_read_back (Z.to_nat (Z.log2 n)) n []) as (D & ED & Hhd & Hread).
  { rewrite Nat2Z.inj_succ, Z2Nat.id by apply Z.log2_nonneg.
    destruct (Z.eq_dec n 0) as [->|Hn0]; [cbn; lia|].
    pose proof (Z.log2_spec n ltac:(lia)). lia. }
  exists D. rewrite app_nil_r in ED. split; [exact ED|]. split; [exact Hhd|].
  intros rest. rewrite Hread. f_equal; lia.
Qed.

Lemma strtol10_digits D n :
  (48 <= hd 0 D <= 57) ->
  (forall rest, dec_accum (D ++ rest) 0 false = dec_accum rest n true) ->
  0 <= n ->
  strtol10 D = (Z.min LONG_MAX n, []).
Proof.
  intros Hhd Hread Hn. unfold strtol10.
  destruct D as [|d D]; [cbn in Hhd; lia|]. cbn [hd] in Hhd.
  assert (Hsp : skip_space (d :: D) = d :: D).
  { cbn [skip_space]. unfold isspace.
    rewrite (proj2 (Z.eqb_neq d 32)) by lia.
    rewrite (proj2 (Z.leb_gt d 13)) by lia. now rewrite andb_false_r. }
  rewrite Hsp. cbn [scan_sign].
  rewrite (proj2 (Z.eqb_neq d 45)), (proj2 (Z.eqb_neq d 43)) by lia.
  specialize (Hread []). rewrite app_nil_r in Hread. rewrite Hread.
  cbn [dec_accum]. f_equal.
  unfold LONG_MIN, LONG_MAX. change (2 ^ 63) with 9223372036854775808. lia.
Qed.

(** [parse_numeric_servname] reads a decimal numeral through [strtol] and
    a cast to [int]: the port is the number reduced to 32 bits, so a
    numeral below 2^63 denotes the port it is congruent to modulo 2^32
    when that lies in 0..65535, and is refused otherwise; a numeral of 2^63
    or more is refused.  The empty string is refused, and no string gives a
    result outside -1..65535. *)
Theorem parse_numeric_servname_reads_modulo_2_32 :
  forall n : Z,
    0 <= n ->
    parse_numeric_servname (render_unsigned 10 n)
    = (let port := wrap_int (Z.min LONG_MAX n) in
       if (0 <=? port) && (port <=? 65535) then port else -1)
    /\ parse_numeric_servname [] = -1
    /\ forall s, -1 <= parse_numeric_servname s <= 65535.
Proof.
  intros n Hn. split; [|split].
  - destruct (render_unsigned_read_back n Hn) as (D & -> & Hhd & Hread).
    unfold parse_numeric_servname.
    rewrite (strtol10_digits D n Hhd Hread Hn). cbv zeta. cbn [hd].
    rewrite Z.eqb_refl, andb_true_r.
    rewrite (proj2 (Z.eqb_neq (hd 0 D) 0)) by lia.
    now rewrite andb_true_r.
  - reflexivity.
  - intros s. unfold parse_numeric_servname.
    destruct (strtol10 s) as [l endptr]. cbv zeta.
    destruct ((0 <=? wrap_int l) && (wrap_int l <=? 65535)) eqn:E; cbn [andb];
      [|lia].
    apply andb_prop in E as [?%Z.leb_le ?%Z.leb_le].
    repeat case_cond; cbn [andb]; lia.
Qed.

Lemma parse_numeric_servname_reads_modulo_2_32_witness :
  parse_numeric_servname (render_unsigned 10 4294967376) = 80
  /\ parse_numeric_servname (render_unsigned 10 65536) = -1.
Proof.
  split.
  - rewrite (proj1 (parse_numeric_servname_reads_modulo_2_32 4294967376 ltac:(lia))).
    reflexivity.
  - rewrite (proj1 (parse_numeric_servname_reads_modulo_2_32 65536 ltac:(lia))).
    reflexivity.
Defined.

Section NetdbFacts.
Variable AI_NUMERICSERV : Z.
Variable getservbyname : list Z -> option (list Z) -> option Z.
Variable ntohs : Z -> Z.

(** A port written in decimal is returned as it is, whatever the services
    database holds and whatever the hints say; and with AI_NUMERICSERV a
    name that is no port number gives -1 without a look at the database. *)
Theorem parse_servname_numeric_port_bypasses_database :
  forall (port : Z) (protocol : option (list Z)) (hints : addrinfo),
    0 <= port <= 65535 ->
    evutil_parse_servname AI_NUMERICSERV getservbyname ntohs
      (render_unsigned 10 port) protocol hints = port
    /\ forall name,
         parse_numeric_servname name = -1 ->
         Z.land (ai_flags hints) AI_NUMERICSERV <> 0 ->
         evutil_parse_servname AI_NUMERICSERV getservbyname ntohs
           name protocol hints = -1.
Proof.
  intros port protocol hints Hp. unfold evutil_parse_servname. split.
  - destruct (render_unsigned_read_back port ltac:(lia)) as (D & E & Hhd & Hread).
    assert (Hnum : parse_numeric_servname (render_unsigned 10 port) = port).
    { unfold parse_numeric_servname. rewrite E.
      rewrite (strtol10_digits D port Hhd Hread) by lia. cbv zeta. cbn [hd].
      assert (Hmin : Z.min LONG_MAX port = port)
        by (unfold LONG_MAX; change (2 ^ 63) with 9223372036854775808; lia).
      rewrite Hmin, wrap_int_id
        by (unfold in_int, INT_MIN, INT_MAX; change (2 ^ 31) with 2147483648; lia).
      rewrite (proj2 (Z.leb_le 0 port)), (proj2 (Z.leb_le port 65535)) by lia.
      rewrite (proj2 (Z.eqb_neq (hd 0 D) 0)) by lia. reflexivity. }
    rewrite Hnum. now rewrite (proj2 (Z.leb_le 0 port)) by lia.
  - intros name Hname Hflag. rewrite Hname. cbn [Z.leb Z.compare].
    now rewrite (proj2 (Z.eqb_neq _ 0)) by assumption.
Qed.

End NetdbFacts.

Section InferFacts.
Variables SOCK_STREAM SOCK_DGRAM IPPROTO_TCP IPPROTO_UDP IPPROTO_SCTP : Z.
Hypothesis SOCK_STREAM_nonzero : SOCK_STREAM <> 0.
Hypothesis SOCK_DGRAM_nonzero : SOCK_DGRAM <> 0.
Hypothesis IPPROTO_TCP_nonzero : IPPROTO_TCP <> 0.
Hypothesis IPPROTO_UDP_nonzero : IPPROTO_UDP <> 0.

Lemma infer_protocols_once hints :
  let infer := evutil_getaddrinfo_infer_protocols SOCK_STREAM SOCK_DGRAM
                 IPPROTO_TCP IPPROTO_UDP IPPROTO_SCTP in
  ai_flags (infer hints) = ai_flags hints
  /\ ai_family (infer hints) = ai_family hints
  /\ (ai_socktype hints <> 0 -> ai_socktype (infer hints) = ai_socktype hints)
  /\ (ai_protocol hints <> 0 -> ai_protocol (infer hints) = ai_protocol hints)
  /\ ((ai_socktype hints = 0 <-> ai_protocol hints = 0) -> infer hints = hints)
  /\ (infer hints = hints
      \/ (ai_socktype (infer hints) <> 0 /\ ai_protocol (infer hints) <> 0)).
Proof.
  destruct hints as [fl fam st pr]. cbv zeta.
  unfold evutil_getaddrinfo_infer_protocols.
  cbn [ai_flags ai_family ai_socktype ai_protocol].
  repeat (case_cond; cbn [andb negb ai_flags ai_family ai_socktype ai_protocol]);
    repeat match goal with
           | H : _ && _ = true |- _ => apply andb_prop in H as [? ?]
           | H : _ && _ = false |- _ => apply andb_false_iff in H as [?|?]
           | H : negb _ = true |- _ => apply negb_true_iff in H
           | H : negb _ = false |- _ => apply negb_false_iff in H
           | H : (_ =? _) = true |- _ => apply Z.eqb_eq in H
           | H : (_ =? _) = false |- _ => apply Z.eqb_neq in H
           end;
    cbn [ai_flags ai_family ai_socktype ai_protocol] in *;
    try congruence;
    repeat split; intros; try reflexivity; try congruence; try lia;
    try (left; reflexivity); try (right; split; congruence).
Qed.

(** [evutil_getaddrinfo_infer_protocols] only fills in a socket type or a
    protocol that is 0: a field that is set keeps its value, the flags and
    the family are not touched, hints with both fields 0 or both set come
    back unchanged, and a second call changes nothing. *)
Theorem infer_protocols_only_fills_unset_fields :
  forall hints : addrinfo,
    let infer := evutil_getaddrinfo_infer_protocols SOCK_STREAM SOCK_DGRAM
                   IPPROTO_TCP IPPROTO_UDP IPPROTO_SCTP in
    infer (infer hints) = infer hints
    /\ ai_flags (infer hints) = ai_flags hints
    /\ ai_family (infer hints) = ai_family hints
    /\ (ai_socktype hints <> 0 -> ai_socktype (infer hints) = ai_socktype hints)
    /\ (ai_protocol hints <> 0 -> ai_protocol (infer hints) = ai_protocol hints)
    /\ ((ai_socktype hints = 0 <-> ai_protocol hints = 0) -> infer hints = hints).
Proof.
  intros hints infer.
  destruct (infer_protocols_once hints) as (H1 & H2 & H3 & H4 & H5 & H6).
  fold infer in H1, H2, H3, H4, H5, H6.
  split; [|tauto].
  destruct H6 as [E|[Hs Hp]]; [now rewrite !E|].
  apply (infer_protocols_once (infer hints)). tauto.
Qed.

End InferFacts.

Lemma parse_servname_numeric_port_bypasses_database_witness :
  evutil_parse_servname 1024 (fun _ _ => Some 20480) (fun v => v)
    (render_unsigned 10 8080) None (mk_addrinfo 0 0 0 0) = 8080.
Proof.
  apply (proj1 (parse_servname_numeric_port_bypasses_database
                  1024 (fun _ _ => Some 20480) (fun v => v)
                  8080 None (mk_addrinfo 0 0 0 0) ltac:(lia))).
Defined.

(** Linux: SOCK_STREAM 1, SOCK_DGRAM 2, IPPROTO_TCP 6, IPPROTO_UDP 17,
    IPPROTO_SCTP 132; a datagram socket without a protocol gets UDP. *)
Lemma infer_protocols_only_fills_unset_fields_witness :
  evutil_getaddrinfo_infer_protocols 1 2 6 17 132 (mk_addrinfo 0 0 2 0)
  = mk_addrinfo 0 0 2 17
  /\ evutil_getaddrinfo_infer_protocols 1 2 6 17 132 (mk_addrinfo 0 0 2 17)
     = mk_addrinfo 0 0 2 17.
Proof.
  split; [reflexivity|].
  refine (proj1 (infer_protocols_only_fills_unset_fields 1 2 6 17 132 _ _ _ _
                   (mk_addrinfo 0 0 2 0))); lia.
Defined.

End ServnameFacts.

Module SocketsFacts.
Import Fd FdFacts Sockets.

(** Every descriptor reads in [t'] as it does in [t]. *)
Definition same_files (t t' : fd_table) : Prop :=
  forall fd, fd_lookup t' fd = fd_lookup t fd.

(** [t'] is [t] with the one new descriptor [r], which holds [f]. *)
Definition opened (t t' : fd_table) (r : Z) (f : open_file) : Prop :=
  0 <= r
  /\ fd_lookup t r = None
  /\ fd_lookup t' r = Some f
  /\ forall fd, fd <> r -> fd_lookup t' fd = fd_lookup t fd.

Lemma new_fd_spec f k :
  exists r t', new_fd f k = (r, mk_kernel t' (fate k)) /\ opened (fdt k) t' r f.
Proof.
  unfold new_fd. sys_run.
  destruct (fd_alloc (fdt k) f) as [n t1] eqn:A.
  destruct (fd_alloc_spec _ _ _ _ A) as (F & S & O).
  exists (Z.of_nat n), t1. split; [reflexivity|].
  unfold opened. repeat split; auto. lia.
Qed.

Lemma opened_store t t1 r f g :
  opened t t1 r f -> opened t (fd_store t1 r (Some g)) r g.
Proof.
  intros (Hr & Hfree & Hl & Ho). unfold opened. repeat split; auto.
  - eapply fd_lookup_store_eq; eauto.
  - intros fd Hne. rewrite fd_lookup_store_ne by auto. auto.
Qed.

Lemma opened_close t t1 r f :
  opened t t1 r f -> same_files t (fd_store t1 r None).
Proof.
  intros (Hr & Hfree & Hl & Ho) fd.
  destruct (Z.eq_dec fd r) as [->|Hne].
  - rewrite Hfree. eapply fd_lookup_store_eq; eauto.
  - rewrite fd_lookup_store_ne by auto. auto.
Qed.

Lemma opened_same t0 t t' r f :
  same_files t0 t -> opened t t' r f -> opened t0 t' r f.
Proof.
  intros Hs (Hr & Hfree & Hl & Ho). unfold opened.
  repeat split; auto.
  - rewrite <- Hs. exact Hfree.
  - intros fd Hne. rewrite Ho by auto. apply Hs.
Qed.

(** The two results a descriptor-creating wrapper may give: -1 with the
    table reading as before, or a new descriptor whose open file satisfies
    [want]. *)
Definition clean_or_new (t0 : fd_table) (want : open_file -> Prop)
    (res : Z * kernel) : Prop :=
  (fst res = -1 /\ same_files t0 (fdt (snd res)))
  \/ (exists f, opened t0 (fdt (snd res)) (fst res) f /\ want f).

Lemma mask_clears type a b :
  Z.land (Z.land type (Z.lnot (Z.lor a b))) a = 0
  /\ Z.land (Z.land type (Z.lnot (Z.lor a b))) b = 0.
Proof.
  split; apply Z.bits_inj'; intros n Hn;
    rewrite !Z.land_spec, Z.lnot_spec, Z.lor_spec, Z.bits_0 by lia;
    destruct (Z.testbit type n), (Z.testbit a n), (Z.testbit b n); reflexivity.
Qed.

Section CallFacts.
Context `{FcntlFlags}.

Lemma fast_socket_nonblocking_run fd k f :
  fd_lookup (fdt k) fd = Some f ->
  exists fa,
    evutil_fast_socket_nonblocking fd k
    = (0, mk_kernel
            (fd_store (fdt k) fd
               (Some (mk_open_file
                        (Z.lor (Z.land O_NONBLOCK SETFL_MASK)
                               (Z.land (f_flags f) (Z.lnot SETFL_MASK)))
                        (fd_flags f)))) fa)
    \/ evutil_fast_socket_nonblocking fd k = (-1, mk_kernel (fdt k) fa).
Proof.
  intros Hl. unfold evutil_fast_socket_nonblocking.
  destruct (sys_fcntl_setfl_open fd O_NONBLOCK k f Hl) as [fa [R|R]];
    exists fa; [left|right]; erewrite bind_run by exact R; reflexivity.
Qed.

Lemma fast_socket_closeonexec_run fd k f :
  fd_lookup (fdt k) fd = Some f ->
  exists fa,
    evutil_fast_socket_closeonexec fd k
    = (0, mk_kernel
            (fd_store (fdt k) fd (Some (mk_open_file (f_flags f) FD_CLOEXEC))) fa)
    \/ evutil_fast_socket_closeonexec fd k = (-1, mk_kernel (fdt k) fa).
Proof.
  intros Hl. unfold evutil_fast_socket_closeonexec.
  destruct (sys_fcntl_setfd_open fd FD_CLOEXEC k f Hl) as [fa [R|R]];
    exists fa; [left|right]; erewrite bind_run by exact R; reflexivity.
Qed.

Lemma close_new t0 k r f :
  opened t0 (fdt k) r f ->
  exists x k', evutil_closesocket r k = (x, k') /\ same_files t0 (fdt k').
Proof.
  intros Ho. pose proof Ho as (_ & _ & Hl & _).
  destruct (sys_close_open r k f Hl) as (x & fa & C).
  exists x, (mk_kernel (fd_store (fdt k) r None) fa). split; [exact C|].
  cbn [fdt]. eapply opened_close; eauto.
Qed.

(** One guarded flag-setting step on the new descriptor [r]: when the call
    fails the descriptor is closed and -1 returned; otherwise [rest] runs
    with the file the call stored. *)
Lemma or_close_and_fail_spec (cond : bool) call r rest t0 want k f g :
  opened t0 (fdt k) r f ->
  (exists fa,
      call k = (0, mk_kernel (fd_store (fdt k) r (Some g)) fa)
      \/ call k = (-1, mk_kernel (fdt k) fa)) ->
  (forall k1, opened t0 (fdt k1) r (if cond then g else f) ->
              clean_or_new t0 want (rest k1)) ->
  clean_or_new t0 want (or_close_and_fail cond call r rest k).
Proof.
  intros Ho [fa Hcall] Hrest. unfold or_close_and_fail.
  destruct cond; [|now apply Hrest].
  destruct Hcall as [R|R]; erewrite bind_run by exact R.
  - change (0 <? 0) with false. cbv iota. apply Hrest. cbn [fdt].
    eapply opened_store; eauto.
  - change (-1 <? 0) with true. cbv iota.
    destruct (close_new t0 (mk_kernel (fdt k) fa) r f Ho) as (x & k' & C & S).
    erewrite bind_run by exact C.
    left. split; [reflexivity | exact S].
Qed.

Lemma clean_or_new_ret t0 (want : open_file -> Prop) r k f :
  opened t0 (fdt k) r f -> want f ->
  clean_or_new t0 want ((mret r : sys Z) k).
Proof. intros Ho Hw. right. exists f. split; assumption. Qed.

Section Created.
Variables SOCK_NONBLOCK SOCK_CLOEXEC SOCK_STREAM : Z.
Variables EFD_NONBLOCK EFD_CLOEXEC : Z.
Variable O_RDWR : Z.
Hypothesis O_RDWR_not_nonblock : Z.land O_RDWR O_NONBLOCK = 0.

(** The open file of a descriptor created with [flags]: O_NONBLOCK is set
    exactly when [nonblock] was asked for, and the descriptor flags are
    FD_CLOEXEC or nothing. *)
Definition carries (flags nonblock cloexec : Z) (f : open_file) : Prop :=
  Z.land (f_flags f) O_NONBLOCK
  = (if Z.land flags nonblock =? 0 then 0 else O_NONBLOCK)
  /\ fd_flags f = (if Z.land flags cloexec =? 0 then 0 else FD_CLOEXEC).

Lemma created_with_carries flags nonblock cloexec :
  carries flags nonblock cloexec (created_with O_RDWR flags nonblock cloexec).
Proof.
  unfold carries, created_with. cbn [f_flags fd_flags]. split; [|reflexivity].
  destruct (Z.land flags nonblock =? 0).
  - now rewrite Z.lor_0_r.
  - apply land_lor_self.
Qed.

(** The flags after the fall-back steps on a plainly created descriptor. *)
Lemma fallback_carries flags nonblock cloexec :
  carries flags nonblock cloexec
    (mk_open_file
       (if negb (Z.land flags nonblock =? 0)
        then Z.lor (Z.land O_NONBLOCK SETFL_MASK)
                   (Z.land O_RDWR (Z.lnot SETFL_MASK))
        else O_RDWR)
       (if negb (Z.land flags cloexec =? 0) then FD_CLOEXEC else 0)).
Proof.
  unfold carries. cbn [f_flags fd_flags].
  split.
  - destruct (Z.land flags nonblock =? 0); cbn [negb].
    + exact O_RDWR_not_nonblock.
    + apply setfl_merge_has_nonblock.
  - now destruct (Z.land flags cloexec =? 0).
Qed.

Lemma nonblock_then_cloexec (nb ce : bool) t0 r k :
  opened t0 (fdt k) r (mk_open_file O_RDWR 0) ->
  forall want : open_file -> Prop,
  want (mk_open_file
          (if nb then Z.lor (Z.land O_NONBLOCK SETFL_MASK)
                            (Z.land O_RDWR (Z.lnot SETFL_MASK))
           else O_RDWR)
          (if ce then FD_CLOEXEC else 0)) ->
  clean_or_new t0 want
    (or_close_and_fail nb (evutil_fast_socket_nonblocking r) r
       (or_close_and_fail ce (evutil_fast_socket_closeonexec r) r (mret r)) k).
Proof.
  intros Ho want Hw.
  pose proof Ho as (_ & _ & Hl & _).
  eapply or_close_and_fail_spec;
    [exact Ho | exact (fast_socket_nonblocking_run r k _ Hl) |].
  cbn [f_flags fd_flags]. intros k1 Ho1.
  pose proof Ho1 as (_ & _ & Hl1 & _).
  eapply or_close_and_fail_spec;
    [exact Ho1 | exact (fast_socket_closeonexec_run r k1 _ Hl1) |].
  intros k2 Ho2. eapply clean_or_new_ret; [exact Ho2|].
  destruct nb, ce; exact Hw.
Qed.

Lemma cloexec_then_nonblock (nb ce : bool) t0 r k :
  opened t0 (fdt k) r (mk_open_file O_RDWR 0) ->
  forall want : open_file -> Prop,
  want (mk_open_file
          (if nb then Z.lor (Z.land O_NONBLOCK SETFL_MASK)
                            (Z.land O_RDWR (Z.lnot SETFL_MASK))
           else O_RDWR)
          (if ce then FD_CLOEXEC else 0)) ->
  clean_or_new t0 want
    (or_close_and_fail ce (evutil_fast_socket_closeonexec r) r
       (or_close_and_fail nb (evutil_fast_socket_nonblocking r) r (mret r)) k).
Proof.
  intros Ho want Hw.
  pose proof Ho as (_ & _ & Hl & _).
  eapply or_close_and_fail_spec;
    [exact Ho | exact (fast_socket_closeonexec_run r k _ Hl) |].
  cbn [f_flags fd_flags]. intros k1 Ho1.
  pose proof Ho1 as (_ & _ & Hl1 & _).
  eapply or_close_and_fail_spec;
    [exact Ho1 | exact (fast_socket_nonblocking_run r k1 _ Hl1) |].
  intros k2 Ho2. eapply clean_or_new_ret; [exact Ho2|].
  destruct nb, ce; exact Hw.
Qed.

Lemma sys_socket_run domain type protocol k :
  exists fa,
    (exists r t', sys_socket SOCK_NONBLOCK SOCK_CLOEXEC O_RDWR domain type protocol k
                  = (r, mk_kernel t' fa)
                  /\ opened (fdt k) t' r
                       (created_with O_RDWR type SOCK_NONBLOCK SOCK_CLOEXEC))
    \/ sys_socket SOCK_NONBLOCK SOCK_CLOEXEC O_RDWR domain type protocol k
       = (-1, mk_kernel (fdt k) fa).
Proof.
  destruct k as [t fa]. unfold sys_socket.
  destruct fa as [|[|] fa].
  - exists []. left.
    destruct (new_fd_spec (created_with O_RDWR type SOCK_NONBLOCK SOCK_CLOEXEC)
                (mk_kernel t [])) as (r & t' & E & Ho).
    exists r, t'. split; [exact E | exact Ho].
  - exists fa. left.
    destruct (new_fd_spec (created_with O_RDWR type SOCK_NONBLOCK SOCK_CLOEXEC)
                (mk_kernel t fa)) as (r & t' & E & Ho).
    exists r, t'. split; [exact E | exact Ho].
  - exists fa. right. reflexivity.
Qed.

Lemma sys_eventfd_run initval flags k :
  exists fa,
    (exists r t', sys_eventfd EFD_NONBLOCK EFD_CLOEXEC O_RDWR initval flags k
                  = (r, mk_kernel t' fa)
                  /\ opened (fdt k) t' r
                       (created_with O_RDWR flags EFD_NONBLOCK EFD_CLOEXEC))
    \/ sys_eventfd EFD_NONBLOCK EFD_CLOEXEC O_RDWR initval flags k
       = (-1, mk_kernel (fdt k) fa).
Proof.
  destruct k as [t fa]. unfold sys_eventfd.
  destruct fa as [|[|] fa].
  - exists []. left.
    destruct (new_fd_spec (created_with O_RDWR flags EFD_NONBLOCK EFD_CLOEXEC)
                (mk_kernel t [])) as (r & t' & E & Ho).
    exists r, t'. split; [exact E | exact Ho].
  - exists fa. left.
    destruct (new_fd_spec (created_with O_RDWR flags EFD_NONBLOCK EFD_CLOEXEC)
                (mk_kernel t fa)) as (r & t' & E & Ho).
    exists r, t'. split; [exact E | exact Ho].
  - exists fa. right. reflexivity.
Qed.

Lemma created_plain flags a b :
  Z.land flags a = 0 -> Z.land flags b = 0 ->
  created_with O_RDWR flags a b = mk_open_file O_RDWR 0.
Proof.
  intros Ha Hb. unfold created_with. rewrite Ha, Hb. cbn.
  now rewrite Z.lor_0_r.
Qed.

(** evutil_socket_ returns -1 and leaves every descriptor as it was, or
    returns a new descriptor that has O_NONBLOCK exactly when the type
    carried SOCK_NONBLOCK and FD_CLOEXEC exactly when it carried
    SOCK_CLOEXEC, whether the kernel took the flags or the fall-back set
    them. *)
Theorem socket_flags_set_or_nothing_created :
  forall domain type protocol k,
    clean_or_new (fdt k) (carries type SOCK_NONBLOCK SOCK_CLOEXEC)
      (evutil_socket_ SOCK_NONBLOCK SOCK_CLOEXEC O_RDWR domain type protocol k).
Proof.
  intros domain type protocol k. unfold evutil_socket_.
  destruct (sys_socket_run domain type protocol k) as [fa [(r & t' & R & Ho)|R]];
    erewrite bind_run by exact R.
  - pose proof Ho as (Hr & _).
    rewrite (proj2 (Z.leb_le 0 r)) by exact Hr.
    eapply clean_or_new_ret; [exact Ho | apply created_with_carries].
  - change (0 <=? -1) with false. cbv iota.
    destruct (Z.land type (Z.lor SOCK_NONBLOCK SOCK_CLOEXEC) =? 0).
    { left. split; [reflexivity | intros fd; reflexivity]. }
    destruct (mask_clears type SOCK_NONBLOCK SOCK_CLOEXEC) as [Mn Mc].
    destruct (sys_socket_run domain
                (Z.land type (Z.lnot (Z.lor SOCK_NONBLOCK SOCK_CLOEXEC)))
                protocol (mk_kernel (fdt k) fa))
      as [fb [(r & t' & R2 & Ho)|R2]]; erewrite bind_run by exact R2.
    + pose proof Ho as (Hr & _).
      rewrite (proj2 (Z.ltb_ge r 0)) by exact Hr.
      rewrite created_plain in Ho by assumption.
      apply nonblock_then_cloexec; [exact Ho|].
      apply fallback_carries.
    + change (-1 <? 0) with true. cbv iota.
      left. split; [reflexivity | intros fd; reflexivity].
Qed.

(** evutil_eventfd_ returns -1 and leaves every descriptor as it was, or
    returns a new descriptor that has O_NONBLOCK exactly when the flags
    carried EFD_NONBLOCK and FD_CLOEXEC exactly when they carried
    EFD_CLOEXEC. *)
Theorem eventfd_flags_set_or_nothing_created :
  forall initval flags k,
    clean_or_new (fdt k) (carries flags EFD_NONBLOCK EFD_CLOEXEC)
      (evutil_eventfd_ EFD_NONBLOCK EFD_CLOEXEC O_RDWR initval flags k).
Proof.
  intros initval flags k. unfold evutil_eventfd_.
  destruct (sys_eventfd_run initval flags k) as [fa [(r & t' & R & Ho)|R]];
    erewrite bind_run by exact R.
  - pose proof Ho as (Hr & _).
    rewrite (proj2 (Z.leb_le 0 r)) by exact Hr. cbn [orb].
    eapply clean_or_new_ret; [exact Ho | apply created_with_carries].
  - change (0 <=? -1) with false. cbn [orb].
    destruct (flags =? 0).
    { left. split; [reflexivity | intros fd; reflexivity]. }
    destruct (sys_eventfd_run initval 0 (mk_kernel (fdt k) fa))
      as [fb [(r & t' & R2 & Ho)|R2]]; erewrite bind_run by exact R2.
    + pose proof Ho as (Hr & _).
      rewrite (proj2 (Z.ltb_ge r 0)) by exact Hr.
      rewrite created_plain in Ho by apply Z.land_0_l.
      apply cloexec_then_nonblock; [exact Ho|].
      apply fallback_carries.
    + change (-1 <? 0) with true. cbv iota.
      left. split; [reflexivity | intros fd; reflexivity].
Qed.

Lemma sys_accept4_run sockfd flags k :
  exists fa,
    (exists r t', sys_accept4 SOCK_NONBLOCK SOCK_CLOEXEC O_RDWR sockfd flags k
                  = ((r, false), mk_kernel t' fa)
                  /\ opened (fdt k) t' r
                       (created_with O_RDWR flags SOCK_NONBLOCK SOCK_CLOEXEC))
    \/ (exists unsupported,
           sys_accept4 SOCK_NONBLOCK SOCK_CLOEXEC O_RDWR sockfd flags k
           = ((-1, unsupported), mk_kernel (fdt k) fa)).
Proof.
  destruct k as [t fa]. unfold sys_accept4. sys_run.
  destruct (fd_lookup t sockfd) as [g|]; [|exists fa; right; eauto].
  destruct fa as [|[|] fa]; cbn.
  - exists []. left.
    destruct (new_fd_spec (created_with O_RDWR flags SOCK_NONBLOCK SOCK_CLOEXEC)
                (mk_kernel t [])) as (r & t' & E & Ho).
    exists r, t'. rewrite E. split; [reflexivity | exact Ho].
  - exists fa. left.
    destruct (new_fd_spec (created_with O_RDWR flags SOCK_NONBLOCK SOCK_CLOEXEC)
                (mk_kernel t fa)) as (r & t' & E & Ho).
    exists r, t'. rewrite E. split; [reflexivity | exact Ho].
  - destruct fa as [|b fa]; cbn; eexists; right; eauto.
Qed.

Lemma sys_accept_run sockfd k :
  exists fa,
    (exists r t', sys_accept O_RDWR sockfd k = (r, mk_kernel t' fa)
                  /\ opened (fdt k) t' r (mk_open_file O_RDWR 0))
    \/ sys_accept O_RDWR sockfd k = (-1, mk_kernel (fdt k) fa).
Proof.
  destruct k as [t fa]. unfold sys_accept. sys_run.
  destruct (fd_lookup t sockfd) as [g|]; [|exists fa; right; eauto].
  destruct fa as [|[|] fa]; cbn.
  - exists []. left.
    destruct (new_fd_spec (mk_open_file O_RDWR 0) (mk_kernel t []))
      as (r & t' & E & Ho).
    exists r, t'. rewrite E. split; [reflexivity | exact Ho].
  - exists fa. left.
    destruct (new_fd_spec (mk_open_file O_RDWR 0) (mk_kernel t fa))
      as (r & t' & E & Ho).
    exists r, t'. rewrite E. split; [reflexivity | exact Ho].
  - exists fa. right. reflexivity.
Qed.

(** evutil_accept4_ returns -1 and leaves every descriptor as it was, or
    returns a new descriptor, other than the listening one, that has
    O_NONBLOCK exactly when the flags carried SOCK_NONBLOCK and FD_CLOEXEC
    exactly when they carried SOCK_CLOEXEC. *)
Theorem accept4_flags_set_or_nothing_created :
  forall sockfd flags k,
    clean_or_new (fdt k) (carries flags SOCK_NONBLOCK SOCK_CLOEXEC)
      (evutil_accept4_ SOCK_NONBLOCK SOCK_CLOEXEC O_RDWR sockfd flags k)
    /\ (0 <= fst (evutil_accept4_ SOCK_NONBLOCK SOCK_CLOEXEC O_RDWR sockfd flags k) ->
        fst (evutil_accept4_ SOCK_NONBLOCK SOCK_CLOEXEC O_RDWR sockfd flags k)
        <> sockfd
        /\ fd_lookup (fdt k) sockfd <> None).
Proof.
  intros sockfd flags k.
  assert (Hc : clean_or_new (fdt k)
                 (carries flags SOCK_NONBLOCK SOCK_CLOEXEC)
                 (evutil_accept4_ SOCK_NONBLOCK SOCK_CLOEXEC O_RDWR sockfd flags k)).
  { unfold evutil_accept4_.
    destruct (sys_accept4_run sockfd flags k)
      as [fa [(r & t' & R & Ho)|[u R]]]; erewrite bind_run by exact R.
    - pose proof Ho as (Hr & _).
      rewrite (proj2 (Z.leb_le 0 r)) by exact Hr. cbn [orb].
      eapply clean_or_new_ret; [exact Ho | apply created_with_carries].
    - destruct u; cbn [negb orb]; change (0 <=? -1) with false; cbn [orb];
        [|left; split; [reflexivity | intros fd; reflexivity]].
      destruct (sys_accept_run sockfd (mk_kernel (fdt k) fa))
        as [fb [(r & t' & R2 & Ho)|R2]]; erewrite bind_run by exact R2.
      + pose proof Ho as (Hr & _).
        rewrite (proj2 (Z.ltb_ge r 0)) by exact Hr.
        apply cloexec_then_nonblock; [exact Ho|].
        apply fallback_carries.
      + change (-1 <? 0) with true. cbv iota.
        left. split; [reflexivity | intros fd; reflexivity]. }
  split; [exact Hc|].
  intros Hpos.
  assert (Hopen : fd_lookup (fdt k) sockfd <> None).
  { intros Hnone. revert Hpos. unfold evutil_accept4_, sys_accept4.
    unfold mbind at 1, sys_bind at 1. unfold mbind at 1, sys_bind at 1.
    unfold get_table at 1. rewrite Hnone. cbn. lia. }
  split; [|exact Hopen].
  destruct Hc as [[E _]|(f & (_ & Hfree & _) & _)]; [lia|].
  intros E. rewrite E in Hfree. contradiction.
Qed.

End Created.

Section OpenFacts.
Variable status_of_open : Z -> Z.

Lemma sys_open_run flags k :
  exists fa,
    (exists r t', sys_open status_of_open flags k = ((r, false), mk_kernel t' fa)
                  /\ opened (fdt k) t' r
                       (mk_open_file (status_of_open flags)
                          (if Z.land flags O_CLOEXEC =? 0 then 0 else FD_CLOEXEC)))
    \/ (exists einval,
           sys_open status_of_open flags k
           = ((-1, einval), mk_kernel (fdt k) fa)).
Proof.
  destruct k as [t fa]. unfold sys_open. sys_run.
  destruct fa as [|[|] fa]; cbn.
  - exists []. left.
    destruct (new_fd_spec (mk_open_file (status_of_open flags)
                (if Z.land flags O_CLOEXEC =? 0 then 0 else FD_CLOEXEC))
                (mk_kernel t [])) as (r & t' & E & Ho).
    exists r, t'. rewrite E. split; [reflexivity | exact Ho].
  - exists fa. left.
    destruct (new_fd_spec (mk_open_file (status_of_open flags)
                (if Z.land flags O_CLOEXEC =? 0 then 0 else FD_CLOEXEC))
                (mk_kernel t fa)) as (r & t' & E & Ho).
    exists r, t'. rewrite E. split; [reflexivity | exact Ho].
  - destruct fa as [|b fa]; cbn; eexists; right; eauto.
Qed.

(** evutil_open_closeonexec_ returns -1 and leaves every descriptor as it
    was, or returns a new descriptor whose descriptor flags are exactly
    FD_CLOEXEC.  When the first [open] fails with EINVAL it returns -1 at
    once: no second [open] is tried. *)
Theorem open_closeonexec_sets_flag_or_nothing_opened :
  forall flags k,
    clean_or_new (fdt k) (fun f => fd_flags f = FD_CLOEXEC)
      (evutil_open_closeonexec_ status_of_open flags k)
    /\ forall rest,
         evutil_open_closeonexec_ status_of_open flags
           (mk_kernel (fdt k) (false :: true :: rest))
         = (-1, mk_kernel (fdt k) rest).
Proof.
  intros flags k. split; [|reflexivity].
  unfold evutil_open_closeonexec_.
  destruct (sys_open_run (Z.lor flags O_CLOEXEC) k)
    as [fa [(r & t' & R & Ho)|[e R]]]; erewrite bind_run by exact R.
  - pose proof Ho as (Hr & _).
    rewrite (proj2 (Z.leb_le 0 r)) by exact Hr. cbn [orb].
    eapply clean_or_new_ret; [exact Ho|]. cbn [fd_flags].
    rewrite land_lor_self.
    pose proof O_CLOEXEC_pos.
    destruct (Z.eqb_spec O_CLOEXEC 0); [lia | reflexivity].
  - destruct e; change (0 <=? -1) with false; cbn [orb];
      [left; split; [reflexivity | intros fd; reflexivity]|].
    destruct (sys_open_run flags (mk_kernel (fdt k) fa))
      as [fb [(r & t' & R2 & Ho)|[e2 R2]]]; erewrite bind_run by exact R2.
    + pose proof Ho as (Hr & _ & Hl & _).
      rewrite (proj2 (Z.ltb_ge r 0)) by exact Hr.
      destruct (sys_fcntl_setfd_open r FD_CLOEXEC (mk_kernel t' fb) _ Hl)
        as [fc [S|S]]; erewrite bind_run by exact S.
      * change (0 <? 0) with false. cbv iota.
        eapply clean_or_new_ret.
        { cbn [fdt]. eapply opened_store. exact Ho. }
        reflexivity.
      * change (-1 <? 0) with true. cbv iota.
        destruct (close_new (fdt k) (mk_kernel t' fc) r _ Ho) as (x & k' & C & Sf).
        unfold evutil_closesocket in C.
        erewrite bind_run by exact C.
        left. split; [reflexivity | exact Sf].
    + change (-1 <? 0) with true. cbv iota.
      left. split; [reflexivity | intros fd; reflexivity].
Qed.

End OpenFacts.

Section ConnectFacts.
Variables SOCK_NONBLOCK SOCK_CLOEXEC SOCK_STREAM : Z.
Variable O_RDWR : Z.

Lemma sys_connect_run fd k :
  exists c fa, sys_connect fd k = (c, mk_kernel (fdt k) fa).
Proof.
  destruct k as [t fa]. unfold sys_connect. sys_run.
  destruct (fd_lookup t fd); [|eauto].
  destruct fa as [|[|] [|[|] [|[|] fa]]]; cbn; eauto.
Qed.

(** From [connect] on: the result is one of -1, 0, 1, 2; the table is not
    touched unless the call fails on a descriptor the function made, which
    is then closed. *)
Lemma connect_from_kept fd k :
  exists r k',
    connect_from fd false k = ((r, fd), k')
    /\ (r = -1 \/ r = 0 \/ r = 1 \/ r = 2)
    /\ same_files (fdt k) (fdt k').
Proof.
  unfold connect_from.
  destruct (sys_connect_run fd k) as (c & fa & R).
  erewrite bind_run by exact R.
  destruct c; cbn; do 2 eexists; (split; [reflexivity|]);
    (split; [lia | intros x; reflexivity]).
Qed.

Lemma connect_from_made t0 r k f :
  opened t0 (fdt k) r f ->
  exists x fd' k',
    connect_from r true k = ((x, fd'), k')
    /\ ((x = -1 /\ fd' = -1 /\ same_files t0 (fdt k'))
        \/ ((x = 0 \/ x = 1 \/ x = 2) /\ fd' = r /\ fdt k' = fdt k)).
Proof.
  intros Ho. unfold connect_from.
  destruct (sys_connect_run r k) as (c & fa & R).
  erewrite bind_run by exact R.
  destruct c; cbn [connect_err];
    try (do 3 eexists; (split; [reflexivity|]); right;
         (split; [lia|]); split; reflexivity).
  destruct (close_new t0 (mk_kernel (fdt k) fa) r f Ho) as (x & k' & C & S).
  erewrite bind_run by exact C.
  do 3 eexists. split; [reflexivity|]. left. auto.
Qed.

(** evutil_socket_connect_ returns -1, 0, 1 or 2.  A socket the caller
    passed in is never closed or replaced.  When the caller passed none,
    either the result is -1, *fd_ptr is -1 and every descriptor reads as
    before, or the result is not an error and *fd_ptr is a new descriptor
    with O_NONBLOCK set. *)
Theorem socket_connect_closes_only_what_it_made :
  forall fd_ptr family k,
    exists r fd' k',
      evutil_socket_connect_ SOCK_NONBLOCK SOCK_CLOEXEC SOCK_STREAM O_RDWR
        fd_ptr family k = ((r, fd'), k')
      /\ (r = -1 \/ r = 0 \/ r = 1 \/ r = 2)
      /\ (0 <= fd_ptr -> fd' = fd_ptr /\ same_files (fdt k) (fdt k'))
      /\ (fd_ptr < 0 ->
          (r = -1 /\ fd' = -1 /\ same_files (fdt k) (fdt k'))
          \/ (0 <= r
              /\ exists f, opened (fdt k) (fdt k') fd' f
                           /\ Z.land (f_flags f) O_NONBLOCK <> 0)).
Proof.
  intros fd_ptr family k. unfold evutil_socket_connect_.
  destruct (Z.ltb_spec fd_ptr 0) as [Hneg|Hpos].
  2:{ destruct (connect_from_kept fd_ptr k) as (r & k' & E & Hr & Hs).
      exists r, fd_ptr, k'. split; [exact E|]. split; [exact Hr|].
      split; [auto | lia]. }
  destruct (sys_socket_run SOCK_NONBLOCK SOCK_CLOEXEC O_RDWR family SOCK_STREAM 0 k)
    as [fa [(r & t' & R & Ho)|R]]; erewrite bind_run by exact R.
  2:{ change (-1 <? 0) with true. cbv iota. cbn.
      exists (-1), (-1), (mk_kernel (fdt k) fa).
      split; [reflexivity|]. split; [lia|]. split; [lia|].
      intros _. left. repeat split. }
  pose proof Ho as (Hr & _ & Hl & _).
  rewrite (proj2 (Z.ltb_ge r 0)) by exact Hr.
  set (f := created_with O_RDWR SOCK_STREAM SOCK_NONBLOCK SOCK_CLOEXEC) in *.
  set (k1 := mk_kernel t' fa) in *.
  assert (Hfail : forall k2, opened (fdt k) (fdt k2) r f ->
            exists r0 fd' k',
              connect_err r true k2 = ((r0, fd'), k')
              /\ (r0 = -1 \/ r0 = 0 \/ r0 = 1 \/ r0 = 2)
              /\ (0 <= fd_ptr -> fd' = fd_ptr /\ same_files (fdt k) (fdt k'))
              /\ (fd_ptr < 0 ->
                  (r0 = -1 /\ fd' = -1 /\ same_files (fdt k) (fdt k'))
                  \/ (0 <= r0
                      /\ exists f, opened (fdt k) (fdt k') fd' f
                                   /\ Z.land (f_flags f) O_NONBLOCK <> 0))).
  { intros k2 Ho2. unfold connect_err.
    destruct (close_new (fdt k) k2 r f Ho2) as (x & k' & C & S).
    erewrite bind_run by exact C.
    exists (-1), (-1), k'. split; [reflexivity|]. split; [lia|].
    split; [lia|]. intros _. left. auto. }
  assert (Hgo : forall k2 g, opened (fdt k) (fdt k2) r g ->
            Z.land (f_flags g) O_NONBLOCK <> 0 ->
            exists r0 fd' k',
              connect_from r true k2 = ((r0, fd'), k')
              /\ (r0 = -1 \/ r0 = 0 \/ r0 = 1 \/ r0 = 2)
              /\ (0 <= fd_ptr -> fd' = fd_ptr /\ same_files (fdt k) (fdt k'))
              /\ (fd_ptr < 0 ->
                  (r0 = -1 /\ fd' = -1 /\ same_files (fdt k) (fdt k'))
                  \/ (0 <= r0
                      /\ exists f, opened (fdt k) (fdt k') fd' f
                                   /\ Z.land (f_flags f) O_NONBLOCK <> 0))).
  { intros k2 g Ho2 Hnb.
    destruct (connect_from_made (fdt k) r k2 g Ho2)
      as (x & fd' & k' & E & [(Hx & Hfd & S)|(Hx & Hfd & S)]);
      exists x, fd', k'; (split; [exact E|]); (split; [lia|]);
      (split; [lia|]); intros _; [left; auto|right].
    split; [lia|]. exists g. subst fd'. rewrite S. auto. }
  assert (Hm : (exists k2, evutil_make_socket_nonblocking r k1 = (-1, k2)
                           /\ opened (fdt k) (fdt k2) r f)
               \/ (exists k2 g, evutil_make_socket_nonblocking r k1 = (0, k2)
                                /\ opened (fdt k) (fdt k2) r g
                                /\ Z.land (f_flags g) O_NONBLOCK <> 0)).
  { rewrite (make_socket_nonblocking_run r k1 f Hl).
    destruct (Z.ltb_spec (f_flags f) 0) as [Hlt|Hge]; [left; eauto|].
    destruct (Z.eqb_spec (Z.land (f_flags f) O_NONBLOCK) 0) as [Hz|Hnz];
      [|right; eauto].
    destruct (sys_fcntl_setfl_open r (Z.lor (f_flags f) O_NONBLOCK) k1 f Hl)
      as [fb [S|S]]; rewrite S; cbn [Z.eqb Pos.eqb]; [right|left; eauto].
    do 2 eexists. split; [reflexivity|]. split.
    - cbn [fdt]. eapply opened_store; exact Ho.
    - cbn [f_flags]. rewrite setfl_merge_adds_nonblock, land_lor_self.
      pose proof O_NONBLOCK_pos. lia. }
  destruct Hm as [(k2 & E & Ho2)|(k2 & g & E & Ho2 & Hnb)];
    erewrite bind_run by exact E.
  - change (-1 <? 0) with true. cbv iota. apply Hfail. exact Ho2.
  - change (0 <? 0) with false. cbv iota. eapply Hgo; eauto.
Qed.

End ConnectFacts.

Lemma unsettable_kept a :
  Z.land a SETFL_MASK = 0 ->
  Z.lor (Z.land O_NONBLOCK SETFL_MASK) (Z.land a (Z.lnot SETFL_MASK))
  = Z.lor (Z.land (Z.lor a O_NONBLOCK) SETFL_MASK) (Z.land a (Z.lnot SETFL_MASK))
  /\ Z.land a O_NONBLOCK = 0.
Proof.
  intros Ha. split; apply Z.bits_inj'; intros n Hn;
    pose proof (f_equal (fun z => Z.testbit z n) Ha) as Hb;
    pose proof (f_equal (fun z => Z.testbit z n) O_NONBLOCK_settable) as Hs;
    cbn in Hb, Hs; rewrite Z.land_spec in Hb, Hs; rewrite Z.bits_0 in Hb;
    rewrite ?Z.lor_spec, ?Z.land_spec, ?Z.lor_spec, ?Z.lnot_spec, ?Z.bits_0 by lia;
    destruct (Z.testbit a n), (Z.testbit O_NONBLOCK n), (Z.testbit SETFL_MASK n);
    cbn in *; congruence.
Qed.

Lemma settable_part a :
  Z.land (Z.lor (Z.land O_NONBLOCK SETFL_MASK) (Z.land a (Z.lnot SETFL_MASK)))
         SETFL_MASK = O_NONBLOCK
  /\ Z.land (Z.lor (Z.land O_NONBLOCK SETFL_MASK) (Z.land a (Z.lnot SETFL_MASK)))
            (Z.lnot SETFL_MASK) = Z.land a (Z.lnot SETFL_MASK).
Proof.
  split; apply Z.bits_inj'; intros n Hn;
    pose proof (f_equal (fun z => Z.testbit z n) O_NONBLOCK_settable) as Hs;
    cbn in Hs; rewrite Z.land_spec in Hs;
    rewrite ?Z.land_spec, ?Z.lor_spec, ?Z.land_spec, ?Z.lnot_spec by lia;
    destruct (Z.testbit a n), (Z.testbit O_NONBLOCK n), (Z.testbit SETFL_MASK n);
    cbn in *; congruence.
Qed.

Lemma sys_fcntl_setfl_same_merge fd a b k f :
  fd_lookup (fdt k) fd = Some f ->
  Z.lor (Z.land a SETFL_MASK) (Z.land (f_flags f) (Z.lnot SETFL_MASK))
  = Z.lor (Z.land b SETFL_MASK) (Z.land (f_flags f) (Z.lnot SETFL_MASK)) ->
  sys_fcntl_setfl fd a k = sys_fcntl_setfl fd b k.
Proof.
  intros Hl E. destruct k as [t fa]. unfold sys_fcntl_setfl. sys_run.
  rewrite Hl. destruct fa as [|[|] fa]; cbn; now rewrite ?E.
Qed.

(** On an open descriptor with no settable status flag set, the fast
    O_NONBLOCK setter does what evutil_make_socket_nonblocking does, and
    with no descriptor flag set the fast FD_CLOEXEC setter does what
    evutil_make_socket_closeonexec does.  On any open descriptor a
    successful fast setter leaves O_NONBLOCK as the only settable status
    flag (the others are cleared), respectively FD_CLOEXEC as the only
    descriptor flag. *)
Theorem fast_setters_agree_on_fresh_descriptors :
  forall fd k f,
    fd_lookup (fdt k) fd = Some f ->
    (0 <= f_flags f -> Z.land (f_flags f) SETFL_MASK = 0 ->
     evutil_fast_socket_nonblocking fd k = evutil_make_socket_nonblocking fd k)
    /\ (fd_flags f = 0 ->
        evutil_fast_socket_closeonexec fd k = evutil_make_socket_closeonexec fd k)
    /\ (forall k', evutil_fast_socket_nonblocking fd k = (0, k') ->
        exists f', fd_lookup (fdt k') fd = Some f'
                   /\ Z.land (f_flags f') SETFL_MASK = O_NONBLOCK
                   /\ Z.land (f_flags f') (Z.lnot SETFL_MASK)
                      = Z.land (f_flags f) (Z.lnot SETFL_MASK)
                   /\ fd_flags f' = fd_flags f)
    /\ (forall k', evutil_fast_socket_closeonexec fd k = (0, k') ->
        exists f', fd_lookup (fdt k') fd = Some f'
                   /\ fd_flags f' = FD_CLOEXEC /\ f_flags f' = f_flags f).
Proof.
  intros fd k f Hl.
  pose proof (fd_lookup_Some_nonneg _ _ _ Hl) as Hfd.
  split; [|split; [|split]].
  - intros Hge Hz. destruct (unsettable_kept _ Hz) as [Hm Hn].
    rewrite (make_socket_nonblocking_run fd k f Hl).
    rewrite (proj2 (Z.ltb_ge _ _)) by exact Hge.
    rewrite Hn. cbn [Z.eqb].
    unfold evutil_fast_socket_nonblocking, mbind, sys_bind.
    rewrite (sys_fcntl_setfl_same_merge fd O_NONBLOCK
               (Z.lor (f_flags f) O_NONBLOCK) k f Hl Hm).
    destruct (sys_fcntl_setfl fd _ k) as [r k1].
    now destruct (r =? -1).
  - intros Hz.
    rewrite (make_socket_closeonexec_run fd k f Hl).
    rewrite Hz. cbn [Z.ltb Z.compare Z.land Z.eqb Z.lor].
    unfold evutil_fast_socket_closeonexec, mbind, sys_bind.
    destruct (sys_fcntl_setfd fd _ k) as [r k1].
    now destruct (r =? -1).
  - intros k' E.
    destruct (fast_socket_nonblocking_run fd k f Hl) as [fa [R|R]];
      rewrite R in E; inversion E; subst k'; clear E.
    eexists. split; [cbn [fdt]; eapply fd_lookup_store_eq; exact Hl|].
    cbn [f_flags fd_flags]. destruct (settable_part (f_flags f)) as [A B].
    auto.
  - intros k' E.
    destruct (fast_socket_closeonexec_run fd k f Hl) as [fa [R|R]];
      rewrite R in E; inversion E; subst k'; clear E.
    eexists. split; [cbn [fdt]; eapply fd_lookup_store_eq; exact Hl|].
    cbn [f_flags fd_flags]. auto.
Qed.

End CallFacts.


(** Linux on x86-64: SOCK_NONBLOCK and EFD_NONBLOCK are O_NONBLOCK,
    SOCK_CLOEXEC and EFD_CLOEXEC are O_CLOEXEC, SOCK_STREAM is 1 and
    O_RDWR is 2.  Descriptors 0 to 2 are open. *)
Definition three_open (script : list bool) : kernel :=
  mk_kernel [Some (mk_open_file 2 0); Some (mk_open_file 2 0);
             Some (mk_open_file 2 0)] script.

(** A kernel that refuses the flags in [socket]: the second call makes
    descriptor 3 and both fcntl calls succeed. *)
Lemma socket_flags_set_or_nothing_created_witness :
  clean_or_new (fdt (three_open [false]))
    (@carries linux_flags (1 + 2048 + 524288) 2048 524288)
    (@evutil_socket_ linux_flags 2048 524288 2 2 (1 + 2048 + 524288) 0
       (three_open [false])).
Proof.
  exact (@socket_flags_set_or_nothing_created linux_flags 2048 524288 2 eq_refl
           2 (1 + 2048 + 524288) 0 (three_open [false])).
Defined.

Example socket_fallback_run :
  @evutil_socket_ linux_flags 2048 524288 2 2 (1 + 2048 + 524288) 0
    (three_open [false])
  = (3, mk_kernel [Some (mk_open_file 2 0); Some (mk_open_file 2 0);
                   Some (mk_open_file 2 0); Some (mk_open_file 2050 1)] []).
Proof. reflexivity. Qed.

(** The fall-back socket is made, O_NONBLOCK is set, FD_CLOEXEC is
    refused: descriptor 3 is closed again. *)
Example socket_fallback_failure :
  @evutil_socket_ linux_flags 2048 524288 2 2 (1 + 2048 + 524288) 0
    (three_open [false; true; true; false])
  = (-1, mk_kernel [Some (mk_open_file 2 0); Some (mk_open_file 2 0);
                    Some (mk_open_file 2 0); None] []).
Proof. reflexivity. Qed.

Lemma eventfd_flags_set_or_nothing_created_witness :
  clean_or_new (fdt (three_open [false]))
    (@carries linux_flags 524288 2048 524288)
    (@evutil_eventfd_ linux_flags 2048 524288 2 0 524288 (three_open [false])).
Proof.
  exact (@eventfd_flags_set_or_nothing_created linux_flags 2048 524288 2 eq_refl
           0 524288 (three_open [false])).
Defined.

Example eventfd_fallback_run :
  @evutil_eventfd_ linux_flags 2048 524288 2 0 524288 (three_open [false])
  = (3, mk_kernel [Some (mk_open_file 2 0); Some (mk_open_file 2 0);
                   Some (mk_open_file 2 0); Some (mk_open_file 2 1)] []).
Proof. reflexivity. Qed.

(** accept4 is missing (ENOSYS); accept on the listening descriptor 2
    gives descriptor 3. *)
Lemma accept4_flags_set_or_nothing_created_witness :
  clean_or_new (fdt (three_open [false; true]))
    (@carries linux_flags 2048 2048 524288)
    (@evutil_accept4_ linux_flags 2048 524288 2 2 2048
       (three_open [false; true]))
  /\ (0 <= fst (@evutil_accept4_ linux_flags 2048 524288 2 2 2048
                  (three_open [false; true])) ->
      fst (@evutil_accept4_ linux_flags 2048 524288 2 2 2048
             (three_open [false; true])) <> 2
      /\ fd_lookup (fdt (three_open [false; true])) 2 <> None).
Proof.
  exact (@accept4_flags_set_or_nothing_created linux_flags 2048 524288 2 eq_refl
           2 2048 (three_open [false; true])).
Defined.

Example accept4_fallback_run :
  @evutil_accept4_ linux_flags 2048 524288 2 2 2048 (three_open [false; true])
  = (3, mk_kernel [Some (mk_open_file 2 0); Some (mk_open_file 2 0);
                   Some (mk_open_file 2 0); Some (mk_open_file 2050 0)] []).
Proof. reflexivity. Qed.

(** A real error of accept4 (errno neither EINVAL nor ENOSYS) is returned
    without a second attempt. *)
Example accept4_real_error :
  @evutil_accept4_ linux_flags 2048 524288 2 2 2048
    (three_open [false; false; true])
  = (-1, three_open [true]).
Proof. reflexivity. Qed.

(** Descriptor 0 is open for appending (O_WRONLY|O_APPEND = 1025): the
    fast setter drops O_APPEND, evutil_make_socket_nonblocking keeps it. *)
Lemma fast_setters_agree_on_fresh_descriptors_witness :
  fd_lookup [Some (mk_open_file 1 0)] 0 = Some (mk_open_file 1 0)
  /\ @evutil_fast_socket_nonblocking linux_flags 0
       (mk_kernel [Some (mk_open_file 1 0)] [])
     = @evutil_make_socket_nonblocking linux_flags 0
         (mk_kernel [Some (mk_open_file 1 0)] []).
Proof.
  split; [reflexivity|].
  apply (@fast_setters_agree_on_fresh_descriptors linux_flags 0
           (mk_kernel [Some (mk_open_file 1 0)] []) (mk_open_file 1 0) eq_refl);
    [cbn; lia | reflexivity].
Defined.

Example fast_nonblocking_drops_append :
  @evutil_fast_socket_nonblocking linux_flags 0
    (mk_kernel [Some (mk_open_file 1025 0)] [])
  = (0, mk_kernel [Some (mk_open_file 2049 0)] [])
  /\ @evutil_make_socket_nonblocking linux_flags 0
       (mk_kernel [Some (mk_open_file 1025 0)] [])
     = (0, mk_kernel [Some (mk_open_file 3073 0)] []).
Proof. split; reflexivity. Qed.

(** No socket is supplied, the new descriptor 3 is made nonblocking and the
    connection fails: the descriptor is closed again. *)
Example socket_connect_failure :
  @evutil_socket_connect_ linux_flags 2048 524288 1 2 (-1) 2
    (three_open [true; true; false; false; false])
  = ((-1, -1),
     mk_kernel [Some (mk_open_file 2 0); Some (mk_open_file 2 0);
                Some (mk_open_file 2 0); None] []).
Proof. reflexivity. Qed.

(** The caller's descriptor 2 stays open after the same failure. *)
Example socket_connect_failure_on_callers_socket :
  @evutil_socket_connect_ linux_flags 2048 524288 1 2 2 2
    (three_open [false; false; false])
  = ((-1, 2), three_open []).
Proof. reflexivity. Qed.

Example socket_connect_in_progress :
  @evutil_socket_connect_ linux_flags 2048 524288 1 2 (-1) 2
    (three_open [true; true; false; true])
  = ((0, 3),
     mk_kernel [Some (mk_open_file 2 0); Some (mk_open_file 2 0);
                Some (mk_open_file 2 0); Some (mk_open_file 2050 0)] []).
Proof. reflexivity. Qed.

End SocketsFacts.

Module SecureRngFacts.
Import CInt CIntFacts Arc4 Arc4Facts SecureRng.

Definition octet (z : Z) : Prop := 0 <= z < 256.

Lemma u8_octet z : octet (u8 z).
Proof. unfold octet, u8. pose proof (Z.mod_pos_bound z 256). lia. Qed.

(** The invariant of the cipher state: two byte indices and a permutation
    of the 256 byte values. *)
Definition wf_stream (r : arc4_stream) : Prop :=
  octet (rs_i r) /\ octet (rs_j r)
  /\ rs_s r ≡ₚ map Z.of_nat (seq 0 256).

Lemma insert_head_perm {A} (x y : A) : forall l j,
  l !! j = Some y -> y :: <[j := x]> l ≡ₚ x :: l.
Proof.
  induction l as [|a l IH]; intros [|j] Hl; cbn in *; try discriminate.
  - inversion Hl; subst. apply perm_swap.
  - rewrite perm_swap. rewrite (IH j Hl). apply perm_swap.
Qed.

(** Exchanging two entries of a list permutes it. *)
Lemma exchange_perm {A} (x y : A) : forall l i j,
  l !! i = Some x -> l !! j = Some y ->
  <[j := x]> (<[i := y]> l) ≡ₚ l.
Proof.
  induction l as [|a l IH]; intros [|i] [|j] Hi Hj; cbn in *;
    try discriminate.
  - inversion Hi; inversion Hj; subst. reflexivity.
  - inversion Hi; subst. now apply insert_head_perm.
  - inversion Hj; subst. now apply insert_head_perm.
  - apply perm_skip. now apply IH.
Qed.


Lemma identity_octets : Forall octet (map Z.of_nat (seq 0 256)).
Proof.
  apply Forall_forall. intros z Hz. apply list_elem_of_In in Hz.
  apply in_map_iff in Hz. destruct Hz as (n & <- & Hn).
  apply in_seq in Hn. unfold octet. lia.
Qed.

Lemma wf_length r : wf_stream r -> length (rs_s r) = 256%nat.
Proof. intros (_ & _ & P). now rewrite P. Qed.

Lemma wf_entry r i : wf_stream r -> octet (sbox_get (rs_s r) i).
Proof.
  intros (_ & _ & P). unfold sbox_get.
  assert (F : Forall octet (rs_s r)) by (rewrite P; apply identity_octets).
  destruct (nth_in_or_default (Z.to_nat i) (rs_s r) 0) as [Hin|E].
  - rewrite Forall_forall in F. apply F. now apply list_elem_of_In.
  - rewrite E. unfold octet; lia.
Qed.

Lemma sbox_lookup s i :
  length s = 256%nat -> octet i -> s !! Z.to_nat i = Some (sbox_get s i).
Proof.
  intros Hlen Hi. unfold sbox_get.
  destruct (nth_lookup_or_length s (Z.to_nat i) 0) as [E|E]; [exact E|].
  unfold octet in Hi. lia.
Qed.

(** The exchange of [s[i]] and [s[j]] that both loops perform. *)
Lemma sbox_swap_perm s i j :
  length s = 256%nat -> octet i -> octet j ->
  sbox_set (sbox_set s i (sbox_get s j)) j (sbox_get s i) ≡ₚ s.
Proof.
  intros Hlen Hi Hj. unfold sbox_set.
  apply exchange_perm; now apply sbox_lookup.
Qed.

Lemma addrandom_loop_wf dat datlen : forall k n r,
  wf_stream r -> wf_stream (addrandom_loop k n dat datlen r).
Proof.
  induction k as [|k IH]; intros n r Hr; cbn [addrandom_loop]; [exact Hr|].
  apply IH. pose proof Hr as (Hi & Hj & P).
  unfold wf_stream. cbn [rs_i rs_j rs_s].
  split; [apply u8_octet|]. split; [apply u8_octet|].
  rewrite sbox_swap_perm; auto using wf_length, u8_octet.
Qed.

Lemma arc4_init_wf : wf_stream arc4_init.
Proof. unfold wf_stream, arc4_init, octet. cbn [rs_i rs_j rs_s]. auto with lia. Qed.

Lemma wf_stream_same_index r :
  wf_stream r -> wf_stream (mk_stream (rs_i r) (rs_i r) (rs_s r)).
Proof. intros (A & B & C). unfold wf_stream. cbn [rs_i rs_j rs_s]. auto. Qed.

Lemma arc4_addrandom_wf dat datlen r :
  wf_stream r -> wf_stream (arc4_addrandom dat datlen r).
Proof.
  intros (Hi & Hj & P). unfold arc4_addrandom.
  apply wf_stream_same_index, addrandom_loop_wf.
  unfold wf_stream. cbn [rs_i rs_j rs_s]. auto using u8_octet.
Qed.

Lemma arc4_getbyte_wf r :
  wf_stream r ->
  octet (fst (arc4_getbyte r)) /\ wf_stream (snd (arc4_getbyte r)).
Proof.
  intros Hr. pose proof Hr as (Hi & Hj & P).
  unfold arc4_getbyte. cbn [fst snd].
  assert (W : wf_stream
                (mk_stream (u8 (rs_i r + 1))
                   (u8 (rs_j r + sbox_get (rs_s r) (u8 (rs_i r + 1))))
                   (sbox_set
                      (sbox_set (rs_s r) (u8 (rs_i r + 1))
                         (sbox_get (rs_s r)
                            (u8 (rs_j r + sbox_get (rs_s r) (u8 (rs_i r + 1))))))
                      (u8 (rs_j r + sbox_get (rs_s r) (u8 (rs_i r + 1))))
                      (sbox_get (rs_s r) (u8 (rs_i r + 1)))))).
  { unfold wf_stream. cbn [rs_i rs_j rs_s].
    split; [apply u8_octet|]. split; [apply u8_octet|].
    rewrite sbox_swap_perm; auto using wf_length, u8_octet. }
  split; [|exact W].
  exact (wf_entry _ _ W).
Qed.

Lemma discard_wf : forall k r, wf_stream r -> wf_stream (discard k r).
Proof.
  induction k as [|k IH]; intros r Hr; cbn [discard]; [exact Hr|].
  apply IH. now apply arc4_getbyte_wf.
Qed.

Lemma arc4_seed_getrandom_wf m r :
  wf_stream r -> wf_stream (snd (arc4_seed_getrandom m r)).
Proof.
  intros Hr. unfold arc4_seed_getrandom.
  destruct (sm_getrandom m) as [ret data].
  destruct (ret =? 0); [exact Hr|].
  destruct (fold_left Z.lor (filled 32 data) 0 =? 0); [exact Hr|].
  now apply arc4_addrandom_wf.
Qed.

Lemma arc4_seed_uuid_wf : forall reads bytes r,
  wf_stream r ->
  wf_stream (snd (arc4_seed_proc_sys_kernel_random_uuid reads bytes r)).
Proof.
  induction reads as [|[got|] later IH]; intros bytes r Hr;
    cbn [arc4_seed_proc_sys_kernel_random_uuid];
    destruct (bytes <? ADD_ENTROPY); try exact Hr.
  destruct (length (take 128 got) =? 0)%nat; [exact Hr|].
  destruct (uuid_nybbles (take 128 got) 0 (replicate 64 0)) as [nybbles e].
  destruct (nybbles <? 2); [exact Hr|].
  apply IH. now apply arc4_addrandom_wf.
Qed.

Lemma arc4_seed_urandom_helper_wf m f r :
  wf_stream r -> wf_stream (snd (arc4_seed_urandom_helper_ m f r)).
Proof.
  intros Hr. unfold arc4_seed_urandom_helper_.
  destruct (sm_file m f) as [got|]; [|exact Hr].
  destruct (length (take 32 got) =? 32)%nat; [|exact Hr].
  now apply arc4_addrandom_wf.
Qed.

Lemma try_filenames_wf m : forall names r,
  wf_stream r -> wf_stream (snd (try_filenames m names r)).
Proof.
  induction names as [|f rest IH]; intros r Hr; cbn [try_filenames];
    [exact Hr|].
  pose proof (arc4_seed_urandom_helper_wf m f r Hr) as H1.
  destruct (arc4_seed_urandom_helper_ m f r) as [ret r'].
  destruct (ret =? 0); [exact H1|]. now apply IH.
Qed.

Lemma arc4_seed_urandom_wf fname m r :
  wf_stream r -> wf_stream (snd (arc4_seed_urandom fname m r)).
Proof.
  intros Hr. destruct fname as [f|]; cbn [arc4_seed_urandom].
  - now apply arc4_seed_urandom_helper_wf.
  - now apply try_filenames_wf.
Qed.

(** The generator is initialised and its state is a valid cipher state. *)
Definition ready (v : statics) : Prop :=
  rs_initialized v <> 0 /\ wf_stream (rs v).

Lemma arc4_seed_ready p :
  ready (vars p) -> ready (vars (snd (arc4_seed p))).
Proof.
  intros [Hi Hw]. unfold arc4_seed, mbind, rng_bind, next_seed, get_vars,
    put_vars, mret, rng_ret.
  destruct (entropy (env p)) as [|m rest]; [set (m := no_entropy)|];
    cbn [vars env];
    pose proof (arc4_seed_getrandom_wf m _ Hw) as H1;
    destruct (arc4_seed_getrandom m (rs (vars p))) as [r1 s1]; cbn [snd] in H1;
    pose proof (arc4_seed_urandom_wf (arc4random_urandom_filename (vars p))
                  m _ H1) as H2;
    destruct (arc4_seed_urandom _ m s1) as [r2 s2]; cbn [snd] in H2;
    (destruct (arc4random_urandom_filename (vars p)) as [f|];
     [cbn [snd vars set_rs rs rs_initialized]; (split; [exact Hi | exact H2])|]);
    pose proof (arc4_seed_uuid_wf (sm_uuid m) 0 _ H2) as H3;
    destruct (arc4_seed_proc_sys_kernel_random_uuid _ 0 s2) as [r3 s3];
    cbn [snd vars set_rs rs rs_initialized]; (split; [exact Hi | exact H3]).
Qed.

Lemma arc4_stir_ready p :
  (rs_initialized (vars p) <> 0 -> wf_stream (rs (vars p))) ->
  ready (vars (snd (arc4_stir p))).
Proof.
  destruct p as [v e]. cbn [vars]. intros Hw.
  unfold arc4_stir, mbind, rng_bind, get_vars, put_vars, mret, rng_ret.
  cbn [vars env].
  assert (Hgo : forall q, ready (vars q) ->
            ready (vars (snd (
              let '(seeded, p') := arc4_seed q in
              (if seeded =? 0
               then fun p0 =>
                      (0, mk_process
                            (mk_statics (rs_initialized (vars p0))
                               (discard (12 * 256) (rs (vars p0)))
                               (arc4_stir_pid (vars p0)) BYTES_BEFORE_RESEED
                               (arc4random_urandom_filename (vars p0))) (env p0))
               else fun p0 => (-1, p0)) p')))).
  { intros q Hq. pose proof (arc4_seed_ready q Hq) as H2.
    destruct (arc4_seed q) as [seeded q2]. cbn [snd] in H2.
    destruct (seeded =? 0); [|exact H2].
    cbn [snd vars]. destruct H2 as [Hi Hs]. split; [exact Hi|].
    cbn [rs]. now apply discard_wf. }
  destruct (Z.eqb_spec (rs_initialized v) 0) as [E|E].
  - apply (Hgo (mk_process
                  (mk_statics 1 arc4_init (arc4_stir_pid v) (arc4_count v)
                     (arc4random_urandom_filename v)) e)).
    split; cbn [vars rs_initialized rs]; [lia | apply arc4_init_wf].
  - apply (Hgo (mk_process v e)). split; [exact E | now apply Hw].
Qed.

Lemma arc4_stir_if_needed_ready p :
  (rs_initialized (vars p) <> 0 -> wf_stream (rs (vars p))) ->
  ready (vars (snd (arc4_stir_if_needed p))).
Proof.
  intros Hw. unfold arc4_stir_if_needed, mbind, rng_bind, getpid, get_vars.
  destruct (Z.eqb_spec (rs_initialized (vars p)) 0) as [E|E].
  - rewrite orb_true_r. cbn [orb]. unfold put_vars.
    pose proof (arc4_stir_ready
                  (mk_process
                     (mk_statics (rs_initialized (vars p)) (rs (vars p))
                        (pid (env p)) (arc4_count (vars p))
                        (arc4random_urandom_filename (vars p))) (env p))) as Hs.
    cbn [vars rs_initialized rs] in Hs. specialize (Hs Hw).
    destruct (arc4_stir _) as [x q]. exact Hs.
  - destruct ((arc4_count (vars p) <=? 0) || false
              || negb (arc4_stir_pid (vars p) =? pid (env p))).
    + unfold put_vars.
      pose proof (arc4_stir_ready
                    (mk_process
                       (mk_statics (rs_initialized (vars p)) (rs (vars p))
                          (pid (env p)) (arc4_count (vars p))
                          (arc4random_urandom_filename (vars p))) (env p))) as Hs.
      cbn [vars rs_initialized rs] in Hs. specialize (Hs Hw).
      destruct (arc4_stir _) as [x q]. exact Hs.
    + cbn. split; [exact E | now apply Hw].
Qed.

Lemma buf_step_ready p :
  ready (vars p) ->
  octet (fst (buf_step p)) /\ ready (vars (snd (buf_step p))).
Proof.
  destruct p as [v e]. cbn [vars]. intros [Hi Hw].
  unfold buf_step, mbind, rng_bind, get_vars, put_vars, mret, rng_ret.
  cbn [vars env].
  set (p1 := mk_process
               (mk_statics (rs_initialized v) (rs v) (arc4_stir_pid v)
                  (wrap_int (arc4_count v - 1))
                  (arc4random_urandom_filename v)) e).
  assert (H1 : ready (vars p1)) by (split; assumption).
  assert (H2 : ready (vars (snd
                 ((if wrap_int (arc4_count v - 1) <=? 0
                   then arc4_stir else fun p : process => (0, p)) p1)))).
  { destruct (wrap_int (arc4_count v - 1) <=? 0); [|exact H1].
    apply arc4_stir_ready. intros _. apply H1. }
  destruct ((if wrap_int (arc4_count v - 1) <=? 0
             then arc4_stir else fun p : process => (0, p)) p1) as [x q].
  cbn [snd] in H2. destruct H2 as [Hi2 Hw2].
  pose proof (arc4_getbyte_wf _ Hw2) as [Hb Hn].
  destruct (arc4_getbyte (rs (vars q))) as [b r]. cbn [fst snd] in *.
  split; [exact Hb|].
  split; cbn [vars set_rs rs_initialized rs]; [exact Hi2 | exact Hn].
Qed.

Lemma buf_loop_ready : forall n p,
  ready (vars p) ->
  length (fst (buf_loop n p)) = n
  /\ Forall octet (fst (buf_loop n p))
  /\ ready (vars (snd (buf_loop n p))).
Proof.
  induction n as [|n IH]; intros p Hp; cbn [buf_loop].
  - cbn. auto.
  - unfold mbind, rng_bind.
    pose proof (buf_step_ready p Hp) as [Hb H1].
    destruct (buf_step p) as [b p1]. cbn [fst snd] in *.
    destruct (IH p1 H1) as (Hl & Hf & H2).
    destruct (buf_loop n p1) as [low p2]. cbn [fst snd] in *.
    unfold mret, rng_ret. cbn [fst snd].
    split; [rewrite length_app; cbn; lia|].
    split; [|exact H2].
    apply Forall_app. split; [exact Hf|]. constructor; [exact Hb | constructor].
Qed.

(** Whatever the entropy sources deliver, and whether or not a reseeding
    falls into the call, evutil_secure_rng_get_bytes stores exactly n byte
    values and leaves the generator initialised with an S-box that is a
    permutation of 0..255 and two byte indices; so does
    evutil_secure_rng_init.  The state on entry is any state in which the
    generator is either not yet initialised or has such an S-box. *)
Theorem secure_rng_keeps_sbox_a_permutation :
  forall (n : nat) (p : process),
    (rs_initialized (vars p) <> 0 -> wf_stream (rs (vars p))) ->
    length (fst (evutil_secure_rng_get_bytes n p)) = n
    /\ Forall octet (fst (evutil_secure_rng_get_bytes n p))
    /\ ready (vars (snd (evutil_secure_rng_get_bytes n p)))
    /\ ready (vars (snd (evutil_secure_rng_init p))).
Proof.
  intros n p Hw.
  assert (Hinit : ready (vars (snd (evutil_secure_rng_init p)))).
  { unfold evutil_secure_rng_init, mbind, rng_bind.
    pose proof (arc4_stir_ready p Hw) as Hs.
    destruct (arc4_stir p) as [x q]. exact Hs. }
  unfold evutil_secure_rng_get_bytes, ev_arc4random_buf, arc4random_buf,
    mbind, rng_bind.
  pose proof (arc4_stir_if_needed_ready p Hw) as H1.
  destruct (arc4_stir_if_needed p) as [u q]. cbn [snd] in H1.
  destruct (buf_loop_ready n q H1) as (A & B & C). auto.
Qed.

(** A first call in a fresh process of pid 7 whose getrandom delivers the
    bytes 1..32. *)
Lemma secure_rng_keeps_sbox_a_permutation_witness :
  length (fst (evutil_secure_rng_get_bytes 4
                 (mk_process zeroed
                    (mk_env 7 [mk_seed (32, map Z.of_nat (seq 1 32))
                                 (fun _ => None) []])))) = 4%nat.
Proof.
  refine (proj1 (secure_rng_keeps_sbox_a_permutation 4
                   (mk_process zeroed
                      (mk_env 7 [mk_seed (32, map Z.of_nat (seq 1 32))
                                   (fun _ => None) []])) _)).
  cbn. intros E. now contradiction E.
Defined.

(** With no entropy source answering, seeding fails and changes nothing. *)
Lemma arc4_seed_no_entropy v e :
  entropy e = [] ->
  arc4_seed (mk_process v e) = (-1, mk_process v e).
Proof.
  intros He. unfold arc4_seed, mbind, rng_bind, next_seed, get_vars, put_vars,
    mret, rng_ret. cbn [env vars]. rewrite He. cbn [vars env].
  unfold arc4_seed_getrandom, no_entropy. cbn [sm_getrandom Z.eqb].
  destruct v as [ini r sp cnt [f|]]; cbn; reflexivity.
Qed.

Lemma arc4_stir_no_entropy v e :
  entropy e = [] -> rs_initialized v <> 0 ->
  arc4_stir (mk_process v e) = (-1, mk_process v e).
Proof.
  intros He Hi. unfold arc4_stir.
  unfold mbind at 1, rng_bind at 1, get_vars at 1. cbn [vars].
  rewrite (proj2 (Z.eqb_neq _ _) Hi).
  unfold mbind at 1, rng_bind at 1, mret at 1, rng_ret at 1.
  unfold mbind, rng_bind. rewrite (arc4_seed_no_entropy v e He).
  reflexivity.
Qed.

Lemma buf_loop_no_entropy e : entropy e = [] -> forall n v,
  rs_initialized v <> 0 ->
  INT_MIN + Z.of_nat n <= arc4_count v <= 0 ->
  buf_loop n (mk_process v e)
  = (rev (fst (keystream n (rs v))), mk_process (drawn n v) e).
Proof.
  intros He. induction n as [|n IH]; intros v Hi Hc.
  - cbn. unfold drawn. cbn. rewrite Z.sub_0_r. now destruct v.
  - cbn [buf_loop]. unfold mbind at 1, rng_bind at 1.
    assert (Hstep : buf_step (mk_process v e)
              = (fst (arc4_getbyte (rs v)),
                 mk_process
                   (mk_statics (rs_initialized v) (snd (arc4_getbyte (rs v)))
                      (arc4_stir_pid v) (arc4_count v - 1)
                      (arc4random_urandom_filename v)) e)).
    { unfold buf_step.
      unfold mbind at 1, rng_bind at 1, get_vars at 1. cbn [vars].
      rewrite wrap_int_id by (unfold in_int, INT_MIN, INT_MAX in *; lia).
      unfold mbind at 1, rng_bind at 1, put_vars at 1. cbn [env].
      rewrite (proj2 (Z.leb_le (arc4_count v - 1) 0)) by lia.
      unfold mbind at 1, rng_bind at 1.
      rewrite arc4_stir_no_entropy by (cbn; assumption).
      unfold mbind, rng_bind, get_vars, put_vars, mret, rng_ret.
      cbn [vars env rs]. destruct (arc4_getbyte (rs v)) as [b r]. reflexivity. }
    rewrite Hstep.
    unfold mbind, rng_bind.
    rewrite IH by (cbn; unfold INT_MIN in *; lia).
    unfold mret, rng_ret, drawn. cbn [keystream rs arc4_count rs_initialized
      arc4_stir_pid arc4random_urandom_filename].
    destruct (arc4_getbyte (rs v)) as [b r1]. cbn [fst snd].
    destruct (keystream n r1) as [bs r2]. cbn [fst snd rev].
    replace (arc4_count v - Z.of_nat (S n)) with (arc4_count v - 1 - Z.of_nat n)
      by lia.
    reflexivity.
Qed.

(** In a process that has not used the generator and in which no entropy
    source answers (getrandom, the device files and the uuid file all
    fail), evutil_secure_rng_init returns -1, and
    evutil_secure_rng_get_bytes, before or after that failed call, reports
    nothing and stores the key stream of the unkeyed cipher state of
    arc4_init: bytes that are the same in every such process. *)
Theorem unseeded_generator_output_is_fixed :
  forall (n : nat) (p : process),
    rs_initialized (vars p) = 0 -> arc4_count (vars p) = 0 ->
    entropy (env p) = [] ->
    Z.of_nat n <= 2147483648 ->
    fst (evutil_secure_rng_init p) = -1
    /\ fst (evutil_secure_rng_get_bytes n p)
       = rev (fst (keystream n arc4_init))
    /\ fst (evutil_secure_rng_get_bytes n (snd (evutil_secure_rng_init p)))
       = rev (fst (keystream n arc4_init)).
Proof.
  intros n [v e] Hi Hc He Hn. cbn [vars env] in *.
  assert (Hstir : forall sp,
            arc4_stir (mk_process
                         (mk_statics (rs_initialized v) (rs v) sp (arc4_count v)
                            (arc4random_urandom_filename v)) e)
            = (-1, mk_process
                     (mk_statics 1 arc4_init sp (arc4_count v)
                        (arc4random_urandom_filename v)) e)).
  { intros sp. unfold arc4_stir.
    unfold mbind at 1, rng_bind at 1, get_vars at 1.
    cbn [vars rs_initialized arc4_stir_pid arc4_count arc4random_urandom_filename].
    rewrite Hi. cbn [Z.eqb].
    unfold mbind at 1, rng_bind at 1, put_vars at 1. cbn [env].
    unfold mbind, rng_bind. rewrite (arc4_seed_no_entropy _ e He).
    reflexivity. }
  assert (Hbytes : forall sp,
            fst (evutil_secure_rng_get_bytes n
                   (mk_process
                      (mk_statics (rs_initialized v) (rs v) sp
                         (arc4_count v) (arc4random_urandom_filename v)) e))
            = rev (fst (keystream n arc4_init))).
  { intros sp.
    unfold evutil_secure_rng_get_bytes, ev_arc4random_buf, arc4random_buf.
    unfold mbind at 1, rng_bind at 1.
    unfold arc4_stir_if_needed, mbind, rng_bind, getpid, get_vars, put_vars.
    cbn [vars env rs_initialized rs arc4_count arc4_stir_pid
         arc4random_urandom_filename].
    rewrite Hc. cbn [Z.leb Z.compare orb].
    rewrite <- Hc at 1. rewrite Hstir. unfold mret, rng_ret.
    rewrite buf_loop_no_entropy;
      [reflexivity | exact He | cbn; lia
      | cbn [arc4_count]; unfold INT_MIN; rewrite Hc;
        change (2 ^ 31) with 2147483648; lia]. }
  split; [|split].
  - unfold evutil_secure_rng_init, mbind, rng_bind.
    destruct v as [ini r sp cnt fn]. cbn [rs_initialized rs arc4_count
      arc4_stir_pid arc4random_urandom_filename] in *.
    rewrite (Hstir sp). reflexivity.
  - destruct v as [ini r sp cnt fn]. apply (Hbytes sp).
  - unfold evutil_secure_rng_init, mbind, rng_bind.
    destruct v as [ini r sp cnt fn]. cbn [rs_initialized rs arc4_count
      arc4_stir_pid arc4random_urandom_filename] in *.
    rewrite (Hstir sp). unfold mret, rng_ret. cbn [snd Z.eqb].
    subst cnt.
    unfold evutil_secure_rng_get_bytes, ev_arc4random_buf, arc4random_buf.
    unfold mbind at 1, rng_bind at 1.
    unfold arc4_stir_if_needed, mbind, rng_bind, getpid, get_vars, put_vars.
    cbn [vars env rs_initialized rs arc4_count arc4_stir_pid
         arc4random_urandom_filename Z.leb Z.compare orb].
    rewrite arc4_stir_no_entropy by (cbn; first [assumption | lia]).
    unfold mret, rng_ret.
    rewrite buf_loop_no_entropy;
      [reflexivity | exact He | cbn; lia
      | cbn [arc4_count]; unfold INT_MIN;
        change (2 ^ 31) with 2147483648; lia].
Qed.

Lemma unseeded_generator_output_is_fixed_witness :
  fst (evutil_secure_rng_init (mk_process zeroed (mk_env 7 []))) = -1
  /\ fst (evutil_secure_rng_get_bytes 3 (mk_process zeroed (mk_env 7 [])))
     = rev (fst (keystream 3 arc4_init)).
Proof.
  destruct (unseeded_generator_output_is_fixed 3
              (mk_process zeroed (mk_env 7 [])) eq_refl eq_refl eq_refl)
    as (A & B & _); [lia|].
  split; [exact A | exact B].
Defined.

(** The three bytes every such process receives, as stored in the
    buffer. *)
Example unseeded_bytes :
  fst (evutil_secure_rng_get_bytes 3 (mk_process zeroed (mk_env 9 [])))
  = [7; 5; 2].
Proof. vm_compute. reflexivity. Qed.

End SecureRngFacts.

Module SockaddrTextFacts.
Import CInt CIntFacts Ctype Snprintf Inet InetFacts Servname ServnameFacts Addr
       SockaddrText.

(** The characters of an address in text: hexadecimal digits, colons and
    dots. *)
Definition addr_char (c : Z) : Prop :=
  EVUTIL_ISXDIGIT_ c = true \/ c = colon \/ c = 46.

Lemma digit_like_addr_char l : Forall digit_like l -> Forall addr_char l.
Proof.
  intros Hl. eapply Forall_impl; [exact Hl|].
  intros c (_ & _ & _ & Hx). left. exact Hx.
Qed.

Lemma addr_char_nonzero l : Forall addr_char l -> Forall nonzero l.
Proof.
  intros Hl. eapply Forall_impl; [exact Hl|].
  intros c [H|[->| ->]]; unfold nonzero; try discriminate.
  intros ->. discriminate H.
Qed.

Lemma addr_char_other l c :
  EVUTIL_ISXDIGIT_ c = false -> c <> colon -> c <> 46 ->
  Forall addr_char l -> Forall (fun x => x <> c) l.
Proof.
  intros Hx Hc Hd Hl. eapply Forall_impl; [exact Hl|].
  intros x [H|[E|E]] Ec; subst; congruence.
Qed.

Lemma quad_text_addr_chars a b c d :
  is_byte a -> is_byte b -> is_byte c -> is_byte d ->
  Forall addr_char (quad_text a b c d).
Proof.
  intros Ha Hb Hc Hd. unfold quad_text.
  repeat first [apply Forall_app_2 | apply Forall_cons_2];
    try (apply digit_like_addr_char, dec_chars; assumption);
    right; right; reflexivity.
Qed.

Lemma words_text_addr_chars ws g : forall fuel i,
  Forall is_word ws -> Forall addr_char (words_text fuel ws g i).
Proof.
  induction fuel as [|fuel IH]; intros i Hws; cbn [words_text]; [constructor|].
  destruct (i <? 8)%nat; [|constructor].
  assert (Hcolon : addr_char colon) by (right; left; reflexivity).
  destruct ((nth i ws 0 =? 0) && (g =? Z.of_nat i)).
  - apply Forall_app_2.
    + destruct (i =? 0)%nat; [|apply Forall_nil_2].
      apply Forall_cons_2; [exact Hcolon | apply Forall_nil_2].
    + apply Forall_cons_2; [exact Hcolon | auto].
  - apply Forall_app_2; [|apply Forall_app_2].
    + apply digit_like_addr_char, hex_chars, nth_word, Hws.
    + destruct (negb (i =? 7)%nat); [|apply Forall_nil_2].
      apply Forall_cons_2; [exact Hcolon | apply Forall_nil_2].
    + auto.
Qed.

(** The IPv6 branch of [evutil_inet_ntop] builds the text in its local
    buffer without looking at [dst] or [len], compares its length with
    [len] and copies it. *)
Lemma ntop6_buffer
    b0 b1 b2 b3 b4 b5 b6 b7 b8 b9 b10 b11 b12 b13 b14 b15 stack64 stack8 :
  Forall is_byte [b0; b1; b2; b3; b4; b5; b6; b7; b8; b9; b10; b11; b12; b13;
                  b14; b15] ->
  length stack64 = 64%nat -> length stack8 = 8%nat ->
  exists buf,
    (strlen buf <= 45)%nat
    /\ Forall addr_char (c_str buf)
    /\ evutil_inet_pton AF_INET6 (c_str buf) stack8
       = (1, Some [b0; b1; b2; b3; b4; b5; b6; b7; b8; b9; b10; b11; b12; b13;
                   b14; b15])
    /\ forall strlcpy dst len,
         evutil_inet_ntop strlcpy AF_INET6
           [b0; b1; b2; b3; b4; b5; b6; b7; b8; b9; b10; b11; b12; b13; b14; b15]
           dst len stack64
         = if (len <? strlen buf)%nat then (false, dst)
           else (true, strlcpy dst buf len).
Proof.
  intros Hb H64 H8. unfold evutil_inet_ntop.
  change (AF_INET6 =? AF_INET) with false.
  change (AF_INET6 =? AF_INET6) with true. cbv beta iota zeta.
  rewrite (words_of_bytes16 _ _ _ _ _ _ _ _ _ _ _ _ _ _ _ _ Hb).
  cbn [nth].
  pose proof Hb as Hbytes. repeat (apply Forall_cons_1 in Hbytes as [? Hbytes]).
  clear Hbytes.
  match goal with
  | |- context [if ?c then (if (_ <? _)%nat then _ else _) else _] =>
      destruct c eqn:Hc
  end.
  - repeat (rewrite andb_true_iff in Hc || rewrite orb_true_iff in Hc
            || rewrite negb_true_iff in Hc).
    rewrite !Z.eqb_eq, !Z.eqb_neq in Hc.
    destruct Hc as (((((E0 & E1) & E2) & E3) & E4) & E5).
    assert (b0 = 0 /\ b1 = 0 /\ b2 = 0 /\ b3 = 0 /\ b4 = 0 /\ b5 = 0
            /\ b6 = 0 /\ b7 = 0 /\ b8 = 0 /\ b9 = 0)
      as (-> & -> & -> & -> & -> & -> & -> & -> & -> & ->)
      by (unfold is_byte in *; lia).
    clear E0 E1 E2 E3 E4.
    pose proof (quad_text_length b12 b13 b14 b15 ltac:(assumption)
                  ltac:(assumption) ltac:(assumption) ltac:(assumption)) as Hq.
    pose proof (quad_text_addr_chars b12 b13 b14 b15 ltac:(assumption)
                  ltac:(assumption) ltac:(assumption) ltac:(assumption)) as Hqc.
    destruct (Z.eqb_spec (b10 * 256 + b11) 0) as [Ez|Hnz].
    + assert (b10 = 0 /\ b11 = 0) as (-> & ->) by (unfold is_byte in *; lia).
      pose proof (expand_compat b12 b13 b14 b15 ltac:(assumption)
                    ltac:(assumption) ltac:(assumption) ltac:(assumption)) as He.
      destruct (evutil_snprintf_fits stack64 64
                  (Lit [colon; colon]
                   :: [ConvD b12; Lit dot; ConvD b13; Lit dot; ConvD b14;
                       Lit dot; ConvD b15])) as (tail & E & _);
        rewrite ?He; cbn [length]; try lia.
      rewrite E, He. cbn [fst].
      assert (Hchars : Forall addr_char (colon :: colon :: quad_text b12 b13 b14 b15)).
      { do 2 (apply Forall_cons_2; [right; left; reflexivity|]). exact Hqc. }
      assert (Hstr : c_str ((colon :: colon :: quad_text b12 b13 b14 b15) ++ 0 :: tail)
                     = colon :: colon :: quad_text b12 b13 b14 b15)
        by (apply c_str_app_nul, addr_char_nonzero, Hchars).
      eexists. unfold strlen. rewrite Hstr.
      split; [cbn [length]; lia|]. split; [exact Hchars|].
      split; [now apply pton6_compat_text|]. reflexivity.
    + assert (E65 : b10 * 256 + b11 = 65535) by (destruct E5 as [[[? _] _]|?]; lia).
      assert (b10 = 255 /\ b11 = 255) as (-> & ->) by (unfold is_byte in *; lia).
      change (255 * 256 + 255) with 65535.
      assert (Hffff : is_word 65535) by (unfold is_word; lia).
      pose proof (hex_length 65535 Hffff) as Hhl.
      pose proof (expand_mapped b12 b13 b14 b15 ltac:(assumption)
                    ltac:(assumption) ltac:(assumption) ltac:(assumption)) as He.
      assert (Hlen : (length (colon :: colon :: hex 65535 ++ colon
                               :: quad_text b12 b13 b14 b15) <= 45)%nat).
      { cbn [length]. rewrite length_app. cbn [length]. lia. }
      destruct (evutil_snprintf_fits stack64 64
                  (Lit [colon; colon] :: ConvX 65535 :: Lit [colon]
                   :: [ConvD b12; Lit dot; ConvD b13; Lit dot; ConvD b14;
                       Lit dot; ConvD b15])) as (tail & E & _);
        rewrite ?He; try lia.
      rewrite E, He. cbn [fst].
      assert (Hchars : Forall addr_char
                         (colon :: colon :: hex 65535 ++ colon
                          :: quad_text b12 b13 b14 b15)).
      { do 2 (apply Forall_cons_2; [right; left; reflexivity|]).
        apply Forall_app_2; [now apply digit_like_addr_char, hex_chars|].
        apply Forall_cons_2; [right; left; reflexivity|]. exact Hqc. }
      assert (Hstr : c_str ((colon :: colon :: hex 65535 ++ colon
                             :: quad_text b12 b13 b14 b15) ++ 0 :: tail)
                     = colon :: colon :: hex 65535 ++ colon
                       :: quad_text b12 b13 b14 b15)
        by (apply c_str_app_nul, addr_char_nonzero, Hchars).
      eexists. unfold strlen. rewrite Hstr.
      split; [exact Hlen|]. split; [exact Hchars|].
      split; [now apply pton6_mapped_text|]. reflexivity.
  - clear Hc.
    rewrite <- (bytes_of_words16 _ _ _ _ _ _ _ _ _ _ _ _ _ _ _ _ Hb).
    remember [b0 * 256 + b1; b2 * 256 + b3; b4 * 256 + b5; b6 * 256 + b7;
              b8 * 256 + b9; b10 * 256 + b11; b12 * 256 + b13; b14 * 256 + b15]
      as ws eqn:Ews.
    assert (Hws : Forall is_word ws)
      by (subst ws; unfold is_byte, is_word in *; repeat constructor; lia).
    assert (Hl : length ws = 8%nat) by (subst ws; reflexivity).
    clear Ews.
    destruct (find_gap 8 ws 0 (0, -1)) as [gl gp].
    remember (if gl <=? 1 then -1 else gp) as g eqn:Eg. clear Eg.
    destruct (emit_words_c_str ws g stack64 Hws H64) as (buf & cp & -> & Hstr).
    pose proof (words_text_length ws g 8 0 Hws ltac:(lia)) as Htl.
    exists (<[cp := 0]> buf). unfold strlen. rewrite Hstr.
    split; [lia|]. split; [now apply words_text_addr_chars|].
    split; [now apply pton6_words_text_parsed|]. reflexivity.
Qed.


(** *** The buffer sizes [evutil_inet_ntop] accepts *)

Lemma c_str_insert_nul t x k :
  Forall nonzero t -> (length t <= k)%nat ->
  c_str (<[k := 0]> (t ++ 0 :: x)) = t.
Proof.
  intros Ht Hk. rewrite insert_app_r_alt by lia.
  destruct (k - length t)%nat; cbn [insert list_insert];
    now apply c_str_app_nul.
Qed.

(** [evutil_snprintf] over the C99 [vsnprintf]: the buffer holds the first
    [n - 1] characters of the output, and the result is its whole
    length. *)
Lemma evutil_snprintf_text buf n fmt :
  (0 < n)%nat -> Forall nonzero (expand fmt) ->
  (length (expand fmt) <= 1000)%nat ->
  c_str (fst (evutil_snprintf c99_vsnprintf buf n fmt)) = take (n - 1) (expand fmt)
  /\ snd (evutil_snprintf c99_vsnprintf buf n fmt)
     = Z.of_nat (length (expand fmt)).
Proof.
  intros Hn Hnz Hshort.
  unfold evutil_snprintf, evutil_vsnprintf, c99_vsnprintf.
  destruct (Nat.eqb_spec n 0) as [|_]; [lia|]. cbn [fst snd].
  split.
  - apply c_str_insert_nul; [now apply Forall_take|].
    rewrite length_take. lia.
  - apply wrap_int_id. unfold in_int, INT_MIN, INT_MAX.
    change (2 ^ 31) with 2147483648. lia.
Qed.

Lemma ntop4_any_length strlcpy a b c d dst len stack :
  is_byte a -> is_byte b -> is_byte c -> is_byte d ->
  fst (evutil_inet_ntop strlcpy AF_INET [a; b; c; d] dst len stack)
  = (length (quad_text a b c d) <? len)%nat
  /\ ((0 < len)%nat ->
      c_str (snd (evutil_inet_ntop strlcpy AF_INET [a; b; c; d] dst len stack))
      = take (len - 1) (quad_text a b c d)).
Proof.
  intros Ha Hb Hc Hd. unfold evutil_inet_ntop.
  change (AF_INET =? AF_INET) with true. cbv iota.
  change (ntohl_s_addr [a; b; c; d]) with (pack4 a b c d).
  destruct (unpack4 a b c d Ha Hb Hc Hd) as (-> & -> & -> & ->).
  rewrite !u8_byte by assumption.
  pose proof (quad_text_length a b c d Ha Hb Hc Hd) as Hq.
  pose proof (expand_quad a b c d Ha Hb Hc Hd) as He.
  pose proof (quad_text_nonzero a b c d Ha Hb Hc Hd) as Hnz.
  destruct len as [|len'].
  - unfold evutil_snprintf, evutil_vsnprintf. cbn [Nat.eqb].
    cbn. split; [reflexivity | lia].
  - remember (S len') as len eqn:El.
    destruct (evutil_snprintf_text dst len
                [ConvD a; Lit dot; ConvD b; Lit dot; ConvD c; Lit dot; ConvD d])
      as [Hs Hr]; rewrite ?He; try lia; try assumption.
    rewrite He in Hs, Hr.
    destruct (evutil_snprintf c99_vsnprintf dst len _) as [dst' r].
    cbn [fst snd] in Hs, Hr. subst r.
    rewrite (proj2 (Z.ltb_ge _ 0)) by lia. cbn [orb].
    destruct (Nat.ltb_spec (length (quad_text a b c d)) len) as [Hlt|Hge].
    + rewrite (proj2 (Z.leb_gt _ _)) by lia. cbn [fst snd]. auto.
    + rewrite (proj2 (Z.leb_le _ _)) by lia. cbn [fst snd]. auto.
Qed.

Lemma bsd_strlcpy_c_str dst src siz :
  (0 < siz)%nat ->
  c_str (bsd_strlcpy dst src siz) = take (siz - 1) (c_str src).
Proof.
  intros Hs. unfold bsd_strlcpy.
  destruct (Nat.eqb_spec siz 0); [lia|].
  apply c_str_app_nul, Forall_take, c_str_nonzero.
Qed.

(** Every address has one text, the one [evutil_inet_pton] reads back as
    the address, and [evutil_inet_ntop] compares its length with the size
    of the caller's buffer: an IPv4 text needs a buffer longer than the
    text, so that the terminator fits; an IPv6 text is accepted as soon as
    the buffer is as long as the text.  Whenever the buffer is returned it
    holds the first [len - 1] characters of the text: the whole text when
    there is room for the terminator, and the text without its last
    character for an IPv6 address in a buffer of exactly the length of the
    text. *)
Theorem inet_ntop_buffer_thresholds :
  forall (af : Z) (addr stack64 stack8 : list Z),
    (af = AF_INET /\ length addr = 4%nat)
    \/ (af = AF_INET6 /\ length addr = 16%nat) ->
    Forall is_byte addr ->
    length stack64 = 64%nat -> length stack8 = 8%nat ->
    exists text,
      evutil_inet_pton af text stack8 = (1, Some addr)
      /\ (length text <= 45)%nat
      /\ forall (dst : list Z) (len : nat),
           (0 < len)%nat ->
           fst (evutil_inet_ntop bsd_strlcpy af addr dst len stack64)
           = (if af =? AF_INET then (length text <? len)%nat
              else (length text <=? len)%nat)
           /\ (fst (evutil_inet_ntop bsd_strlcpy af addr dst len stack64) = true ->
               c_str (snd (evutil_inet_ntop bsd_strlcpy af addr dst len stack64))
               = take (len - 1) text).
Proof.
  intros af addr stack64 stack8 [[-> Hl]|[-> Hl]] Hb H64 H8.
  - destruct addr as [|a [|b [|c [|d [|]]]]]; try discriminate Hl.
    pose proof Hb as Hbytes.
    repeat (apply Forall_cons_1 in Hbytes as [? Hbytes]).
    exists (quad_text a b c d).
    split; [now apply pton4_quad_text|].
    split; [pose proof (quad_text_length a b c d); lia|].
    intros dst len Hlen. change (AF_INET =? AF_INET) with true. cbv iota.
    destruct (ntop4_any_length bsd_strlcpy a b c d dst len stack64)
      as [Hf Hs]; try assumption.
    split; [exact Hf | intros _; now apply Hs].
  - do 16 (destruct addr as [|? addr]; [discriminate Hl|]).
    destruct addr; [|discriminate Hl].
    destruct (ntop6_buffer _ _ _ _ _ _ _ _ _ _ _ _ _ _ _ _ stack64 stack8 Hb H64 H8)
      as (buf & Hlen & _ & Hpton & Hrun).
    exists (c_str buf). split; [exact Hpton|]. split; [exact Hlen|].
    intros dst len Hpos. change (AF_INET6 =? AF_INET) with false. cbv iota.
    rewrite Hrun. fold (strlen buf).
    destruct (Nat.ltb_spec len (strlen buf)) as [Hlt|Hge]; cbn [fst snd].
    + split; [|discriminate]. symmetry. apply Nat.leb_gt. exact Hlt.
    + split; [symmetry; apply Nat.leb_le; exact Hge|].
      intros _. now apply bsd_strlcpy_c_str.
Qed.

(** 2001:db8::1 has a text of 11 characters. *)
Lemma inet_ntop_buffer_thresholds_witness :
  exists text,
    evutil_inet_pton AF_INET6 text (replicate 8 0)
    = (1, Some [32; 1; 13; 184; 0; 0; 0; 0; 0; 0; 0; 0; 0; 0; 0; 1])
    /\ (length text <= 45)%nat.
Proof.
  destruct (inet_ntop_buffer_thresholds AF_INET6
              [32; 1; 13; 184; 0; 0; 0; 0; 0; 0; 0; 0; 0; 0; 0; 1]
              (replicate 64 0) (replicate 8 0)) as (text & Hp & Hl & _).
  - right. split; reflexivity.
  - repeat constructor; unfold is_byte; lia.
  - reflexivity.
  - reflexivity.
  - exists text. split; [exact Hp | exact Hl].
Defined.

(** In a buffer of 11 bytes the IPv6 text loses its last character and the
    buffer is returned all the same; the IPv4 text "192.0.2.1" of 9
    characters is refused in a buffer of 9 bytes, which is left holding
    its first 8 characters. *)
Example inet_ntop_short_buffers :
  (let r := evutil_inet_ntop bsd_strlcpy AF_INET6
              [32; 1; 13; 184; 0; 0; 0; 0; 0; 0; 0; 0; 0; 0; 0; 1]
              (replicate 11 0) 11 (replicate 64 0) in
   (fst r, c_str (snd r)))
  = (true, [50; 48; 48; 49; 58; 100; 98; 56; 58; 58])
  /\ (let r := evutil_inet_ntop bsd_strlcpy AF_INET [192; 0; 2; 1]
                 (replicate 9 0) 9 (replicate 64 0) in
      (fst r, c_str (snd r)))
     = (false, [49; 57; 50; 46; 48; 46; 50; 46]).
Proof. vm_compute. split; reflexivity. Qed.


(** *** Formatting and parsing an address with its port *)

Definition dec_char (c : Z) : Prop := 48 <= c <= 57.

Lemma digit_char_dec_char d : 0 <= d < 10 -> dec_char (digit_char d).
Proof.
  intros Hd. unfold digit_char, dec_char.
  rewrite (proj2 (Z.ltb_lt d 10)) by lia. lia.
Qed.

Lemma digits_of_dec_chars : forall f n acc,
  0 <= n -> Forall dec_char acc -> Forall dec_char (digits_of f 10 n acc).
Proof.
  induction f as [|f IH]; intros n acc Hn Hacc; cbn [digits_of]; [exact Hacc|].
  assert (Hd : dec_char (digit_char (n mod 10)))
    by (apply digit_char_dec_char, Z.mod_pos_bound; lia).
  destruct (n / 10 =? 0); [now constructor|].
  apply IH; [apply Z.div_pos; lia | now constructor].
Qed.

Lemma digits_of_length : forall f n acc (k : nat),
  0 <= n < 10 ^ Z.of_nat (S k) ->
  (length (digits_of f 10 n acc) <= S k + length acc)%nat.
Proof.
  induction f as [|f IH]; intros n acc k Hn; cbn [digits_of]; [lia|].
  destruct (Z.eqb_spec (n / 10) 0) as [E|E]; [cbn [length]; lia|].
  destruct k as [|k].
  - change (10 ^ Z.of_nat 1) with 10 in Hn.
    exfalso. apply E. apply Z.div_small. lia.
  - specialize (IH (n / 10) (digit_char (n mod 10) :: acc) k).
    cbn [length] in IH.
    assert (0 <= n / 10 < 10 ^ Z.of_nat (S k)).
    { rewrite (Nat2Z.inj_succ (S k)), Z.pow_succ_r in Hn by lia.
      split; [apply Z.div_pos; lia|].
      apply Z.div_lt_upper_bound; lia. }
    specialize (IH ltac:(assumption)). lia.
Qed.

(** The decimal numeral of a port: at most five digits, which [atoi]
    reads back. *)
Lemma port_digits p :
  0 <= p <= 65535 ->
  Forall dec_char (render_unsigned 10 p)
  /\ (length (render_unsigned 10 p) <= 5)%nat
  /\ atoi (render_unsigned 10 p) = p.
Proof.
  intros Hp. split; [|split].
  - apply digits_of_dec_chars; [lia | constructor].
  - pose proof (digits_of_length (S (Z.to_nat (Z.log2 p))) p [] 4) as H.
    cbn [length] in H. unfold render_unsigned.
    change (10 ^ Z.of_nat 5) with 100000 in H. lia.
  - destruct (render_unsigned_read_back p) as (D & E & Hh & Hacc); [lia|].
    rewrite E. unfold atoi.
    rewrite (strtol10_digits D p Hh Hacc) by lia. cbn [fst].
    unfold LONG_MAX. change (2 ^ 63 - 1) with 9223372036854775807.
    rewrite Z.min_r by lia.
    apply wrap_int_id. unfold in_int, INT_MIN, INT_MAX.
    change (2 ^ 31) with 2147483648. lia.
Qed.

Lemma dec_char_not l c :
  ~ dec_char c -> Forall dec_char l -> Forall (fun x => x <> c) l.
Proof.
  intros Hc Hl. eapply Forall_impl; [exact Hl|].
  intros x Hx ->. contradiction.
Qed.

Lemma dec_char_nonzero l : Forall dec_char l -> Forall nonzero l.
Proof.
  intros Hl. eapply Forall_impl; [exact Hl|].
  intros x Hx. unfold nonzero, dec_char in *. lia.
Qed.

Lemma quad_text_no_colon a b c d :
  is_byte a -> is_byte b -> is_byte c -> is_byte d ->
  Forall (fun x => x <> colon) (quad_text a b c d).
Proof.
  intros Ha Hb Hc Hd. unfold quad_text.
  assert (Hdec : forall x, is_byte x -> Forall (fun c => c <> colon) (dec x)).
  { intros x Hx. eapply Forall_impl; [apply dec_chars, Hx|].
    intros y (_ & Hy & _). exact Hy. }
  repeat first [apply Forall_app_2 | apply Forall_cons_2]; auto; discriminate.
Qed.

Lemma hd_app_not (l r : list Z) c :
  Forall (fun x => x <> c) l -> l <> [] -> hd 0 (l ++ r) <> c.
Proof.
  destruct l as [|x l]; [congruence|]. intros Hl _.
  apply Forall_cons_1 in Hl as [Hx _]. exact Hx.
Qed.

Lemma swap16_value y :
  0 <= y < 65536 ->
  Z.lor (Z.shiftl (Z.land y 255) 8) (Z.shiftr y 8) = y mod 256 * 256 + y / 256.
Proof.
  intros Hy. rewrite land_255, Z.shiftr_div_pow2, Z.shiftl_mul_pow2 by lia.
  change (2 ^ 8) with 256.
  apply (lor_disjoint _ _ 8); [lia| |]; change (2 ^ 8) with 256.
  - apply Z.mod_mul. lia.
  - div_facts.
Qed.

Section HostFacts.
Variable big_endian : bool.
Variable if_nametoindex : list Z -> Z.

Lemma ntohs_range x : 0 <= x < 65536 -> 0 <= ntohs big_endian x < 65536.
Proof.
  intros Hx. unfold ntohs, htons, u16. rewrite (Z.mod_small x) by lia.
  destruct big_endian; [lia|].
  rewrite swap16_value by lia. div_facts.
Qed.

(** [ntohs] undoes [htons] on a 16-bit value. *)
Lemma htons_ntohs x :
  0 <= x < 65536 -> htons big_endian (ntohs big_endian x) = x.
Proof.
  intros Hx. pose proof (ntohs_range x Hx) as Hr. revert Hr.
  unfold ntohs, htons, u16. rewrite (Z.mod_small x) by lia.
  destruct big_endian; intros Hr.
  - apply Z.mod_small. lia.
  - rewrite (Z.mod_small _ 65536) by exact Hr.
    rewrite swap16_value in * by lia.
    rewrite swap16_value by lia. div_facts.
Qed.

Lemma ntohs_zero x :
  0 <= x < 65536 -> (ntohs big_endian x = 0 <-> x = 0).
Proof.
  intros Hx. split.
  - intros E. rewrite <- (htons_ntohs x Hx), E.
    unfold htons, u16. now destruct big_endian.
  - intros ->. unfold ntohs, htons, u16. now destruct big_endian.
Qed.

(** The port part of both texts: [atoi] and the range check. *)
Lemma parsed_port p :
  0 <= p <= 65535 ->
  (let port := atoi (render_unsigned 10 p) in
   if (port <=? 0) || (65535 <? port) then None else Some port)
  = if p =? 0 then None else Some p.
Proof.
  intros Hp. destruct (port_digits p Hp) as (_ & _ & ->). cbv zeta.
  rewrite (proj2 (Z.ltb_ge 65535 p)) by lia. rewrite orb_false_r.
  destruct (Z.eqb_spec p 0) as [->|Hne]; [reflexivity|].
  rewrite (proj2 (Z.leb_gt p 0)) by lia. reflexivity.
Qed.

(** "a.b.c.d:port" *)
Lemma parse_v4_text a b c d p outlen stack :
  is_byte a -> is_byte b -> is_byte c -> is_byte d ->
  0 <= p <= 65535 -> sizeof_sockaddr_in <= outlen ->
  evutil_parse_sockaddr_port big_endian if_nametoindex
    (quad_text a b c d ++ colon :: render_unsigned 10 p) outlen stack
  = if p =? 0 then (-1, None)
    else (0, Some (mk_sockaddr AF_INET (htons big_endian p) [a; b; c; d] 0,
                   sizeof_sockaddr_in)).
Proof.
  intros Ha Hb Hc Hd Hp Hout.
  pose proof (quad_text_no_colon a b c d Ha Hb Hc Hd) as Hnc.
  pose proof (quad_text_addr_chars a b c d Ha Hb Hc Hd) as Hac.
  pose proof (quad_text_length a b c d Ha Hb Hc Hd) as Hlen.
  destruct (port_digits p Hp) as (HD & HDl & Hatoi).
  assert (Hne : quad_text a b c d <> []).
  { unfold quad_text. pose proof (dec_length a Ha).
    destruct (dec a); [cbn in *; lia | discriminate]. }
  unfold evutil_parse_sockaddr_port.
  assert (H91 : hd 0 (quad_text a b c d ++ colon :: render_unsigned 10 p) <> 91).
  { apply hd_app_not; [|exact Hne].
    apply (addr_char_other _ 91); [reflexivity|discriminate|discriminate|exact Hac]. }
  rewrite (proj2 (Z.eqb_neq _ _) H91).
  rewrite (strchr_app _ colon _ Hnc).
  assert (Edrop : drop (S (length (quad_text a b c d)))
                    (quad_text a b c d ++ colon :: render_unsigned 10 p)
                  = render_unsigned 10 p).
  { rewrite drop_app_ge by lia.
    replace (S (length (quad_text a b c d)) - length (quad_text a b c d))%nat
      with 1%nat by lia. reflexivity. }
  assert (Etake : take (length (quad_text a b c d))
                    (quad_text a b c d ++ colon :: render_unsigned 10 p)
                  = quad_text a b c d) by apply take_app_length.
  rewrite Edrop, Etake.
  rewrite (strchr_none (render_unsigned 10 p) colon)
    by (apply dec_char_not; [unfold dec_char, colon; lia | exact HD]).
  rewrite (proj2 (Nat.ltb_ge 127 _)) by lia.
  rewrite Hatoi.
  rewrite (proj2 (Z.ltb_ge 65535 p)) by lia. rewrite orb_false_r.
  destruct (Z.eqb_spec p 0) as [->|Hnz]; [reflexivity|].
  rewrite (proj2 (Z.leb_gt p 0)) by lia.
  rewrite pton4_quad_text by assumption.
  rewrite (proj2 (Z.ltb_ge outlen _)) by lia. reflexivity.
Qed.

(** "[text]:port" *)
Lemma parse_v6_text text addr p outlen stack :
  Forall addr_char text -> (length text <= 45)%nat ->
  evutil_inet_pton AF_INET6 text stack = (1, Some addr) ->
  0 <= p <= 65535 -> sizeof_sockaddr_in6 <= outlen ->
  evutil_parse_sockaddr_port big_endian if_nametoindex
    (91 :: text ++ 93 :: colon :: render_unsigned 10 p) outlen stack
  = if p =? 0 then (-1, None)
    else (0, Some (mk_sockaddr AF_INET6 (htons big_endian p) addr 0,
                   sizeof_sockaddr_in6)).
Proof.
  intros Hac Hlen Hpton Hp Hout.
  destruct (port_digits p Hp) as (HD & HDl & Hatoi).
  assert (H93 : Forall (fun x => x <> 93) (91 :: text)).
  { apply Forall_cons_2; [discriminate|].
    apply (addr_char_other _ 93); [reflexivity|discriminate|discriminate|exact Hac]. }
  assert (H37 : Forall (fun x => x <> 37) text)
    by (apply (addr_char_other _ 37);
        [reflexivity|discriminate|discriminate|exact Hac]).
  unfold evutil_parse_sockaddr_port. cbn [hd]. change (91 =? 91) with true.
  cbv iota.
  change (91 :: text ++ 93 :: colon :: render_unsigned 10 p)
    with ((91 :: text) ++ 93 :: colon :: render_unsigned 10 p).
  rewrite (strchr_app _ 93 _ H93). cbn [length].
  replace (S (length text) - 1)%nat with (length text) by lia.
  rewrite (proj2 (Nat.ltb_ge 127 _)) by lia.
  assert (Etake : take (length text)
                    (drop 1 ((91 :: text) ++ 93 :: colon :: render_unsigned 10 p))
                  = text) by (cbn [app drop]; apply take_app_length).
  assert (Enth : nth (S (S (length text)))
                   ((91 :: text) ++ 93 :: colon :: render_unsigned 10 p) 0
                 = colon).
  { cbn [app nth]. rewrite app_nth2 by lia.
    replace (S (length text) - length text)%nat with 1%nat by lia. reflexivity. }
  assert (Edrop : drop (S (length text) + 2)
                    ((91 :: text) ++ 93 :: colon :: render_unsigned 10 p)
                  = render_unsigned 10 p).
  { replace (S (length text) + 2)%nat with (S (S (S (length text)))) by lia.
    cbn [app drop]. rewrite drop_app_ge by lia.
    replace (S (S (length text)) - length text)%nat with 2%nat by lia.
    reflexivity. }
  rewrite Etake, Enth, Edrop. rewrite Z.eqb_refl.
  rewrite Hatoi.
  rewrite (proj2 (Z.ltb_ge 65535 p)) by lia. rewrite orb_false_r.
  destruct (Z.eqb_spec p 0) as [->|Hnz]; [reflexivity|].
  rewrite (proj2 (Z.leb_gt p 0)) by lia.
  unfold evutil_inet_pton_scope. change (AF_INET6 =? AF_INET6) with true.
  cbn [negb]. rewrite (strchr_none text 37 H37), Hpton.
  rewrite (proj2 (Z.ltb_ge outlen _)) by lia. reflexivity.
Qed.

Section FormatFacts.
Variable strlcpy : list Z -> list Z -> nat -> list Z.
Hypothesis strlcpy_copies : forall dst src siz,
  (strlen src < siz <= length dst)%nat ->
  c_str (strlcpy dst src siz) = c_str src.

(** The text [evutil_snprintf] leaves in a buffer that has room for it. *)
Lemma snprintf_whole out outlen fmt :
  Forall nonzero (expand fmt) -> (length (expand fmt) < outlen)%nat ->
  (length (expand fmt) <= 1000)%nat ->
  c_str (fst (evutil_snprintf c99_vsnprintf out outlen fmt)) = expand fmt.
Proof.
  intros Hnz Hfit Hshort.
  destruct (evutil_snprintf_text out outlen fmt) as [-> _]; try assumption; [lia|].
  apply take_ge. lia.
Qed.

(** An address formatted by evutil_format_sockaddr_port_ and parsed by
    evutil_parse_sockaddr_port: for an IPv4 or IPv6 address with a port
    other than 0, the parser returns 0 and stores the family, the port and
    the bytes of the address, with a scope of 0 whatever sin6_scope_id
    was, and sets the length to the size of the structure.  With port 0
    the text the formatter wrote is refused: the parser returns -1. *)
Theorem format_parse_sockaddr_round_trip :
  forall (sa : sockaddr) (out : list Z) (outlen : nat)
         (b stack64 stack8 : list Z) (size : Z),
    (sa_family sa = AF_INET /\ length (sa_addr sa) = 4%nat)
    \/ (sa_family sa = AF_INET6 /\ length (sa_addr sa) = 16%nat) ->
    Forall is_byte (sa_addr sa) ->
    0 <= sa_port sa < 65536 ->
    (64 <= outlen)%nat ->
    length b = 128%nat -> length stack64 = 64%nat -> length stack8 = 8%nat ->
    sizeof_sockaddr_in6 <= size ->
    evutil_parse_sockaddr_port big_endian if_nametoindex
      (c_str (evutil_format_sockaddr_port_ big_endian strlcpy sa out outlen
                b stack64))
      size stack8
    = if sa_port sa =? 0 then (-1, None)
      else (0, Some (mk_sockaddr (sa_family sa) (sa_port sa) (sa_addr sa) 0,
                     if sa_family sa =? AF_INET then sizeof_sockaddr_in
                     else sizeof_sockaddr_in6)).
Proof.
  intros [fam port addr scope] out outlen b stack64 stack8 size.
  cbn [sa_family sa_port sa_addr sa_scope_id].
  intros Hfam Hb Hport Hout H128 H64 H8 Hsize.
  pose proof (ntohs_range port Hport) as Hp.
  pose proof (htons_ntohs port Hport) as Hback.
  pose proof (ntohs_zero port Hport) as Hzero.
  destruct (port_digits (ntohs big_endian port) ltac:(lia)) as (HD & HDl & _).
  assert (Hsame : (ntohs big_endian port =? 0) = (port =? 0)).
  { destruct (Z.eqb_spec port 0) as [E|E].
    - apply Z.eqb_eq, Hzero, E.
    - apply Z.eqb_neq. intros E'. apply E, Hzero, E'. }
  assert (Hrender : render (ConvD (ntohs big_endian port))
                    = render_unsigned 10 (ntohs big_endian port)).
  { cbn [render]. now rewrite (proj2 (Z.ltb_ge _ 0)) by lia. }
  unfold evutil_format_sockaddr_port_. cbn [sa_family sa_port sa_addr].
  destruct Hfam as [[-> Hl]|[-> Hl]].
  - change (AF_INET =? AF_INET) with true. cbv iota.
    destruct addr as [|a0 [|a1 [|a2 [|a3 [|]]]]]; try discriminate Hl.
    pose proof Hb as Hbytes.
    repeat (apply Forall_cons_1 in Hbytes as [? Hbytes]).
    destruct (ntop4_quad_text strlcpy a0 a1 a2 a3 b 128 stack64)
      as (b' & -> & Hs); try assumption; [lia|].
    rewrite Hs.
    pose proof (quad_text_length a0 a1 a2 a3) as Hq.
    pose proof (quad_text_nonzero a0 a1 a2 a3) as Hqnz.
    assert (He : expand [Lit (quad_text a0 a1 a2 a3); Lit [colon];
                         ConvD (ntohs big_endian port)]
                 = quad_text a0 a1 a2 a3
                   ++ colon :: render_unsigned 10 (ntohs big_endian port)).
    { unfold expand. cbn [map concat]. rewrite Hrender. cbn [render].
      rewrite app_nil_r. reflexivity. }
    rewrite snprintf_whole; rewrite He.
    + rewrite parse_v4_text by (assumption || lia || (unfold sizeof_sockaddr_in,
        sizeof_sockaddr_in6 in *; lia)).
      rewrite Hsame, Hback. reflexivity.
    + apply Forall_app_2; [now apply Hqnz|].
      apply Forall_cons_2; [discriminate | now apply dec_char_nonzero].
    + rewrite length_app. cbn [length].
      specialize (Hq ltac:(assumption) ltac:(assumption) ltac:(assumption)
                     ltac:(assumption)). lia.
    + rewrite length_app. cbn [length].
      specialize (Hq ltac:(assumption) ltac:(assumption) ltac:(assumption)
                     ltac:(assumption)). lia.
  - change (AF_INET6 =? AF_INET) with false.
    change (AF_INET6 =? AF_INET6) with true. cbv iota.
    do 16 (destruct addr as [|? addr]; [discriminate Hl|]).
    destruct addr; [|discriminate Hl].
    destruct (ntop6_buffer _ _ _ _ _ _ _ _ _ _ _ _ _ _ _ _ stack64 stack8 Hb H64 H8)
      as (buf & Hlen & Hchars & Hpton & Hrun).
    rewrite Hrun.
    rewrite (proj2 (Nat.ltb_ge 128 (strlen buf))) by lia.
    rewrite strlcpy_copies by lia.
    assert (He : expand [Lit [91]; Lit (c_str buf); Lit [93; colon];
                         ConvD (ntohs big_endian port)]
                 = 91 :: c_str buf
                   ++ 93 :: colon :: render_unsigned 10 (ntohs big_endian port)).
    { unfold expand. cbn [map concat]. rewrite Hrender. cbn [render].
      rewrite app_nil_r. reflexivity. }
    unfold strlen in Hlen.
    rewrite snprintf_whole; rewrite He.
    + rewrite (parse_v6_text (c_str buf) _ _ size stack8 Hchars Hlen Hpton)
        by lia.
      rewrite Hsame, Hback. reflexivity.
    + apply Forall_cons_2; [discriminate|].
      apply Forall_app_2; [now apply addr_char_nonzero|].
      do 2 (apply Forall_cons_2; [discriminate|]). now apply dec_char_nonzero.
    + cbn [length]. rewrite length_app. cbn [length]. lia.
    + cbn [length]. rewrite length_app. cbn [length]. lia.
Qed.

End FormatFacts.

End HostFacts.

(** 192.0.2.1 port 80 on a little-endian host, where the stored port reads
    as 0x5000. *)
Lemma format_parse_sockaddr_round_trip_witness :
  evutil_parse_sockaddr_port false (fun _ => 0)
    (c_str (evutil_format_sockaddr_port_ false bsd_strlcpy
              (mk_sockaddr AF_INET 20480 [192; 0; 2; 1] 0)
              (replicate 64 0) 64 (replicate 128 0) (replicate 64 0)))
    28 (replicate 8 0)
  = (0, Some (mk_sockaddr AF_INET 20480 [192; 0; 2; 1] 0, sizeof_sockaddr_in)).
Proof.
  refine (format_parse_sockaddr_round_trip false (fun _ => 0) bsd_strlcpy
            bsd_strlcpy_copies (mk_sockaddr AF_INET 20480 [192; 0; 2; 1] 0)
            (replicate 64 0) 64 (replicate 128 0) (replicate 64 0)
            (replicate 8 0) 28 _ _ _ _ _ _ _ _).
  - left. split; reflexivity.
  - repeat constructor; unfold is_byte; lia.
  - cbn; lia.
  - lia.
  - reflexivity.
  - reflexivity.
  - reflexivity.
  - unfold sizeof_sockaddr_in6. lia.
Defined.

(** The texts: "192.0.2.1:80" and "[2001:db8::1]:443"; and the second one
    read back, with the scope 7 of the original gone. *)
Example format_sockaddr_texts :
  c_str (evutil_format_sockaddr_port_ false bsd_strlcpy
           (mk_sockaddr AF_INET 20480 [192; 0; 2; 1] 0)
           (replicate 64 0) 64 (replicate 128 0) (replicate 64 0))
  = chars "192.0.2.1:80"
  /\ c_str (evutil_format_sockaddr_port_ false bsd_strlcpy
              (mk_sockaddr AF_INET6 47873
                 [32; 1; 13; 184; 0; 0; 0; 0; 0; 0; 0; 0; 0; 0; 0; 1] 7)
              (replicate 64 0) 64 (replicate 128 0) (replicate 64 0))
     = chars "[2001:db8::1]:443"
  /\ evutil_parse_sockaddr_port false (fun _ => 0)
       (chars "[2001:db8::1]:443") 28 (replicate 8 0)
     = (0, Some (mk_sockaddr AF_INET6 47873
                   [32; 1; 13; 184; 0; 0; 0; 0; 0; 0; 0; 0; 0; 0; 0; 1] 0,
                 sizeof_sockaddr_in6)).
Proof. vm_compute. repeat split. Qed.

(** A zone after '%' is looked up by name first and read as a number
    otherwise; an address without brackets cannot carry a port. *)
Example parse_sockaddr_scope_and_port :
  evutil_parse_sockaddr_port false (fun _ => 0)
    (chars "[fe80::1%3]:80") 28 (replicate 8 0)
  = (0, Some (mk_sockaddr AF_INET6 20480
                [254; 128; 0; 0; 0; 0; 0; 0; 0; 0; 0; 0; 0; 0; 0; 1] 3,
              sizeof_sockaddr_in6))
  /\ evutil_parse_sockaddr_port false (fun _ => 0)
       (chars "192.0.2.1:0") 28 (replicate 8 0)
     = (-1, None)
  /\ evutil_parse_sockaddr_port false (fun _ => 0)
       (chars "192.0.2.1") 28 (replicate 8 0)
     = (0, Some (mk_sockaddr AF_INET 0 [192; 0; 2; 1] 0, sizeof_sockaddr_in)).
Proof. vm_compute. repeat split. Qed.

End SockaddrTextFacts.
